(* ===== verification/_CoqProject ===== *)
-Q . S2P
Prelude.v
Memory.v
OS.v
AllocSpec.v
Malloc2.v
Buddy.v
BuddyView.v
BuddyLists.v
BuddyTiling.v
BuddyInv.v
BuddyOps.v
BuddyMmap.v
BuddyGrow.v
BuddyStats.v
Heap.v
HeapOps.v
HeapRealloc.v
HeapContract.v
Malloc3.v
Malloc3Props.v
Malloc4.v
Malloc1.v
KernelBan.v
Monitor.v
ReqQueue.v
ServerLog.v
LogBuffer.v
LogWakeup.v
LogProps.v
Rio.v
ShellText.v
Segel.v
Request.v
RequestProps.v
RequestOnce.v
RequestSplit.v
Backend.v
LogService.v
Client.v
ClientProps.v
Server.v
ServerInv.v
ServerPaused.v
ServerProps.v
ServerSpec.v
ServerRefines.v
ServerToy.v
Regex.v
ShellState.v
ShellParse.v
ShellFiles.v
Shell.v
ShellInv.v
ShellProps.v
