(* ===== verification/Prelude.v ===== *)
(** * Operating-systems projects: a verification library

    The repository holds four programs: three memory allocators and their
    first sketch ([src/memory-allocator]), a shell
    ([src/hw1-linux-basics]), system calls added to a kernel
    ([src/hw2-process-management]) and a web server
    ([src/multithreaded-web-server]).  Each is translated function by function
    into executable definitions that keep the names of the source, and the
    theorems say what the programs promise.  The operating system and
    everything else the sources only call is a type class of operations with
    the documented laws as its members; every such class has a concrete
    instance, on which the theorems' witnesses are computed.

    * Foundations

    - [Prelude] (this file): the monad [M] of state and failure ([UB] for
      undefined behaviour, [NoFuel]), the weakest precondition [wp], which
      demands a result, the loop combinator [iter] with its rule [wp_iter]
      (invariant and decreasing variant), [size_t] and [int] arithmetic.
    - [Memory], [OS]: headers and payload bytes by address; [sbrk], [mmap],
      [munmap] and the page size.
    - [Monitor]: threads, one mutex and its condition variables as a step
      relation with spurious wake-ups and barging, and a scheduler to run it.
    - [Regex]: the regular expressions of the shell, decided by derivatives.

    * Allocators

    [AllocSpec] is the contract: a class of allocators whose state represents
    the map of live blocks, with the effect of each call on that map and on
    the payload bytes.
    - [malloc_1.cpp]: [Malloc1].  [malloc_2.cpp]: [Malloc2], the list of blocks
      in address order, the first-fit search, the contract, the statistics.
    - [malloc_3.cpp]: [Buddy] has the metadata, free lists, splitting, merging
      and statistics that [malloc_4.cpp] repeats with one more member in the
      metadata (the parameter [X]); [Malloc3] and [Malloc4] have what each
      file does its own way.  The proofs go through a view of the memory as
      two maps ([BuddyView]), the lists ([BuddyLists], [BuddyStats]), the
      tiling of the heap by aligned blocks ([BuddyTiling]), the invariant
      [rep] ([BuddyInv]), the operations ([BuddyOps], [BuddyGrow],
      [BuddyMmap]) and the live blocks ([Heap], [HeapOps], [HeapRealloc],
      [HeapContract]).
    - Theorems: the three allocators meet the contract; freeing merges
      completely and gives the initial heap back; allocation takes the
      smallest order that has a block on its list; reallocation grows in place
      when a chain of free buddies allows it; the statistics count what they
      name.  [splitting_loses_halves] shows the defect of [split_block]: the
      invariant therefore does not claim that the list heads reach every free
      block.
    - Fuel: list walks get the number of headers and 2, splitting and merging
      the number of orders; the theorems are total, so it is enough.

    * Kernel

    [KernelBan]: the five calls of [hw2.c] and the guards of [sys.c],
    [pipe.c], [signal.c] over a table of tasks.  Theorems: what each call
    returns and changes on every path, round trips of setting and reading a
    ban, the ban enforced, the walk over the ancestors (bounded by the height
    of the tree) flips each of them once, the table stays well formed.

    * Web server

    - [ReqQueue]: [queue_init], [queue_push], [queue_pop] of [server.c] as
      instruction lists of [Monitor].  Theorems, for every interleaving of any
      number of threads: the results are those of a FIFO queue, no access is
      out of bounds, no wake-up is lost, no deadlock.
    - [ServerLog], [LogBuffer], [LogWakeup], [LogProps]: [log.c], the
      readers-writer lock and the buffer.  Theorems: exclusion, writer
      priority, linearizable appends and reads, no undefined access, no lost
      wake-up, no deadlock.
    - [Rio]: the Rio functions of [segel.c] over a class of descriptors whose
      input is a stream.  Theorems: lines and blocks are those of the stream,
      whatever pieces [read] returns; [rio_writen] sends everything once.
      Fuel: interrupted calls and bytes still to transfer.
    - [Segel]: the other wrappers of [segel.c], each the call and the test of
      its result, over classes of system calls, and [Open_listenfd] of
      [request.c].  [performs] says of code made of wrappers that it makes a
      list of calls in order, or stops with a message at the first that fails.
    - [Request], [RequestProps]: [request.c] and the round of a worker.
      [handle_request_refines] is the refinement: counters, log and response
      are those of the specification [decide_request], [counted], [response].
    - [RequestOnce]: a request calls the log once at most.  [RequestSplit]
      cuts [handle_request] at that call, into the code before it, which says
      what call it stops at, and the code after it; the three make up
      [handle_request].
    - [Backend]: a connection is private to its worker, the files and the
      processes are shared; [EnvironmentModel] has the laws of the shared part.
    - [LogService]: an undisturbed call of [log_write] or [log_read] comes to
      its end and appends or copies.
    - [Client], [ClientProps]: [client.c] and [output.c].  [exchange]: the
      client's request, answered by [handle_request] and read by the client,
      prints the header and the body of the answer; the answer of a CGI
      program announces no length, and its body is not printed.
    - [Server]: [main], its accept loop, the loop of a worker, and the step
      relation of the whole server.  Queue and log run statement by statement,
      interleaved: a worker runs a request up to its call of the log in one
      step ([begin]), goes through the statements of the call as a thread of
      the log, in which reading the clock is a step too ([stamp]), and runs
      the rest in one step ([resume]).  What is left atomic, the code outside
      queue and log, works on the worker's own connection and counters, and
      on the files.  [ServerInv] accounts for every connection: accepted,
      queued, handled, closed; [ServerPaused] for every worker inside the log.
    - [ServerProps]: [main] on every path of its arguments and of its calls,
      connections are taken in the order they came and closed once, and the
      server comes to rest, in queue or log, only with nothing left to serve.
      [ServerSpec] is the server that handles one request at a time,
      [ServerRefines] the proof that every interleaving answers like it: each
      request takes effect in one step between its acceptance and its end.
      [ServerToy]: a kernel, an environment and runs to compute with.
    - Bounds: the log stays below 2^30 bytes, where [capacity] would overflow,
      with 400 bytes for each request served and each worker; the fuel of a
      connection exceeds its bytes and its interrupted calls.

    * Shell

    - [ShellText]: the helpers on [std::string].  [ShellState]: the
      [SmashShell] object, [JobsList], the aliases, the class [Kernel], and
      the process monad, whose outcomes are a value, [exit], an uncaught
      exception, a replaced program image and undefined behaviour.
      [ShellParse]: [createCommand].  [ShellFiles]: the commands that read
      files.  [Shell]: every [execute] method, [executeCommand], forked
      children (a [child] is the data the parent forks; [child_main] is what
      it runs), [main], and Ctrl-C, whose handler runs any number of times
      while the shell reads a line or waits for a process.
    - [ShellInv]: the invariant of jobs and aliases, kept by every line of
      every session.  [ShellProps]: aliases defined, used and removed; [fg],
      [jobs], [quit kill], background jobs, [cd -], [unsetenv], [du] against
      the tree it walks (fuel [PATH_MAX]: longer paths fail), children.

    * Bounds

    [size_t] values are wrapped at 64 bits, [int] overflow is undefined
    behaviour, [long long] sums are checked; sizes of [std::string] are taken
    to fit.

    * Not modelled

    Sleeping (the debugging delay of the log, the delay of [output.c] is only
    computed), [log_destroy] and the code behind the loop of [main], which is
    never reached, [Pthread_exit], the release of the workers' arguments, the C
    arrays of [_buildArgv], the installation of the signal handler, the
    buffers of [getdents64], the tables and declarations of the kernel patch
    and its test program, RCU.  They have no effect on the modelled state, are
    declarations, or are unreachable.  Left out with an effect: a Ctrl-C that
    arrives between other instructions of the shell than its blocking calls,
    and the limit on open files, which a deep [du] can reach.

    * This file

    The error and state monad, its weakest preconditions, the loop combinator
    and the arithmetic the components share. *)

From stdpp Require Export functions base gmap sets list list_numbers strings fin_maps.
From stdpp Require Import options.
From Stdlib Require Export ZArith Lia.

#[global] Open Scope Z_scope.

(** ** Results *)

(** The two ways a run of the modelled C code can fail to produce a result:
    it performs an operation the language leaves undefined (a load through a
    pointer at which no object lives, an array index out of range), or the
    fuel of a loop combinator runs out.  Every total-correctness statement
    of the library excludes both. *)
Inductive failure := UB | NoFuel.

Inductive res (A : Type) :=
| Ok (a : A)
| Err (e : failure).
Arguments Ok {A} a.
Arguments Err {A} e.

#[export] Instance failure_eq_dec : EqDecision failure.
Proof. solve_decision. Defined.

(** ** The state and failure monad *)

Definition M (S A : Type) := S -> res (A * S).

Definition ret {S A} (a : A) : M S A := fun s => Ok (a, s).

Definition fail_with {S A} (e : failure) : M S A := fun _ => Err e.

Definition bind {S A B} (m : M S A) (f : A -> M S B) : M S B :=
  fun s => match m s with
           | Ok (a, s') => f a s'
           | Err e => Err e
           end.

Definition gets {S A} (f : S -> A) : M S A := fun s => Ok (f s, s).

Definition modify {S} (f : S -> S) : M S unit := fun s => Ok (tt, f s).

(** A partial update: [None] is an undefined operation. *)
Definition try_modify {S} (f : S -> option S) : M S unit :=
  fun s => match f s with Some s' => Ok (tt, s') | None => Err UB end.

Definition try_gets {S A} (f : S -> option A) : M S A :=
  fun s => match f s with Some a => Ok (a, s) | None => Err UB end.

Declare Scope c_scope.
Delimit Scope c_scope with c.

Notation "'let*' x ':=' m 'in' k" := (bind m (fun x => k))
  (at level 10, x name, m at level 100, k at level 200) : c_scope.
Notation "m ';;*' k" := (bind m (fun _ => k))
  (at level 199, right associativity) : c_scope.

#[global] Open Scope c_scope.

(** A loop: the body either asks for another iteration with a new loop
    state ([inl]) or leaves the loop with a value ([inr]). *)
Fixpoint iter {S I R} (fuel : nat) (body : I -> M S (I + R)) (i : I) : M S R :=
  match fuel with
  | O => fail_with NoFuel
  | Datatypes.S fuel' =>
      let* r := body i in
      match r with
      | inl i' => iter fuel' body i'
      | inr v => ret v
      end
  end.

Fixpoint for_each {S A} (f : A -> M S unit) (l : list A) : M S unit :=
  match l with
  | [] => ret tt
  | x :: l' => f x ;;* for_each f l'
  end.

(** ** Weakest preconditions *)

(** [wp m Q s]: started in [s], the code [m] produces a result, and the
    result and the final state satisfy [Q].  Undefined behaviour and
    exhausted fuel falsify it. *)
Definition wp {S A} (m : M S A) (Q : A -> S -> Prop) (s : S) : Prop :=
  match m s with
  | Ok (a, s') => Q a s'
  | Err _ => False
  end.

Section wp_rules.
Context {S : Type}.

Lemma wp_ret {A} (a : A) (Q : A -> S -> Prop) s : Q a s -> wp (ret a) Q s.
Proof. done. Qed.

Lemma wp_bind {A B} (m : M S A) (f : A -> M S B) Q s :
  wp m (fun a s' => wp (f a) Q s') s -> wp (bind m f) Q s.
Proof. unfold wp, bind. by destruct (m s) as [[a s']|]. Qed.

Lemma wp_mono {A} (m : M S A) (P Q : A -> S -> Prop) s :
  wp m P s -> (forall a s', P a s' -> Q a s') -> wp m Q s.
Proof. unfold wp. destruct (m s) as [[a s']|]; eauto. Qed.

Lemma wp_gets {A} (f : S -> A) Q s : Q (f s) s -> wp (gets f) Q s.
Proof. done. Qed.

Lemma wp_modify (f : S -> S) Q s : Q tt (f s) -> wp (modify f) Q s.
Proof. done. Qed.

Lemma wp_try_modify (f : S -> option S) Q s s' :
  f s = Some s' -> Q tt s' -> wp (try_modify f) Q s.
Proof. unfold wp, try_modify. by intros ->. Qed.

Lemma wp_try_gets {A} (f : S -> option A) Q s a :
  f s = Some a -> Q a s -> wp (try_gets f) Q s.
Proof. unfold wp, try_gets. by intros ->. Qed.

Lemma wp_run {A} (m : M S A) Q s :
  wp m Q s -> exists a s', m s = Ok (a, s') /\ Q a s'.
Proof. unfold wp. destruct (m s) as [[a s']|]; [eauto|done]. Qed.

Lemma run_wp {A} (m : M S A) (Q : A -> S -> Prop) s a s' :
  m s = Ok (a, s') -> wp m Q s -> Q a s'.
Proof. unfold wp. by intros ->. Qed.

(** The loop rule: an invariant on the loop state and the store, indexed by
    a variant that every further iteration decreases and the fuel exceeds. *)
Lemma wp_iter {I R} (Inv : nat -> I -> S -> Prop)
    (body : I -> M S (I + R)) (Q : R -> S -> Prop) :
  (forall n i s, Inv n i s ->
     wp (body i) (fun r s' => match r with
                              | inl i' => exists n', (n' < n)%nat /\ Inv n' i' s'
                              | inr v => Q v s'
                              end) s) ->
  forall fuel n i s, Inv n i s -> (n < fuel)%nat -> wp (iter fuel body i) Q s.
Proof.
  intros Hbody fuel. induction fuel as [|fuel IH]; intros n i s Hi Hmu; [lia|].
  cbn. apply wp_bind. eapply wp_mono; [by eapply Hbody|].
  intros [i'|v] s'; cbn; [|done].
  intros (n' & Hlt & Hi'). eapply IH; [done|lia].
Qed.

(** Iteration over a list of indices, the shape of a counted [for] loop. *)
Lemma wp_for_each {A} (Inv : list A -> S -> Prop) (f : A -> M S unit) l :
  (forall x l' s, Inv (x :: l') s -> wp (f x) (fun _ s' => Inv l' s') s) ->
  forall s, Inv l s -> wp (for_each f l) (fun _ s' => Inv [] s') s.
Proof.
  intros Hf. induction l as [|x l IH]; intros s Hs; cbn; [done|].
  apply wp_bind. eapply wp_mono; [by apply Hf|]. cbn. intros _ s'. apply IH.
Qed.

End wp_rules.

(** One step of symbolic execution. *)
Ltac wp_step :=
  lazymatch goal with
  | |- wp (ret _) _ _ => apply wp_ret
  | |- wp (bind _ _) _ _ => apply wp_bind
  | |- wp (gets _) _ _ => apply wp_gets
  | |- wp (modify _) _ _ => apply wp_modify
  | |- wp (try_gets _) _ _ => eapply wp_try_gets
  | |- wp (try_modify _) _ _ => eapply wp_try_modify
  | |- wp (if ?b then _ else _) _ _ => destruct b eqn:?
  end.

Ltac wp_steps := repeat (wp_step; cbn beta iota).

(** ** Machine integers *)

(** [size_t] arithmetic on the 64-bit targets the sources are built for. *)
Definition wrap64 (x : Z) : Z := x mod 2 ^ 64.

Lemma wrap64_small x : 0 <= x < 2 ^ 64 -> wrap64 x = x.
Proof. intros. by apply Z.mod_small. Qed.

Lemma wrap64_range x : 0 <= wrap64 x < 2 ^ 64.
Proof. apply Z.mod_pos_bound. lia. Qed.

(** Two's-complement reading of the low [w] bits. *)
Definition sign_wrap (w x : Z) : Z :=
  let y := x mod 2 ^ w in if y <? 2 ^ (w - 1) then y else y - 2 ^ w.

Definition int32 (x : Z) : Z := sign_wrap 32 x.

Lemma int32_small x : - 2 ^ 31 <= x < 2 ^ 31 -> int32 x = x.
Proof.
  intros Hx. unfold int32, sign_wrap. cbn zeta.
  destruct (decide (0 <= x)) as [H0|H0].
  - rewrite Z.mod_small by lia. destruct (Z.ltb_spec x (2 ^ (32 - 1))); lia.
  - assert (x mod 2 ^ 32 = x + 2 ^ 32) as ->.
    { symmetry. apply Z.mod_unique with (q := -1); lia. }
    destruct (Z.ltb_spec (x + 2 ^ 32) (2 ^ (32 - 1))); lia.
Qed.

(** The value of a signed [int] expression: overflow is undefined. *)
Definition int_ok (x : Z) : option Z := if (- 2 ^ 31 <=? x) && (x <? 2 ^ 31) then Some x else None.

Lemma int_ok_in x : - 2 ^ 31 <= x < 2 ^ 31 -> int_ok x = Some x.
Proof. intros Hx. unfold int_ok. by rewrite (proj2 (Z.leb_le _ _)), (proj2 (Z.ltb_lt _ _)) by lia. Qed.

Lemma int_ok_Some x y : int_ok x = Some y -> y = x /\ - 2 ^ 31 <= x < 2 ^ 31.
Proof. unfold int_ok. destruct (_ && _) eqn:Hr; [|done]. intros [= ->]. lia. Qed.

(** ** Sums modulo 2^64 *)

Fixpoint sumZ (l : list Z) : Z := match l with [] => 0 | x :: l' => x + sumZ l' end.

Lemma sumZ_app l1 l2 : sumZ (l1 ++ l2) = sumZ l1 + sumZ l2.
Proof. induction l1; cbn; lia. Qed.

Lemma sumZ_const c l : (forall x, x ∈ l -> x = c) -> sumZ l = c * Z.of_nat (length l).
Proof.
  induction l as [|x l IH]; intros Hc; [cbn; lia|]. cbn [sumZ length]. rewrite IH, (Hc x) by set_solver. lia.
Qed.

Lemma wrap64_idemp x y : wrap64 (wrap64 x + y) = wrap64 (x + y).
Proof. unfold wrap64. by rewrite Z.add_mod_idemp_l by done. Qed.

(** ** Generic lemmas *)

Create HintDb osp.

Lemma elem_of_seqZ_iff (m n x : Z) : x ∈ seqZ m n <-> m <= x < m + n.
Proof. rewrite elem_of_seqZ. lia. Qed.

Lemma divide_lt_le (s a b : Z) :
  0 < s -> (s | a) -> (s | b) -> a < b -> a + s <= b.
Proof.
  intros Hs [x ->] [y ->] Hlt. apply Z.mul_lt_mono_pos_r in Hlt; [|done].
  assert ((x + 1) * s <= y * s) by (apply Z.mul_le_mono_nonneg_r; lia). lia.
Qed.

#[export] Hint Resolve wrap64_range : osp.
