(* ===== verification/Memory.v ===== *)
(** * Memory of the allocators

    The process memory the allocators of [memory-allocator/] work on: the
    [MallocMetadata] objects constructed in it, by address, and the bytes of
    the users' payloads.  Writing payload bytes over a stale header destroys
    the header object (a later read of it is undefined), and constructing a
    header destroys what it overlaps.  Linked lists threaded through the
    headers are described by [dseg]. *)

From S2P Require Import Prelude.

(** The size of [struct MallocMetadata] under the x86-64 ABI: 8 bytes of
    [size], the flags padded to 8, two pointers.  The three versions of the
    struct (two, three and four members before the links) agree on it. *)
Definition sizeof_MallocMetadata : Z := 32.

Definition nullptr : Z := 0.

(** The value [(void* )(-1)] that [sbrk] and [mmap] return on failure. *)
Definition MAP_FAILED : Z := 2 ^ 64 - 1.

(** ** Objects and bytes *)

Record mem (H : Type) := Mem { hdrs : gmap Z H; bytes : gmap Z Z }.
Arguments Mem {H} hdrs bytes.
Arguments hdrs {H} _.
Arguments bytes {H} _.

(** The header at [k] shares no byte with the range of [n] bytes at [d]. *)
Definition hdr_apart (d n k : Z) : Prop :=
  n <= 0 \/ k + sizeof_MallocMetadata <= d \/ d + n <= k.

#[export] Instance hdr_apart_dec d n k : Decision (hdr_apart d n k).
Proof. unfold hdr_apart. apply _. Defined.

Section ops.
Context {H : Type}.

Definition clobber (d n : Z) (hs : gmap Z H) : gmap Z H :=
  filter (fun kh => hdr_apart d n (fst kh)) hs.

Definition bytes_outside (d n : Z) (bs : gmap Z Z) : gmap Z Z :=
  filter (fun kv => fst kv < d \/ d + n <= fst kv) bs.

(** All members of a header stored at an address that may hold no header yet. *)
Definition mem_new_hdr (a : Z) (h : H) (m : mem H) : mem H :=
  Mem (<[a := h]> (clobber a sizeof_MallocMetadata (hdrs m)))
      (bytes_outside a sizeof_MallocMetadata (bytes m)).

(** A member assignment through a pointer to a header. *)
Definition mem_upd_hdr (a : Z) (f : H -> H) (m : mem H) : option (mem H) :=
  match hdrs m !! a with
  | Some h => Some (Mem (<[a := f h]> (hdrs m)) (bytes m))
  | None => None
  end.

Definition fill_bytes (d v n : Z) (bs : gmap Z Z) : gmap Z Z :=
  foldr (fun x acc => <[x := v]> acc) bs (seqZ d n).

(** [memset(d, v, n)] *)
Definition mem_set (d v n : Z) (m : mem H) : mem H :=
  Mem (clobber d n (hdrs m)) (fill_bytes d v n (bytes m)).

Definition copy_bytes (d s n : Z) (old bs : gmap Z Z) : gmap Z Z :=
  foldr (fun x acc => partial_alter (fun _ => old !! (s + (x - d))) x acc) bs (seqZ d n).

(** [memmove(d, s, n)]: an indeterminate source byte makes an indeterminate
    destination byte. *)
Definition mem_move (d s n : Z) (m : mem H) : mem H :=
  Mem (clobber d n (hdrs m)) (copy_bytes d s n (bytes m) (bytes m)).

Lemma clobber_lookup d n (hs : gmap Z H) k :
  hdr_apart d n k -> clobber d n hs !! k = hs !! k.
Proof.
  intros Hk. unfold clobber. destruct (hs !! k) as [h|] eqn:E.
  - by apply map_lookup_filter_Some_2.
  - apply map_lookup_filter_None_2. by left.
Qed.

Lemma new_hdr_eq a (h : H) m : hdrs (mem_new_hdr a h m) !! a = Some h.
Proof. apply lookup_insert_eq. Qed.

Lemma new_hdr_ne a (h : H) m k :
  k + sizeof_MallocMetadata <= a \/ a + sizeof_MallocMetadata <= k ->
  hdrs (mem_new_hdr a h m) !! k = hdrs m !! k.
Proof.
  unfold sizeof_MallocMetadata. intros Hk. cbn. rewrite lookup_insert_ne by lia.
  apply clobber_lookup. unfold hdr_apart, sizeof_MallocMetadata. lia.
Qed.

Lemma new_hdr_bytes a (h : H) m x :
  x < a \/ a + sizeof_MallocMetadata <= x ->
  bytes (mem_new_hdr a h m) !! x = bytes m !! x.
Proof.
  intros Hx. cbn. unfold bytes_outside. destruct (bytes m !! x) as [v|] eqn:E.
  - by apply map_lookup_filter_Some_2.
  - apply map_lookup_filter_None_2. by left.
Qed.

Lemma fill_bytes_lookup d v n bs x :
  fill_bytes d v n bs !! x = if decide (d <= x < d + n) then Some v else bs !! x.
Proof.
  unfold fill_bytes. case_decide as Hx.
  - apply elem_of_seqZ_iff in Hx. revert Hx.
    induction (seqZ d n) as [|y l IH]; intros Hx; [by inversion Hx|].
    cbn. destruct (decide (x = y)) as [->|Hne]; [apply lookup_insert_eq|].
    rewrite lookup_insert_ne by done. apply IH. set_solver.
  - rewrite <- elem_of_seqZ_iff in Hx. revert Hx.
    induction (seqZ d n) as [|y l IH]; intros Hx; [done|].
    cbn. rewrite lookup_insert_ne by set_solver. apply IH. set_solver.
Qed.

Lemma copy_bytes_lookup d s n old bs x :
  copy_bytes d s n old bs !! x =
  if decide (d <= x < d + n) then old !! (s + (x - d)) else bs !! x.
Proof.
  unfold copy_bytes. case_decide as Hx.
  - apply elem_of_seqZ_iff in Hx. revert Hx.
    induction (seqZ d n) as [|y l IH]; intros Hx; [by inversion Hx|].
    cbn. destruct (decide (x = y)) as [->|Hne]; [apply lookup_partial_alter_eq|].
    rewrite lookup_partial_alter_ne by done. apply IH. set_solver.
  - rewrite <- elem_of_seqZ_iff in Hx. revert Hx.
    induction (seqZ d n) as [|y l IH]; intros Hx; [done|].
    cbn. rewrite lookup_partial_alter_ne by set_solver. apply IH. set_solver.
Qed.

End ops.

(** ** Access through a state *)

(** A state that holds a memory.  The allocators' states are instances; the
    loads and stores below work in any of them. *)
Class HasMem (S H : Type) := {
  get_mem : S -> mem H;
  set_mem : mem H -> S -> S;
  get_set_mem : forall m s, get_mem (set_mem m s) = m;
}.

Section access.
Context {S H : Type} `{HasMem S H}.

(** [*a], for a pointer to a header *)
Definition ld (a : Z) : M S H := try_gets (fun s => hdrs (get_mem s) !! a).

(** [a->member = ...] *)
Definition upd (a : Z) (f : H -> H) : M S unit :=
  try_modify (fun s => (fun m => set_mem m s) <$> mem_upd_hdr a f (get_mem s)).

Definition new_hdr (a : Z) (h : H) : M S unit :=
  modify (fun s => set_mem (mem_new_hdr a h (get_mem s)) s).

Definition memset (d v n : Z) : M S unit :=
  modify (fun s => set_mem (mem_set d v n (get_mem s)) s).

Definition memmove (d s n : Z) : M S unit :=
  modify (fun st => set_mem (mem_move d s n (get_mem st)) st).

(** Enough iterations for a walk along a list of distinct headers. *)
Definition walk_fuel : M S nat :=
  gets (fun s => Datatypes.S (size (hdrs (get_mem s)))).

End access.

(** ** Doubly-linked segments *)

(** The links of the headers: address to ([next], [prev]). *)
Abbreviation links := (gmap Z (Z * Z)).

Definition hd0 (n : Z) (l : list Z) : Z := match l with [] => n | a :: _ => a end.

Fixpoint last0 (p : Z) (l : list Z) : Z :=
  match l with [] => p | a :: l' => last0 a l' end.

(** [dseg L p l n]: following [next] in [L] one visits the addresses [l], the
    first one's [prev] is [p], the last one's [next] is [n], and inside the
    segment [prev] inverts [next]. *)
Fixpoint dseg (L : links) (p : Z) (l : list Z) (n : Z) : Prop :=
  match l with
  | [] => True
  | a :: l' => L !! a = Some (hd0 n l', p) /\ dseg L a l' n
  end.

Definition set_next (v : Z) (np : Z * Z) : Z * Z := (v, snd np).
Definition set_prev (v : Z) (np : Z * Z) : Z * Z := (fst np, v).

Lemma last0_app p l1 l2 : last0 p (l1 ++ l2) = last0 (last0 p l1) l2.
Proof. revert p. induction l1; cbn; auto. Qed.

Lemma last0_elem p l : l <> [] -> last0 p l ∈ l.
Proof.
  revert p. induction l as [|a l IH]; intros p Hl; [done|].
  destruct l as [|b l]; cbn; [set_solver|]. right. by apply (IH a).
Qed.

Lemma hd0_app n l1 l2 : hd0 n (l1 ++ l2) = hd0 (hd0 n l2) l1.
Proof. by destruct l1. Qed.

Lemma hd0_elem n l : l <> [] -> hd0 n l ∈ l.
Proof. destruct l; [done|]. cbn. set_solver. Qed.

Lemma dseg_app L p l1 l2 n :
  dseg L p (l1 ++ l2) n <-> dseg L p l1 (hd0 n l2) /\ dseg L (last0 p l1) l2 n.
Proof.
  revert p. induction l1 as [|a l1 IH]; intros p; cbn; [tauto|].
  rewrite IH, hd0_app. tauto.
Qed.

Lemma dseg_frame L L' p l n :
  (forall a, a ∈ l -> L' !! a = L !! a) -> dseg L p l n -> dseg L' p l n.
Proof.
  revert p. induction l as [|a l IH]; intros p Hf; cbn; [done|].
  intros [Ha Hl]. split; [rewrite Hf by set_solver; done|].
  apply IH; [|done]. intros b Hb. apply Hf. set_solver.
Qed.

(** The links of the middle of a segment. *)
Lemma dseg_mid L p l1 a l2 n :
  dseg L p (l1 ++ a :: l2) n -> L !! a = Some (hd0 n l2, last0 p l1).
Proof. intros [_ Hd]%dseg_app. cbn in Hd. tauto. Qed.

Lemma dseg_lookup L p l n a :
  dseg L p l n -> a ∈ l -> is_Some (L !! a).
Proof.
  revert p. induction l as [|b l IH]; intros p; cbn; [intros _ H; by apply not_elem_of_nil in H|].
  intros [Hb Hl] [->|Ha]%elem_of_cons; [eauto|]. by eapply IH.
Qed.

Lemma dseg_fresh L p l n a np :
  a ∉ l -> dseg L p l n -> dseg (<[a := np]> L) p l n.
Proof.
  intros Ha. apply dseg_frame. intros b Hb. apply lookup_insert_ne. set_solver.
Qed.

Lemma dseg_alter_notin L p l n a f :
  a ∉ l -> dseg L p l n -> dseg (alter f a L) p l n.
Proof.
  intros Ha. apply dseg_frame. intros b Hb. apply lookup_alter_ne. set_solver.
Qed.

(** Redirecting the outgoing ends of a segment. *)
Lemma dseg_set_last L p l n v :
  NoDup l -> l <> [] -> dseg L p l n ->
  dseg (alter (set_next v) (last0 p l) L) p l v.
Proof.
  revert p. induction l as [|a l IH]; intros p Hnd Hne; [done|].
  apply NoDup_cons in Hnd as [Ha Hnd]. intros [H1 H2].
  destruct l as [|b l].
  - cbn [dseg last0 hd0] in *. split; [|done]. by rewrite lookup_alter_eq, H1.
  - assert (last0 a (b :: l) ∈ b :: l) by by apply last0_elem.
    change (last0 p (a :: b :: l)) with (last0 a (b :: l)). split.
    + rewrite lookup_alter_ne by set_solver. done.
    + apply IH; done.
Qed.

Lemma dseg_set_first L p l n v :
  NoDup l -> dseg L p l n -> dseg (alter (set_prev v) (hd0 0 l) L) v l n.
Proof.
  destruct l as [|a l]; [done|]. intros [Ha Hnd]%NoDup_cons [H1 H2]. cbn. split.
  - by rewrite lookup_alter_eq, H1.
  - by apply dseg_alter_notin.
Qed.

(** Linking [m] between two neighbouring segments, and unlinking it. *)
Definition link_at (x m y : Z) (L : links) : links :=
  let L1 := <[m := (y, x)]> L in
  let L2 := if y =? 0 then L1 else alter (set_prev m) y L1 in
  if x =? 0 then L2 else alter (set_next m) x L2.

Definition unlink_at (x m y : Z) (L : links) : links :=
  let L1 := if x =? 0 then L else alter (set_next y) x L in
  let L2 := if y =? 0 then L1 else alter (set_prev x) y L1 in
  alter (fun _ => (0, 0)) m L2.

Lemma link_at_other x m y L a :
  a <> m -> a <> x -> a <> y -> link_at x m y L !! a = L !! a.
Proof.
  intros. unfold link_at. cbn zeta.
  destruct (y =? 0), (x =? 0); rewrite ?lookup_alter_ne, ?lookup_insert_ne by done; done.
Qed.

Lemma unlink_at_other x m y L a :
  a <> m -> a <> x -> a <> y -> unlink_at x m y L !! a = L !! a.
Proof.
  intros. unfold unlink_at. cbn zeta.
  destruct (y =? 0), (x =? 0); rewrite ?lookup_alter_ne by done; done.
Qed.

(** The null pointer is never assigned through. *)
Lemma link_at_off x m y L a :
  a <> m -> (a = x -> x = 0) -> (a = y -> y = 0) -> link_at x m y L !! a = L !! a.
Proof.
  intros Hm Hx Hy. unfold link_at. cbn zeta.
  destruct (Z.eqb_spec y 0), (Z.eqb_spec x 0);
    rewrite ?lookup_alter_ne, ?lookup_insert_ne by naive_solver; done.
Qed.

Lemma unlink_at_off x m y L a :
  a <> m -> (a = x -> x = 0) -> (a = y -> y = 0) -> unlink_at x m y L !! a = L !! a.
Proof.
  intros Hm Hx Hy. unfold unlink_at. cbn zeta.
  destruct (Z.eqb_spec y 0), (Z.eqb_spec x 0); rewrite ?lookup_alter_ne by naive_solver; done.
Qed.

Lemma last0_0_notin l : 0 ∉ l -> last0 0 l =? 0 = true -> l = [].
Proof.
  destruct l as [|a l]; [done|]. intros Hn Hz%Z.eqb_eq. exfalso. apply Hn.
  rewrite <- Hz. by apply last0_elem.
Qed.

Lemma hd0_0_notin l : 0 ∉ l -> hd0 0 l =? 0 = true -> l = [].
Proof. destruct l as [|a l]; [done|]. cbn. intros Hn ->%Z.eqb_eq. set_solver. Qed.

Lemma dseg_link L l1 m l2 :
  NoDup (l1 ++ m :: l2) -> 0 ∉ l1 ++ l2 ->
  dseg L 0 (l1 ++ l2) 0 ->
  dseg (link_at (last0 0 l1) m (hd0 0 l2) L) 0 (l1 ++ m :: l2) 0.
Proof.
  intros Hnd H0 [Hd1 Hd2]%dseg_app.
  apply NoDup_app in Hnd as (Hn1 & Hdj & [Hm2 Hn2]%NoDup_cons).
  assert (Hm1 : m ∉ l1) by set_solver.
  apply dseg_app. cbn [hd0 dseg].
  assert (Hx : l1 <> [] -> last0 0 l1 ∈ l1) by apply last0_elem.
  assert (Hy : l2 <> [] -> hd0 0 l2 ∈ l2) by apply hd0_elem.
  unfold link_at. cbn zeta.
  destruct (last0 0 l1 =? 0) eqn:Ex; destruct (hd0 0 l2 =? 0) eqn:Ey.
  - apply last0_0_notin in Ex as ->; [|set_solver]. apply hd0_0_notin in Ey as ->; [|set_solver].
    cbn. by rewrite lookup_insert_eq.
  - apply last0_0_notin in Ex as ->; [|set_solver].
    assert (l2 <> []) by (intros ->; done). cbn [dseg last0]. split_and!; [done| |].
    + rewrite lookup_alter_ne by set_solver. by rewrite lookup_insert_eq.
    + apply dseg_set_first with (p := 0); [done|]. by apply dseg_fresh.
  - apply hd0_0_notin in Ey as ->; [|set_solver].
    assert (l1 <> []) by (intros ->; done). cbn [dseg hd0]. split_and!; [| |done].
    + eapply dseg_set_last; [done..|]. by apply dseg_fresh.
    + rewrite lookup_alter_ne by set_solver. by rewrite lookup_insert_eq.
  - assert (l1 <> []) by (intros ->; done). assert (l2 <> []) by (intros ->; done).
    split_and!.
    + eapply dseg_set_last; [done..|]. apply dseg_alter_notin; [set_solver|]. by apply dseg_fresh.
    + rewrite !lookup_alter_ne by set_solver. by rewrite lookup_insert_eq.
    + apply dseg_alter_notin; [set_solver|].
      eapply dseg_set_first; [done|]. apply dseg_fresh; done.
Qed.

Lemma dseg_unlink L l1 m l2 :
  NoDup (l1 ++ m :: l2) -> 0 ∉ l1 ++ l2 ->
  dseg L 0 (l1 ++ m :: l2) 0 ->
  dseg (unlink_at (last0 0 l1) m (hd0 0 l2) L) 0 (l1 ++ l2) 0.
Proof.
  intros Hnd H0 [Hd1 Hd2]%dseg_app. cbn [hd0 dseg] in Hd1, Hd2. destruct Hd2 as [Hm Hd2].
  apply NoDup_app in Hnd as (Hn1 & Hdj & [Hm2 Hn2]%NoDup_cons).
  assert (Hm1 : m ∉ l1) by set_solver.
  apply dseg_app.
  assert (Hx : l1 <> [] -> last0 0 l1 ∈ l1) by apply last0_elem.
  assert (Hy : l2 <> [] -> hd0 0 l2 ∈ l2) by apply hd0_elem.
  unfold unlink_at. cbn zeta.
  destruct (last0 0 l1 =? 0) eqn:Ex; destruct (hd0 0 l2 =? 0) eqn:Ey.
  - apply last0_0_notin in Ex as ->; [|set_solver]. apply hd0_0_notin in Ey as ->; [|set_solver].
    done.
  - apply last0_0_notin in Ex as ->; [|set_solver]. split; [done|]. cbn [last0].
    apply dseg_alter_notin; [done|]. by eapply dseg_set_first.
  - apply hd0_0_notin in Ey as ->; [|set_solver].
    assert (l1 <> []) by (intros ->; done). split; [|done]. cbn [hd0].
    apply dseg_alter_notin; [done|]. by eapply dseg_set_last.
  - assert (l1 <> []) by (intros ->; done). assert (l2 <> []) by (intros ->; done).
    split; (apply dseg_alter_notin; [done|]).
    + apply dseg_alter_notin; [set_solver|]. by eapply dseg_set_last.
    + eapply dseg_set_first; [done|]. apply dseg_alter_notin; [set_solver|]. done.
Qed.

(** A list threaded through headers is no longer than there are headers. *)
Lemma dseg_length L p l n : NoDup l -> dseg L p l n -> (length l <= size L)%nat.
Proof.
  intros Hnd Hd. rewrite <- size_dom, <- (size_list_to_set (C := gset Z) l) by done.
  apply subseteq_size. intros a Ha%elem_of_list_to_set.
  apply elem_of_dom. by eapply dseg_lookup.
Qed.
