(* ===== verification/OS.v ===== *)
(** * The operating system behind the allocators

    [sbrk], [mmap], [munmap] and [sysconf(_SC_PAGESIZE)] are not code of the
    repository: they are operations of a class, and what the allocators rely
    on is the documented behaviour stated by [OSModel].  [ToyOS] is a concrete
    system that satisfies it, used by the witnesses. *)

From S2P Require Import Prelude Memory.

Class OSOps (OS : Type) := {
  sbrk : Z -> OS -> Z * OS;
  mmap : Z -> bool -> OS -> Z * OS;      (* length, MAP_HUGETLB *)
  munmap : Z -> Z -> OS -> OS;
  page_size : Z;
}.

Definition in_range (p n x : Z) : Prop := p <= x < p + n.

(** The addresses of [[p, p+n)] are a valid object none of whose bytes was
    mapped before, and exactly they are mapped now. *)
Definition freshly_mapped (before after : Z -> Prop) (p n : Z) : Prop :=
  0 < p /\ p + n < 2 ^ 63 /\
  (forall x, before x -> ~ in_range p n x) /\
  (forall x, after x <-> before x \/ in_range p n x).

Class OSModel (OS : Type) `{OSOps OS} := {
  mapped : OS -> Z -> Prop;
  brk : OS -> Z;
  brk_range : forall o, 0 < brk o < 2 ^ 63;
  page_size_pow2 : exists k, 5 <= k <= 21 /\ page_size = 2 ^ k;
  sbrk_zero : forall o, sbrk 0 o = (brk o, o);
  sbrk_spec : forall n o, 0 < n ->
    sbrk n o = (MAP_FAILED, o) \/
    (exists o', sbrk n o = (brk o, o') /\ brk o' = brk o + n /\
                freshly_mapped (mapped o) (mapped o') (brk o) n);
  mmap_spec : forall n huge o, 0 < n ->
    (exists o', mmap n huge o = (MAP_FAILED, o') /\ (forall x, mapped o' x <-> mapped o x)) \/
    (exists p o', mmap n huge o = (p, o') /\ (page_size | p) /\
                  freshly_mapped (mapped o) (mapped o') p n);
  munmap_spec : forall p n o x, (page_size | p) -> (page_size | n) ->
    mapped (munmap p n o) x <-> mapped o x /\ ~ in_range p n x;
}.

(** ** A concrete system *)

Record toy := Toy { toy_brk : Z; toy_mmap : Z; toy_maps : list (Z * Z) }.

Definition apart (p n : Z) (r : Z * Z) : Prop :=
  snd r <= 0 \/ fst r + snd r <= p \/ p + n <= fst r.

#[export] Instance apart_dec p n r : Decision (apart p n r).
Proof. unfold apart. apply _. Defined.

Definition toy_fresh (p n : Z) (o : toy) : bool :=
  bool_decide (0 < p /\ p + n < 2 ^ 63 /\ Forall (apart p n) (toy_maps o)).

Definition toy_page : Z := 4096.

(** The break stays a positive address whatever the record holds. *)
Definition toy_break (o : toy) : Z := 1 + (toy_brk o - 1) mod (2 ^ 63 - 1).

Definition toy_sbrk (n : Z) (o : toy) : Z * toy :=
  if n =? 0 then (toy_break o, o)
  else if toy_fresh (toy_break o) n o
       then (toy_break o, Toy (toy_break o + n) (toy_mmap o) ((toy_break o, n) :: toy_maps o))
       else (MAP_FAILED, o).

Definition toy_mmap_call (n : Z) (huge : bool) (o : toy) : Z * toy :=
  let p := toy_mmap o * toy_page in
  if huge then (MAP_FAILED, o)
  else if toy_fresh p n o
       then (p, Toy (toy_brk o) (toy_mmap o + (n + toy_page - 1) / toy_page)
                    ((p, n) :: toy_maps o))
       else (MAP_FAILED, o).

Definition toy_cut (p n : Z) (r : Z * Z) : list (Z * Z) :=
  if n <=? 0 then [r]
  else [(fst r, Z.min (fst r + snd r) p - fst r);
        (Z.max (fst r) (p + n), fst r + snd r - Z.max (fst r) (p + n))].

Definition toy_munmap (p n : Z) (o : toy) : toy :=
  Toy (toy_brk o) (toy_mmap o) (toy_maps o ≫= toy_cut p n).

Definition toy_mapped (o : toy) (x : Z) : Prop :=
  exists r, r ∈ toy_maps o /\ in_range (fst r) (snd r) x.

#[export] Instance toy_ops : OSOps toy := {
  sbrk := toy_sbrk;
  mmap := toy_mmap_call;
  munmap := toy_munmap;
  page_size := toy_page;
}.

Lemma toy_fresh_spec p n o b m :
  toy_fresh p n o = true ->
  freshly_mapped (toy_mapped o) (toy_mapped (Toy b m ((p, n) :: toy_maps o))) p n.
Proof.
  intros (Hp & Hn & Hf)%bool_decide_eq_true. rewrite Forall_forall in Hf.
  split_and!; [done..| |].
  - intros x (r & Hr & Hx) Hin. specialize (Hf r Hr). unfold in_range, apart in *. lia.
  - intros x. unfold toy_mapped. cbn. split.
    + intros (r & [->|Hr]%elem_of_cons & Hx); eauto.
    + intros [(r & Hr & Hx)|Hx]; [exists r|exists (p, n)]; split; auto; set_solver.
Qed.

Lemma toy_break_range o : 0 < toy_break o < 2 ^ 63.
Proof. unfold toy_break. pose proof (Z.mod_pos_bound (toy_brk o - 1) (2 ^ 63 - 1)). lia. Qed.

#[export, program] Instance toy_model : OSModel toy := {
  mapped := toy_mapped;
  brk := toy_break;
  brk_range := toy_break_range;
}.
Next Obligation. exists 12. split; [lia|done]. Qed.
Next Obligation. done. Qed.
Next Obligation.
  intros n o Hn. cbn. unfold toy_sbrk. destruct (Z.eqb_spec n 0); [lia|].
  destruct (toy_fresh _ _ _) eqn:E; [right|by left].
  pose proof (toy_fresh_spec _ _ _ (toy_break o + n) (toy_mmap o) E) as Hf.
  eexists. split; [done|]. split; [|done].
  destruct Hf as (? & ? & _). unfold toy_break at 1. cbn [toy_brk].
  rewrite Z.mod_small by lia. lia.
Qed.
Next Obligation.
  intros n huge o Hn. cbn. unfold toy_mmap_call.
  destruct huge; [left; eexists; done|].
  destruct (toy_fresh _ _ _) eqn:E; [right|left; eexists; done].
  eexists _, _. split; [done|]. split; [apply Z.divide_factor_r|]. by apply toy_fresh_spec.
Qed.
Next Obligation.
  intros p n o x _ _. cbn. unfold toy_mapped. cbn. split.
  - intros (r & (r' & Hr & Hr')%list_elem_of_bind & Hx). revert Hr. unfold toy_cut, in_range in *.
    destruct (Z.leb_spec n 0).
    + intros ->%list_elem_of_singleton. split; [eauto|lia].
    + intros [-> | ->%list_elem_of_singleton]%elem_of_cons; cbn in *;
        (split; [exists r'; split; [done|lia]|lia]).
  - intros [(r & Hr & Hx) Hn]. unfold in_range in *. unfold toy_cut.
    destruct (Z.leb_spec n 0) as [Hle|Hlt].
    { exists r. split; [|done]. apply list_elem_of_bind. exists r.
      split; [by apply list_elem_of_singleton|done]. }
    destruct (decide (x < p)).
    + eexists (_, _). split.
      { apply list_elem_of_bind. exists r. split; [by left|done]. } cbn. lia.
    + eexists (_, _). split.
      { apply list_elem_of_bind. exists r. split; [right; by left|done]. } cbn. lia.
Qed.

(** A system with nothing mapped and the break at 4096. *)
Definition toy0 : toy := Toy 4096 65536 [].
