(* ===== verification/AllocSpec.v ===== *)
(** * What an allocator promises

    The contract between the allocators of [memory-allocator/] and their
    users, as a class: a state, the operations of the public interface, the
    payload bytes, and an invariant relating the state to the map of the live
    blocks (user pointer to usable size). *)

From S2P Require Import Prelude Memory.

(** The live blocks are proper ranges that do not overlap. *)
Record separated (L : gmap Z Z) : Prop := {
  sep_range : forall p n, L !! p = Some n -> 0 < p /\ 0 <= n /\ p + n < 2 ^ 63;
  sep_apart : forall p n q m, L !! p = Some n -> L !! q = Some m -> p < q -> p + n <= q;
}.

(** The requests that are not refused outright: [size == 0] and
    [(double)size > MAX_ALLOC_SIZE] (1e8, exactly representable, so that the
    comparison of doubles is the comparison of integers). *)
Definition valid_request (n : Z) : bool := negb (n =? 0) && negb (100000000 <? n).

Class Allocator (S : Type) := {
  al_malloc : Z -> M S Z;
  al_calloc : Z -> Z -> M S Z;
  al_free : Z -> M S unit;
  al_realloc : Z -> Z -> M S Z;
  al_store : Z -> Z -> Z -> M S unit;   (* a user's [memset] *)
  al_read : S -> Z -> option Z;
  al_inv : S -> gmap Z Z -> Prop;
  al_grant : Z -> Z;                    (* the usable bytes a request is sure to get *)
}.

Section data.
Context {S : Type} `{Allocator S}.

(** The payloads of the blocks [L] hold in [s'] what they held in [s]. *)
Definition same_data (L : gmap Z Z) (s s' : S) : Prop :=
  forall p n i, L !! p = Some n -> 0 <= i < n -> al_read s' (p + i) = al_read s (p + i).

(** The first [n] bytes at [q] in [s'] are those at [p] in [s]. *)
Definition copied (p q n : Z) (s s' : S) : Prop :=
  forall i, 0 <= i < n -> al_read s' (q + i) = al_read s (p + i).

(** The bytes of [s'] are those of [s] but for the [n] zeros at [p]. *)
Definition cleared (p n : Z) (s s' : S) : Prop :=
  forall x, al_read s' x = if decide (p <= x < p + n) then Some 0 else al_read s x.

(** A block of [m] bytes at [p], apart from the live ones, joins them. *)
Definition granted (L : gmap Z Z) (p m : Z) (s' : S) : Prop :=
  L !! p = None /\ al_inv s' (<[p := m]> L).

End data.

Class AllocatorSpec (S : Type) `{Allocator S} : Prop := {
  inv_separated : forall s L, al_inv s L -> separated L;
  grant_le : forall n, al_grant n <= n;
  malloc_spec : forall n s L, 0 <= n < 2 ^ 64 -> al_inv s L ->
    wp (al_malloc n) (fun p s' => same_data L s s' /\
      ((p = 0 /\ al_inv s' L) \/
       (valid_request n = true /\ exists m, al_grant n <= m /\ granted L p m s'))) s;
  (* the last case is an overrun: the block is smaller than the bytes cleared *)
  calloc_spec : forall num size s L, let total := wrap64 (num * size) in
    0 <= num < 2 ^ 64 -> 0 <= size < 2 ^ 64 -> al_inv s L ->
    wp (al_calloc num size) (fun p s' =>
      (p = 0 /\ same_data L s s' /\ al_inv s' L) \/
      (num <> 0 /\ size <> 0 /\ total <= 100000000 /\ exists m,
        (total <= m /\ granted L p m s' /\ same_data L s s' /\
         forall i, 0 <= i < total -> al_read s' (p + i) = Some 0) \/
        (al_grant total <= m < total /\
         exists s1, granted L p m s1 /\ same_data L s s1 /\ cleared p total s1 s'))) s;
  free_spec : forall p n s L, al_inv s L -> L !! p = Some n ->
    wp (al_free p) (fun _ s' => same_data (delete p L) s s' /\ al_inv s' (delete p L)) s;
  free_null : forall s L, al_inv s L -> wp (al_free nullptr) (fun _ s' => s' = s) s;
  realloc_null : forall n s, 0 <= n < 2 ^ 64 ->
    al_realloc nullptr n s = al_malloc n s;
  realloc_spec : forall p n size s L, 0 <= size < 2 ^ 64 -> al_inv s L -> L !! p = Some n ->
    wp (al_realloc p size) (fun q s' =>
      (q = 0 /\ al_inv s' L /\ same_data L s s') \/
      (valid_request size = true /\ exists m, al_grant size <= m /\
       granted (delete p L) q m s' /\ same_data (delete p L) s s' /\
       copied p q (Z.min n m) s s')) s;
  store_spec : forall p n d b k s L, al_inv s L -> L !! p = Some n -> p <= d -> 0 <= k -> d + k <= p + n ->
    wp (al_store d b k) (fun _ s' => al_inv s' L /\
      forall x, al_read s' x = if decide (d <= x < d + k) then Some b else al_read s x) s;
}.
