(* ===== verification/Malloc2.v ===== *)
(** * [memory-allocator/malloc_2.cpp]: the first-fit allocator

    A list of blocks in address order, grown at its end with [sbrk]; a freed
    block is reused for any request that fits, without splitting or merging. *)

From S2P Require Import Prelude Memory OS AllocSpec.

Definition MAX_ALLOC_SIZE : Z := 100000000.

(** ** State *)

Record MallocMetadata := Meta {
  m_size : Z;
  m_is_free : bool;
  m_next : Z;
  m_prev : Z;
}.

Record state (OS : Type) := State {
  mm : mem MallocMetadata;
  g_head : Z;
  os : OS;
}.
Arguments State {OS} _ _ _.
Arguments mm {OS} _.
Arguments g_head {OS} _.
Arguments os {OS} _.

#[export, program] Instance state_mem OS : HasMem (state OS) MallocMetadata := {
  get_mem := mm;
  set_mem := fun m s => State m (g_head s) (os s);
}.
Next Obligation. done. Qed.

Definition fresh {OS} (o : OS) : state OS := State (Mem ∅ ∅) nullptr o.

Definition with_is_free (b : bool) (h : MallocMetadata) : MallocMetadata :=
  Meta (m_size h) b (m_next h) (m_prev h).
Definition with_next (v : Z) (h : MallocMetadata) : MallocMetadata :=
  Meta (m_size h) (m_is_free h) v (m_prev h).
Definition with_prev (v : Z) (h : MallocMetadata) : MallocMetadata :=
  Meta (m_size h) (m_is_free h) (m_next h) v.

Definition meta_from_ptr (p : Z) : Z := p - sizeof_MallocMetadata.
Definition ptr_from_meta (m : Z) : Z := m + sizeof_MallocMetadata.

Section malloc2.
Context {OS : Type} `{OSOps OS}.

Abbreviation St := (state OS).

Definition os_call {A} (f : OS -> A * OS) : M St A :=
  fun s => let '(a, o) := f (os s) in Ok (a, State (mm s) (g_head s) o).

Definition set_g_head (m : Z) : M St unit := modify (fun s => State (mm s) m (os s)).

Definition find_free (size : Z) : M St Z :=
  let* head := gets g_head in
  let* fuel := walk_fuel in
  iter fuel (fun m =>
    if m =? nullptr then ret (inr nullptr)
    else
      let* h := ld m in
      if m_is_free h && (size <=? m_size h) then ret (inr m) else ret (inl (m_next h))) head.

(** [while (tail->next) tail = tail->next;] *)
Definition find_tail (head : Z) : M St Z :=
  let* fuel := walk_fuel in
  iter fuel (fun tail =>
    let* h := ld tail in
    ret (if m_next h =? nullptr then inr tail else inl (m_next h))) head.

Definition alloc_new_block (size : Z) : M St Z :=
  let total := wrap64 (sizeof_MallocMetadata + size) in
  let* raw := os_call (sbrk total) in
  if raw =? MAP_FAILED then ret nullptr
  else
    new_hdr raw (Meta size false nullptr nullptr) ;;*
    let* head := gets g_head in
    (if head =? nullptr then set_g_head raw
     else
       let* tail := find_tail head in
       upd tail (with_next raw) ;;*
       upd raw (with_prev tail)) ;;*
    ret raw.

Definition smalloc (size : Z) : M St Z :=
  if (size =? 0) || (MAX_ALLOC_SIZE <? size) then ret nullptr
  else
    let* m := find_free size in
    if negb (m =? nullptr) then
      upd m (with_is_free false) ;;* ret (ptr_from_meta m)
    else
      let* m := alloc_new_block size in
      if m =? nullptr then ret nullptr else ret (ptr_from_meta m).

Definition scalloc (num size : Z) : M St Z :=
  if (num =? 0) || (size =? 0) then ret nullptr
  else
    let total := wrap64 (num * size) in
    if MAX_ALLOC_SIZE <? total then ret nullptr
    else
      let* ptr := smalloc total in
      if ptr =? nullptr then ret nullptr
      else memset ptr 0 total ;;* ret ptr.

Definition sfree (p : Z) : M St unit :=
  if p =? nullptr then ret tt
  else
    let m := meta_from_ptr p in
    let* h := ld m in
    if m_is_free h then ret tt else upd m (with_is_free true).

Definition srealloc (oldp size : Z) : M St Z :=
  if (size =? 0) || (MAX_ALLOC_SIZE <? size) then ret nullptr
  else if oldp =? nullptr then smalloc size
  else
    let m := meta_from_ptr oldp in
    let* h := ld m in
    if size <=? m_size h then ret oldp
    else
      let* newp := smalloc size in
      if newp =? nullptr then ret nullptr
      else
        let* h := ld m in
        memmove newp oldp (m_size h) ;;*
        sfree oldp ;;*
        ret newp.

(** [for (m = g_head; m; m = m->next) acc = step(acc, m);] *)
Definition list_fold (step : Z -> MallocMetadata -> Z) : M St Z :=
  let* head := gets g_head in
  let* fuel := walk_fuel in
  iter fuel (fun ma =>
    if fst ma =? nullptr then ret (inr (snd ma))
    else
      let* h := ld (fst ma) in
      ret (inl (m_next h, wrap64 (step (snd ma) h)))) (head, 0).

Definition _num_free_blocks : M St Z := list_fold (fun c h => if m_is_free h then c + 1 else c).
Definition _num_free_bytes : M St Z := list_fold (fun b h => if m_is_free h then b + m_size h else b).
Definition _num_allocated_blocks : M St Z := list_fold (fun c _ => c + 1).
Definition _num_allocated_bytes : M St Z := list_fold (fun b h => b + m_size h).
Definition _num_meta_data_bytes : M St Z :=
  let* n := _num_allocated_blocks in ret (wrap64 (n * sizeof_MallocMetadata)).
Definition _size_meta_data : M St Z := ret sizeof_MallocMetadata.

End malloc2.

(** ** The list of blocks *)

Record block := Block { b_addr : Z; b_size : Z; b_free : bool }.

Definition first (nx : Z) (l : list block) : Z := match l with [] => nx | b :: _ => b_addr b end.

Fixpoint last_of (p : Z) (l : list block) : Z :=
  match l with [] => p | b :: l' => last_of (b_addr b) l' end.

(** The headers of the blocks [l], linked both ways, between [p] and [nx]. *)
Fixpoint seg (hs : gmap Z MallocMetadata) (p : Z) (l : list block) (nx : Z) : Prop :=
  match l with
  | [] => True
  | b :: l' => hs !! b_addr b = Some (Meta (b_size b) (b_free b) (first nx l') p) /\
               seg hs (b_addr b) l' nx
  end.

(** The blocks lie between [lo] and [hi], in address order, apart. *)
Fixpoint packed (lo : Z) (l : list block) (hi : Z) : Prop :=
  match l with
  | [] => lo <= hi
  | b :: l' => lo <= b_addr b /\ 0 <= b_size b /\
               packed (b_addr b + sizeof_MallocMetadata + b_size b) l' hi
  end.

Lemma first_app nx l1 l2 : first nx (l1 ++ l2) = first (first nx l2) l1.
Proof. by destruct l1. Qed.

Lemma seg_app hs p l1 l2 nx :
  seg hs p (l1 ++ l2) nx <-> seg hs p l1 (first nx l2) /\ seg hs (last_of p l1) l2 nx.
Proof.
  revert p. induction l1 as [|b l1 IH]; intros p; cbn; [tauto|]. rewrite IH, first_app. tauto.
Qed.

Lemma last_of_snoc p l b : last_of p (l ++ [b]) = b_addr b.
Proof. revert p. induction l; cbn; auto. Qed.

Lemma exists_last_dec (l : list block) : l = [] \/ exists l1 c, l = l1 ++ [c].
Proof. induction l as [|c l1 _] using rev_ind; [by left|right; eauto]. Qed.

Lemma seg_frame hs hs' p l nx :
  (forall b, b ∈ l -> hs' !! b_addr b = hs !! b_addr b) -> seg hs p l nx -> seg hs' p l nx.
Proof.
  revert p. induction l as [|b l IH]; intros p Hf; cbn; [done|]. intros [Hb Hl].
  split; [by rewrite Hf by (by left)|]. apply IH; [|done]. intros c Hc. apply Hf. by right.
Qed.

Lemma seg_mid hs p l1 b l2 nx :
  seg hs p (l1 ++ b :: l2) nx ->
  hs !! b_addr b = Some (Meta (b_size b) (b_free b) (first nx l2) (last_of p l1)).
Proof. intros [_ Hs]%seg_app. apply Hs. Qed.

(** Of two blocks, the one at the lower address ends before the other. *)
Lemma packed_range lo l hi b :
  packed lo l hi -> b ∈ l ->
  lo <= b_addr b /\ 0 <= b_size b /\ b_addr b + sizeof_MallocMetadata + b_size b <= hi.
Proof.
  revert lo. induction l as [|c l IH]; intros lo; cbn; [intros _ Hb; by apply not_elem_of_nil in Hb|].
  intros (Hlo & Hsz & Hp) [->|Hb]%elem_of_cons.
  - split; [done|]. split; [done|]. clear -Hp Hsz. revert Hp. generalize (b_addr c + sizeof_MallocMetadata + b_size c).
    induction l as [|d l IH]; intros x; cbn; [done|]. intros (? & ? & Hp). specialize (IH _ Hp).
    unfold sizeof_MallocMetadata in *. lia.
  - specialize (IH _ Hp Hb). unfold sizeof_MallocMetadata in *. lia.
Qed.

Lemma packed_apart lo l hi b c :
  packed lo l hi -> b ∈ l -> c ∈ l -> b_addr b < b_addr c ->
  b_addr b + sizeof_MallocMetadata + b_size b <= b_addr c.
Proof.
  revert lo. induction l as [|d l IH]; intros lo; cbn; [intros _ Hb; by apply not_elem_of_nil in Hb|].
  intros (Hlo & Hsz & Hp) [->|Hb]%elem_of_cons [->|Hc]%elem_of_cons Hlt.
  - lia.
  - by destruct (packed_range _ _ _ _ Hp Hc).
  - destruct (packed_range _ _ _ _ Hp Hb). unfold sizeof_MallocMetadata in *. lia.
  - by eapply IH.
Qed.

(** A block is determined by its address. *)
Lemma packed_inj lo l hi b c :
  packed lo l hi -> b ∈ l -> c ∈ l -> b_addr b = b_addr c -> b = c.
Proof.
  revert lo. induction l as [|d l IH]; intros lo; cbn; [intros _ Hb; by apply not_elem_of_nil in Hb|].
  intros (Hlo & Hsz & Hp) [->|Hb]%elem_of_cons [->|Hc]%elem_of_cons Heq; [done| | |by eapply IH].
  - destruct (packed_range _ _ _ _ Hp Hc). unfold sizeof_MallocMetadata in *. lia.
  - destruct (packed_range _ _ _ _ Hp Hb). unfold sizeof_MallocMetadata in *. lia.
Qed.

Lemma packed_nodup lo l hi : packed lo l hi -> NoDup (b_addr <$> l).
Proof.
  revert lo. induction l as [|d l IH]; intros lo; cbn; [constructor|].
  intros (Hlo & Hsz & Hp). constructor; [|by eapply IH].
  intros (c & Heq & Hc)%list_elem_of_fmap. destruct (packed_range _ _ _ _ Hp Hc).
  unfold sizeof_MallocMetadata in *. lia.
Qed.

(** The same extents, other flags. *)
Lemma packed_extents lo l l' hi :
  (fun b => (b_addr b, b_size b)) <$> l = (fun b => (b_addr b, b_size b)) <$> l' ->
  packed lo l hi -> packed lo l' hi.
Proof.
  revert lo l'. induction l as [|b l IH]; intros lo [|c l']; try done. cbn.
  intros [= Ha Hs Hl] (? & ? & ?). rewrite Ha, Hs in *. split_and!; [done..|]. by apply IH.
Qed.

Lemma packed_snoc lo l hi b :
  packed lo l (b_addr b) -> 0 <= b_size b -> b_addr b + sizeof_MallocMetadata + b_size b <= hi ->
  packed lo (l ++ [b]) hi.
Proof. revert lo. induction l as [|c l IH]; intros lo; cbn; [done|]. intros (? & ? & ?) ? ?. auto. Qed.

Lemma packed_snoc_inv lo l b hi c :
  packed lo (l ++ [b]) hi -> c ∈ l -> b_addr c + sizeof_MallocMetadata + b_size c <= b_addr b.
Proof.
  revert lo. induction l as [|d l IH]; intros lo; cbn; [intros _ Hc; by apply not_elem_of_nil in Hc|].
  intros (Hlo & Hsz & Hp) [->|Hc]%elem_of_cons; [|by eapply IH].
  destruct (packed_range _ _ _ b Hp) as [? _]; [set_solver|done].
Qed.

(** ** The invariant *)

Section inv.
Context {OS : Type} {OO : OSOps OS} {OM : OSModel OS}.
Implicit Types (s : state OS) (l : list block) (L : gmap Z Z).

Record rep s l : Prop := {
  r_head : g_head s = first nullptr l;
  r_seg : seg (hdrs (mm s)) nullptr l nullptr;
  r_packed : packed 1 l (brk (os s));
  r_mapped : forall b x, b ∈ l -> in_range (b_addr b) (sizeof_MallocMetadata + b_size b) x -> mapped (os s) x;
}.

Definition live_is l L : Prop :=
  forall p n, L !! p = Some n <-> Block (meta_from_ptr p) n false ∈ l.

Definition inv s L : Prop := exists l, rep s l /\ live_is l L.

Lemma m2_meta_ptr m : meta_from_ptr (ptr_from_meta m) = m.
Proof. unfold meta_from_ptr, ptr_from_meta. lia. Qed.

Lemma m2_ptr_meta p : ptr_from_meta (meta_from_ptr p) = p.
Proof. unfold meta_from_ptr, ptr_from_meta. lia. Qed.

Lemma rep_range s l b :
  rep s l -> b ∈ l -> 0 < b_addr b /\ 0 <= b_size b /\ b_addr b + sizeof_MallocMetadata + b_size b < 2 ^ 63.
Proof.
  intros Hr Hb. destruct (packed_range _ _ _ _ (r_packed _ _ Hr) Hb) as (? & ? & ?).
  pose proof (brk_range (os s)). lia.
Qed.

Lemma inv_separated s L : inv s L -> separated L.
Proof.
  intros (l & Hr & HL). split.
  - intros p n Hp%HL. apply (rep_range _ _ _ Hr) in Hp as (? & ? & ?).
    unfold meta_from_ptr, sizeof_MallocMetadata in *. cbn [b_addr b_size] in *. lia.
  - intros p n q m Hp%HL Hq%HL Hlt. pose proof (packed_apart _ _ _ _ _ (r_packed _ _ Hr) Hp Hq) as Ha.
    cbn [b_addr b_size] in Ha. unfold meta_from_ptr, sizeof_MallocMetadata in *. lia.
Qed.

(** The headers lie apart from a block's payload. *)
Lemma m2_payload_apart s l b c d k :
  rep s l -> b ∈ l -> c ∈ l -> b_addr b + sizeof_MallocMetadata <= d ->
  d + k <= b_addr b + sizeof_MallocMetadata + b_size b -> hdr_apart d k (b_addr c).
Proof.
  intros Hr Hb Hc Hd Hk. destruct (rep_range _ _ _ Hr Hc) as (_ & ? & _).
  unfold hdr_apart. destruct (Z.lt_trichotomy (b_addr b) (b_addr c)) as [Hlt|[Heq|Hlt]].
  - pose proof (packed_apart _ _ _ _ _ (r_packed _ _ Hr) Hb Hc Hlt). lia.
  - lia.
  - pose proof (packed_apart _ _ _ _ _ (r_packed _ _ Hr) Hc Hb Hlt). unfold sizeof_MallocMetadata in *. lia.
Qed.

(** A store into a payload. *)
Lemma rep_store s l b d k bs :
  rep s l -> b ∈ l -> b_addr b + sizeof_MallocMetadata <= d ->
  d + k <= b_addr b + sizeof_MallocMetadata + b_size b ->
  rep (State (Mem (clobber d k (hdrs (mm s))) bs) (g_head s) (os s)) l.
Proof.
  intros Hr Hb Hd Hk. split; try apply Hr. cbn [mm hdrs]. eapply seg_frame; [|apply Hr].
  intros c Hc. apply clobber_lookup. by apply (m2_payload_apart s l b c).
Qed.

(** Assigning a block's flag. *)
Lemma m2_rep_flag s l1 b l2 f :
  rep s (l1 ++ b :: l2) ->
  let b' := Block (b_addr b) (b_size b) f in
  exists m, mem_upd_hdr (b_addr b) (with_is_free f) (mm s) = Some m /\ bytes m = bytes (mm s) /\
    rep (State m (g_head s) (os s)) (l1 ++ b' :: l2).
Proof.
  intros Hr. cbn zeta. pose proof (seg_mid _ _ _ _ _ _ (r_seg _ _ Hr)) as Hh.
  unfold mem_upd_hdr. rewrite Hh. eexists. split; [done|]. split; [done|].
  pose proof (packed_nodup _ _ _ (r_packed _ _ Hr)) as Hnd. rewrite fmap_app, fmap_cons in Hnd.
  apply NoDup_app in Hnd as (_ & Hd & [Hb2 _]%NoDup_cons).
  split; cbn [mm g_head os hdrs].
  - rewrite (r_head _ _ Hr). by destruct l1.
  - pose proof (r_seg _ _ Hr) as [Hs1 Hs2]%seg_app. cbn [seg first] in Hs2. destruct Hs2 as [_ Hs2].
    apply seg_app. cbn [seg first b_addr b_size b_free]. split_and!.
    + eapply seg_frame; [|exact Hs1]. intros c Hc. apply lookup_insert_ne. intros Heq.
      apply (Hd (b_addr c)); [by apply list_elem_of_fmap_2|]. rewrite Heq. by left.
    + apply lookup_insert_eq.
    + eapply seg_frame; [|exact Hs2]. intros c Hc. apply lookup_insert_ne. intros Heq.
      apply Hb2. rewrite Heq. by apply list_elem_of_fmap_2.
  - eapply packed_extents; [|apply Hr]. by rewrite !fmap_app, !fmap_cons.
  - intros c x Hc Hx. assert (exists c', c' ∈ l1 ++ b :: l2 /\ b_addr c' = b_addr c /\ b_size c' = b_size c)
      as (c' & Hc' & Ha & Hsz).
    { apply elem_of_app in Hc as [Hc|[->|Hc]%elem_of_cons]; [exists c|exists b|exists c]; set_solver. }
    apply (r_mapped _ _ Hr c'); [done|by rewrite Ha, Hsz].
Qed.

(** ** Walking the list *)

Lemma rep_length s l : rep s l -> (length l <= size (hdrs (mm s)))%nat.
Proof.
  intros Hr. pose proof (packed_nodup _ _ _ (r_packed _ _ Hr)) as Hnd.
  rewrite <- (length_fmap b_addr), <- (size_list_to_set (C := gset Z)), <- size_dom by done.
  apply subseteq_size. intros a (b & -> & Hb)%elem_of_list_to_set%list_elem_of_fmap.
  apply elem_of_dom. apply list_elem_of_split in Hb as (l1 & l2 & ->).
  rewrite (seg_mid _ _ _ _ _ _ (r_seg _ _ Hr)). eauto.
Qed.

Lemma rep_first s l1 l2 : rep s (l1 ++ l2) -> (first nullptr l2 =? nullptr) = match l2 with [] => true | _ => false end.
Proof.
  intros Hr. destruct l2 as [|b l2]; [done|]. apply Z.eqb_neq. cbn.
  destruct (rep_range _ _ b Hr) as [? _]; [set_solver|]. unfold nullptr. lia.
Qed.

Definition fits (size : Z) (b : block) : bool := b_free b && (size <=? b_size b).

(** The first block of the list that is free and large enough. *)
Lemma wp_find_free size s l Q :
  rep s l -> (Forall (fun b => fits size b = false) l -> Q nullptr s) ->
  (forall l1 b l2, l = l1 ++ b :: l2 -> Forall (fun c => fits size c = false) l1 ->
     fits size b = true -> Q (b_addr b) s) ->
  wp (find_free size) Q s.
Proof.
  intros Hr H0 HQ. unfold find_free, walk_fuel. do 4 wp_step. cbn beta.
  apply (wp_iter (fun n m s' => s' = s /\ exists l1 l2, l = l1 ++ l2 /\ n = length l2 /\
    m = first nullptr l2 /\ Forall (fun c => fits size c = false) l1)) with (n := length l).
  - intros n m s' (-> & l1 & l2 & Hl & -> & -> & Hf). rewrite Hl in Hr. rewrite (rep_first _ _ _ Hr).
    destruct l2 as [|b l2].
    + apply wp_ret. apply H0. by rewrite Hl, app_nil_r.
    + wp_step. eapply wp_try_gets; [by eapply seg_mid, r_seg|]. cbn [m_is_free m_size m_next].
      fold (fits size b). destruct (fits size b) eqn:E; apply wp_ret; [by eapply HQ|].
      exists (length l2). split; [cbn; lia|]. split; [done|]. exists (l1 ++ [b]), l2.
      rewrite <- app_assoc. split_and!; [done..|]. apply Forall_app. by split; [|constructor].
  - split; [done|]. exists [], l. split_and!; [done|done|apply Hr|constructor].
  - apply Nat.lt_succ_r. by apply rep_length.
Qed.

Lemma wp_find_tail s b l Q :
  rep s (b :: l) -> Q (last_of nullptr (b :: l)) s -> wp (find_tail (b_addr b)) Q s.
Proof.
  intros Hr HQ. unfold find_tail, walk_fuel. do 2 wp_step. cbn beta.
  apply (wp_iter (fun n m s' => s' = s /\ exists l1 c l2, b :: l = l1 ++ c :: l2 /\ n = length l2 /\
    m = b_addr c)) with (n := length l).
  - intros n m s' (-> & l1 & c & l2 & Hl & -> & ->). rewrite Hl in Hr.
    wp_step. eapply wp_try_gets; [by eapply seg_mid, r_seg|]. apply wp_ret. cbn [m_next].
    replace (l1 ++ c :: l2) with ((l1 ++ [c]) ++ l2) in Hr by by rewrite <- app_assoc.
    rewrite (rep_first _ _ _ Hr). destruct l2 as [|d l2].
    + by rewrite Hl, last_of_snoc in HQ.
    + exists (length l2). split; [cbn; lia|]. split; [done|]. exists (l1 ++ [c]), d, l2.
      by rewrite <- app_assoc.
  - split; [done|]. exists [], b, l. done.
  - apply Nat.lt_succ_r. pose proof (rep_length _ _ Hr). cbn in *. lia.
Qed.

(** ** A new block *)

Lemma packed_weaken lo l hi hi' : packed lo l hi -> hi <= hi' -> packed lo l hi'.
Proof. revert lo. induction l as [|b l IH]; intros lo; cbn; [lia|]. intros (? & ? & ?) ?. auto. Qed.

(** A change beyond the blocks. *)
Lemma rep_grow s s' l :
  rep s l -> g_head s' = g_head s -> (forall b, b ∈ l -> hdrs (mm s') !! b_addr b = hdrs (mm s) !! b_addr b) ->
  brk (os s) <= brk (os s') -> (forall x, mapped (os s) x -> mapped (os s') x) -> rep s' l.
Proof.
  intros Hr Hg Hh Hb Hm. split.
  - rewrite Hg. apply Hr.
  - eapply seg_frame; [exact Hh|apply Hr].
  - eapply packed_weaken; [apply Hr|done].
  - intros b x Hbl Hx. by apply Hm, (r_mapped _ _ Hr b).
Qed.

(** The block [b] joins the end of the list. *)
Lemma rep_snoc s s' l b :
  rep s l -> b_free b = false -> 0 <= b_size b -> b_addr b = brk (os s) ->
  brk (os s') = brk (os s) + sizeof_MallocMetadata + b_size b ->
  freshly_mapped (mapped (os s)) (mapped (os s')) (b_addr b) (sizeof_MallocMetadata + b_size b) ->
  g_head s' = first nullptr (l ++ [b]) ->
  hdrs (mm s') !! b_addr b = Some (Meta (b_size b) false nullptr (last_of nullptr l)) ->
  (forall l1 c, l = l1 ++ [c] ->
     hdrs (mm s') !! b_addr c = Some (Meta (b_size c) (b_free c) (b_addr b) (last_of nullptr l1)) /\
     forall d, d ∈ l1 -> hdrs (mm s') !! b_addr d = hdrs (mm s) !! b_addr d) ->
  rep s' (l ++ [b]).
Proof.
  intros Hr Hf Hsz Ha Hbrk (_ & _ & _ & Hmap) Hh Hb Hl. split; [done| | |].
  - apply seg_app. cbn [seg first]. rewrite Hf. split; [|done].
    destruct (exists_last_dec l) as [->|(l1 & c & ->)]; [done|].
    destruct (Hl l1 c eq_refl) as [Hc Hd]. pose proof (r_seg _ _ Hr) as [Hs1 _]%seg_app.
    apply seg_app. cbn [seg first] in *. split; [|done]. by eapply seg_frame.
  - apply packed_snoc; [rewrite Ha; apply Hr|done|lia].
  - intros c x [Hc| ->%list_elem_of_singleton]%elem_of_app Hx; apply Hmap; [left; by eapply r_mapped|by right].
Qed.

Lemma wp_os_call {A} (f : OS -> A * OS) s Q :
  Q (fst (f (os s))) (State (mm s) (g_head s) (snd (f (os s)))) -> wp (os_call f) Q s.
Proof. unfold wp, os_call. by destruct (f (os s)). Qed.

Lemma wp_upd a f h s Q :
  hdrs (mm s) !! a = Some h ->
  Q tt (State (Mem (<[a := f h]> (hdrs (mm s))) (bytes (mm s))) (g_head s) (os s)) ->
  wp (upd a f) Q s.
Proof. intros Hh HQ. eapply wp_try_modify; [|exact HQ]. unfold mem_upd_hdr. cbn. by rewrite Hh. Qed.

Lemma wp_alloc_new_block size s l Q :
  rep s l -> 0 <= size <= MAX_ALLOC_SIZE ->
  (fst (sbrk (sizeof_MallocMetadata + size) (os s)) = MAP_FAILED -> Q nullptr s) ->
  (forall m s', 0 < m -> m = brk (os s) -> sbrk (sizeof_MallocMetadata + size) (os s) = (m, os s') ->
     rep s' (l ++ [Block m size false]) ->
     (forall x, x < m -> bytes (mm s') !! x = bytes (mm s) !! x) -> Q m s') ->
  wp (alloc_new_block size) Q s.
Proof.
  intros Hr Hsz H0 HQ. unfold alloc_new_block. cbn zeta. unfold MAX_ALLOC_SIZE in *.
  rewrite wrap64_small by (unfold sizeof_MallocMetadata; lia).
  wp_step. apply wp_os_call. pose proof (brk_range (os s)) as Hbr.
  destruct (sbrk_spec (sizeof_MallocMetadata + size) (os s)) as [E|(o' & E & Hbo & Hfm)];
    [unfold sizeof_MallocMetadata; lia|rewrite E; cbn [fst snd]..].
  { rewrite Z.eqb_refl. apply wp_ret. rewrite E in H0. destruct s. by apply H0. }
  assert (Hap : forall c, c ∈ l -> b_addr c + sizeof_MallocMetadata <= brk (os s) /\ b_addr c <> brk (os s)).
  { intros c Hc. destruct (packed_range _ _ _ _ (r_packed _ _ Hr) Hc).
    unfold sizeof_MallocMetadata in *. lia. }
  set (raw := brk (os s)) in *. pose proof Hfm as (Hr0 & Hr1 & _).
  rewrite (proj2 (Z.eqb_neq raw MAP_FAILED)) by (unfold MAP_FAILED, sizeof_MallocMetadata in *; lia).
  wp_step. unfold new_hdr. wp_step. wp_step. wp_step. cbn [get_mem set_mem state_mem g_head mm os].
  set (s1 := State _ (g_head s) o'). assert (Hold : forall c, c ∈ l ->
    hdrs (mm s1) !! b_addr c = hdrs (mm s) !! b_addr c).
  { intros c Hc. destruct (Hap c Hc). apply new_hdr_ne. by left. }
  assert (Hnew : hdrs (mm s1) !! raw = Some (Meta size false nullptr nullptr)) by apply lookup_insert_eq.
  assert (Hby : forall x, x < raw -> bytes (mm s1) !! x = bytes (mm s) !! x).
  { intros x Hx. apply new_hdr_bytes. by left. }
  assert (Hg1 : g_head s1 = g_head s) by done. assert (Ho1 : os s1 = o') by done.
  clearbody s1. wp_step. change (g_head s) with (g_head s). rewrite (r_head _ _ Hr).
  assert (Hrest : forall s2, os s2 = o' -> bytes (mm s2) = bytes (mm s1) ->
    g_head s2 = first nullptr (l ++ [Block raw size false]) ->
    hdrs (mm s2) !! raw = Some (Meta size false nullptr (last_of nullptr l)) ->
    (forall l1 c, l = l1 ++ [c] ->
       hdrs (mm s2) !! b_addr c = Some (Meta (b_size c) (b_free c) raw (last_of nullptr l1)) /\
       forall d, d ∈ l1 -> hdrs (mm s2) !! b_addr d = hdrs (mm s) !! b_addr d) ->
    wp (ret raw) Q s2).
  { intros s2 Ho Hb Hg Hraw Hl. apply wp_ret, HQ; [done|done|by rewrite Ho| |intros x Hx; rewrite Hb; by apply Hby].
    apply (rep_snoc s); cbn [b_addr b_size b_free]; try done; rewrite ?Ho; [lia|by rewrite Hbo; lia|done]. }
  assert (Hr1' : rep s1 l).
  { apply (rep_grow s); rewrite ?Ho1; try done; [unfold sizeof_MallocMetadata in *; lia|].
    intros x Hx. apply Hfm. by left. }
  destruct l as [|b l].
  - cbn [first]. rewrite Z.eqb_refl. unfold set_g_head. wp_step. apply Hrest; try done.
    intros l1 c Hl. by destruct l1.
  - assert (Hb0 : b_addr b <> nullptr).
    { destruct (rep_range _ _ b Hr) as [? _]; [by left|]. unfold nullptr. lia. }
    cbn [first]. rewrite (proj2 (Z.eqb_neq _ _)) by done. wp_step.
    apply (wp_find_tail _ _ l); [done|].
    destruct (exists_last_dec (b :: l)) as [?|(l1 & c & Hl)]; [done|].
    assert (Hc : c ∈ b :: l) by (rewrite Hl; set_solver). destruct (Hap c Hc) as [_ Hcr].
    rewrite Hl, last_of_snoc in *. pose proof (seg_mid _ _ _ _ _ _ (r_seg _ _ Hr1')) as Hhc.
    wp_step. eapply wp_upd; [exact Hhc|]. eapply wp_upd; [cbn [mm hdrs]; by rewrite lookup_insert_ne|].
    apply Hrest; cbn [os mm hdrs bytes g_head]; [done|done| | |].
    + rewrite Hg1, (r_head _ _ Hr). destruct l1; done.
    + by rewrite lookup_insert_eq.
    + intros l1' c' [-> [= ->]]%app_inj_2; [|done]. rewrite lookup_insert_ne, lookup_insert_eq by done.
      split; [done|]. intros d Hd. assert (Hdl : d ∈ l1' ++ [c']) by set_solver.
      destruct (Hap d Hdl) as [_ Hdr]. rewrite !lookup_insert_ne; [by apply Hold|..|done].
      intros Heq. pose proof (packed_nodup _ _ _ (r_packed _ _ Hr)) as Hnd.
      rewrite fmap_app in Hnd. apply NoDup_app in Hnd as (_ & Hdis & _).
      apply (Hdis (b_addr d)); [by apply list_elem_of_fmap_2|]. rewrite <- Heq. by left.
Qed.

(** ** The public interface *)

Lemma m2_valid_request_guard n :
  (n =? 0) || (MAX_ALLOC_SIZE <? n) = false -> valid_request n = true.
Proof. unfold valid_request, MAX_ALLOC_SIZE. by intros [-> ->]%orb_false_iff. Qed.

(** The blocks in use keep their payloads. *)
Definition keeps L s s' : Prop :=
  forall p n x, L !! p = Some n -> in_range p n x -> bytes (mm s') !! x = bytes (mm s) !! x.

Lemma live_is_snoc l L m size :
  live_is l L -> (forall b, b ∈ l -> b_addr b <> m) ->
  L !! ptr_from_meta m = None /\ live_is (l ++ [Block m size false]) (<[ptr_from_meta m := size]> L).
Proof.
  intros HL Hm. split.
  - destruct (L !! ptr_from_meta m) as [n|] eqn:E; [|done]. apply HL in E. rewrite m2_meta_ptr in E.
    by apply Hm in E.
  - intros p n. rewrite lookup_insert, elem_of_app, list_elem_of_singleton. case_decide as Hp.
    + subst p. rewrite m2_meta_ptr. split; [intros [= ->]; by right|].
      intros [Hb|[= ->]]; [by apply Hm in Hb|done].
    + rewrite (HL p n). split; [by left|]. intros [?|[= E _]]; [done|].
      exfalso. apply Hp. by rewrite <- E, m2_ptr_meta.
Qed.

Lemma live_is_flag l1 b l2 L f lo hi :
  packed lo (l1 ++ b :: l2) hi -> live_is (l1 ++ b :: l2) L ->
  let p := ptr_from_meta (b_addr b) in
  live_is (l1 ++ Block (b_addr b) (b_size b) f :: l2)
    (if f then delete p L else <[p := b_size b]> L).
Proof.
  intros Hp HL. cbn zeta. intros q n.
  assert (Hne : forall c, c ∈ l1 ++ l2 -> b_addr c <> b_addr b).
  { pose proof (packed_nodup _ _ _ Hp) as Hnd. revert Hnd. rewrite fmap_app, fmap_cons, <- Permutation_middle.
    intros [Hb _]%NoDup_cons c Hc Heq. apply Hb. rewrite <- fmap_app, <- Heq. by apply list_elem_of_fmap_2. }
  assert (Helem : forall d e, d ∈ l1 ++ e :: l2 <-> d = e \/ d ∈ l1 ++ l2) by set_solver.
  rewrite Helem. destruct (decide (q = ptr_from_meta (b_addr b))) as [->|Hq].
  - rewrite m2_meta_ptr. destruct f; [rewrite lookup_delete_eq|rewrite lookup_insert_eq].
    + split; [done|]. intros [?|Hc]; [done|by apply Hne in Hc].
    + split; [intros [= ->]; by left|]. intros [[= ->]|Hc]; [done|by apply Hne in Hc].
  - assert (meta_from_ptr q <> b_addr b) by (intros E; by rewrite <- E, m2_ptr_meta in Hq).
    assert (L !! q = Some n <-> Block (meta_from_ptr q) n false ∈ l1 ++ l2) as HLq.
    { rewrite (HL q n), Helem. split; [|auto]. intros [E|]; [|done]. by subst b. }
    destruct f; [rewrite lookup_delete_ne by done|rewrite lookup_insert_ne by done]; rewrite HLq;
      (split; [auto|intros [[= ? ?]|]; done]).
Qed.

Lemma m2_wp_smalloc n s L Q :
  inv s L -> 0 <= n -> Q nullptr s ->
  (forall p m s', 0 < p -> valid_request n = true -> n <= m -> L !! p = None -> keeps L s s' ->
     inv s' (<[p := m]> L) -> Q p s') ->
  wp (smalloc n) Q s.
Proof.
  intros Hi Hn H0 HQ. unfold smalloc. wp_step; [by apply wp_ret|].
  pose proof (m2_valid_request_guard _ Heqb) as Hv. destruct Hi as (l & Hr & HL).
  assert (Hn' : 0 <= n <= MAX_ALLOC_SIZE) by (unfold valid_request, MAX_ALLOC_SIZE in *; lia).
  wp_step. apply (wp_find_free n s l); [done| |].
  - intros _. cbn [negb Z.eqb nullptr]. wp_step. eapply wp_alloc_new_block; [done|done|intros _; by apply wp_ret|].
    intros m s' Hm _ _ Hr' Hb. unfold nullptr. rewrite (proj2 (Z.eqb_neq m 0)) by lia. apply wp_ret.
    assert (Hne : forall b, b ∈ l -> b_addr b + sizeof_MallocMetadata + b_size b <= m).
    { intros b Hbl. by apply (packed_snoc_inv _ _ _ _ _ (r_packed _ _ Hr')). }
    destruct (live_is_snoc l L m n HL) as [HN HL'].
    { intros b Hbl. specialize (Hne b Hbl). destruct (rep_range _ _ _ Hr Hbl). unfold sizeof_MallocMetadata in *. lia. }
    apply (HQ _ n); [unfold ptr_from_meta, sizeof_MallocMetadata; lia|done|lia|done| |by exists (l ++ [Block m n false])].
    intros p k x Hp%HL Hx. apply Hb. specialize (Hne _ Hp). cbn [b_addr b_size] in Hne.
    unfold in_range, meta_from_ptr, sizeof_MallocMetadata in *. lia.
  - intros l1 b l2 -> _ Hf. destruct (rep_range _ _ b Hr) as [Hb0 _]; [set_solver|].
    unfold nullptr. rewrite (proj2 (Z.eqb_neq (b_addr b) 0)) by lia. cbn [negb].
    destruct (m2_rep_flag _ _ _ _ false Hr) as (m & Hm & Hby & Hr').
    wp_step. unfold upd. eapply wp_try_modify; [cbn; by rewrite Hm|]. apply wp_ret.
    apply andb_prop in Hf as [Hfree Hsz].
    apply (HQ _ (b_size b)); [unfold ptr_from_meta, sizeof_MallocMetadata; lia|done|lia| | |].
    + destruct (L !! _) as [k|] eqn:E; [|done]. apply HL in E. rewrite m2_meta_ptr in E.
      pose proof (packed_inj _ _ _ _ b (r_packed _ _ Hr) E ltac:(set_solver) eq_refl) as Eb.
      apply (f_equal b_free) in Eb. cbn in Eb. congruence.
    + intros p k x _ _. cbn [mm]. by rewrite Hby.
    + eexists. split; [exact Hr'|]. exact (live_is_flag _ _ _ _ false _ _ (r_packed _ _ Hr) HL).
Qed.

Lemma wp_sfree p n s L Q :
  inv s L -> L !! p = Some n ->
  (forall s', bytes (mm s') = bytes (mm s) -> inv s' (delete p L) -> Q tt s') -> wp (sfree p) Q s.
Proof.
  intros Hi Hp HQ. pose proof (sep_range _ (inv_separated _ _ Hi) _ _ Hp) as (Hp0 & _).
  destruct Hi as (l & Hr & HL). pose proof (proj1 (HL p n) Hp) as Hb.
  apply list_elem_of_split in Hb as (l1 & l2 & ->).
  unfold sfree. unfold nullptr. rewrite (proj2 (Z.eqb_neq p 0)) by lia. cbn zeta.
  wp_step. eapply wp_try_gets; [by apply (seg_mid _ _ _ _ _ _ (r_seg _ _ Hr))|]. cbn [m_is_free b_free].
  destruct (m2_rep_flag _ _ _ _ true Hr) as (m & Hm & Hby & Hr').
  cbn [b_addr] in Hm. unfold upd. eapply wp_try_modify; [cbn; by rewrite Hm|]. apply HQ; [done|].
  eexists. split; [exact Hr'|].
  pose proof (live_is_flag _ _ _ _ true _ _ (r_packed _ _ Hr) HL) as Hl. cbn [b_addr b_size] in *.
  by rewrite m2_ptr_meta in Hl.
Qed.

(** A store of [k] bytes at [d] into the payload of the block [p]. *)
Lemma inv_store p n d k bs s L :
  inv s L -> L !! p = Some n -> p <= d -> d + k <= p + n ->
  inv (State (Mem (clobber d k (hdrs (mm s))) bs) (g_head s) (os s)) L.
Proof.
  intros (l & Hr & HL) Hp Hd Hk. exists l. split; [|done]. pose proof (proj1 (HL p n) Hp) as Hb.
  eapply rep_store; [done|exact Hb|..]; cbn [b_addr b_size];
    unfold meta_from_ptr, sizeof_MallocMetadata in *; lia.
Qed.

Lemma m2_others_apart L q m r n x :
  separated L -> L !! q = Some m -> L !! r = Some n -> r <> q -> in_range r n x -> ~ in_range q m x.
Proof.
  intros HL Hq Hr Hne. pose proof (sep_apart _ HL _ _ _ _ Hq Hr).
  pose proof (sep_apart _ HL _ _ _ _ Hr Hq). unfold in_range. lia.
Qed.

(** [memset] into the block just granted. *)
Lemma wp_zero_block p m total s0 s L Q :
  inv s (<[p := m]> L) -> L !! p = None -> keeps L s0 s -> total <= m ->
  (forall s', keeps L s0 s' -> inv s' (<[p := m]> L) ->
     (forall i, 0 <= i < total -> bytes (mm s') !! (p + i) = Some 0) -> Q tt s') ->
  wp (memset p 0 total) Q s.
Proof.
  intros Hi HN Hk Hm HQ. apply wp_modify. apply HQ.
  - intros q n x Hq Hx. cbn. rewrite fill_bytes_lookup. case_decide as Hin; [|by eapply Hk]. exfalso.
    assert (q <> p) by congruence.
    eapply (m2_others_apart (<[p := m]> L) p m q n x); [by eapply inv_separated|
      apply lookup_insert_eq|by rewrite lookup_insert_ne|done|done|unfold in_range; lia].
  - eapply inv_store; [done|apply lookup_insert_eq|lia|lia].
  - intros i Hi'. cbn. by rewrite fill_bytes_lookup, decide_True by lia.
Qed.

Lemma wp_srealloc p n size s L Q :
  inv s L -> L !! p = Some n -> 0 <= size -> (forall s', keeps L s s' -> inv s' L -> Q nullptr s') ->
  (forall q m s', valid_request size = true -> size <= m -> delete p L !! q = None ->
     inv s' (<[q := m]> (delete p L)) -> keeps (delete p L) s s' ->
     (forall i, 0 <= i < Z.min n m -> bytes (mm s') !! (q + i) = bytes (mm s) !! (p + i)) -> Q q s') ->
  wp (srealloc p size) Q s.
Proof.
  intros Hi Hp Hsz H0 HQ. pose proof (sep_range _ (inv_separated _ _ Hi) _ _ Hp) as (Hp0 & Hn0 & _).
  assert (Hkr : forall L, keeps L s s) by by intros ????.
  assert (Hhdr : forall s1 L1, inv s1 L1 -> L1 !! p = Some n ->
    exists h, hdrs (mm s1) !! meta_from_ptr p = Some h /\ m_size h = n).
  { intros s1 L1 (l & Hr & HL) Hp1. apply HL, list_elem_of_split in Hp1 as (l1 & l2 & ->).
    eexists. split; [by apply (seg_mid _ _ _ _ _ _ (r_seg _ _ Hr))|done]. }
  unfold srealloc. wp_step; [by apply wp_ret, H0|]. pose proof (m2_valid_request_guard _ Heqb) as Hv.
  unfold nullptr at 1. rewrite (proj2 (Z.eqb_neq p 0)) by lia. cbn zeta.
  destruct (Hhdr s L Hi Hp) as (h & Hh & Hhs). wp_step. eapply wp_try_gets; [exact Hh|]. rewrite Hhs.
  wp_step.
  { apply wp_ret, (HQ p n); [done|lia|apply lookup_delete_eq| |done|done]. by rewrite insert_delete_id. }
  wp_step. eapply m2_wp_smalloc; [exact Hi|done|by apply wp_ret, H0|].
  intros q m s1 Hq _ Hm HN Hk Hi1. unfold nullptr. rewrite (proj2 (Z.eqb_neq q 0)) by lia.
  assert (Hpq : p <> q) by congruence.
  assert (Hp1 : <[q := m]> L !! p = Some n) by by rewrite lookup_insert_ne.
  assert (Hq1 : <[q := m]> L !! q = Some m) by apply lookup_insert_eq.
  destruct (Hhdr s1 _ Hi1 Hp1) as (h1 & Hh1 & Hhs1). wp_step. eapply wp_try_gets; [exact Hh1|]. rewrite Hhs1.
  wp_step. apply wp_modify. cbn [get_mem set_mem state_mem]. wp_step.
  eapply wp_sfree; [eapply (inv_store q m); [exact Hi1|exact Hq1|lia|lia]|exact Hp1|].
  intros s3 Hb3 Hi3. apply wp_ret. rewrite delete_insert_ne in Hi3 by done. cbn in Hb3.
  assert (Hcopy : forall x, bytes (mm s3) !! x =
    if decide (q <= x < q + n) then bytes (mm s1) !! (p + (x - q)) else bytes (mm s1) !! x).
  { intros x. by rewrite Hb3, copy_bytes_lookup. }
  eapply (HQ q m); [done|lia|by rewrite lookup_delete_ne|exact Hi3| |].
  - intros r k x Hr Hx. assert (Hrl : L !! r = Some k) by (by apply lookup_delete_Some in Hr as [_ ?]).
    rewrite Hcopy, <- (Hk r k x) by done. case_decide as Hin; [|done]. exfalso.
    assert (r <> q) by congruence.
    eapply (m2_others_apart (<[q := m]> L) q m r k x); [by eapply inv_separated|done|
      by rewrite lookup_insert_ne|done|done|unfold in_range; lia].
  - intros i Hi'. rewrite Hcopy, decide_True by lia. replace (p + (q + i - q)) with (p + i) by lia.
    apply (Hk p n); [done|unfold in_range; lia].
Qed.

(** ** The statistics *)

Lemma wp_list_fold step g s l Q :
  (forall c h, step c h = c + g (m_is_free h) (m_size h)) -> rep s l ->
  Q (wrap64 (sumZ ((fun b => g (b_free b) (b_size b)) <$> l))) s -> wp (list_fold step) Q s.
Proof.
  intros Hstep Hr HQ. unfold list_fold, walk_fuel. do 4 wp_step. cbn beta.
  set (sum := fun l1 => sumZ ((fun b => g (b_free b) (b_size b)) <$> l1)).
  assert (Hsum : forall l1 b, sum (l1 ++ [b]) = sum l1 + g (b_free b) (b_size b)).
  { intros l1 b. unfold sum. rewrite fmap_app, sumZ_app. cbn. lia. }
  apply (wp_iter (fun n ma s' => s' = s /\ exists l1 l2, l = l1 ++ l2 /\ n = length l2 /\
    ma = (first nullptr l2, wrap64 (sum l1)))) with (n := length l).
  - intros n ma s' (-> & l1 & l2 & Hl & -> & ->). cbn [fst snd]. pose proof Hr as Hr'. rewrite Hl in Hr'.
    rewrite (rep_first _ _ _ Hr'). destruct l2 as [|b l2].
    + apply wp_ret. by rewrite app_nil_r in Hl; subst.
    + wp_step. eapply wp_try_gets; [by eapply seg_mid, r_seg|]. apply wp_ret. cbn [m_next].
      exists (length l2). split; [cbn; lia|]. split; [done|]. exists (l1 ++ [b]), l2.
      rewrite <- app_assoc. split_and!; [done..|]. f_equal. rewrite Hstep, Hsum. cbn [m_is_free m_size].
      by rewrite wrap64_idemp.
  - split; [done|]. exists [], l. split_and!; [done..|]. by rewrite (r_head _ _ Hr).
  - apply Nat.lt_succ_r. by apply rep_length.
Qed.

End inv.

(** ** Properties *)

#[export] Instance malloc2_allocator OS `{OSOps OS, !OSModel OS} : Allocator (state OS) := {
  al_malloc := smalloc;
  al_calloc := scalloc;
  al_free := sfree;
  al_realloc := srealloc;
  al_store := memset;
  al_read := fun s x => bytes (mm s) !! x;
  al_inv := inv;
  al_grant := fun n => n;
}.

Section props.
Context {OS : Type} {OO : OSOps OS} {OM : OSModel OS}.
Implicit Types (s : state OS) (l : list block) (L : gmap Z Z).

Lemma fresh_inv (o : OS) : inv (fresh o) ∅.
Proof.
  exists []. split; [split; cbn; try done; [pose proof (brk_range o); lia|by intros b x Hb%not_elem_of_nil]|].
  intros p n. rewrite lookup_empty. split; [done|by intros Hb%not_elem_of_nil].
Qed.

Lemma m2_keeps_same_data L s s' : keeps L s s' -> same_data L s s'.
Proof. intros Hk p n i Hp Hi. apply (Hk p n _ Hp). unfold in_range. lia. Qed.

(** C8: [malloc_2.cpp] keeps the allocator contract, with blocks at least as
    large as the request: every operation runs without undefined behaviour and
    terminates, blocks handed out are disjoint from the live ones, and payloads
    survive the other operations. *)
Theorem malloc2_contract :
  AllocatorSpec (state OS) /\ (forall o : OS, al_inv (fresh o) ∅) /\ forall n, al_grant (S := state OS) n = n.
Proof.
  split; [|split; [apply fresh_inv|done]].
  split; cbn [al_malloc al_calloc al_free al_realloc al_store al_read al_inv al_grant malloc2_allocator].
  - apply inv_separated.
  - done.
  - intros n s L Hn Hi. eapply m2_wp_smalloc; [done|lia| |].
    + split; [by intros ????|by left].
    + intros p m s' _ Hv Hm HN Hk Hi'. split; [by apply m2_keeps_same_data|]. right. split; [done|]. by exists m.
  - cbn zeta. intros num size s L _ _ Hi. pose proof (wrap64_range (num * size)). unfold scalloc. cbn zeta.
    assert (Hno : forall L, same_data L s s) by by intros ????.
    wp_step; [apply wp_ret; by left|]. wp_step; [apply wp_ret; by left|].
    wp_step. eapply m2_wp_smalloc; [done|lia|apply wp_ret; by left|].
    intros p m s1 Hp _ Hm HN Hk Hi1. unfold nullptr. rewrite (proj2 (Z.eqb_neq p 0)) by lia.
    wp_step. eapply wp_zero_block; [exact Hi1|done|exact Hk|done|]. intros s2 Hk2 Hi2 Hz.
    apply wp_ret. right. unfold MAX_ALLOC_SIZE in *. split_and!; [lia..|]. exists m. left.
    split; [done|]. split; [done|]. split; [by apply m2_keeps_same_data|done].
  - intros p n s L Hi Hp. eapply wp_sfree; [done..|]. intros s' Hb Hi'. split; [|done].
    intros q k i _ _. cbn. by rewrite Hb.
  - done.
  - intros n s _. unfold srealloc, smalloc. by destruct (_ || _).
  - intros p n size s L Hs Hi Hp. eapply wp_srealloc; [done..|lia| |].
    + intros s' Hk Hi'. left. split; [done|]. split; [done|by apply m2_keeps_same_data].
    + intros q m s' Hv Hm HN Hi' Hk Hc. right. split; [done|]. exists m.
      split_and!; [done|done|by apply m2_keeps_same_data|exact Hc].
  - intros p n d b k s L Hi Hp Hd Hk Hdk. apply wp_modify. split.
    + by eapply inv_store.
    + intros x. apply fill_bytes_lookup.
Qed.

(** C39: First fit.  [smalloc] hands out the lowest free block that is large
    enough, changing nothing but its flag.  Without one it asks [sbrk] for a
    header and the requested bytes: when [sbrk] fails, so does [smalloc],
    changing nothing; otherwise a block of exactly the requested size at the
    program break joins the end of the list, and no byte below it changes. *)
Theorem smalloc_first_fit n s l (Hr : rep s l) (Hv : valid_request n = true) (Hn : 0 <= n) :
  let growth := sbrk (sizeof_MallocMetadata + n) (os s) in
  wp (smalloc n) (fun p s' =>
    (exists l1 b l2 m, l = l1 ++ b :: l2 /\ Forall (fun c => fits n c = false) l1 /\ fits n b = true /\
       p = ptr_from_meta (b_addr b) /\
       mem_upd_hdr (b_addr b) (with_is_free false) (mm s) = Some m /\ s' = State m (g_head s) (os s) /\
       rep s' (l1 ++ Block (b_addr b) (b_size b) false :: l2)) \/
    (Forall (fun c => fits n c = false) l /\
       if fst growth =? MAP_FAILED then p = nullptr /\ s' = s
       else p = ptr_from_meta (brk (os s)) /\ growth = (brk (os s), os s') /\
            rep s' (l ++ [Block (brk (os s)) n false]) /\
            forall x, x < brk (os s) -> bytes (mm s') !! x = bytes (mm s) !! x)) s.
Proof.
  cbn zeta. unfold smalloc. unfold valid_request in Hv. unfold MAX_ALLOC_SIZE.
  apply andb_prop in Hv as [H1%negb_true_iff H2%negb_true_iff]. rewrite H1, H2. cbn [orb].
  wp_step. apply (wp_find_free n s l); [done| |].
  - intros Hnone. cbn [negb Z.eqb nullptr]. wp_step.
    eapply wp_alloc_new_block; [done|unfold MAX_ALLOC_SIZE; lia| |].
    + intros Hf. apply wp_ret. right. by rewrite Hf, Z.eqb_refl.
    + intros m s' Hm -> Hs Hr' Hb. unfold nullptr. rewrite (proj2 (Z.eqb_neq _ 0)) by lia. apply wp_ret.
      right. rewrite Hs. cbn [fst]. by rewrite (proj2 (Z.eqb_neq _ _)) by (unfold MAP_FAILED; pose proof (brk_range (os s)); lia).
  - intros l1 b l2 -> Hl1 Hf. destruct (rep_range _ _ b Hr) as [Hb0 _]; [set_solver|].
    unfold nullptr. rewrite (proj2 (Z.eqb_neq (b_addr b) 0)) by lia. cbn [negb].
    destruct (m2_rep_flag _ _ _ _ false Hr) as (m & Hm & Hby & Hr').
    wp_step. unfold upd. eapply wp_try_modify; [cbn; by rewrite Hm|]. apply wp_ret.
    left. by exists l1, b, l2, m.
Qed.

(** The statistics count the list: free blocks and their bytes, all blocks
    and their bytes, one header each. *)
Theorem malloc2_statistics s l (Hr : rep s l) :
  let count (f : block -> bool) := wrap64 (sumZ ((fun b => if f b then 1 else 0) <$> l)) in
  let total (f : block -> bool) := wrap64 (sumZ ((fun b => if f b then b_size b else 0) <$> l)) in
  wp (let* fb := _num_free_blocks in let* fy := _num_free_bytes in
      let* ab := _num_allocated_blocks in let* ay := _num_allocated_bytes in
      let* md := _num_meta_data_bytes in ret (fb, fy, ab, ay, md))
    (fun r s' => s' = s /\
       r = (count b_free, total b_free, count (fun _ => true), total (fun _ => true),
            wrap64 (count (fun _ => true) * sizeof_MallocMetadata))) s.
Proof.
  cbn zeta. wp_step. apply (wp_list_fold _ (fun f _ => if f then 1 else 0) s l); [by intros c []; destruct m_is_free0; cbn; lia|done|].
  wp_step. apply (wp_list_fold _ (fun f z => if f then z else 0) s l); [by intros c []; destruct m_is_free0; cbn; lia|done|].
  wp_step. apply (wp_list_fold _ (fun _ _ => 1) s l); [done|done|].
  wp_step. apply (wp_list_fold _ (fun _ z => z) s l); [done|done|].
  wp_step. unfold _num_meta_data_bytes. wp_step.
  apply (wp_list_fold _ (fun _ _ => 1) s l); [done|done|]. apply wp_ret, wp_ret. done.
Qed.

End props.

(** A defect: [num * size] is not checked for overflow.  A request for
    [2^62 + 1] elements of 4 bytes succeeds with a block of 4 bytes. *)
Theorem scalloc_overflow :
  match scalloc (2 ^ 62 + 1) 4 (fresh toy0) with
  | Ok (p, s) => p <> nullptr /\ m_size <$> hdrs (mm s) !! meta_from_ptr p = Some 4
  | Err _ => False
  end.
Proof. vm_compute. done. Qed.

(** ** Concrete runs *)

Lemma malloc2_contract_witness :
  AllocatorSpec (state toy) /\
  match smalloc 100 (fresh toy0) with Ok (p, _) => p = 4128 | Err _ => False end.
Proof. split; [apply malloc2_contract|vm_compute; done]. Defined.

Lemma smalloc_first_fit_witness :
  exists p s, smalloc 10 (fresh toy0) = Ok (p, s) /\ p = ptr_from_meta (brk toy0).
Proof.
  assert (Hr : rep (fresh toy0) []).
  { split; cbn; try done. by intros b x Hb%not_elem_of_nil. }
  destruct (wp_run _ _ _ (smalloc_first_fit 10 (fresh toy0) [] Hr eq_refl ltac:(done)))
    as (p & s & E & [(l1 & b & l2 & m & Hl & _)|(_ & Hp & _)]); [by destruct l1|].
  exists p, s. split; [exact E|exact Hp].
Defined.

Lemma malloc2_statistics_witness :
  exists r, (let* fb := _num_free_blocks in let* fy := _num_free_bytes in
      let* ab := _num_allocated_blocks in let* ay := _num_allocated_bytes in
      let* md := _num_meta_data_bytes in ret (fb, fy, ab, ay, md)) (fresh toy0) = Ok (r, fresh toy0).
Proof.
  assert (Hr : rep (fresh toy0) []).
  { split; cbn; try done. by intros b x Hb%not_elem_of_nil. }
  destruct (wp_run _ _ _ (malloc2_statistics (fresh toy0) [] Hr)) as (r & s & E & -> & _). by exists r.
Defined.
