(* ===== verification/Buddy.v ===== *)
(** * The buddy allocator core

    The part [memory-allocator/malloc_3.cpp] and [memory-allocator/malloc_4.cpp]
    share: the metadata, the sorted free lists, buddy addresses, splitting,
    merging and the statistics.  The two files differ in one member of the
    struct ([is_huge], only in [malloc_4.cpp]): the header is parameterised by
    the type [X] of the members between [is_mmap] and the links, and by the
    value [x0] they get in a buddy block ([tt] and [false]). *)

From S2P Require Import Prelude Memory OS.

(** ** Constants *)

Definition MAX_ALLOC_SIZE : Z := 100000000.
Definition MAX_ORDER : nat := 10.
Definition MIN_BLOCK_SIZE : Z := 128.
Definition INITIAL_BLOCKS : Z := 32.
Definition MMAP_THRESHOLD : Z := 128 * 1024.
Definition TOTAL_HEAP_SIZE : Z := INITIAL_BLOCKS * MMAP_THRESHOLD.

(** ** State *)

Record MallocMetadata (X : Type) := MkMeta {
  m_size : Z;
  m_is_free : bool;
  m_is_mmap : bool;
  m_ext : X;
  m_next : Z;
  m_prev : Z;
}.
Arguments MkMeta {X} _ _ _ _ _ _.
Arguments m_size {X} _.
Arguments m_is_free {X} _.
Arguments m_is_mmap {X} _.
Arguments m_ext {X} _.
Arguments m_next {X} _.
Arguments m_prev {X} _.

Record heap (X OS : Type) := Heap {
  mm : mem (MallocMetadata X);
  free_lists : list Z;
  mmap_list : Z;
  heap_base : Z;
  initialized : bool;
  os : OS;
}.
Arguments Heap {X OS} _ _ _ _ _ _.
Arguments mm {X OS} _.
Arguments free_lists {X OS} _.
Arguments mmap_list {X OS} _.
Arguments heap_base {X OS} _.
Arguments initialized {X OS} _.
Arguments os {X OS} _.

Section updates.
Context {X OS : Type}.

Definition with_size (v : Z) (h : MallocMetadata X) : MallocMetadata X :=
  MkMeta v (m_is_free h) (m_is_mmap h) (m_ext h) (m_next h) (m_prev h).
Definition with_is_free (b : bool) (h : MallocMetadata X) : MallocMetadata X :=
  MkMeta (m_size h) b (m_is_mmap h) (m_ext h) (m_next h) (m_prev h).
Definition with_next (v : Z) (h : MallocMetadata X) : MallocMetadata X :=
  MkMeta (m_size h) (m_is_free h) (m_is_mmap h) (m_ext h) v (m_prev h).
Definition with_prev (v : Z) (h : MallocMetadata X) : MallocMetadata X :=
  MkMeta (m_size h) (m_is_free h) (m_is_mmap h) (m_ext h) (m_next h) v.

Definition with_mm (m : mem (MallocMetadata X)) (s : heap X OS) : heap X OS :=
  Heap m (free_lists s) (mmap_list s) (heap_base s) (initialized s) (os s).
Definition with_free_lists (l : list Z) (s : heap X OS) : heap X OS :=
  Heap (mm s) l (mmap_list s) (heap_base s) (initialized s) (os s).
Definition with_mmap_list (v : Z) (s : heap X OS) : heap X OS :=
  Heap (mm s) (free_lists s) v (heap_base s) (initialized s) (os s).
Definition with_heap_base (v : Z) (s : heap X OS) : heap X OS :=
  Heap (mm s) (free_lists s) (mmap_list s) v (initialized s) (os s).
Definition with_initialized (b : bool) (s : heap X OS) : heap X OS :=
  Heap (mm s) (free_lists s) (mmap_list s) (heap_base s) b (os s).
Definition with_os (o : OS) (s : heap X OS) : heap X OS :=
  Heap (mm s) (free_lists s) (mmap_list s) (heap_base s) (initialized s) o.

End updates.

#[export, program] Instance heap_mem X OS : HasMem (heap X OS) (MallocMetadata X) := {
  get_mem := mm;
  set_mem := with_mm;
}.
Next Obligation. done. Qed.

(** The static data at program start. *)
Definition fresh_heap {X OS} (o : OS) : heap X OS :=
  Heap (Mem ∅ ∅) (replicate (S MAX_ORDER) nullptr) nullptr nullptr false o.

(** ** Orders and sizes *)

Definition block_size (order : nat) : Z := wrap64 (Z.shiftl MIN_BLOCK_SIZE (Z.of_nat order)).

(** The loop [while (bsz < n && order < MAX_ORDER) { order++; bsz <<= 1; }],
    shared by [size_to_order] and [get_order]. *)
Fixpoint order_loop (fuel : nat) (n bsz : Z) (order : nat) : nat :=
  match fuel with
  | O => order
  | S fuel' =>
      if (bsz <? n) && (order <? MAX_ORDER)%nat
      then order_loop fuel' n (wrap64 (Z.shiftl bsz 1)) (S order)
      else order
  end.

Definition size_to_order (usable_size : Z) : nat :=
  let total_needed := wrap64 (usable_size + sizeof_MallocMetadata) in
  order_loop (S MAX_ORDER) total_needed MIN_BLOCK_SIZE 0.

Section core.
Context {X OS : Type} (x0 : X).

Abbreviation St := (heap X OS).

(** [free_lists[order]]; an index past the array is undefined. *)
Definition fl_get (order : nat) : M St Z := try_gets (fun s => free_lists s !! order).

Definition fl_set (order : nat) (v : Z) : M St unit :=
  try_modify (fun s =>
    match free_lists s !! order with
    | Some _ => Some (with_free_lists (<[order := v]> (free_lists s)) s)
    | None => None
    end).

Definition when (b : bool) (m : M St unit) : M St unit := if b then m else ret tt.

(** ** Free lists *)

(** [while (cur->next && cur->next < m) cur = cur->next;] *)
Definition fl_walk (m cur : Z) : M St Z :=
  let* fuel := walk_fuel in
  iter fuel (fun cur =>
    let* c := ld cur in
    ret (if negb (m_next c =? nullptr) && (m_next c <? m)
         then inl (m_next c) else inr cur)) cur.

Definition fl_insert (order : nat) (m : Z) : M St unit :=
  upd m (fun h => with_prev nullptr (with_next nullptr (with_is_free true h))) ;;*
  let* head := fl_get order in
  if (head =? nullptr) || (m <? head) then
    upd m (with_next head) ;;*
    when (negb (head =? nullptr)) (upd head (with_prev m)) ;;*
    fl_set order m
  else
    let* cur := fl_walk m head in
    let* c := ld cur in
    upd m (fun h => with_prev cur (with_next (m_next c) h)) ;;*
    when (negb (m_next c =? nullptr)) (upd (m_next c) (with_prev m)) ;;*
    upd cur (with_next m).

(** The unlinking that [fl_remove] and [mmap_free] begin with; [set_head]
    assigns the head of the list in question. *)
Definition unlink (set_head : Z -> M St unit) (m : Z) : M St unit :=
  let* h := ld m in
  (if negb (m_prev h =? nullptr)
   then upd (m_prev h) (with_next (m_next h))
   else set_head (m_next h)) ;;*
  let* h := ld m in
  when (negb (m_next h =? nullptr)) (upd (m_next h) (with_prev (m_prev h))).

Definition fl_remove (order : nat) (m : Z) : M St unit :=
  unlink (fl_set order) m ;;*
  upd m (with_prev nullptr) ;;*
  upd m (with_next nullptr).

(** ** Buddies *)

Definition buddy_of (base m : Z) (order : nat) : Z :=
  let offset := wrap64 (m - base) in
  let buddy_offset := Z.lxor offset (block_size order) in
  base + buddy_offset.

Definition get_buddy (m : Z) (order : nat) : M St Z :=
  gets (fun s => buddy_of (heap_base s) m order).

Definition get_order (m : Z) : M St nat :=
  let* h := ld m in
  ret (order_loop (S MAX_ORDER) (m_size h) MIN_BLOCK_SIZE 0).

(** The test under which the merging loops leave: the buddy lies outside the
    heap, is not free, or has another size. *)
Definition buddy_stops (buddy : Z) (order : nat) : M St bool :=
  let* base := gets heap_base in
  if (buddy <? base) || (base + TOTAL_HEAP_SIZE <=? buddy) then ret true
  else
    let* b := ld buddy in
    ret (negb (m_is_free b) || negb (m_size b =? block_size order)).

(** ** Initial blocks *)

Definition init_block (i : Z) : M St unit :=
  let* base := gets heap_base in
  let m := base + i * MMAP_THRESHOLD in
  new_hdr m (MkMeta MMAP_THRESHOLD true false x0 nullptr nullptr) ;;*
  fl_insert MAX_ORDER m.

Definition init_blocks : M St unit := for_each init_block (seqZ 0 INITIAL_BLOCKS).

(** ** Splitting and merging *)

Definition split_block (m : Z) (order : nat) : M St Z :=
  fl_remove order m ;;*
  let new_order := (order - 1)%nat in
  let new_size := block_size new_order in
  upd m (fun h => with_is_free false (with_size new_size h)) ;;*
  let buddy := m + new_size in
  new_hdr buddy (MkMeta new_size true false x0 nullptr nullptr) ;;*
  fl_insert new_order buddy ;;*
  ret m.

(** [while (ord > target_order) { m = split_block(m, ord); ord--; }] *)
Definition split_down (target_order : nat) (m : Z) (ord : nat) : M St Z :=
  let* mo := iter (S (S MAX_ORDER)) (fun mo =>
    if (target_order <? snd mo)%nat then
      let* m' := split_block (fst mo) (snd mo) in
      ret (inl (m', (snd mo - 1)%nat))
    else ret (inr mo)) (m, ord) in
  ret (fst mo).

Definition buddy_alloc (usable_size : Z) : M St Z :=
  let target_order := size_to_order usable_size in
  if (MAX_ORDER <? target_order)%nat then ret nullptr
  else
    iter (S (S MAX_ORDER)) (fun ord =>
      if (ord <=? MAX_ORDER)%nat then
        let* head := fl_get ord in
        if head =? nullptr then ret (inl (S ord))
        else
          let* m := split_down target_order head ord in
          fl_remove target_order m ;;*
          upd m (with_is_free false) ;;*
          ret (inr m)
      else ret (inr nullptr)) target_order.

Definition buddy_free_and_merge (m : Z) : M St unit :=
  let* order := get_order m in
  let* mo := iter (S (S MAX_ORDER)) (fun mo =>
    if (snd mo <? MAX_ORDER)%nat then
      let* buddy := get_buddy (fst mo) (snd mo) in
      let* stop := buddy_stops buddy (snd mo) in
      if (stop : bool) then ret (inr mo)
      else
        fl_remove (snd mo) buddy ;;*
        let m' := if buddy <? fst mo then buddy else fst mo in
        let order' := S (snd mo) in
        upd m' (with_size (block_size order')) ;;*
        ret (inl (m', order'))
    else ret (inr mo)) (m, order) in
  upd (fst mo) (with_is_free true) ;;*
  fl_insert (snd mo) (fst mo).

(** The loop of [srealloc] that merges [merged] with its buddies up to order
    [ord]. *)
Definition merge_up (ord : nat) (merged : Z) (merge_ord : nat) : M St Z :=
  let* mo := iter (S (S MAX_ORDER)) (fun mo =>
    if (snd mo <? ord)%nat then
      let* b := get_buddy (fst mo) (snd mo) in
      fl_remove (snd mo) b ;;*
      let merged' := if b <? fst mo then b else fst mo in
      let merge_ord' := S (snd mo) in
      upd merged' (with_size (block_size merge_ord')) ;;*
      ret (inl (merged', merge_ord'))
    else ret (inr mo)) (merged, merge_ord) in
  ret (fst mo).

(** The loop of [srealloc] that simulates merging: when the block of order
    [ord] it would reach has [size] usable bytes, the body [on_fit ord] of the
    innermost [if] runs and returns from [srealloc]. *)
Definition merge_search (on_fit : nat -> M St Z) (size m : Z) (orig_order : nat) : M St (option Z) :=
  iter (S (S MAX_ORDER)) (fun co =>
    if (snd co <? MAX_ORDER)%nat then
      let* buddy := get_buddy (fst co) (snd co) in
      let* stop := buddy_stops buddy (snd co) in
      if (stop : bool) then ret (inr None)
      else
        let cur' := if buddy <? fst co then buddy else fst co in
        let ord' := S (snd co) in
        if size <=? wrap64 (block_size ord' - sizeof_MallocMetadata) then
          let* p := on_fit ord' in
          ret (inr (Some p))
        else ret (inl (cur', ord'))
    else ret (inr None)) (m, orig_order).

(** ** User pointers *)

Definition meta_from_ptr (p : Z) : Z := p - sizeof_MallocMetadata.
Definition ptr_from_meta (m : Z) : Z := m + sizeof_MallocMetadata.

(** ** Statistics *)

(** [for (m = head; m; m = m->next) acc = step(acc, m);] *)
Definition list_fold (step : Z -> MallocMetadata X -> Z) (head acc : Z) : M St Z :=
  let* fuel := walk_fuel in
  iter fuel (fun ma =>
    if fst ma =? nullptr then ret (inr (snd ma))
    else
      let* h := ld (fst ma) in
      ret (inl (m_next h, wrap64 (step (snd ma) h)))) (head, acc).

Fixpoint orders_fold (step : Z -> MallocMetadata X -> Z) (orders : list nat) (acc : Z) : M St Z :=
  match orders with
  | [] => ret acc
  | ord :: orders' =>
      let* head := fl_get ord in
      let* acc := list_fold step head acc in
      orders_fold step orders' acc
  end.

Definition _num_free_blocks : M St Z :=
  orders_fold (fun c _ => c + 1) (seq 0 (S MAX_ORDER)) 0.

Definition _num_free_bytes : M St Z :=
  orders_fold (fun b h => b + (m_size h - sizeof_MallocMetadata)) (seq 0 (S MAX_ORDER)) 0.

(** [count_all_buddy]: the pair ([*blocks], [*bytes]). *)
Definition count_all_buddy : M St (Z * Z) :=
  let* base := gets heap_base in
  if base =? nullptr then ret (0, 0)
  else
    let* fuel := walk_fuel in
    let* r := iter fuel (fun pbb =>
      let '(ptr, (blocks, nbytes)) := (pbb : Z * (Z * Z)) in
      if ptr <? base + TOTAL_HEAP_SIZE then
        let* m := ld ptr in
        if m_size m =? 0 then ret (inr (blocks, nbytes))
        else ret (inl (ptr + m_size m,
                       (wrap64 (blocks + 1),
                        wrap64 (nbytes + (m_size m - sizeof_MallocMetadata)))))
      else ret (inr (blocks, nbytes))) (base, (0, 0)) in
    ret r.

Definition _num_allocated_blocks : M St Z :=
  let* bb := count_all_buddy in
  let* head := gets mmap_list in
  list_fold (fun b _ => b + 1) head (fst bb).

Definition _num_allocated_bytes : M St Z :=
  let* bb := count_all_buddy in
  let* head := gets mmap_list in
  list_fold (fun b h => b + m_size h) head (snd bb).

Definition _num_meta_data_bytes : M St Z :=
  let* n := _num_allocated_blocks in
  ret (wrap64 (n * sizeof_MallocMetadata)).

Definition _size_meta_data : M St Z := ret sizeof_MallocMetadata.

(** ** Releasing a block *)

Definition set_mmap_list (v : Z) : M St unit := modify (with_mmap_list v).

(** A system call of the class [OSOps]. *)
Definition os_call {A} (f : OS -> A * OS) : M St A :=
  fun s => let '(a, o) := f (os s) in Ok (a, with_os o s).

(** [munmap]: the objects of the range are gone with their memory. *)
Definition unmap_mem (p n : Z) (m : mem (MallocMetadata X)) : mem (MallocMetadata X) :=
  Mem (clobber p n (hdrs m)) (bytes_outside p n (bytes m)).

Context `{OSOps OS}.

Definition mmap_free (m : Z) : M St unit :=
  unlink set_mmap_list m ;;*
  let* h := ld m in
  let total := wrap64 (sizeof_MallocMetadata + m_size h) in
  modify (fun s => with_os (munmap m total (os s)) (with_mm (unmap_mem m total (mm s)) s)).

(** [m->size = usable; ... m->next = mmap_list; ... mmap_list = m;], the
    header of a new mapping pushed on the front of [mmap_list]. *)
Definition mmap_push (m usable : Z) (ext : X) : M St unit :=
  let* head := gets mmap_list in
  new_hdr m (MkMeta usable false true ext head nullptr) ;;*
  when (negb (head =? nullptr)) (upd head (with_prev m)) ;;*
  set_mmap_list m.

Definition sfree (p : Z) : M St unit :=
  if p =? nullptr then ret tt
  else
    let m := meta_from_ptr p in
    let* h := ld m in
    if m_is_free h then ret tt
    else if m_is_mmap h then mmap_free m
    else buddy_free_and_merge m.

End core.
