(* ===== verification/BuddyView.v ===== *)
(** * Reasoning about the buddy allocator's memory

    A heap seen as two maps, the attributes and the links of the headers, with
    the list heads, the payload bytes and the rest of the state beside them.
    The free-list operations act on the links only; the size and flag
    assignments act on the attributes only. *)

From S2P Require Import Prelude Memory OS Buddy.

Abbreviation attr X := (prod (prod (prod Z bool) bool) X).

Record view (X OS : Type) := View {
  vA : gmap Z (attr X);
  vL : gmap Z (Z * Z);
  vfl : list Z;
  vml : Z;
  vbytes : gmap Z Z;
  vbase : Z;
  vinit : bool;
  vos : OS;
}.
Arguments View {X OS} _ _ _ _ _ _ _ _.
Arguments vA {X OS} _.
Arguments vL {X OS} _.
Arguments vfl {X OS} _.
Arguments vml {X OS} _.
Arguments vbytes {X OS} _.
Arguments vbase {X OS} _.
Arguments vinit {X OS} _.
Arguments vos {X OS} _.

Section views.
Context {X OS : Type}.

Definition attrs (h : MallocMetadata X) : attr X := (m_size h, m_is_free h, m_is_mmap h, m_ext h).
Definition lnk (h : MallocMetadata X) : Z * Z := (m_next h, m_prev h).

Definition hdr_of (a : attr X) (l : Z * Z) : MallocMetadata X :=
  let '(sz, fr, mp, x) := a in MkMeta sz fr mp x (fst l) (snd l).

Definition a_size (a : attr X) : Z := let '(sz, _, _, _) := a in sz.
Definition a_mmap (a : attr X) : bool := let '(_, _, mp, _) := a in mp.
Definition set_a_size (v : Z) (a : attr X) : attr X := let '(_, fr, mp, x) := a in (v, fr, mp, x).
Definition set_a_free (b : bool) (a : attr X) : attr X := let '(sz, _, mp, x) := a in (sz, b, mp, x).

Definition view_of (s : heap X OS) : view X OS :=
  View (attrs <$> hdrs (mm s)) (lnk <$> hdrs (mm s)) (free_lists s) (mmap_list s)
       (bytes (mm s)) (heap_base s) (initialized s) (os s).

Definition v_upd_A (f : attr X -> attr X) (a : Z) (v : view X OS) : view X OS :=
  View (alter f a (vA v)) (vL v) (vfl v) (vml v) (vbytes v) (vbase v) (vinit v) (vos v).
Definition v_upd_L (f : Z * Z -> Z * Z) (a : Z) (v : view X OS) : view X OS :=
  View (vA v) (alter f a (vL v)) (vfl v) (vml v) (vbytes v) (vbase v) (vinit v) (vos v).
Definition v_set_fl (l : list Z) (v : view X OS) : view X OS :=
  View (vA v) (vL v) l (vml v) (vbytes v) (vbase v) (vinit v) (vos v).
Definition v_set_ml (h : Z) (v : view X OS) : view X OS :=
  View (vA v) (vL v) (vfl v) h (vbytes v) (vbase v) (vinit v) (vos v).
Definition v_new (a : Z) (at_ : attr X) (l : Z * Z) (v : view X OS) : view X OS :=
  View (<[a := at_]> (clobber a sizeof_MallocMetadata (vA v)))
       (<[a := l]> (clobber a sizeof_MallocMetadata (vL v)))
       (vfl v) (vml v) (bytes_outside a sizeof_MallocMetadata (vbytes v))
       (vbase v) (vinit v) (vos v).

(** ** Weakest preconditions over views *)

Definition wpv {A} (m : M (heap X OS) A) (Q : A -> view X OS -> Prop) (v : view X OS) : Prop :=
  forall s, view_of s = v -> wp m (fun a s' => Q a (view_of s')) s.

Lemma wpv_wp {A} (m : M (heap X OS) A) Q s :
  wpv m Q (view_of s) -> wp m (fun a s' => Q a (view_of s')) s.
Proof. intros Hm. by apply Hm. Qed.

Lemma wpv_to_wp {A} (m : M (heap X OS) A) (Q : A -> heap X OS -> Prop) s :
  wpv m (fun a v' => forall s', view_of s' = v' -> Q a s') (view_of s) -> wp m Q s.
Proof. intros Hm. eapply wp_mono; [by apply Hm|]. cbn. eauto. Qed.

Lemma wpv_mono {A} (m : M (heap X OS) A) (P Q : A -> view X OS -> Prop) v :
  wpv m P v -> (forall a v', P a v' -> Q a v') -> wpv m Q v.
Proof. intros Hm HPQ s Hs. eapply wp_mono; [by apply Hm|]. eauto. Qed.

Lemma wpv_ret {A} (a : A) Q v : Q a v -> wpv (ret a) Q v.
Proof. by intros HQ s <-. Qed.

Lemma wpv_bind {A B} (m : M (heap X OS) A) (f : A -> M (heap X OS) B) Q v :
  wpv m (fun a v' => wpv (f a) Q v') v -> wpv (bind m f) Q v.
Proof.
  intros Hm s Hs. apply wp_bind. eapply wp_mono; [by apply Hm|].
  cbn. intros a s' Hf. by apply Hf.
Qed.

Lemma wpv_assoc {A B C} (m : M (heap X OS) A) (f : A -> M (heap X OS) B)
    (g : B -> M (heap X OS) C) Q v :
  wpv (bind (bind m f) g) Q v -> wpv (bind m (fun x => bind (f x) g)) Q v.
Proof.
  intros Hm s Hs. specialize (Hm s Hs). revert Hm. unfold wp, bind.
  by destruct (m s) as [[a s']|].
Qed.

Lemma wpv_iter {I R} (Inv : nat -> I -> view X OS -> Prop)
    (body : I -> M (heap X OS) (I + R)) (Q : R -> view X OS -> Prop) :
  (forall n i v, Inv n i v ->
     wpv (body i) (fun r v' => match r with
                               | inl i' => exists n', (n' < n)%nat /\ Inv n' i' v'
                               | inr r => Q r v'
                               end) v) ->
  forall fuel n i v, Inv n i v -> (n < fuel)%nat -> wpv (iter fuel body i) Q v.
Proof.
  intros Hbody fuel n i v Hi Hn s Hs.
  eapply (wp_iter (fun n i s => Inv n i (view_of s))); [|by rewrite Hs|done].
  intros n' i' s' Hi'. eapply wp_mono; [by eapply Hbody|].
  intros [i''|r] s''; done.
Qed.

Lemma wpv_for_each {A} (Inv : list A -> view X OS -> Prop) (f : A -> M (heap X OS) unit) l v :
  (forall x l' v', Inv (x :: l') v' -> wpv (f x) (fun _ v'' => Inv l' v'') v') ->
  Inv l v -> wpv (for_each f l) (fun _ v' => Inv [] v') v.
Proof.
  intros Hf Hl s Hs. apply (wp_for_each (fun l s => Inv l (view_of s))); [|by rewrite Hs].
  intros x l' s' Hi. exact (Hf x l' _ Hi s' eq_refl).
Qed.

Lemma hdr_of_attrs h : hdr_of (attrs h) (lnk h) = h.
Proof. by destruct h. Qed.

(** The view determines the state. *)
Lemma view_of_inj s s' : view_of s = view_of s' -> s = s'.
Proof.
  destruct s as [[hs bs] fl ml hb i o], s' as [[hs' bs'] fl' ml' hb' i' o'].
  unfold view_of. cbn. intros [= HA HL -> -> -> -> -> ->]. f_equal. f_equal.
  apply map_eq. intros a.
  pose proof (f_equal (lookup a) HA) as HAa. pose proof (f_equal (lookup a) HL) as HLa.
  rewrite !lookup_fmap in HAa. rewrite !lookup_fmap in HLa.
  destruct (hs !! a) as [h|], (hs' !! a) as [h'|]; try done.
  cbn in HAa, HLa. injection HAa as E1 E2 E3 E4. injection HLa as E5 E6.
  f_equal. destruct h, h'. cbn in *. congruence.
Qed.

Lemma wpv_ld a at_ l Q (v : view X OS) :
  vA v !! a = Some at_ -> vL v !! a = Some l -> Q (hdr_of at_ l) v -> wpv (ld a) Q v.
Proof.
  intros HA HL HQ s <-. unfold view_of in HA, HL. cbn [vA vL] in HA, HL.
  rewrite lookup_fmap in HA. rewrite lookup_fmap in HL.
  destruct (hdrs (mm s) !! a) as [h|] eqn:E; [|done].
  injection HA as <-. injection HL as <-. rewrite hdr_of_attrs in HQ.
  by eapply wp_try_gets.
Qed.

Lemma wpv_upd a f Q (v : view X OS) at_ l :
  vA v !! a = Some at_ -> vL v !! a = Some l ->
  Q tt (View (<[a := attrs (f (hdr_of at_ l))]> (vA v)) (<[a := lnk (f (hdr_of at_ l))]> (vL v))
             (vfl v) (vml v) (vbytes v) (vbase v) (vinit v) (vos v)) ->
  wpv (upd a f) Q v.
Proof.
  intros HA HL HQ s <-. unfold view_of in HA, HL. cbn [vA vL] in HA, HL.
  rewrite lookup_fmap in HA. rewrite lookup_fmap in HL.
  destruct (hdrs (mm s) !! a) as [h|] eqn:E; [|done].
  injection HA as <-. injection HL as <-. rewrite hdr_of_attrs in HQ.
  eapply wp_try_modify.
  - unfold mem_upd_hdr. cbn [get_mem heap_mem]. by rewrite E.
  - unfold view_of. cbn. by rewrite !fmap_insert.
Qed.

Lemma alter_as_insert {V} (g : V -> V) (m : gmap Z V) a x :
  m !! a = Some x -> alter g a m = <[a := g x]> m.
Proof.
  intros Hx. apply map_eq. intros i. destruct (decide (i = a)) as [->|].
  - by rewrite lookup_alter_eq, Hx, lookup_insert_eq.
  - by rewrite lookup_alter_ne, lookup_insert_ne.
Qed.

(** The attributes and the links are those of the same headers. *)
Definition vok (v : view X OS) : Prop := forall a, is_Some (vA v !! a) <-> is_Some (vL v !! a).

Lemma view_of_ok s : vok (view_of s).
Proof. intros a. unfold view_of. cbn [vA vL]. by rewrite !lookup_fmap, !fmap_is_Some. Qed.

Lemma wpv_vok {A} (m : M (heap X OS) A) Q v : (vok v -> wpv m Q v) -> wpv m Q v.
Proof. intros Hm s <-. apply Hm; [apply view_of_ok|done]. Qed.

Lemma m_next_hdr_of (a : attr X) l : m_next (hdr_of a l) = fst l.
Proof. by destruct a as [[[? ?] ?] ?]. Qed.

Lemma m_prev_hdr_of (a : attr X) l : m_prev (hdr_of a l) = snd l.
Proof. by destruct a as [[[? ?] ?] ?]. Qed.

Lemma wpv_ld_links a l Q (v : view X OS) :
  vL v !! a = Some l ->
  (forall h, m_next h = fst l -> m_prev h = snd l -> vA v !! a = Some (attrs h) -> Q h v) ->
  wpv (ld a) Q v.
Proof.
  intros HL HQ. apply wpv_vok. intros Hok.
  destruct (proj2 (Hok a) (ex_intro _ l HL)) as [at_ HA]. eapply wpv_ld; [done..|].
  apply HQ; [apply m_next_hdr_of|apply m_prev_hdr_of|].
  by destruct at_ as [[[? ?] ?] ?].
Qed.

Lemma wpv_ld_attrs a at_ Q (v : view X OS) :
  vA v !! a = Some at_ -> (forall h, attrs h = at_ -> Q h v) -> wpv (ld a) Q v.
Proof.
  intros HA HQ. apply wpv_vok. intros Hok.
  destruct (proj1 (Hok a) (ex_intro _ at_ HA)) as [l HL]. eapply wpv_ld; [done..|].
  apply HQ. by destruct at_ as [[[? ?] ?] ?].
Qed.

Lemma alter_alter_insert {V} (f g : V -> V) (m : gmap Z V) a x :
  m !! a = Some x -> alter g a (alter f a m) = <[a := g (f x)]> m.
Proof.
  intros Hx. rewrite (alter_as_insert f m a x Hx).
  by rewrite (alter_as_insert g _ a (f x)), insert_insert_eq by apply lookup_insert_eq.
Qed.

(** Assignments to the links, and to the attributes. *)
Lemma wpv_upd_AL a f ga gl Q (v : view X OS) :
  (forall h, attrs (f h) = ga (attrs h)) -> (forall h, lnk (f h) = gl (lnk h)) ->
  is_Some (vL v !! a) -> Q tt (v_upd_A ga a (v_upd_L gl a v)) -> wpv (upd a f) Q v.
Proof.
  intros Hf Hg [l HL] HQ. apply wpv_vok. intros Hok.
  destruct (proj2 (Hok a) (ex_intro _ l HL)) as [at_ HA]. eapply wpv_upd; [done..|].
  rewrite Hf, Hg. destruct at_ as [[[sz fr] mp] x], l as [n p].
  change (attrs (hdr_of (sz, fr, mp, x) (n, p))) with (sz, fr, mp, x).
  change (lnk (hdr_of (sz, fr, mp, x) (n, p))) with (n, p).
  by rewrite <- (alter_as_insert ga), <- (alter_as_insert gl).
Qed.

Lemma wpv_upd_L a f g Q (v : view X OS) :
  (forall h, attrs (f h) = attrs h) -> (forall h, lnk (f h) = g (lnk h)) ->
  is_Some (vL v !! a) -> Q tt (v_upd_L g a v) -> wpv (upd a f) Q v.
Proof.
  intros Hf Hg [l HL] HQ. apply wpv_vok. intros Hok.
  destruct (proj2 (Hok a) (ex_intro _ l HL)) as [at_ HA]. eapply wpv_upd; [done..|].
  rewrite Hf, Hg. destruct at_ as [[[sz fr] mp] x], l as [n p].
  change (attrs (hdr_of (sz, fr, mp, x) (n, p))) with (sz, fr, mp, x).
  change (lnk (hdr_of (sz, fr, mp, x) (n, p))) with (n, p).
  rewrite insert_id by done. rewrite <- (alter_as_insert g) by done. done.
Qed.

Lemma wpv_upd_A a f g Q (v : view X OS) :
  (forall h, attrs (f h) = g (attrs h)) -> (forall h, lnk (f h) = lnk h) ->
  is_Some (vA v !! a) -> Q tt (v_upd_A g a v) -> wpv (upd a f) Q v.
Proof.
  intros Hf Hg [at_ HA] HQ. apply wpv_vok. intros Hok.
  destruct (proj1 (Hok a) (ex_intro _ at_ HA)) as [l HL]. eapply wpv_upd; [done..|].
  rewrite Hf, Hg. destruct at_ as [[[sz fr] mp] x], l as [n p].
  change (attrs (hdr_of (sz, fr, mp, x) (n, p))) with (sz, fr, mp, x).
  change (lnk (hdr_of (sz, fr, mp, x) (n, p))) with (n, p).
  rewrite (insert_id (vL v)) by done. rewrite <- (alter_as_insert g) by done. done.
Qed.

Lemma fmap_clobber {A B} (f : A -> B) d n (hs : gmap Z A) :
  f <$> clobber d n hs = clobber d n (f <$> hs).
Proof. unfold clobber. rewrite map_filter_fmap. done. Qed.

Lemma wpv_new_hdr a h Q (v : view X OS) :
  Q tt (v_new a (attrs h) (lnk h) v) -> wpv (new_hdr a h) Q v.
Proof.
  intros HQ s <-. apply wp_modify. unfold view_of, v_new in *. cbn in *.
  by rewrite !fmap_insert, !fmap_clobber.
Qed.

Lemma wpv_fl_get k x Q (v : view X OS) :
  vfl v !! k = Some x -> Q x v -> wpv (fl_get k) Q v.
Proof. intros Hx HQ s <-. by eapply wp_try_gets. Qed.

Lemma wpv_fl_set k x Q (v : view X OS) :
  is_Some (vfl v !! k) -> Q tt (v_set_fl (<[k := x]> (vfl v)) v) -> wpv (fl_set k x) Q v.
Proof.
  intros [y Hy] HQ s <-. cbn in Hy. unfold wp, fl_set, try_modify. rewrite Hy. exact HQ.
Qed.

Lemma wpv_set_mmap_list x Q (v : view X OS) :
  Q tt (v_set_ml x v) -> wpv (set_mmap_list x) Q v.
Proof. intros HQ s <-. by apply wp_modify. Qed.

Lemma wpv_walk_fuel Q (v : view X OS) :
  Q (S (size (vL v))) v -> wpv walk_fuel Q v.
Proof.
  intros HQ s <-. apply wp_gets. cbn in HQ. rewrite map_size_fmap in HQ. done.
Qed.

Lemma wpv_gets {A} (f : heap X OS -> A) g Q (v : view X OS) :
  (forall s, f s = g (view_of s)) -> Q (g v) v -> wpv (gets f) Q v.
Proof. intros Hf HQ s <-. apply wp_gets. by rewrite Hf. Qed.

Lemma wpv_modify (f : heap X OS -> heap X OS) g Q (v : view X OS) :
  (forall s, view_of (f s) = g (view_of s)) -> Q tt (g v) -> wpv (modify f) Q v.
Proof. intros Hf HQ s <-. apply wp_modify. by rewrite Hf. Qed.

Lemma wpv_when b m Q (v : view X OS) :
  (b = true -> wpv m Q v) -> (b = false -> Q tt v) -> wpv (when b m) Q v.
Proof. destruct b; intros H1 H2; [by apply H1|]. apply wpv_ret. by apply H2. Qed.

Lemma wpv_if {A} (b : bool) (m1 m2 : M (heap X OS) A) Q v :
  (b = true -> wpv m1 Q v) -> (b = false -> wpv m2 Q v) -> wpv (if b then m1 else m2) Q v.
Proof. destruct b; auto. Qed.

End views.

(** ** Concrete runs *)

(** The state a run leaves; the start state if the run fails. *)
Definition after {S A} (m : M S A) (s : S) : S := match m s with Ok (_, s') => s' | Err _ => s end.

Lemma wpv_after {X OS A} (m : M (heap X OS) A) Q s :
  wpv m Q (view_of s) -> exists a, m s = Ok (a, after m s) /\ Q a (view_of (after m s)).
Proof.
  intros Hm. apply wpv_wp, wp_run in Hm as (a & s' & E & HQ). exists a. unfold after.
  by rewrite E.
Qed.
