(* ===== verification/BuddyLists.v ===== *)
(** * The free lists and the mmap list

    The free blocks of an order are doubly linked in address order.  Their
    invariant [flinks] is local: [prev] inverts [next] between blocks of the
    same order, [next] points upwards, and the head of the list of an order
    is null or a block without predecessor.  It does not say that the head
    reaches every free block of the order, and the code does not establish
    that: [fl_remove] called on a block that is in no list clears the head.
    [heads_complete] is the additional property that does hold of the largest
    order.  The mmap list is an ordinary doubly-linked list. *)

From S2P Require Import Prelude Memory OS Buddy BuddyView.

Section lists.
Context {X OS : Type}.
Implicit Types (v : view X OS) (L : gmap Z (Z * Z)) (Fr : gmap Z nat).

(** ** Local well-formedness of the links *)

Definition next_ok L Fr (a : Z) (k : nat) (n : Z) : Prop :=
  n = 0 \/ (a < n /\ Fr !! n = Some k /\ exists n', L !! n = Some (n', a)).

Definition prev_ok L Fr (a : Z) (k : nat) (p : Z) : Prop :=
  p = 0 \/ (0 < p < a /\ Fr !! p = Some k /\ exists p', L !! p = Some (a, p')).

Definition node_ok L Fr (a : Z) (k : nat) : Prop :=
  0 < a /\ exists n p, L !! a = Some (n, p) /\ next_ok L Fr a k n /\ prev_ok L Fr a k p.

Definition head_ok L Fr (k : nat) (h : Z) : Prop :=
  h = 0 \/ (Fr !! h = Some k /\ exists n, L !! h = Some (n, 0)).

Record flinks v Fr : Prop := {
  fl_len : length (vfl v) = S MAX_ORDER;
  fl_node : forall a k, Fr !! a = Some k -> (k <= MAX_ORDER)%nat /\ node_ok (vL v) Fr a k;
  fl_head : forall k h, vfl v !! k = Some h -> head_ok (vL v) Fr k h;
}.

(** Every free block of the order without predecessor is the head: the list
    of the order is one list and the head reaches it all. *)
Definition heads_complete v Fr (k : nat) : Prop :=
  forall a n, Fr !! a = Some k -> vL v !! a = Some (n, 0) -> vfl v !! k = Some a.

Definition same_env v v' : Prop :=
  vbytes v' = vbytes v /\ vbase v' = vbase v /\ vinit v' = vinit v /\ vos v' = vos v.

Lemma same_env_refl v : same_env v v.
Proof. done. Qed.

Lemma same_env_trans v1 v2 v3 : same_env v1 v2 -> same_env v2 v3 -> same_env v1 v3.
Proof. unfold same_env. intros (?&?&?&?) (?&?&?&?). split_and!; congruence. Qed.

Lemma flinks_dom v Fr a k : flinks v Fr -> Fr !! a = Some k -> is_Some (vL v !! a).
Proof. intros Hf Ha. destruct (fl_node _ _ Hf a k Ha) as (_ & _ & n & p & -> & _). eauto. Qed.

Lemma flinks_pos v Fr a k : flinks v Fr -> Fr !! a = Some k -> 0 < a.
Proof. intros Hf Ha. by destruct (fl_node _ _ Hf a k Ha) as (_ & ? & _). Qed.

Lemma flinks_frame v v' Fr :
  flinks v Fr -> vfl v' = vfl v -> (forall a k, Fr !! a = Some k -> vL v' !! a = vL v !! a) ->
  flinks v' Fr.
Proof.
  intros Hf Hfl HL. split.
  - rewrite Hfl. apply Hf.
  - intros a k Ha. destruct (fl_node _ _ Hf a k Ha) as (Hk & Hp & n & p & HLa & Hn & Hpr).
    split; [done|]. split; [done|]. exists n, p. rewrite (HL a k Ha). split; [done|].
    split; [destruct Hn as [?|(?&HF&?)]|destruct Hpr as [?|(?&HF&?)]]; try by left.
    all: right; by rewrite (HL _ _ HF).
  - intros k h. rewrite Hfl. intros Hh. destruct (fl_head _ _ Hf k h Hh) as [?|(Hn&?)]; [by left|].
    right. by rewrite (HL _ _ Hn).
Qed.

(** ** Linking *)

(** [m] belongs between [x] and [y] in the list of order [k]. *)
Definition gap v Fr (k : nat) (x m y : Z) : Prop :=
  ((x = 0 /\ vfl v !! k = Some y) \/
   (0 < x < m /\ Fr !! x = Some k /\ exists px, vL v !! x = Some (y, px))) /\
  (y = 0 \/ (m < y /\ Fr !! y = Some k /\ exists ny, vL v !! y = Some (ny, x))).

Lemma link_at_m x m y L :
  m <> x -> m <> y -> link_at x m y L !! m = Some (y, x).
Proof.
  intros. unfold link_at. cbn zeta.
  destruct (y =? 0), (x =? 0); rewrite ?lookup_alter_ne by done; apply lookup_insert_eq.
Qed.

Lemma link_at_x x m y L nx px :
  x <> 0 -> x <> m -> x <> y -> L !! x = Some (nx, px) ->
  link_at x m y L !! x = Some (m, px).
Proof.
  intros Hx Hm Hy HL. unfold link_at. cbn zeta. rewrite (proj2 (Z.eqb_neq x 0)) by done.
  rewrite lookup_alter_eq. destruct (y =? 0); rewrite ?lookup_alter_ne by done;
    by rewrite lookup_insert_ne, HL.
Qed.

Lemma link_at_y x m y L ny py :
  y <> 0 -> y <> m -> y <> x -> L !! y = Some (ny, py) ->
  link_at x m y L !! y = Some (ny, m).
Proof.
  intros Hy Hm Hx HL. unfold link_at. cbn zeta. rewrite (proj2 (Z.eqb_neq y 0)) by done.
  destruct (x =? 0); rewrite ?(lookup_alter_ne _ _ x) by done;
    by rewrite lookup_alter_eq, lookup_insert_ne, HL.
Qed.

(** Linking keeps the [prev] of every other node than [y], and the [next] of
    every other node than [x]. *)
Lemma link_at_prev x m y L a n p :
  a <> m -> a <> y -> L !! a = Some (n, p) ->
  exists n', link_at x m y L !! a = Some (n', p).
Proof.
  intros Hm Hy HL. destruct (decide (a = x)) as [->|Hx].
  - destruct (decide (x = 0)) as [->|].
    + exists n. unfold link_at. cbn zeta. destruct (y =? 0); cbn;
        rewrite ?lookup_alter_ne, lookup_insert_ne by done; done.
    + exists m. by eapply link_at_x.
  - exists n. by rewrite link_at_other.
Qed.

Lemma link_at_next x m y L a n p :
  a <> m -> a <> x -> L !! a = Some (n, p) ->
  exists p', link_at x m y L !! a = Some (n, p').
Proof.
  intros Hm Hx HL. destruct (decide (a = y)) as [->|Hy].
  - destruct (decide (y = 0)) as [->|].
    + exists p. unfold link_at. cbn zeta. destruct (x =? 0); cbn;
        rewrite ?lookup_alter_ne, lookup_insert_ne by done; done.
    + exists m. by eapply link_at_y.
  - exists p. by rewrite link_at_other.
Qed.

Lemma gap_ne v Fr k x m y : gap v Fr k x m y -> 0 < m -> m <> x /\ m <> y /\ (x <> 0 -> x <> y).
Proof. intros [[[-> _]|(? & _)] [->|(? & _)]] ?; lia. Qed.

Lemma link_node v Fr k x m y a j :
  flinks v Fr -> gap v Fr k x m y -> 0 < m -> Fr !! m = None -> Fr !! a = Some j ->
  node_ok (link_at x m y (vL v)) (<[m := k]> Fr) a j.
Proof.
  intros Hf Hg Hm Hfr Ha. pose proof (gap_ne _ _ _ _ _ _ Hg Hm) as (Hmx & Hmy & Hxy).
  destruct Hg as [Hx Hy]. set (L' := link_at x m y (vL v)).
  assert (Hkeep : forall b i, Fr !! b = Some i -> b <> m /\ <[m := k]> Fr !! b = Some i).
  { intros b i Hb. assert (b <> m) by congruence. by rewrite lookup_insert_ne. }
  assert (HL'm : L' !! m = Some (y, x)) by by apply link_at_m.
  assert (HFm : <[m := k]> Fr !! m = Some k) by apply lookup_insert_eq.
  destruct (fl_node _ _ Hf a j Ha) as (_ & Hpos & n & p & HLa & Hn & Hp).
  destruct (Hkeep a j Ha) as [Ham _]. split; [done|].
  assert (Hn' : a <> x -> next_ok L' (<[m := k]> Fr) a j n).
  { intros Hax. destruct Hn as [->|(Hlt & Hn & n' & HLn)]; [by left|]. right.
    destruct (Hkeep _ _ Hn) as [Hnm HFn]. split_and!; [done..|].
    eapply link_at_prev; [done| |done]. intros ->.
    destruct Hy as [->|(_ & _ & ny & HLy)]; [lia|]. congruence. }
  assert (Hp' : a <> y -> prev_ok L' (<[m := k]> Fr) a j p).
  { intros Hay. destruct Hp as [->|(Hlt & Hp & p' & HLp)]; [by left|]. right.
    destruct (Hkeep _ _ Hp) as [Hpm HFp]. split_and!; [lia..|done|].
    eapply link_at_next; [done| |done]. intros ->.
    destruct Hx as [[-> _]|(_ & _ & px & HLx)]; [lia|]. congruence. }
  destruct (decide (a = x)) as [->|Hax]; [|destruct (decide (a = y)) as [->|Hay]].
  - destruct Hx as [[-> _]|(Hxm & HFx & px & HLx)]; [lia|].
    assert (j = k) as -> by congruence. exists m, p. split; [eapply link_at_x; naive_solver lia|].
    split; [right; split_and!; [lia|done|by exists y]|]. apply Hp'. lia.
  - destruct Hy as [->|(Hmy' & HFy & ny & HLy)]; [lia|].
    assert (j = k) as -> by congruence. exists n, m. split; [eapply link_at_y; naive_solver lia|].
    split; [by apply Hn'|]. right. split_and!; [lia..|done|by exists x].
  - exists n, p. split; [by unfold L'; rewrite link_at_other|]. split; auto.
Qed.

Lemma flinks_link v v' Fr k x m y :
  flinks v Fr -> (k <= MAX_ORDER)%nat -> gap v Fr k x m y -> 0 < m -> Fr !! m = None ->
  vL v' = link_at x m y (vL v) ->
  vfl v' = (if x =? 0 then <[k := m]> (vfl v) else vfl v) ->
  flinks v' (<[m := k]> Fr).
Proof.
  intros Hf Hk Hg Hm Hfr HL Hfl. pose proof (gap_ne _ _ _ _ _ _ Hg Hm) as (Hmx & Hmy & Hxy).
  assert (HL'm : vL v' !! m = Some (y, x)) by (rewrite HL; by apply link_at_m).
  pose proof Hg as [Hx Hy]. split.
  - rewrite Hfl. destruct (x =? 0); rewrite ?length_insert; apply Hf.
  - intros a j. rewrite lookup_insert. case_decide as Ham; [intros [= <-]|].
    + subst a. split; [done|]. split; [done|]. exists y, x. split; [done|]. rewrite HL. split.
      * destruct Hy as [->|(Hlt & HFy & ny & HLy)]; [by left|]. right.
        rewrite lookup_insert_ne by lia. split_and!; [done..|]. exists ny.
        eapply link_at_y; naive_solver lia.
      * destruct Hx as [[-> _]|(Hlt & HFx & px & HLx)]; [by left|]. right.
        rewrite lookup_insert_ne by lia. split_and!; [lia..|done|]. exists px.
        eapply link_at_x; naive_solver lia.
    + intros Ha. split; [by eapply Hf|]. rewrite HL. by apply link_node.
  - intros j h. rewrite Hfl. destruct (Z.eqb_spec x 0) as [Hx0|Hx0].
    + destruct (decide (j = k)) as [->|Hjk].
      * rewrite list_lookup_insert_eq by (rewrite (fl_len _ _ Hf); lia). intros [= <-].
        right. rewrite lookup_insert_eq. split; [done|]. exists y. by rewrite HL'm, Hx0.
      * rewrite list_lookup_insert_ne by done. intros Hh.
        destruct (fl_head _ _ Hf j h Hh) as [->|(HFh & n & HLh)]; [by left|]. right.
        assert (h <> m) by congruence. rewrite lookup_insert_ne by done. split; [done|].
        rewrite HL. eapply link_at_prev; [done| |done]. intros ->.
        destruct Hy as [->|(_ & HFy & _)]; [|congruence].
        pose proof (flinks_pos _ _ _ _ Hf HFh). lia.
    + intros Hh. destruct (fl_head _ _ Hf j h Hh) as [->|(HFh & n & HLh)]; [by left|]. right.
      assert (h <> m) by congruence. rewrite lookup_insert_ne by done. split; [done|].
      rewrite HL. eapply link_at_prev; [done| |done]. intros ->.
      destruct Hy as [->|(_ & HFy & ny & HLy)]; [|congruence].
      pose proof (flinks_pos _ _ _ _ Hf HFh). lia.
Qed.

Lemma heads_complete_link v v' Fr k x m y j :
  flinks v Fr -> (k <= MAX_ORDER)%nat -> gap v Fr k x m y -> 0 < m -> Fr !! m = None ->
  vL v' = link_at x m y (vL v) ->
  vfl v' = (if x =? 0 then <[k := m]> (vfl v) else vfl v) ->
  heads_complete v Fr j -> heads_complete v' (<[m := k]> Fr) j.
Proof.
  intros Hf Hk Hg Hm Hfr HL Hfl Hc a n.
  pose proof (gap_ne _ _ _ _ _ _ Hg Hm) as (Hmx & Hmy & Hxy).
  rewrite HL, Hfl, lookup_insert. case_decide as Ham.
  - subst a. rewrite link_at_m by done. intros [= ->] [= -> ->].
    cbn. apply list_lookup_insert_eq. rewrite (fl_len _ _ Hf). lia.
  - intros Ha HLa. destruct (fl_node _ _ Hf a j Ha) as (_ & Hpos & n0 & p0 & HLa0 & _).
    destruct (decide (a = y)) as [->|Hay].
    { erewrite link_at_y in HLa; [|lia|done|destruct (decide (x = 0)); naive_solver lia|done].
      injection HLa as _ ->. lia. }
    destruct (link_at_prev x m y (vL v) a n0 p0) as [n1 Hn1]; [done..|].
    rewrite Hn1 in HLa. injection HLa as _ ->. specialize (Hc a n0 Ha HLa0).
    destruct (Z.eqb_spec x 0) as [->|Hx0]; [|done].
    rewrite list_lookup_insert_ne; [done|]. intros ->.
    destruct Hg as [[[_ Hy]|(? & _)] _]; [|lia]. congruence.
Qed.

(** ** Unlinking *)

Lemma unlink_at_m x m y L : is_Some (L !! m) -> unlink_at x m y L !! m = Some (0, 0).
Proof.
  intros Hm. unfold unlink_at. cbn zeta. rewrite lookup_alter_eq.
  assert (forall f b (L1 : gmap Z (Z * Z)), is_Some (L1 !! m) -> is_Some (alter f b L1 !! m)) as Ha.
  { intros f b L1. by rewrite lookup_alter_is_Some. }
  assert (is_Some ((if y =? 0 then if x =? 0 then L else alter (set_next y) x L
    else alter (set_prev x) y (if x =? 0 then L else alter (set_next y) x L)) !! m)) as [z ->].
  { destruct (y =? 0), (x =? 0); auto. }
  done.
Qed.

Lemma unlink_at_x x m y L nx px :
  x <> 0 -> x <> m -> x <> y -> L !! x = Some (nx, px) ->
  unlink_at x m y L !! x = Some (y, px).
Proof.
  intros Hx Hm Hy HL. unfold unlink_at. cbn zeta. rewrite (proj2 (Z.eqb_neq x 0)) by done.
  rewrite lookup_alter_ne by done.
  destruct (y =? 0); rewrite ?(lookup_alter_ne _ _ y) by done; by rewrite lookup_alter_eq, HL.
Qed.

Lemma unlink_at_y x m y L ny py :
  y <> 0 -> y <> m -> y <> x -> L !! y = Some (ny, py) ->
  unlink_at x m y L !! y = Some (ny, x).
Proof.
  intros Hy Hm Hx HL. unfold unlink_at. cbn zeta. rewrite (proj2 (Z.eqb_neq y 0)) by done.
  rewrite lookup_alter_ne, lookup_alter_eq by done.
  destruct (x =? 0); rewrite ?(lookup_alter_ne _ _ x) by done; by rewrite HL.
Qed.

Lemma unlink_at_prev x m y L a n p :
  a <> 0 -> a <> m -> a <> y -> L !! a = Some (n, p) ->
  exists n', unlink_at x m y L !! a = Some (n', p).
Proof.
  intros H0 Hm Hy HL. destruct (decide (a = x)) as [->|Hx].
  - exists y. by eapply unlink_at_x.
  - exists n. by rewrite unlink_at_other.
Qed.

Lemma unlink_at_next x m y L a n p :
  a <> 0 -> a <> m -> a <> x -> L !! a = Some (n, p) ->
  exists p', unlink_at x m y L !! a = Some (n, p').
Proof.
  intros H0 Hm Hx HL. destruct (decide (a = y)) as [->|Hy].
  - exists x. by eapply unlink_at_y.
  - exists p. by rewrite unlink_at_other.
Qed.

(** [m] is a free block of order [k] with links [(y, x)], or a detached header. *)
Definition removable v Fr (k : nat) (m x y : Z) : Prop :=
  vL v !! m = Some (y, x) /\ (Fr !! m = Some k \/ (Fr !! m = None /\ x = 0 /\ y = 0)).

Lemma removable_ends v Fr k m x y :
  flinks v Fr -> removable v Fr k m x y ->
  (y = 0 \/ (m < y /\ Fr !! y = Some k /\ exists n', vL v !! y = Some (n', m))) /\
  (x = 0 \/ (0 < x < m /\ Fr !! x = Some k /\ exists p', vL v !! x = Some (m, p'))).
Proof.
  intros Hf (HLm & [Hm|(_ & -> & ->)]); [|by split; left].
  destruct (fl_node _ _ Hf m k Hm) as (_ & _ & n & p & HLm' & Hn & Hp).
  rewrite HLm in HLm'. injection HLm' as <- <-. done.
Qed.

Lemma unlink_node v Fr k m x y a j :
  flinks v Fr -> removable v Fr k m x y -> 0 < m -> a <> m -> Fr !! a = Some j ->
  node_ok (unlink_at x m y (vL v)) (delete m Fr) a j.
Proof.
  intros Hf Hr Hm Ham Ha. pose proof (removable_ends _ _ _ _ _ _ Hf Hr) as [Hy Hx].
  destruct Hr as [HLm _]. set (L' := unlink_at x m y (vL v)).
  assert (Hkeep : forall b i, b <> m -> Fr !! b = Some i -> delete m Fr !! b = Some i).
  { intros b i Hb ?. by rewrite lookup_delete_ne. }
  destruct (fl_node _ _ Hf a j Ha) as (_ & Hpos & n & p & HLa & Hn & Hp). split; [done|].
  assert (Hn' : a <> x -> next_ok L' (delete m Fr) a j n).
  { intros Hax. destruct Hn as [->|(Hlt & Hn & n' & HLn)]; [by left|].
    assert (n <> m). { intros ->. rewrite HLm in HLn. injection HLn as _ ->. lia. }
    right. split_and!; [done|by apply Hkeep|].
    eapply unlink_at_prev; [lia|done| |done]. intros ->.
    destruct Hy as [->|(_ & _ & ny & HLy)]; [lia|]. congruence. }
  assert (Hp' : a <> y -> prev_ok L' (delete m Fr) a j p).
  { intros Hay. destruct Hp as [->|(Hlt & Hp & p' & HLp)]; [by left|].
    assert (p <> m). { intros ->. rewrite HLm in HLp. injection HLp as -> _. lia. }
    right. split_and!; [lia..|by apply Hkeep|].
    eapply unlink_at_next; [lia|done| |done]. intros ->.
    destruct Hx as [->|(_ & _ & px & HLx)]; [lia|]. congruence. }
  destruct (decide (a = x)) as [->|Hax]; [|destruct (decide (a = y)) as [->|Hay]].
  - destruct Hx as [->|(Hxm & HFx & px & HLx)]; [lia|]. assert (j = k) as -> by congruence.
    exists y, p. split; [eapply unlink_at_x; naive_solver lia|].
    split; [|apply Hp'; naive_solver lia].
    destruct Hy as [->|(Hlt & HFy & ny & HLy)]; [by left|]. right.
    split_and!; [lia|apply Hkeep; [lia|done]|]. exists ny. eapply unlink_at_y; naive_solver lia.
  - destruct Hy as [->|(Hmy & HFy & ny & HLy)]; [lia|]. assert (j = k) as -> by congruence.
    exists n, x. split; [eapply unlink_at_y; naive_solver lia|]. split; [by apply Hn'|].
    destruct Hx as [->|(Hlt & HFx & px & HLx)]; [by left|]. right.
    split_and!; [lia..|apply Hkeep; [lia|done]|]. exists px. eapply unlink_at_x; naive_solver lia.
  - exists n, p. split; [by unfold L'; rewrite unlink_at_other|]. split; auto.
Qed.

Lemma flinks_unlink v v' Fr k m x y :
  flinks v Fr -> removable v Fr k m x y -> 0 < m ->
  (forall a, a <> m -> vL v' !! a = unlink_at x m y (vL v) !! a) ->
  vfl v' = (if x =? 0 then <[k := y]> (vfl v) else vfl v) ->
  flinks v' (delete m Fr).
Proof.
  intros Hf Hr Hm HL Hfl. pose proof (removable_ends _ _ _ _ _ _ Hf Hr) as [Hy Hx].
  assert (Hnode : forall a j, delete m Fr !! a = Some j -> a <> m /\ Fr !! a = Some j).
  { intros a j. rewrite lookup_delete. case_decide; [done|]. done. }
  split.
  - rewrite Hfl. destruct (x =? 0); rewrite ?length_insert; apply Hf.
  - intros a j Ha. destruct (Hnode a j Ha) as [Ham Ha'].
    split; [by eapply Hf|].
    destruct (unlink_node v Fr k m x y a j) as (Hp & n & p & HLa & Hn & Hpr); [done..|].
    split; [done|]. exists n, p. rewrite HL by done. split; [done|].
    split; [destruct Hn as [->|(?&HF&?)]|destruct Hpr as [->|(?&HF&?)]]; try by left.
    all: destruct (Hnode _ _ HF); right; by rewrite HL.
  - intros j h. rewrite Hfl.
    assert (Hold : vfl v !! j = Some h -> h <> m -> (h <> 0 -> h = y -> x = 0) ->
                   head_ok (vL v') (delete m Fr) j h).
    { intros Hh Hhm Hhy. destruct (fl_head _ _ Hf j h Hh) as [->|(HF & n & HLh)]; [by left|].
      pose proof (flinks_pos _ _ _ _ Hf HF). right. rewrite lookup_delete_ne, HL by done.
      split; [done|]. destruct (decide (h = y)) as [->|Hy'].
      - rewrite (Hhy ltac:(lia) eq_refl). exists n. eapply unlink_at_y; [lia|done|lia|done].
      - eapply unlink_at_prev; [lia|done..]. }
    assert (Hne : vfl v !! j = Some h -> j <> k \/ x <> 0 -> h <> m).
    { intros Hh Hjk ->. destruct (fl_head _ _ Hf j m Hh) as [->|(HF & n & HLh)]; [lia|].
      destruct Hr as (HLm & [HFm|(HFm & _)]); destruct Hjk; congruence. }
    assert (Hyx : vfl v !! j = Some h -> h = y -> h <> 0 -> False).
    { intros Hh -> Hy0. destruct Hy as [->|(Hlt & _ & n' & HLy)]; [done|].
      destruct (fl_head _ _ Hf j y Hh) as [->|(HF & n & HLh)]; [lia|].
      rewrite HLy in HLh. injection HLh as _ ->. lia. }
    destruct (Z.eqb_spec x 0) as [Hx0|Hx0].
    + destruct (decide (j = k)) as [->|Hjk].
      * destruct (decide (k < length (vfl v))%nat) as [Hlt|Hge];
          [|rewrite lookup_ge_None_2 by (rewrite length_insert; lia); done].
        rewrite list_lookup_insert_eq by done. intros [= <-].
        destruct Hy as [->|(Hlt' & HFy & ny & HLy)]; [by left|]. right.
        rewrite lookup_delete_ne, HL by lia. split; [done|]. exists ny. subst x.
        eapply unlink_at_y; [lia..|done].
      * rewrite list_lookup_insert_ne by done. auto.
    + intros Hh. apply Hold; auto. intros Hh0 Hhy. exfalso. eauto.
Qed.

(** Removing a member of a complete list leaves a complete list. *)
Lemma heads_complete_unlink v v' Fr k m x y j :
  flinks v Fr -> removable v Fr k m x y -> 0 < m -> (j = k -> Fr !! m = Some k) ->
  (forall a, a <> m -> vL v' !! a = unlink_at x m y (vL v) !! a) ->
  vfl v' = (if x =? 0 then <[k := y]> (vfl v) else vfl v) ->
  heads_complete v Fr j -> heads_complete v' (delete m Fr) j.
Proof.
  intros Hf Hr Hm Hjk HL Hfl Hc a n. pose proof (removable_ends _ _ _ _ _ _ Hf Hr) as [Hy Hx].
  rewrite Hfl, lookup_delete. case_decide as Ham; [done|]. intros Ha. rewrite HL by done.
  destruct (fl_node _ _ Hf a j Ha) as (_ & Hpos & n0 & p0 & HLa0 & _).
  destruct (decide (a = y)) as [->|Hay].
  - destruct Hy as [->|(Hlt & HFy & ny & HLy)]; [lia|].
    rewrite (unlink_at_y x m y (vL v) ny m) by naive_solver lia. intros [= -> ->]. cbn.
    assert (j = k) as -> by congruence. destruct Hr as [HLm _].
    specialize (Hc m _ (Hjk eq_refl) HLm). apply list_lookup_insert_eq. by eapply lookup_lt_Some.
  - destruct (unlink_at_prev x m y (vL v) a n0 p0) as [n1 Hn1]; [lia|done..|].
    rewrite Hn1. intros [= -> ->]. pose proof (Hc a n0 Ha HLa0).
    destruct (Z.eqb_spec x 0) as [->|]; [|done].
    rewrite list_lookup_insert_ne; [done|]. intros ->. destruct Hr as [HLm _].
    pose proof (Hc m y (Hjk eq_refl) HLm). congruence.
Qed.

(** ** [fl_insert] *)

(** The pointer [m] is a header outside the free lists. *)
Definition detached v Fr (m : Z) : Prop := 0 < m /\ Fr !! m = None /\ is_Some (vL v !! m).

(** Two views with the same list heads and environment. *)
Definition same_rest v v' : Prop := vfl v' = vfl v /\ vml v' = vml v /\ same_env v v'.

(** The members of [m] that [fl_insert] resets first. *)
Definition reset_links v v1 (m : Z) : Prop :=
  vL v1 = alter (fun _ => (0, 0)) m (vL v) /\
  vA v1 = alter (set_a_free true) m (vA v) /\ same_rest v v1.

(** How many headers lie above an address: the variant of the walk. *)
Definition above L (c : Z) : nat := size (filter (fun a => c < a) (dom L)).

Lemma above_lt L c n : c < n -> is_Some (L !! n) -> (above L n < above L c)%nat.
Proof.
  intros Hlt Hn. apply subset_size. split.
  - intros a. rewrite !elem_of_filter. intros [? ?]. split; [lia|done].
  - intros Hsub. assert (n ∈ filter (fun a => c < a) (dom L)) as Hin.
    { rewrite elem_of_filter, elem_of_dom. done. }
    apply Hsub in Hin. rewrite elem_of_filter in Hin. lia.
Qed.

Lemma above_le L c : (above L c <= size L)%nat.
Proof. rewrite <- size_dom. apply subseteq_size. intros a. rewrite elem_of_filter. tauto. Qed.

(** The walk stops at the last block below [m] of those it started from. *)
Lemma wpv_fl_walk k m Fr Q v v1 h :
  flinks v Fr -> detached v Fr m -> reset_links v v1 m ->
  Fr !! h = Some k -> h < m ->
  (forall cur n p, Fr !! cur = Some k -> cur < m -> vL v !! cur = Some (n, p) ->
     n = 0 \/ m < n -> Q cur v1) ->
  wpv (fl_walk m h) Q v1.
Proof.
  intros Hf (Hm & Hfr & _) (HL1 & _ & Hr) Hh Hlt HQ.
  apply wpv_bind, wpv_walk_fuel.
  apply wpv_iter with (n := above (vL v1) h) (Inv := fun n cur v' =>
    v' = v1 /\ Fr !! cur = Some k /\ cur < m /\ n = above (vL v1) cur); [|done|].
  - intros n cur v' (-> & HF & Hcur & ->).
    destruct (fl_node _ _ Hf cur k HF) as (_ & Hp0 & n & p & HLc & Hn & _).
    assert (HLc1 : vL v1 !! cur = Some (n, p)) by (rewrite HL1, lookup_alter_ne by congruence; done).
    apply wpv_bind. eapply wpv_ld_links; [done|]. cbn [fst snd].
    intros c Hnext _ _. apply wpv_ret. rewrite Hnext. unfold nullptr.
    destruct Hn as [->|(Hltn & HFn & n' & HLn)]; [cbn; eauto|].
    assert (n <> m) by congruence.
    destruct (Z.eqb_spec n 0); [lia|]. cbn [negb andb].
    destruct (Z.ltb_spec n m) as [Hnm|Hnm].
    + exists (above (vL v1) n). split; [|done]. apply above_lt; [done|].
      rewrite HL1, lookup_alter_ne by done. eauto.
    + eapply HQ; [done..|]. right. lia.
  - pose proof (above_le (vL v1) h). lia.
Qed.

(** Writing the links: after them the link map is [link_at]. *)
Lemma wpv_link_front m h Fr Q v v1 k :
  flinks v Fr -> detached v Fr m -> reset_links v v1 m -> head_ok (vL v) Fr k h ->
  (forall v2, vL v2 = link_at 0 m h (vL v) -> vA v2 = vA v1 -> same_rest v v2 -> Q tt v2) ->
  wpv (upd m (with_next h) ;;* when (negb (h =? nullptr)) (upd h (with_prev m))) Q v1.
Proof.
  intros Hf (Hm & Hfr & [lm HL]) (HL1 & HA1 & Hr) Hh HQ.
  assert (Hins : alter (set_next h) m (vL v1) = <[m := (h, 0)]> (vL v)).
  { by rewrite HL1, (alter_alter_insert _ _ _ _ lm). }
  apply wpv_bind. apply wpv_upd_L with (g := set_next h); [done..| |].
  { rewrite HL1, lookup_alter_eq, HL. eauto. }
  apply wpv_when; intros Hz; unfold nullptr in Hz;
    [apply negb_true_iff in Hz|apply negb_false_iff in Hz].
  - apply wpv_upd_L with (g := set_prev m); [done..| |].
    + cbn [vL v_upd_L]. rewrite Hins. destruct Hh as [->|(HF & n & HLh)]; [done|].
      rewrite lookup_insert_ne by congruence. eauto.
    + apply HQ; [|done|done]. cbn [vL v_upd_L]. unfold link_at. cbn zeta. by rewrite Hz, Hins.
  - apply HQ; [|done|done]. cbn [vL v_upd_L]. unfold link_at. cbn zeta. by rewrite Hz, Hins.
Qed.

Lemma wpv_link_mid k m Fr Q v v1 cur n p :
  flinks v Fr -> detached v Fr m -> reset_links v v1 m ->
  Fr !! cur = Some k -> vL v !! cur = Some (n, p) ->
  (forall v2, vL v2 = link_at cur m n (vL v) -> vA v2 = vA v1 -> same_rest v v2 -> Q tt v2) ->
  wpv (let* c := ld cur in
       upd m (fun h => with_prev cur (with_next (m_next c) h)) ;;*
       when (negb (m_next c =? nullptr)) (upd (m_next c) (with_prev m)) ;;*
       upd cur (with_next m)) Q v1.
Proof.
  intros Hf (Hm & Hfr & [lm HL]) (HL1 & HA1 & Hr) HF HLc HQ.
  pose proof (flinks_pos _ _ _ _ Hf HF) as Hpos. assert (Hcm : cur <> m) by congruence.
  assert (Hc0 : cur =? 0 = false) by lia.
  apply wpv_bind. apply wpv_ld_links with (l := (n, p)).
  { by rewrite HL1, lookup_alter_ne. }
  cbn [fst snd]. intros c Hn _ _. rewrite Hn. clear c Hn.
  assert (Hins : alter (fun _ => (n, cur)) m (vL v1) = <[m := (n, cur)]> (vL v)).
  { by rewrite HL1, (alter_alter_insert _ _ _ _ lm). }
  apply wpv_bind. apply wpv_upd_L with (g := fun _ => (n, cur)); [done..| |].
  { rewrite HL1, lookup_alter_eq, HL. eauto. }
  assert (Hdom : forall a j, Fr !! a = Some j -> is_Some (<[m := (n, cur)]> (vL v) !! a)).
  { intros a j Ha. rewrite lookup_insert_ne by congruence. by eapply flinks_dom. }
  apply wpv_bind. apply wpv_when; intros Hz; unfold nullptr in Hz;
    [apply negb_true_iff in Hz|apply negb_false_iff in Hz].
  - destruct (fl_node _ _ Hf cur k HF) as (_ & _ & n0 & p0 & HLc0 & Hn & _).
    rewrite HLc in HLc0. injection HLc0 as <- <-.
    destruct Hn as [->|(_ & HFn & _)]; [done|].
    apply wpv_upd_L with (g := set_prev m); [done..|cbn [vL v_upd_L]; rewrite Hins; eauto|].
    apply wpv_upd_L with (g := set_next m); [done..| |].
    { cbn [vL v_upd_L]. rewrite Hins. rewrite lookup_alter_is_Some. eauto. }
    apply HQ; [|done|done]. cbn [vL v_upd_L]. unfold link_at. cbn zeta. by rewrite Hz, Hc0, Hins.
  - apply wpv_upd_L with (g := set_next m); [done..|cbn [vL v_upd_L]; rewrite Hins; eauto|].
    apply HQ; [|done|done]. cbn [vL v_upd_L]. unfold link_at. cbn zeta. by rewrite Hz, Hc0, Hins.
Qed.

(** The effect of a free-list operation on everything but the links and heads. *)
Definition list_step v (A' : gmap Z (attr X)) v' : Prop :=
  vA v' = A' /\ vml v' = vml v /\ same_env v v'.

Lemma wpv_fl_insert k m Fr Q v :
  flinks v Fr -> (k <= MAX_ORDER)%nat -> detached v Fr m ->
  (forall v' x y, gap v Fr k x m y -> (vfl v !! k = Some 0 -> x = 0) ->
     vL v' = link_at x m y (vL v) ->
     vfl v' = (if x =? 0 then <[k := m]> (vfl v) else vfl v) ->
     list_step v (alter (set_a_free true) m (vA v)) v' -> Q tt v') ->
  wpv (fl_insert k m) Q v.
Proof.
  intros Hf Hk Hd HQ. pose proof Hd as (Hm & Hfr & Hdom).
  apply wpv_bind. apply wpv_upd_AL with (ga := set_a_free true) (gl := fun _ => (0, 0)); [done..|].
  set (v1 := v_upd_A _ _ _).
  assert (Hr1 : reset_links v v1 m) by (split_and!; done). clearbody v1.
  pose proof Hr1 as (_ & HA1 & Hfl1 & _).
  destruct (lookup_lt_is_Some_2 (vfl v) k) as [h Hh]; [rewrite (fl_len _ _ Hf); lia|].
  pose proof (fl_head _ _ Hf k h Hh) as Hho.
  apply wpv_bind. apply wpv_fl_get with (x := h); [by rewrite Hfl1|].
  apply wpv_if; intros E; [apply orb_true_iff in E|apply orb_false_iff in E; destruct E as [E1 E2]].
  - (* in front *)
    apply wpv_assoc, wpv_bind. eapply wpv_link_front; [done..|].
    intros v2 HL2 HA2 (Hfl2 & Hml2 & He2).
    apply wpv_fl_set; [rewrite Hfl2; eauto|]. apply (HQ _ 0 h).
    + split; [by left|]. unfold nullptr in E. destruct Hho as [->|(HF & n & HLh)]; [by left|].
      right. pose proof (flinks_pos _ _ _ _ Hf HF). split_and!; [lia|done|eauto].
    + done.
    + done.
    + cbn. by rewrite Hfl2.
    + split_and!; cbn; [by rewrite HA2, HA1|done|apply He2..].
  - (* further down *)
    unfold nullptr in *. destruct Hho as [->|(HF & n & HLh)]; [done|].
    assert (h <> m) by congruence.
    apply wpv_bind. eapply wpv_fl_walk; [done..|lia|].
    intros cur n' p' HFc Hcur HLc Hn'. eapply wpv_link_mid; [done..|].
    intros v2 HL2 HA2 (Hfl2 & Hml2 & He2). pose proof (flinks_pos _ _ _ _ Hf HFc).
    apply (HQ _ cur n').
    + split; [right; split_and!; [lia..|done|eauto]|].
      destruct (fl_node _ _ Hf cur k HFc) as (_ & _ & n0 & p0 & HLc0 & Hn & _).
      rewrite HLc in HLc0. injection HLc0 as <- <-.
      destruct Hn as [->|(? & ? & ?)]; [by left|]. right. split_and!; [lia|done..].
    + rewrite Hh. intros [= ->]. lia.
    + done.
    + rewrite (proj2 (Z.eqb_neq cur 0)) by lia. done.
    + split_and!; [by rewrite HA2, HA1|done|apply He2..].
Qed.

(** ** [unlink], [fl_remove] *)

(** [set_head] assigns a list head: [hs x v] is [v] with that head [x]. *)
Definition sets_head (set_head : Z -> M (heap X OS) unit) (hs : Z -> view X OS -> view X OS)
    (pre : view X OS -> Prop) : Prop :=
  forall x Q v, pre v -> Q tt (hs x v) -> wpv (set_head x) Q v.

Definition fl_hs (k : nat) (x : Z) (v : view X OS) : view X OS := v_set_fl (<[k := x]> (vfl v)) v.

Lemma fl_set_sets_head k : sets_head (fl_set k) (fl_hs k) (fun v => is_Some (vfl v !! k)).
Proof. intros x Q v Hk HQ. by apply wpv_fl_set. Qed.

Lemma set_mmap_list_sets_head : sets_head set_mmap_list v_set_ml (fun _ => True).
Proof. intros x Q v _ HQ. by apply wpv_set_mmap_list. Qed.

Definition v_set_L L v : view X OS :=
  View (vA v) L (vfl v) (vml v) (vbytes v) (vbase v) (vinit v) (vos v).

Lemma wpv_unlink set_head hs pre m n p Q v :
  sets_head set_head hs pre -> (forall x v', vL (hs x v') = vL v') ->
  (forall x L v', hs x (v_set_L L v') = v_set_L L (hs x v')) -> pre v ->
  vL v !! m = Some (n, p) -> n <> m -> p <> m ->
  (n <> 0 -> is_Some (vL v !! n)) -> (p <> 0 -> is_Some (vL v !! p)) ->
  (forall v' L', v' = v_set_L L' (if p =? 0 then hs n v else v) ->
     L' !! m = Some (n, p) ->
     (forall a, a <> m -> L' !! a = unlink_at p m n (vL v) !! a) -> Q tt v') ->
  wpv (unlink set_head m) Q v.
Proof.
  intros Hset HhsL Hhs Hpre Hm Hnm Hpm Hn Hp HQ.
  apply wpv_bind. eapply wpv_ld_links; [done|]. cbn [fst snd]. intros h -> -> _. clear h.
  apply wpv_bind. set (L1 := if p =? 0 then vL v else alter (set_next n) p (vL v)).
  eapply wpv_mono with (P := fun _ v1 => v1 = v_set_L L1 (if p =? 0 then hs n v else v)).
  { unfold L1, nullptr. destruct (Z.eqb_spec p 0) as [Hp0|Hp0]; cbn [negb].
    - apply Hset; [done|]. rewrite <- (HhsL n v). by destruct (hs n v).
    - apply wpv_upd_L with (g := set_next n); auto. }
  intros [] v1 ->. set (v0 := if p =? 0 then hs n v else v).
  assert (Hm1 : L1 !! m = Some (n, p)).
  { unfold L1. destruct (p =? 0); [done|]. by rewrite lookup_alter_ne. }
  apply wpv_bind. eapply wpv_ld_links; [exact Hm1|]. cbn [fst snd]. intros h -> -> _. clear h.
  unfold nullptr. apply wpv_when; intros E; [apply negb_true_iff in E|apply negb_false_iff in E].
  - apply wpv_upd_L with (g := set_prev p); [done..| |].
    { cbn [vL v_set_L]. unfold L1. destruct (p =? 0); [|rewrite lookup_alter_is_Some]; apply Hn; lia. }
    apply (HQ _ (alter (set_prev p) n L1)); [done|by rewrite lookup_alter_ne|].
    intros a Ha. unfold unlink_at. cbn zeta. fold L1. by rewrite E, (lookup_alter_ne _ _ m).
  - apply (HQ _ L1); [done|done|].
    intros a Ha. unfold unlink_at. cbn zeta. fold L1. by rewrite E, (lookup_alter_ne _ _ m).
Qed.

Lemma wpv_fl_remove k m x y Fr Q v :
  flinks v Fr -> (k <= MAX_ORDER)%nat -> 0 < m -> removable v Fr k m x y ->
  (forall v', (forall a, a <> m -> vL v' !! a = unlink_at x m y (vL v) !! a) ->
     vL v' !! m = Some (0, 0) ->
     vfl v' = (if x =? 0 then <[k := y]> (vfl v) else vfl v) ->
     list_step v (vA v) v' -> Q tt v') ->
  wpv (fl_remove k m) Q v.
Proof.
  intros Hf Hk Hm Hr HQ. pose proof (removable_ends _ _ _ _ _ _ Hf Hr) as [Hy Hx].
  destruct Hr as [HLm _].
  apply wpv_bind.
  apply (wpv_unlink _ _ _ m y x _ _ (fl_set_sets_head k)); [done|done| |done|lia|lia| | |].
  - apply lookup_lt_is_Some. rewrite (fl_len _ _ Hf). lia.
  - intros Hy0. destruct Hy as [?|(_ & _ & ? & ->)]; [done|eauto].
  - intros Hx0. destruct Hx as [?|(_ & _ & ? & ->)]; [done|eauto].
  - intros v1 L1 -> HLm1 HL1. set (v0 := if x =? 0 then fl_hs k y v else v).
    assert (Hv0 : vfl v0 = (if x =? 0 then <[k := y]> (vfl v) else vfl v) /\ list_step v (vA v) v0).
    { unfold v0. by destruct (x =? 0). }
    destruct Hv0 as [Hfl0 Hs0]. clearbody v0.
    apply wpv_bind. apply wpv_upd_L with (g := set_prev 0); [done..|cbn [vL v_set_L]; eauto|].
    apply wpv_upd_L with (g := set_next 0); [done..| |].
    { cbn [vL v_upd_L v_set_L]. rewrite lookup_alter_is_Some. eauto. }
    apply HQ; [|by cbn [vL v_upd_L v_set_L]; rewrite !lookup_alter_eq, HLm1|done|done].
    intros a Ha. cbn [vL v_upd_L v_set_L]. rewrite !lookup_alter_ne by done. by apply HL1.
Qed.

End lists.
