(* ===== verification/BuddyTiling.v ===== *)
(** * The geometry of the buddy heap

    A heap of [TOTAL_HEAP_SIZE] bytes is tiled by blocks, each of a
    power-of-two size and aligned to it.  In such a tiling the address
    [get_buddy] computes by exclusive or always carries a block of the same
    or a smaller order; splitting a block and merging a buddy pair give
    tilings again. *)

From S2P Require Import Prelude Memory OS Buddy.

(** ** Block sizes *)

Ltac orders k := do 11 (destruct k as [|k]; [|]); try lia.

Lemma block_size_pow k : (k <= MAX_ORDER)%nat -> block_size k = 2 ^ (Z.of_nat k + 7).
Proof.
  unfold MAX_ORDER. intros Hk. unfold block_size. rewrite Z.shiftl_mul_pow2 by lia.
  rewrite wrap64_small.
  - change MIN_BLOCK_SIZE with (2 ^ 7). rewrite <- Z.pow_add_r by lia. f_equal. lia.
  - assert (0 < 2 ^ Z.of_nat k) by (apply Z.pow_pos_nonneg; lia).
    assert (2 ^ Z.of_nat k <= 2 ^ 10) by (apply Z.pow_le_mono_r; lia).
    unfold MIN_BLOCK_SIZE. lia.
Qed.

Lemma block_size_S k : (k < MAX_ORDER)%nat -> block_size (S k) = 2 * block_size k.
Proof.
  intros Hk. rewrite !block_size_pow by lia.
  replace (Z.of_nat (S k) + 7) with (Z.succ (Z.of_nat k + 7)) by lia.
  apply Z.pow_succ_r. lia.
Qed.

Lemma block_size_divide j k :
  (j <= k)%nat -> (k <= MAX_ORDER)%nat -> (block_size j | block_size k).
Proof.
  intros Hj Hk. rewrite !block_size_pow by lia.
  exists (2 ^ (Z.of_nat k - Z.of_nat j)). rewrite <- Z.pow_add_r by lia. f_equal. lia.
Qed.

Lemma block_size_min k : (k <= MAX_ORDER)%nat -> MIN_BLOCK_SIZE <= block_size k.
Proof.
  intros Hk. rewrite block_size_pow by done. change MIN_BLOCK_SIZE with (2 ^ 7).
  apply Z.pow_le_mono_r; lia.
Qed.

Lemma block_size_max k : (k <= MAX_ORDER)%nat -> block_size k <= MMAP_THRESHOLD.
Proof.
  intros Hk. rewrite block_size_pow by done. change MMAP_THRESHOLD with (2 ^ 17).
  unfold MAX_ORDER in Hk. apply Z.pow_le_mono_r; lia.
Qed.

Lemma block_size_lt j k : (j < k)%nat -> (k <= MAX_ORDER)%nat -> block_size j < block_size k.
Proof. intros Hj Hk. rewrite !block_size_pow by lia. apply Z.pow_lt_mono_r; lia. Qed.

Lemma block_size_inj j k :
  (j <= MAX_ORDER)%nat -> (k <= MAX_ORDER)%nat -> block_size j = block_size k -> j = k.
Proof.
  intros Hj Hk Heq. destruct (Nat.lt_trichotomy j k) as [Hlt|[|Hlt]]; [|done|];
    apply block_size_lt in Hlt; lia.
Qed.

Lemma block_size_total k : (k <= MAX_ORDER)%nat -> (block_size k | TOTAL_HEAP_SIZE).
Proof.
  intros Hk. etrans; [by apply (block_size_divide k MAX_ORDER)|]. by exists 32.
Qed.

(** ** Orders of sizes *)

Lemma order_loop_spec n : forall fuel k,
  (k <= MAX_ORDER)%nat -> (MAX_ORDER - k < fuel)%nat ->
  (forall j, (j < k)%nat -> block_size j < n) ->
  let r := order_loop fuel n (block_size k) k in
  (k <= r <= MAX_ORDER)%nat /\ (forall j, (j < r)%nat -> block_size j < n) /\
  (n <= block_size r \/ r = MAX_ORDER).
Proof.
  induction fuel as [|fuel IH]; intros k Hk Hf Hlt; [lia|]. cbn zeta. cbn [order_loop].
  destruct (Z.ltb_spec (block_size k) n) as [Hn|Hn]; cbn [andb]; [|split_and!; auto; lia].
  destruct (Nat.ltb_spec k MAX_ORDER) as [Hm|Hm]; [|split_and!; auto; lia].
  assert (wrap64 (Z.shiftl (block_size k) 1) = block_size (S k)) as ->.
  { rewrite block_size_S, Z.shiftl_mul_pow2 by lia.
    pose proof (block_size_max k). pose proof (block_size_min k).
    unfold MMAP_THRESHOLD, MIN_BLOCK_SIZE in *. rewrite wrap64_small; lia. }
  destruct (IH (S k)) as (Hr & Hl & Hc); [lia|lia| |].
  - intros j Hj. destruct (decide (j = k)) as [->|]; [done|]. apply Hlt. lia.
  - split_and!; [lia..|done|done].
Qed.

(** [order_loop] inverts [block_size]. *)
Lemma order_loop_block_size k :
  (k <= MAX_ORDER)%nat ->
  order_loop (S MAX_ORDER) (block_size k) MIN_BLOCK_SIZE 0 = k.
Proof.
  intros Hk. change MIN_BLOCK_SIZE with (block_size 0).
  destruct (order_loop_spec (block_size k) (S MAX_ORDER) 0) as (Hr & Hl & Hc);
    [lia|lia|lia|].
  set (r := order_loop _ _ _ _) in *.
  destruct (Nat.lt_trichotomy r k) as [Hlt|[|Hlt]]; [|done|].
  - pose proof (block_size_lt r k Hlt Hk). lia.
  - specialize (Hl k Hlt). lia.
Qed.

(** ** Buddy addresses *)

Lemma lxor_1 q : 0 <= q -> Z.lxor q 1 = if Z.even q then q + 1 else q - 1.
Proof. destruct q as [|[p|p|]|]; intros; try reflexivity; lia. Qed.

Lemma lxor_block q n : 0 <= n -> Z.lxor (q * 2 ^ n) (2 ^ n) = Z.lxor q 1 * 2 ^ n.
Proof.
  intros Hn. rewrite <- (Z.mul_1_l (2 ^ n)) at 2.
  rewrite <- !Z.shiftl_mul_pow2 by done. by rewrite Z.shiftl_lxor.
Qed.

Section geometry.
Context (base : Z).

(** A block of order [k] at [a] lies in the heap, aligned to its size. *)
Definition placed (a : Z) (k : nat) : Prop :=
  (k <= MAX_ORDER)%nat /\ (block_size k | a - base) /\
  base <= a /\ a + block_size k <= base + TOTAL_HEAP_SIZE.

(** The two halves of the block of order [S k] at [lo]. *)
Definition buddies (a b lo : Z) (k : nat) : Prop :=
  placed lo (S k) /\ ((a = lo /\ b = lo + block_size k) \/ (b = lo /\ a = lo + block_size k)).

Lemma placed_offset a k : placed a k -> 0 <= a - base < TOTAL_HEAP_SIZE.
Proof. intros (Hk & _ & ? & ?). pose proof (block_size_min k Hk). unfold MIN_BLOCK_SIZE in *. lia. Qed.

Lemma buddy_of_buddies a k :
  (k < MAX_ORDER)%nat -> placed a k ->
  exists lo, buddies a (buddy_of base a k) lo k /\ lo = Z.min a (buddy_of base a k).
Proof.
  intros Hk Hp. pose proof (placed_offset _ _ Hp) as Ho. destruct Hp as (Hk' & [q Hq] & Hlo & Hhi).
  pose proof (block_size_S k Hk) as HS. pose proof (block_size_total (S k) ltac:(lia)) as [t Ht].
  assert (Hpos : 0 < block_size k).
  { pose proof (block_size_min k Hk'). unfold MIN_BLOCK_SIZE in *. lia. }
  assert (Hq0 : 0 <= q) by nia.
  assert (Hb : buddy_of base a k = base + Z.lxor q 1 * block_size k).
  { unfold buddy_of. cbn zeta. rewrite wrap64_small.
    - rewrite Hq, (block_size_pow k Hk'), lxor_block by lia. done.
    - unfold TOTAL_HEAP_SIZE, INITIAL_BLOCKS, MMAP_THRESHOLD in Ho. lia. }
  rewrite lxor_1 in Hb by done.
  destruct (Z.even q) eqn:Ev.
  - apply Z.even_spec in Ev as [p ->]. exists a. split; [|lia]. split; [|left; lia].
    rewrite HS in Ht. split_and!; [lia|exists p; rewrite HS; lia|lia|].
    rewrite HS. assert (p < t) by nia. nia.
  - assert (exists p, q = 2 * p + 1) as [p ->].
    { apply Z.odd_spec. rewrite <- Z.negb_even, Ev. done. }
    exists (a - block_size k). split; [|lia]. split; [|right; lia].
    split_and!; [lia|exists p; rewrite HS; lia|nia|lia].
Qed.

Lemma buddies_sym a b lo k : buddies a b lo k -> buddies b a lo k.
Proof. intros [Hp H]. split; [done|tauto]. Qed.

Lemma buddies_placed a b lo k : buddies a b lo k -> placed a k /\ placed b k.
Proof.
  intros [(Hk & Hd & Hlo & Hhi) Hab].
  assert (Hkk : (k < MAX_ORDER)%nat) by lia.
  pose proof (block_size_S k Hkk) as HS. pose proof (block_size_min k ltac:(lia)) as Hmin.
  unfold MIN_BLOCK_SIZE in *.
  assert (Hdk : (block_size k | lo - base)).
  { etrans; [|exact Hd]. apply block_size_divide; lia. }
  assert (Hdk' : (block_size k | lo + block_size k - base)).
  { replace (lo + block_size k - base) with (lo - base + block_size k) by lia.
    apply Z.divide_add_r; [done|apply Z.divide_refl]. }
  destruct Hab as [[-> ->]|[-> ->]]; split; split_and!; (done || lia).
Qed.

Lemma buddies_fun a b b' lo lo' k : buddies a b lo k -> buddies a b' lo' k -> b = b' /\ lo = lo'.
Proof.
  intros [(Hk & [x Hx] & _) Hab] [(_ & [y Hy] & _) Hab'].
  pose proof (block_size_S k ltac:(lia)) as HS. pose proof (block_size_min k ltac:(lia)) as Hmin.
  unfold MIN_BLOCK_SIZE in *. rewrite HS in *.
  assert (2 * (x - y) <> 1 /\ 2 * (y - x) <> 1) by lia.
  assert (lo <> lo' + block_size k /\ lo' <> lo + block_size k) by (split; intros; nia).
  lia.
Qed.

Lemma buddy_of_intro a b lo k : buddies a b lo k -> buddy_of base a k = b.
Proof.
  intros Hb. destruct (buddies_placed _ _ _ _ Hb) as [Hp _].
  assert ((k < MAX_ORDER)%nat) by (destruct Hb as [(? & _) _]; lia).
  destruct (buddy_of_buddies a k) as (lo' & Hb' & _); [done..|].
  by destruct (buddies_fun _ _ _ _ _ _ Hb' Hb).
Qed.

Lemma buddy_of_invol a k :
  (k < MAX_ORDER)%nat -> placed a k -> buddy_of base (buddy_of base a k) k = a.
Proof.
  intros Hk Hp. destruct (buddy_of_buddies a k) as (lo & Hb & _); [done..|].
  by eapply buddy_of_intro, buddies_sym.
Qed.

(** ** Tilings *)

(** The blocks of the heap: address to order. *)
Record tiles (B : gmap Z nat) : Prop := {
  t_placed : forall a k, B !! a = Some k -> placed a k;
  t_disj : forall a b k j, B !! a = Some k -> B !! b = Some j -> a < b -> a + block_size k <= b;
  t_cover : forall x, in_range base TOTAL_HEAP_SIZE x ->
              exists a k, B !! a = Some k /\ in_range a (block_size k) x;
}.

(** The buddy of a block starts a block of at most its order. *)
Lemma buddy_live B a k b lo :
  tiles B -> B !! a = Some k -> buddies a b lo k ->
  exists j, (j <= k)%nat /\ B !! b = Some j.
Proof.
  intros HB Ha Hb. destruct (buddies_placed _ _ _ _ Hb) as [Hpa Hpb].
  destruct Hb as [(HSk & Hd & Hlo & Hhi) Hab].
  pose proof (block_size_S k ltac:(lia)) as HS. pose proof (block_size_min k ltac:(lia)) as Hmin.
  unfold MIN_BLOCK_SIZE in *.
  destruct (t_cover _ HB b) as (c & j & Hc & Hin).
  { destruct Hpb as (_ & _ & ? & ?). unfold in_range. lia. }
  destruct (t_placed _ HB c j Hc) as (Hj & Hcd & Hcl & Hch).
  pose proof (block_size_min j Hj). unfold MIN_BLOCK_SIZE, in_range in *.
  destruct (decide (j <= k)%nat) as [Hjk|Hjk].
  - exists j. split; [done|]. assert (c = b) as <-; [|done].
    destruct (decide (c < b)) as [Hlt|]; [|lia]. exfalso.
    assert (Hbd : (block_size j | b - base)).
    { etrans; [|apply Hpb]. apply block_size_divide; lia. }
    pose proof (divide_lt_le (block_size j) (c - base) (b - base) ltac:(lia) Hcd Hbd). lia.
  - exfalso. assert (Hdj : (block_size (S k) | block_size j)) by (apply block_size_divide; lia).
    assert (Hd1 : (block_size (S k) | c - base)) by (etrans; [exact Hdj|done]).
    assert (Hd2 : (block_size (S k) | c - base + block_size j)).
    { by apply Z.divide_add_r. }
    assert (c <= lo).
    { destruct (decide (lo < c)); [|lia].
      pose proof (divide_lt_le (block_size (S k)) (lo - base) (c - base) ltac:(lia) Hd Hd1 ltac:(lia)). lia. }
    assert (lo + block_size (S k) <= c + block_size j).
    { pose proof (divide_lt_le (block_size (S k)) (lo - base) (c - base + block_size j)
        ltac:(lia) Hd Hd2 ltac:(lia)). lia. }
    assert (c <> a) by (intros ->; assert (j = k) by congruence; lia).
    destruct (decide (c < a)) as [Hca|Hca].
    + pose proof (t_disj _ HB _ _ _ _ Hc Ha Hca). lia.
    + pose proof (t_disj _ HB _ _ _ _ Ha Hc ltac:(lia)). lia.
Qed.

Lemma placed_pos a k : placed a k -> 0 < block_size k.
Proof. intros (Hk & _). pose proof (block_size_min k Hk). unfold MIN_BLOCK_SIZE in *. lia. Qed.

(** Splitting the block at [a] in two. *)
Lemma tiles_split B a k :
  tiles B -> B !! a = Some (S k) ->
  buddies a (a + block_size k) a k /\
  tiles (<[a + block_size k := k]> (<[a := k]> B)).
Proof.
  intros HB Ha. pose proof (t_placed _ HB _ _ Ha) as Hp.
  assert (Hbd : buddies a (a + block_size k) a k) by (split; [done|by left]).
  split; [done|]. destruct (buddies_placed _ _ _ _ Hbd) as [Hp1 Hp2].
  pose proof (placed_pos _ _ Hp1) as Hpos.
  pose proof (block_size_S k ltac:(destruct Hp; lia)) as HS.
  assert (Hel : forall c j, <[a + block_size k := k]> (<[a := k]> B) !! c = Some j ->
    (c = a + block_size k /\ j = k) \/ (c = a /\ j = k) \/
    (c <> a /\ B !! c = Some j /\ (c < a -> c + block_size j <= a) /\
     (a < c -> a + 2 * block_size k <= c))).
  { intros c j. rewrite !lookup_insert. repeat case_decide; subst; [intros [= ->]..|]; auto.
    intros Hc. right; right. split_and!; [done..| |].
    - intros Hlt. by apply (t_disj _ HB c a j (S k)).
    - intros Hlt. rewrite <- HS. by apply (t_disj _ HB a c (S k) j). }
  split.
  - intros c j [[-> ->]|[[-> ->]|(_ & Hc & _)]]%Hel; [done..|]. by eapply t_placed.
  - intros c d i j [[-> ->]|[[-> ->]|(Hca & Hc & Hc1 & Hc2)]]%Hel
      [[-> ->]|[[-> ->]|(Hda & Hd & Hd1 & Hd2)]]%Hel Hlt; try lia.
    by apply (t_disj _ HB c d i j).
  - intros x Hx. destruct (t_cover _ HB x Hx) as (c & j & Hc & Hin).
    destruct (decide (c = a)) as [->|Hca].
    + assert (j = S k) as -> by congruence. unfold in_range in *.
      destruct (decide (x < a + block_size k)).
      * exists a, k. rewrite lookup_insert_ne, lookup_insert_eq by lia. split; [done|lia].
      * exists (a + block_size k), k. rewrite lookup_insert_eq. split; [done|lia].
    + exists c, j. split; [|done]. assert (c <> a + block_size k).
      { intros ->. pose proof (t_disj _ HB _ _ _ _ Ha Hc ltac:(lia)). lia. }
      by rewrite !lookup_insert_ne.
Qed.

(** Merging two buddies into the block at the lower address. *)
Lemma tiles_merge B a b lo k :
  tiles B -> B !! a = Some k -> B !! b = Some k -> buddies a b lo k ->
  tiles (<[lo := S k]> (delete b (delete a B))).
Proof.
  intros HB Ha Hb Hbd. destruct (buddies_placed _ _ _ _ Hbd) as [Hp1 Hp2].
  pose proof (placed_pos _ _ Hp1) as Hpos. destruct Hbd as [Hp Hab].
  pose proof (block_size_S k ltac:(destruct Hp; lia)) as HS.
  assert (Hel : forall c j, <[lo := S k]> (delete b (delete a B)) !! c = Some j ->
    (c = lo /\ j = S k) \/
    (c <> lo /\ B !! c = Some j /\ (c < lo -> c + block_size j <= lo) /\
     (lo < c -> lo + block_size (S k) <= c))).
  { intros c j. rewrite lookup_insert, !lookup_delete. repeat case_decide; subst;
      [intros [= ->]; auto|done|done|]. intros Hc. right. split_and!; [done..| |].
    - intros Hlt. destruct Hab as [[-> ->]|[-> ->]]; by eapply (t_disj _ HB c).
    - intros Hlt. assert (a < c /\ b < c) as [Hac Hbc].
      { destruct (decide (c < a)) as [Hca|]; [|destruct (decide (c < b)) as [Hcb|]; [|lia]].
        - pose proof (t_disj _ HB _ _ _ _ Hb Hc ltac:(lia)). lia.
        - pose proof (t_disj _ HB _ _ _ _ Ha Hc ltac:(lia)). lia. }
      pose proof (t_disj _ HB _ _ _ _ Ha Hc Hac). pose proof (t_disj _ HB _ _ _ _ Hb Hc Hbc). lia. }
  split.
  - intros c j [[-> ->]|(_ & Hc & _)]%Hel; [done|]. by eapply t_placed.
  - intros c d i j [[-> ->]|(Hca & Hc & Hc1 & Hc2)]%Hel
      [[-> ->]|(Hda & Hd & Hd1 & Hd2)]%Hel Hlt; try lia.
    by apply (t_disj _ HB c d i j).
  - intros x Hx. destruct (t_cover _ HB x Hx) as (c & j & Hc & Hin).
    destruct (decide (c = a \/ c = b)) as [Hcab|Hcab].
    + assert (j = k) as -> by (destruct Hcab; congruence).
      exists lo, (S k). rewrite lookup_insert_eq. split; [done|]. unfold in_range in *. lia.
    + exists c, j. split; [|done]. assert (c <> lo) by lia.
      rewrite lookup_insert_ne, !lookup_delete_ne by lia. done.
Qed.

(** ** The initial tiling *)

(** The first [n] of the initial blocks. *)
Definition first_tiles (n : Z) : gmap Z nat :=
  list_to_map ((fun i => (base + i * MMAP_THRESHOLD, MAX_ORDER)) <$> seqZ 0 n).

Definition initial_tiles : gmap Z nat := first_tiles INITIAL_BLOCKS.

Lemma first_tiles_lookup n a k :
  first_tiles n !! a = Some k <->
  k = MAX_ORDER /\ exists i, 0 <= i < n /\ a = base + i * MMAP_THRESHOLD.
Proof.
  unfold first_tiles. rewrite <- elem_of_list_to_map.
  - rewrite list_elem_of_fmap. setoid_rewrite elem_of_seqZ_iff. split.
    + intros (i & [= -> ->] & Hi). split; [done|]. by exists i.
    + intros (-> & i & Hi & ->). by exists i.
  - rewrite <- list_fmap_compose. apply NoDup_fmap_2; [|apply NoDup_seqZ].
    intros i j. cbn. unfold MMAP_THRESHOLD. lia.
Qed.

Lemma first_tiles_S n :
  0 <= n -> first_tiles (n + 1) = <[base + n * MMAP_THRESHOLD := MAX_ORDER]> (first_tiles n).
Proof.
  intros Hn. apply map_eq. intros a. apply option_eq. intros k.
  rewrite first_tiles_lookup, lookup_insert_Some, first_tiles_lookup.
  unfold MMAP_THRESHOLD. split.
  - intros (-> & i & Hi & ->). destruct (decide (i = n)) as [->|]; [by left|right].
    split; [lia|]. split; [done|]. exists i. split; [lia|done].
  - intros [[<- <-]|(_ & -> & i & Hi & ->)]; (split; [done|]);
      [exists n|exists i]; (split; [lia|done]).
Qed.

Lemma initial_tiles_lookup a k :
  initial_tiles !! a = Some k <->
  k = MAX_ORDER /\ exists i, 0 <= i < INITIAL_BLOCKS /\ a = base + i * MMAP_THRESHOLD.
Proof. apply first_tiles_lookup. Qed.

Lemma initial_tiles_ok : tiles initial_tiles.
Proof.
  assert (Hbs : block_size MAX_ORDER = MMAP_THRESHOLD) by done.
  unfold MMAP_THRESHOLD in *. split.
  - intros a k (-> & i & Hi & ->)%initial_tiles_lookup. unfold INITIAL_BLOCKS in *.
    unfold placed, TOTAL_HEAP_SIZE, INITIAL_BLOCKS, MMAP_THRESHOLD. rewrite Hbs.
    split_and!; [done|exists i; lia|lia|lia].
  - intros a b k j (-> & i & Hi & ->)%initial_tiles_lookup (-> & i' & Hi' & ->)%initial_tiles_lookup.
    rewrite Hbs. unfold MMAP_THRESHOLD. lia.
  - intros x Hx. unfold in_range, TOTAL_HEAP_SIZE, INITIAL_BLOCKS, MMAP_THRESHOLD in *.
    exists (base + (x - base) / 131072 * MMAP_THRESHOLD), MAX_ORDER.
    rewrite initial_tiles_lookup, Hbs. unfold INITIAL_BLOCKS, MMAP_THRESHOLD.
    pose proof (Z.div_mod (x - base) 131072 ltac:(lia)).
    pose proof (Z.mod_pos_bound (x - base) 131072 ltac:(lia)).
    split; [split; [done|eexists; split; [|done]]|]; lia.
Qed.

End geometry.
