(* ===== verification/BuddyInv.v ===== *)
(** * The invariant of the buddy heap

    [rep base v B Fr P]: the view [v] represents the heap at [base] tiled by
    the blocks [B] (address to order), of which [Fr] are free.  The block at
    [P] is pending: taken out of the lists by an operation that has not
    finished, its flag is not yet meaningful.  No two free blocks are buddies
    of the same order. *)

From S2P Require Import Prelude Memory OS Buddy BuddyView BuddyLists BuddyTiling.

Section inv.
Context {X OS : Type} (x0 : X) (base : Z).
Implicit Types (v : view X OS) (B Fr : gmap Z nat).

Abbreviation tiles := (tiles base).
Abbreviation buddy_of := (buddy_of base).

(** The header at [a] lies outside the heap. *)
Definition outside_heap (a : Z) : Prop :=
  a + sizeof_MallocMetadata <= base \/ base + TOTAL_HEAP_SIZE <= a.

Record rep v B Fr (P : Z) : Prop := {
  r_base : vbase v = base;
  r_range : 0 < base /\ base + TOTAL_HEAP_SIZE < 2 ^ 63;
  r_links : flinks v Fr;
  r_top : heads_complete v Fr MAX_ORDER;
  r_tiles : tiles B;
  r_sub : forall a k, Fr !! a = Some k -> B !! a = Some k;
  r_attr : forall a k, B !! a = Some k -> exists f x,
    vA v !! a = Some (block_size k, f, false, x) /\
    (a <> P -> f = bool_decide (is_Some (Fr !! a)));
  r_coal : forall a k, (k < MAX_ORDER)%nat -> Fr !! a = Some k -> Fr !! buddy_of a k <> Some k;
  r_pend : Fr !! P = None;
}.

(** The allocated blocks. *)
Definition alloc B Fr (a : Z) (k : nat) : Prop := B !! a = Some k /\ Fr !! a = None.

(** What a buddy operation leaves alone: the payload bytes outside [[lo, lo+n)],
    the headers outside the heap, and the state that is not the heap's. *)
Record frame (lo n : Z) v v' : Prop := {
  fr_ml : vml v' = vml v;
  fr_base : vbase v' = vbase v;
  fr_init : vinit v' = vinit v;
  fr_os : vos v' = vos v;
  fr_bytes : forall x, ~ in_range lo n x -> vbytes v' !! x = vbytes v !! x;
  fr_A : forall a, outside_heap a -> vA v' !! a = vA v !! a;
  fr_L : forall a, outside_heap a -> vL v' !! a = vL v !! a;
}.

Lemma frame_refl lo n v : frame lo n v v.
Proof. by split. Qed.

Lemma frame_trans lo n v1 v2 v3 : frame lo n v1 v2 -> frame lo n v2 v3 -> frame lo n v1 v3.
Proof.
  intros [] []. split; try congruence; intros.
  - rewrite fr_bytes1, fr_bytes0 by done. done.
  - rewrite fr_A1, fr_A0 by done. done.
  - rewrite fr_L1, fr_L0 by done. done.
Qed.

Lemma frame_weaken lo n lo' n' v v' :
  frame lo n v v' -> (forall x, in_range lo n x -> in_range lo' n' x) -> frame lo' n' v v'.
Proof. intros [] Hr. split; auto. Qed.

(** ** Facts about represented heaps *)

Lemma placed_in_heap a k : placed base a k -> 0 < block_size k /\ ~ outside_heap a.
Proof.
  intros Hp. pose proof (placed_pos _ _ _ Hp). destruct Hp as (Hk & _ & ? & ?). split; [done|].
  unfold outside_heap, sizeof_MallocMetadata. lia.
Qed.

Lemma rep_block_pos v B Fr P a k :
  rep v B Fr P -> B !! a = Some k -> 0 < a /\ placed base a k.
Proof.
  intros Hr Ha. pose proof (t_placed _ _ (r_tiles _ _ _ _ Hr) a k Ha) as Hp.
  destruct (r_range _ _ _ _ Hr). destruct Hp as (? & ? & ? & ?). split; [lia|done].
Qed.

Lemma rep_free_in_heap v B Fr P a k :
  rep v B Fr P -> Fr !! a = Some k -> ~ outside_heap a.
Proof.
  intros Hr Ha. destruct (rep_block_pos v B Fr P a k Hr) as [_ Hp]; [by apply Hr|].
  by apply placed_in_heap in Hp as [_ ?].
Qed.

(** Different blocks keep their headers apart. *)
Lemma blocks_apart v B Fr P a k b j :
  rep v B Fr P -> B !! a = Some k -> B !! b = Some j -> a <> b ->
  a + block_size k <= b \/ b + block_size j <= a.
Proof.
  intros Hr Ha Hb Hab. pose proof (r_tiles _ _ _ _ Hr) as HB.
  destruct (decide (a < b)); [left; by eapply t_disj|right; eapply t_disj; [done..|lia]].
Qed.

Lemma rep_size v B Fr P a k :
  rep v B Fr P -> B !! a = Some k -> (k <= MAX_ORDER)%nat /\ MIN_BLOCK_SIZE <= block_size k.
Proof.
  intros Hr Ha. pose proof (t_placed _ _ (r_tiles _ _ _ _ Hr) a k Ha) as (Hk & _).
  split; [done|by apply block_size_min].
Qed.

(** A block becomes pending, or a pending block settles. *)
Lemma rep_set_pending v B Fr P :
  rep v B Fr 0 -> Fr !! P = None -> rep v B Fr P.
Proof.
  intros [] HP. split; try done. intros a k Ha. destruct (r_attr0 a k Ha) as (f & x & HA & Hf).
  exists f, x. split; [done|]. intros _. apply Hf.
  destruct (t_placed _ _ r_tiles0 a k Ha) as (? & ? & ? & ?). lia.
Qed.

Lemma rep_settle v B Fr P k x :
  rep v B Fr P -> vA v !! P = Some (block_size k, false, false, x) -> B !! P = Some k ->
  rep v B Fr 0.
Proof.
  intros [] HA HP. split; try done.
  - intros a j Ha. destruct (r_attr0 a j Ha) as (f & y & HA' & Hf). exists f, y. split; [done|].
    intros _. destruct (decide (a = P)) as [->|]; [|by apply Hf].
    rewrite HA in HA'. injection HA' as _ <- _. by rewrite r_pend0.
  - destruct (Fr !! 0) as [j|] eqn:E; [|done]. pose proof (flinks_pos _ _ _ _ r_links0 E). lia.
Qed.

(** ** Taking a block off its list *)

Lemma wpv_take k m x y v B Fr P Q :
  rep v B Fr P -> (k <= MAX_ORDER)%nat -> 0 < m -> removable v Fr k m x y ->
  (k = MAX_ORDER -> Fr !! m = Some k) ->
  (forall v', flinks v' (delete m Fr) -> heads_complete v' (delete m Fr) MAX_ORDER ->
     vL v' !! m = Some (0, 0) -> vA v' = vA v -> frame 0 0 v v' ->
     vfl v' = (if x =? 0 then <[k := y]> (vfl v) else vfl v) -> Q tt v') ->
  wpv (fl_remove k m) Q v.
Proof.
  intros Hr Hk Hm Hrem Htop HQ. pose proof (r_links _ _ _ _ Hr) as Hf.
  eapply wpv_fl_remove; [done..|]. intros v' HL HLm Hfl (HA & Hml & Hb & Hba & Hi & Ho).
  apply HQ; try done.
  - by eapply flinks_unlink.
  - eapply heads_complete_unlink; [done..| |done|done|apply Hr]. intros <-. auto.
  - split; try done; [by rewrite Hb|by rewrite HA|].
    intros a Hout. destruct (decide (a = m)) as [->|Ham].
    + destruct Hrem as [HLm0 [HFm|(_ & -> & ->)]]; [|by rewrite HLm].
      exfalso. by eapply rep_free_in_heap.
    + rewrite HL by done. destruct (removable_ends _ _ _ _ _ _ Hf Hrem) as [Hy Hx].
      apply unlink_at_off; [done|..]; intros ->.
      * destruct Hx as [?|(_ & HF & _)]; [done|]. exfalso. by eapply rep_free_in_heap.
      * destruct Hy as [?|(_ & HF & _)]; [done|]. exfalso. by eapply rep_free_in_heap.
Qed.

(** ** Putting a block on its list *)

Lemma wpv_put k m v Fr Q :
  flinks v Fr -> (k <= MAX_ORDER)%nat -> detached v Fr m ->
  (forall a j, Fr !! a = Some j -> ~ outside_heap a) -> ~ outside_heap m ->
  (forall v', flinks v' (<[m := k]> Fr) ->
     (heads_complete v Fr MAX_ORDER -> heads_complete v' (<[m := k]> Fr) MAX_ORDER) ->
     vA v' = alter (set_a_free true) m (vA v) -> frame 0 0 v v' ->
     (forall a, 0 < a -> a <> m -> Fr !! a = None -> vL v' !! a = vL v !! a) ->
     (vfl v !! k = Some 0 -> vfl v' = <[k := m]> (vfl v)) -> Q tt v') ->
  wpv (fl_insert k m) Q v.
Proof.
  intros Hf Hk Hd Hin Hm HQ. pose proof Hd as (Hmp & Hfr & _).
  eapply wpv_fl_insert; [done..|].
  intros v' x y Hg Hx0 HL Hfl (HA & Hml & Hb & Hba & Hi & Ho). apply HQ.
  - by eapply flinks_link.
  - intros Hc. by eapply heads_complete_link.
  - done.
  - assert (Hne : forall a, outside_heap a -> a <> m) by (intros a ? ->; done).
    split; try done; [by rewrite Hb| |].
    + intros a Ha. rewrite HA. apply lookup_alter_ne. symmetry. auto.
    + intros a Ha. rewrite HL. apply link_at_off; [by apply Hne|..]; intros ->.
      * destruct Hg as [[[? _]|(_ & HF & _)] _]; [done|]. by apply Hin in HF.
      * destruct Hg as [_ [?|(_ & HF & _)]]; [done|]. by apply Hin in HF.
  - intros a Ha Ham HF. rewrite HL. apply link_at_off; [done|..]; intros ->.
    + destruct Hg as [[[? _]|(_ & HF' & _)] _]; [lia|congruence].
    + destruct Hg as [_ [?|(_ & HF' & _)]]; [lia|congruence].
  - intros Hh. rewrite Hfl, (Hx0 Hh). done.
Qed.

(** ** Steps on a pending block *)

Lemma rep_take v v' B Fr P m :
  rep v B Fr P -> (P = 0 \/ P = m) -> flinks v' (delete m Fr) ->
  heads_complete v' (delete m Fr) MAX_ORDER -> vA v' = vA v -> vbase v' = vbase v ->
  rep v' B (delete m Fr) m.
Proof.
  intros Hr HP Hf Hc HA Hb.
  assert (Hd : forall a k, delete m Fr !! a = Some k -> a <> m /\ Fr !! a = Some k).
  { intros a k. rewrite lookup_delete. by case_decide. }
  split; try done; try apply Hr.
  - rewrite Hb. apply Hr.
  - intros a k Ha. apply Hd in Ha as [_ ?]. by apply Hr.
  - intros a k Ha. destruct (r_attr _ _ _ _ Hr a k Ha) as (f & x & HA' & Hf').
    exists f, x. rewrite HA. split; [done|]. intros Ham. rewrite lookup_delete_ne by done.
    apply Hf'. destruct (rep_block_pos _ _ _ _ _ _ Hr Ha). destruct HP as [-> | ->]; [lia|done].
  - intros a k Hk Ha Hb'. apply Hd in Ha as [_ Ha]. apply Hd in Hb' as [_ Hb'].
    by apply (r_coal _ _ _ _ Hr a k Hk Ha).
  - apply lookup_delete_eq.
Qed.

(** Assigning the flag of a pending block. *)
Lemma rep_flag v B Fr P b :
  rep v B Fr P -> rep (v_upd_A (set_a_free b) P v) B Fr P.
Proof.
  intros Hr. split; try apply Hr.
  { eapply flinks_frame; [apply Hr|done..]. }
  intros a k Ha. destruct (r_attr _ _ _ _ Hr a k Ha) as (f & x & HA & Hf).
  cbn [vA v_upd_A]. destruct (decide (a = P)) as [->|HaP].
  - exists b, x. by rewrite lookup_alter_eq, HA.
  - exists f, x. by rewrite lookup_alter_ne.
Qed.

Lemma frame_flag lo n v P b k :
  placed base P k -> frame lo n v (v_upd_A (set_a_free b) P v).
Proof.
  intros Hp. split; try done. intros a Ha. cbn. apply lookup_alter_ne. intros ->.
  by apply placed_in_heap in Hp as [_ ?].
Qed.

(** A change that leaves the blocks' headers, the list heads and the base. *)
Lemma rep_same v v' B Fr P :
  rep v B Fr P -> vfl v' = vfl v -> vbase v' = vbase v ->
  (forall a k, B !! a = Some k -> vA v' !! a = vA v !! a /\ vL v' !! a = vL v !! a) ->
  rep v' B Fr P.
Proof.
  intros Hr Hfl Hb Hsame.
  assert (HsF : forall a k, Fr !! a = Some k -> vL v' !! a = vL v !! a).
  { intros a k Ha. by eapply Hsame, r_sub. }
  split; try apply Hr.
  - rewrite Hb. apply Hr.
  - eapply flinks_frame; [apply Hr|done..].
  - intros a n Ha HLa. rewrite Hfl. eapply (r_top _ _ _ _ Hr); [done|]. by rewrite <- (HsF a _ Ha).
  - intros a k Ha. destruct (Hsame a k Ha) as [-> _]. by apply Hr.
Qed.

End inv.
