(* ===== verification/BuddyOps.v ===== *)
(** * Splitting, allocating and freeing in the buddy heap

    The operations of the allocator core preserve [rep]; their effect on the
    allocated blocks is stated with [alloc]. *)

From S2P Require Import Prelude Memory OS Buddy BuddyView BuddyLists BuddyTiling BuddyInv.

Section ops.
Context {X OS : Type} (x0 : X) (base : Z).
Implicit Types (v : view X OS) (B Fr : gmap Z nat).

Abbreviation rep := (rep base).
Abbreviation frame := (frame base).
Abbreviation outside_heap := (outside_heap base).

Lemma placed_min a k : placed base a k -> MIN_BLOCK_SIZE <= block_size k.
Proof. intros (Hk & _). by apply block_size_min. Qed.

(** ** [split_block] *)

Definition halves (m : Z) (k : nat) B : gmap Z nat := <[m + block_size k := k]> (<[m := k]> B).
Definition halves_free (m : Z) (k : nat) Fr : gmap Z nat := <[m + block_size k := k]> (delete m Fr).

(** The block split is the head of its list or was detached by a split before. *)
Definition splittable v Fr (P m : Z) (k : nat) : Prop :=
  (P = 0 /\ Fr !! m = Some k) \/ (P = m /\ vL v !! m = Some (0, 0) /\ k <> MAX_ORDER).

Lemma splittable_removable v B Fr P m k :
  rep v B Fr P -> splittable v Fr P m k ->
  exists x y, removable v Fr k m x y /\ (k = MAX_ORDER -> Fr !! m = Some k) /\ (P = m -> y = 0 /\ x = 0).
Proof.
  intros Hr [[-> HF]|(-> & HL & Hk)].
  - destruct (fl_node _ _ (r_links _ _ _ _ _ Hr) m k HF) as (_ & Hm & n & p & HL & _).
    exists p, n. split; [by split; [|left]|]. split; [done|lia].
  - exists 0, 0. split; [split; [done|right]|done]. split_and!; [by apply Hr|done..].
Qed.

(** Storing the header of the upper half. *)
Lemma halves_apart v B Fr P m k a j :
  rep v B Fr P -> B !! m = Some (S k) -> B !! a = Some j -> a <> m ->
  a + MIN_BLOCK_SIZE <= m \/ m + 2 * block_size k <= a.
Proof.
  intros Hr Hm Ha Ham. destruct (rep_size _ _ _ _ _ _ _ Hr Ha) as [_ Hj].
  destruct (rep_size _ _ _ _ _ _ _ Hr Hm) as [Hk _].
  pose proof (block_size_S k ltac:(lia)).
  destruct (blocks_apart _ _ _ _ _ a j m (S k) Hr Ha Hm Ham); lia.
Qed.

Lemma halves_coal v B Fr P m k a j :
  rep v B Fr P -> B !! m = Some (S k) -> (j < MAX_ORDER)%nat -> halves_free m k Fr !! a = Some j ->
  halves_free m k Fr !! buddy_of base a j <> Some j.
Proof.
  intros Hr Hm Hj Ha Hb. destruct (tiles_split base B m k (r_tiles _ _ _ _ _ Hr) Hm) as [Hbd _].
  pose proof (buddies_placed _ _ _ _ _ Hbd) as [Hp1 Hp2].
  pose proof (placed_pos _ _ _ Hp1) as Hpos. unfold halves_free in *.
  rewrite lookup_insert in Ha. case_decide as Hab.
  - subst a. injection Ha as ->.
    rewrite (buddy_of_intro _ _ _ _ _ (buddies_sym _ _ _ _ _ Hbd)), lookup_insert in Hb.
    case_decide; [lia|]. by rewrite lookup_delete_eq in Hb.
  - rewrite lookup_delete in Ha. case_decide; [done|]. rewrite lookup_insert in Hb.
    case_decide as Hbb.
    + injection Hb as <-. apply (r_sub _ _ _ _ _ Hr) in Ha as HaB.
      destruct (rep_block_pos _ _ _ _ _ _ _ Hr HaB) as [_ Hpa].
      pose proof (buddy_of_invol base a k Hj Hpa) as Hinv. rewrite <- Hbb in Hinv.
      rewrite (buddy_of_intro _ _ _ _ _ (buddies_sym _ _ _ _ _ Hbd)) in Hinv. done.
    + rewrite lookup_delete in Hb. case_decide; [done|].
      by apply (r_coal _ _ _ _ _ Hr a j Hj Ha).
Qed.

(** What the split has to keep clear of: the other blocks lie apart from the
    upper half, and the other free blocks stay free. *)
Lemma split_others v B Fr P m k (b := m + block_size k) :
  rep v B Fr P -> B !! m = Some (S k) -> MIN_BLOCK_SIZE <= block_size k ->
  (forall a j, B !! a = Some j -> a <> m -> a + 32 <= b \/ b + 32 <= a) /\
  (forall a j, delete m Fr !! a = Some j -> a <> m /\ Fr !! a = Some j /\ B !! a = Some j) /\
  Fr !! b = None.
Proof.
  intros Hr Hm Hmin. unfold MIN_BLOCK_SIZE in Hmin. destruct (rep_size _ _ _ _ _ _ _ Hr Hm) as [Hk _].
  assert (Hfar : forall a j, B !! a = Some j -> a <> m -> a + 32 <= b \/ b + 32 <= a).
  { intros a j Ha Ham. pose proof (halves_apart _ _ _ _ _ _ _ _ Hr Hm Ha Ham).
    unfold MIN_BLOCK_SIZE, b in *. lia. }
  split_and!; [exact Hfar| |].
  - intros a j. rewrite lookup_delete. case_decide; [done|]. intros Ha. split_and!; [done..|by apply Hr].
  - destruct (Fr !! b) as [j|] eqn:E; [|done]. apply (r_sub _ _ _ _ _ Hr) in E.
    destruct (Hfar b j E); unfold b in *; lia.
Qed.

(** The state once the header of the lower half is shrunk and that of the
    upper half, at [b], stored. *)
Definition v_split (m b size : Z) v : view X OS :=
  v_new b (size, true, false, x0) (0, 0) (v_upd_A (fun a => set_a_free false (set_a_size size a)) m v).

Lemma v_split_off m b size v a :
  a + 32 <= b \/ b + 32 <= a ->
  vL (v_split m b size v) !! a = vL v !! a /\
  vA (v_split m b size v) !! a = alter (fun a => set_a_free false (set_a_size size a)) m (vA v) !! a.
Proof.
  intros Ha. unfold v_split, v_new. cbn [vL vA v_upd_A]. rewrite !lookup_insert_ne by lia.
  by rewrite !clobber_lookup by (unfold hdr_apart, sizeof_MallocMetadata; lia).
Qed.

Lemma v_split_frame m size v n :
  0 < size -> (forall a, outside_heap a -> a <> m /\ (a + 32 <= m + size \/ m + size + 32 <= a)) ->
  size + 32 <= n -> frame m n v (v_split m (m + size) size v).
Proof.
  intros Hs Hout Hn. split; try done.
  - intros z Hz. apply new_hdr_bytes with (h := tt) (m := Mem ∅ (vbytes v)).
    unfold in_range, sizeof_MallocMetadata in *. lia.
  - intros a Ha. destruct (Hout a Ha) as [Ham Hab].
    by rewrite (proj2 (v_split_off _ _ _ _ _ Hab)), lookup_alter_ne.
  - intros a Ha. apply v_split_off, Hout, Ha.
Qed.

(** The invariant after the split, with the lower half detached. *)
Lemma split_rep v v' m k B Fr P e (b := m + block_size k) :
  rep v B Fr P -> B !! m = Some (S k) -> MIN_BLOCK_SIZE <= block_size k ->
  P = 0 \/ P = m -> tiles base (halves m k B) ->
  flinks v' (halves_free m k Fr) -> heads_complete v' (halves_free m k Fr) MAX_ORDER ->
  vbase v' = vbase v -> vA v' !! m = Some (block_size k, false, false, e) ->
  vA v' !! b = Some (block_size k, true, false, x0) ->
  (forall a, a <> m -> a + 32 <= b \/ b + 32 <= a -> vA v' !! a = vA v !! a) ->
  rep v' (halves m k B) (halves_free m k Fr) m.
Proof.
  intros Hr Hm Hmin HP Ht Hf Hc Hb HAm HAb HA.
  destruct (split_others _ _ _ _ _ _ Hr Hm Hmin) as (Hfar & Hsub & Hbfree). unfold MIN_BLOCK_SIZE in Hmin.
  split; try done.
  - rewrite Hb. apply Hr.
  - apply Hr.
  - intros a j. unfold halves_free, halves. rewrite !lookup_insert. fold b.
    case_decide; [done|]. case_decide as Hma; [subst; by rewrite lookup_delete_eq|].
    intros Ha. by apply Hsub in Ha as (_ & _ & ?).
  - intros a j. unfold halves, halves_free. fold b. rewrite !lookup_insert.
    case_decide as Hab; [subst a; intros [= <-]|].
    { exists true, x0. split; [done|]. intros _. by rewrite bool_decide_true by eauto. }
    case_decide as Hma; [subst a; intros [= <-]; by exists false, e|].
    intros HB. rewrite HA by (done || by eapply Hfar).
    destruct (r_attr _ _ _ _ _ Hr a j HB) as (f' & e' & HA' & Hf'). exists f', e'.
    split; [done|]. intros _. rewrite lookup_delete_ne by done. apply Hf'.
    destruct (rep_block_pos _ _ _ _ _ _ _ Hr HB) as [Ha0 _]. destruct HP as [-> | ->]; [lia|done].
  - intros a j. by eapply halves_coal.
  - unfold halves_free. rewrite lookup_insert_ne by lia. apply lookup_delete_eq.
Qed.

Lemma wpv_split k m v B Fr P Q :
  rep v B Fr P -> B !! m = Some (S k) -> splittable v Fr P m (S k) ->
  (forall v' h, rep v' (halves m k B) (halves_free m k Fr) m ->
     vL v' !! m = Some (0, 0) -> frame m (block_size (S k)) v v' ->
     (P = m -> h = 0) ->
     (vfl v !! k = Some 0 -> vfl v' = <[k := m + block_size k]> (<[S k := h]> (vfl v))) -> Q m v') ->
  wpv (split_block x0 m (S k)) Q v.
Proof.
  intros Hr Hm Hs HQ. destruct (rep_block_pos _ _ _ _ _ _ _ Hr Hm) as [Hm0 Hp].
  destruct (tiles_split base B m k (r_tiles _ _ _ _ _ Hr) Hm) as [Hbd Ht].
  pose proof (buddies_placed _ _ _ _ _ Hbd) as [Hp1 Hp2].
  assert (HSk : (S k <= MAX_ORDER)%nat) by apply Hp.
  pose proof (placed_min _ _ Hp1) as Hmin. pose proof (block_size_S k ltac:(lia)) as HS.
  destruct (split_others _ _ _ _ _ _ Hr Hm Hmin) as (Hfar & Hsub & Hbfree).
  assert (HP : P = 0 \/ P = m) by (destruct Hs as [[-> _]|[-> _]]; auto).
  pose proof Hmin as Hmin'. unfold MIN_BLOCK_SIZE in Hmin'. set (b := m + block_size k) in *.
  destruct (splittable_removable _ _ _ _ _ _ Hr Hs) as (x & y & Hrem & Htop & HPm).
  unfold split_block. replace (S k - 1)%nat with k by lia. cbn zeta.
  apply wpv_bind. eapply wpv_take; [done..|]. intros v1 Hf1 Hc1 HLm HA1 Hfr1 Hfl1.
  destruct (r_attr _ _ _ _ _ Hr m (S k) Hm) as (f & e & HAm & _).
  apply wpv_bind, wpv_upd_A with (g := fun a => set_a_free false (set_a_size (block_size k) a));
    [by intros []|by intros []|rewrite HA1; eauto|].
  apply wpv_bind, wpv_new_hdr. fold b. apply wpv_bind.
  change (v_new b _ _ _) with (v_split m b (block_size k) v1). set (v3 := v_split _ _ _ _).
  pose proof (fun a => v_split_off m b (block_size k) v1 a) as Hoff. fold v3 in Hoff.
  destruct (Hoff m ltac:(lia)) as [HLm3 HAm3]. rewrite lookup_alter_eq, HA1, HAm in HAm3.
  eapply (wpv_put base k b v3 (delete m Fr)); [|lia|..].
  - eapply flinks_frame; [exact Hf1|done|]. intros a j Ha. apply Hsub in Ha as (Ham & _ & HB).
    by eapply Hoff, Hfar.
  - split; [lia|]. rewrite lookup_delete_ne by lia. split; [done|]. exists (0, 0). apply lookup_insert_eq.
  - intros a j Ha. apply Hsub in Ha as (_ & HF & _). by eapply rep_free_in_heap.
  - by apply placed_in_heap in Hp2 as [_ ?].
  - intros v4 Hf4 Hc4 HA4 Hfr4 HL4 Hfl4. apply wpv_ret.
    assert (HA4' : forall a, a <> b -> vA v4 !! a = vA v3 !! a) by (intros; by rewrite HA4, lookup_alter_ne).
    apply (HQ _ (if x =? 0 then y else default 0 (vfl v !! S k))).
    + eapply split_rep with (e := e); [done..| | |rewrite HA4' by lia; exact HAm3| |].
      * apply Hc4. intros a n Ha HLa. apply (Hc1 a n Ha). apply Hsub in Ha as (Ham & _ & HB).
        rewrite <- (proj1 (Hoff a ltac:(by eapply Hfar))). done.
      * rewrite (fr_base _ _ _ _ _ Hfr4). apply (fr_base _ _ _ _ _ Hfr1).
      * fold b. rewrite HA4, lookup_alter_eq. unfold v3, v_split, v_new. cbn [vA]. by rewrite lookup_insert_eq.
      * intros a Ham Ha. rewrite HA4' by (unfold b in *; lia).
        by rewrite (proj2 (Hoff a Ha)), lookup_alter_ne, HA1.
    + rewrite HL4 by (lia || apply lookup_delete_eq). by rewrite HLm3.
    + eapply frame_trans; [eapply frame_weaken; [exact Hfr1|unfold in_range; lia]|].
      eapply frame_trans; [|eapply frame_weaken; [exact Hfr4|unfold in_range; lia]].
      apply v_split_frame; [lia| |lia]. intros a Ha.
      unfold outside_heap, sizeof_MallocMetadata in Ha. destruct Hp as (_ & _ & ? & ?). fold b. lia.
    + intros HP'. by destruct (HPm HP') as [-> ->].
    + intros Hk. rewrite Hfl4; change (vfl v3) with (vfl v1); rewrite Hfl1.
      * f_equal. destruct (x =? 0); [done|]. symmetry. apply list_insert_id.
        destruct (lookup_lt_is_Some_2 (vfl v) (S k)) as [h ->]; [|done].
        rewrite (fl_len _ _ (r_links _ _ _ _ _ Hr)). lia.
      * destruct (x =? 0); [|done]. by rewrite list_lookup_insert_ne by lia.
Qed.

(** ** [buddy_alloc] *)

(** The state of the splitting loop: [m] is still the block found, or it is a
    detached part of it of order [o], and the lists of the orders in between
    hold at most the upper half just split off. *)
Definition carved v0 B0 Fr0 (t o0 : nat) v B Fr (m : Z) (o : nat) : Prop :=
  (o = o0 /\ v = v0 /\ B = B0 /\ Fr = Fr0) \/
  ((t <= o < o0)%nat /\ rep v B Fr m /\ B !! m = Some o /\ vL v !! m = Some (0, 0) /\
   frame m (block_size o0) v0 v /\
   (forall a j, a <> m -> alloc B Fr a j <-> alloc B0 Fr0 a j) /\
   (forall j, (t <= j < o0)%nat -> j <> o -> vfl v !! j = Some 0) /\
   (forall j, (o <= j < o0)%nat -> Fr !! (m + block_size j) = Some j)).

Lemma halves_alloc v B Fr P m k a j :
  rep v B Fr P -> B !! m = Some (S k) -> a <> m ->
  alloc (halves m k B) (halves_free m k Fr) a j <-> alloc B Fr a j.
Proof.
  intros Hr Hm Ham. destruct (rep_size _ _ _ _ _ _ _ Hr Hm) as [Hk _].
  pose proof (block_size_min k ltac:(lia)). pose proof (block_size_S k ltac:(lia)).
  unfold MIN_BLOCK_SIZE in *. unfold alloc, halves, halves_free. rewrite !lookup_insert.
  case_decide as Hab.
  - subst a. split; [by intros [_ ?]|]. intros [Hb _].
    destruct (halves_apart _ _ _ _ _ _ _ _ Hr Hm Hb); unfold MIN_BLOCK_SIZE in *; lia.
  - case_decide; [done|]. by rewrite lookup_delete_ne by done.
Qed.

(** What the splitting loop needs of its state before a split. *)
Lemma carved_ready v0 B0 Fr0 t o0 v B Fr m o :
  rep v0 B0 Fr0 0 -> Fr0 !! m = Some o0 -> (o0 <= MAX_ORDER)%nat ->
  (forall j, (t <= j < o0)%nat -> vfl v0 !! j = Some 0) -> (t <= o)%nat ->
  carved v0 B0 Fr0 t o0 v B Fr m (S o) ->
  exists P, rep v B Fr P /\ B !! m = Some (S o) /\ splittable v Fr P m (S o) /\
    (forall j, (t <= j < S o)%nat -> vfl v !! j = Some 0) /\ ((S o < o0)%nat -> P = m).
Proof.
  intros Hr HF Ho0 Hempty Hto [(<- & -> & -> & ->)|(Ho & Hr' & HB' & HL & _ & _ & Hl & _)].
  - exists 0. split_and!; [done|by apply Hr|by left| |lia]. intros j Hj. apply Hempty. lia.
  - exists m. split_and!; [done..|right; split_and!; [done..|lia]| |done].
    intros j Hj. apply Hl; lia.
Qed.

(** One split keeps the state of the loop. *)
Lemma carved_split v0 B0 Fr0 t o0 v B Fr P m o v' h :
  rep v B Fr P -> B !! m = Some (S o) -> (t <= o)%nat -> (S o <= o0)%nat -> (o0 <= MAX_ORDER)%nat ->
  ((S o < o0)%nat -> P = m) -> (forall j, (t <= j < o0)%nat -> vfl v0 !! j = Some 0) ->
  carved v0 B0 Fr0 t o0 v B Fr m (S o) ->
  rep v' (halves m o B) (halves_free m o Fr) m -> vL v' !! m = Some (0, 0) ->
  frame m (block_size (S o)) v v' -> (P = m -> h = 0) ->
  vfl v' = <[o := m + block_size o]> (<[S o := h]> (vfl v)) ->
  carved v0 B0 Fr0 t o0 v' (halves m o B) (halves_free m o Fr) m o.
Proof.
  intros Hr HB Hto HSo Ho0 HP Hempty Hc Hr2 HL2 Hfr2 Hh Hfl2. right. unfold MAX_ORDER in *.
  pose proof (block_size_min o ltac:(unfold MAX_ORDER; lia)). unfold MIN_BLOCK_SIZE in *. rewrite Hfl2.
  assert (HB2 : halves m o B !! m = Some o).
  { unfold halves. rewrite lookup_insert_ne, lookup_insert_eq by lia. done. }
  assert (Hhf : halves_free m o Fr !! (m + block_size o) = Some o) by apply lookup_insert_eq.
  destruct Hc as [(<- & -> & -> & ->)|(Ho & _ & _ & _ & Hfr & Hal & Hl & Hh0)].
  - split_and!; [lia..|done|done|done|done| | |].
    + intros a j Ha. by eapply halves_alloc.
    + intros j Hj Hjo. rewrite !list_lookup_insert_ne by lia. apply Hempty. lia.
    + intros j Hj. by assert (j = o) as -> by lia.
  - specialize (HP (proj2 Ho)). subst P. split_and!; [lia..|done|done|done| | | |].
    + eapply frame_trans; [exact Hfr|]. eapply frame_weaken; [exact Hfr2|].
      intros z Hz. unfold in_range in *.
      pose proof (block_size_lt (S o) o0 ltac:(lia) ltac:(unfold MAX_ORDER; lia)). lia.
    + intros a j Ha. rewrite <- (Hal a j Ha). by eapply halves_alloc.
    + intros j Hj Hjo. rewrite list_lookup_insert_ne by done. destruct (decide (j = S o)) as [->|].
      * rewrite (Hh eq_refl). apply list_lookup_insert_eq.
        rewrite (fl_len _ _ (r_links _ _ _ _ _ Hr)). unfold MAX_ORDER. lia.
      * rewrite list_lookup_insert_ne by done. apply Hl; lia.
    + intros j Hj. destruct (decide (j = o)) as [->|Hjo]; [done|]. unfold halves_free.
      pose proof (block_size_lt o j ltac:(lia) ltac:(unfold MAX_ORDER; lia)).
      rewrite lookup_insert_ne, lookup_delete_ne by lia. apply Hh0. lia.
Qed.

Lemma wpv_split_down t o0 m v B Fr Q :
  rep v B Fr 0 -> Fr !! m = Some o0 -> (t <= o0)%nat ->
  (forall j, (t <= j < o0)%nat -> vfl v !! j = Some 0) ->
  (forall v' B' Fr', carved v B Fr t o0 v' B' Fr' m t -> Q m v') ->
  wpv (split_down x0 t m o0) Q v.
Proof.
  intros Hr HF Ht Hempty HQ.
  destruct (rep_size _ _ _ _ _ _ _ Hr (r_sub _ _ _ _ _ Hr _ _ HF)) as [Ho0 _].
  apply wpv_bind.
  apply wpv_iter with (n := (o0 - t)%nat) (Inv := fun n mo v' =>
    exists B' Fr', fst mo = m /\ n = (snd mo - t)%nat /\ (t <= snd mo)%nat /\
      carved v B Fr t o0 v' B' Fr' m (snd mo)).
  - intros n [m' o] v' (B' & Fr' & Hm' & -> & Hto & Hc). cbn [fst snd] in *. subst m'.
    apply wpv_if; intros E; cbn [fst snd] in E.
    2: { apply wpv_ret, wpv_ret. cbn [fst snd]. apply Nat.ltb_ge in E. assert (o = t) as -> by lia. by eapply HQ. }
    apply Nat.ltb_lt in E. destruct o as [|o]; [lia|]. apply wpv_bind.
    assert (HSo : (S o <= o0)%nat) by (destruct Hc as [(? & _)|((? & ?) & _)]; lia).
    destruct (carved_ready _ _ _ _ _ _ _ _ _ _ Hr HF Ho0 Hempty (proj1 (Nat.lt_succ_r t o) E) Hc)
      as (P & Hr' & HB' & Hs & Hemp & HP).
    eapply wpv_split; [done..|]. intros v2 h Hr2 HL2 Hfr2 Hh Hfl2. apply wpv_ret.
    exists (o - t)%nat. split; [cbn; lia|]. exists (halves m o B'), (halves_free m o Fr').
    cbn [fst snd]. replace (S o - 1)%nat with o by lia. split_and!; [done..|lia|].
    eapply carved_split; [exact Hr'|done|lia|done..|]. apply Hfl2, Hemp. lia.
  - exists B, Fr. cbn. split_and!; [done..|]. by left.
  - unfold MAX_ORDER in *. lia.
Qed.

Lemma size_to_order_le n : (size_to_order n <= MAX_ORDER)%nat.
Proof.
  unfold size_to_order. cbn zeta. change MIN_BLOCK_SIZE with (block_size 0).
  apply (order_loop_spec _ (S MAX_ORDER) 0); lia.
Qed.

(** What an allocation of a block of order [t] at [p] does. *)
Record allocated (t : nat) (p : Z) v B Fr v' B' Fr' : Prop := {
  al_rep : rep v' B' Fr' 0;
  al_new : alloc B' Fr' p t;
  al_old : forall a k, a <> p -> alloc B' Fr' a k <-> alloc B Fr a k;
  al_from : exists o, (t <= o)%nat /\ Fr !! p = Some o /\ frame p (block_size o) v v';
}.

(** [fl_remove(target_order, m); m->is_free = false;] *)
Lemma wpv_claim t o m v0 B0 Fr0 v B Fr Q :
  rep v0 B0 Fr0 0 -> Fr0 !! m = Some o -> (t <= o)%nat -> carved v0 B0 Fr0 t o v B Fr m t ->
  (forall v' Fr', allocated t m v0 B0 Fr0 v' B Fr' ->
     (forall j, (t <= j < o)%nat -> vfl v' !! j = Some 0 /\ Fr' !! (m + block_size j) = Some j) -> Q tt v') ->
  wpv (fl_remove t m ;;* upd m (with_is_free false)) Q v.
Proof.
  intros Hr0 HF0 Hto Hc HQ.
  assert (exists P, rep v B Fr P /\ (P = 0 \/ P = m) /\ B !! m = Some t /\
    splittable v Fr P m t /\ frame m (block_size o) v0 v /\
    (forall a j, a <> m -> alloc B Fr a j <-> alloc B0 Fr0 a j) /\
    (forall j, (t <= j < o)%nat -> j <> t -> vfl v !! j = Some 0) /\ ((t < o)%nat -> P = m) /\
    (forall j, (t <= j < o)%nat -> Fr !! (m + block_size j) = Some j))
    as (P & Hr & HP & HB & Hs & Hfr & Hal & Hl & HPm & Hhalf).
  { destruct Hc as [(-> & -> & -> & ->)|(Ho & Hr & HB & HL & Hfr & Hal & Hl & Hh)].
    - exists 0. split_and!; try done; [by left|by apply Hr0|by left|lia..].
    - exists m. destruct (rep_size _ _ _ _ _ _ _ Hr0 (r_sub _ _ _ _ _ Hr0 _ _ HF0)) as [Hmo _].
      split_and!; try done; [by right|right; split_and!; [done..|lia]]. }
  destruct (rep_size _ _ _ _ _ _ _ Hr HB) as [Ht _].
  destruct (rep_block_pos _ _ _ _ _ _ _ Hr HB) as [Hm0 Hp].
  destruct (splittable_removable _ _ _ _ _ _ Hr Hs) as (x & y & Hrem & Htop & HPxy).
  apply wpv_bind. eapply wpv_take; [done..|].
  intros v1 Hf1 Hc1 HLm HA1 Hfr1 Hfl1.
  assert (Hr1 : rep v1 B (delete m Fr) m) by (eapply rep_take; [done..|apply Hfr1]).
  destruct (r_attr _ _ _ _ _ Hr1 m t HB) as (f & e & HAm & _).
  apply wpv_upd_A with (g := set_a_free false); [by intros []..|eauto|].
  assert (Hal1 : forall a k, a <> m -> alloc B (delete m Fr) a k <-> alloc B0 Fr0 a k).
  { intros a k Ha. rewrite <- (Hal a k Ha). unfold alloc. by rewrite lookup_delete_ne by done. }
  apply (HQ _ (delete m Fr)).
  - split.
    + eapply rep_settle; [by apply rep_flag| |done].
      cbn [vA v_upd_A]. by rewrite lookup_alter_eq, HAm.
    + split; [done|apply lookup_delete_eq].
    + done.
    + exists o. split_and!; [done..|]. eapply frame_trans; [exact Hfr|].
      eapply frame_trans; [eapply frame_weaken; [exact Hfr1|unfold in_range; lia]|].
      by eapply frame_flag.
  - intros j Hj. split.
    2: { destruct (rep_size _ _ _ _ _ _ _ Hr0 (r_sub _ _ _ _ _ Hr0 _ _ HF0)) as [Ho _].
         pose proof (block_size_min j ltac:(lia)). unfold MIN_BLOCK_SIZE in *.
         rewrite lookup_delete_ne by lia. by apply Hhalf. }
    cbn [vfl v_upd_A]. rewrite Hfl1.
    destruct (HPxy (HPm ltac:(lia))) as [-> ->]. cbn [Z.eqb].
    destruct (decide (j = t)) as [->|]; [|rewrite list_lookup_insert_ne by done; by apply Hl].
    apply list_lookup_insert_eq. rewrite (fl_len _ _ (r_links _ _ _ _ _ Hr)). lia.
Qed.

Lemma wpv_buddy_alloc n v B Fr Q :
  rep v B Fr 0 ->
  ((forall j, (size_to_order n <= j <= MAX_ORDER)%nat -> vfl v !! j = Some 0) -> Q 0 v) ->
  (forall p o v' B' Fr', let t := size_to_order n in
     (t <= o)%nat -> (forall j, (t <= j < o)%nat -> vfl v !! j = Some 0) -> vfl v !! o = Some p ->
     Fr !! p = Some o -> allocated t p v B Fr v' B' Fr' ->
     (forall j, (t <= j < o)%nat -> vfl v' !! j = Some 0 /\ Fr' !! (p + block_size j) = Some j) -> Q p v') ->
  wpv (buddy_alloc x0 n) Q v.
Proof.
  intros Hr Hnone Hsome. pose proof (size_to_order_le n) as Ht. set (t := size_to_order n) in *.
  cbn zeta in Hsome. fold t in Hsome. unfold buddy_alloc. fold t.
  rewrite (proj2 (Nat.ltb_ge MAX_ORDER t)) by done.
  apply wpv_iter with (n := (S MAX_ORDER - t)%nat) (Inv := fun n ord v' =>
    v' = v /\ (t <= ord <= S MAX_ORDER)%nat /\ n = (S MAX_ORDER - ord)%nat /\
    (forall j, (t <= j < ord)%nat -> vfl v !! j = Some 0)); [|split_and!; (done || lia)|lia].
  intros k ord v' (-> & Hord & -> & Hempty).
  apply wpv_if; intros E; [apply Nat.leb_le in E|apply Nat.leb_gt in E].
  2: { apply wpv_ret. apply Hnone. intros j Hj. apply Hempty. lia. }
  destruct (lookup_lt_is_Some_2 (vfl v) ord) as [h Hh].
  { rewrite (fl_len _ _ (r_links _ _ _ _ _ Hr)). lia. }
  apply wpv_bind. eapply wpv_fl_get; [done|].
  apply wpv_if; intros Hz; unfold nullptr in Hz.
  { apply wpv_ret. exists (S MAX_ORDER - S ord)%nat. split; [lia|]. split_and!; [done|lia..|].
    intros j Hj. destruct (decide (j = ord)) as [->|]; [rewrite Hh; f_equal; lia|apply Hempty; lia]. }
  destruct (fl_head _ _ (r_links _ _ _ _ _ Hr) ord h Hh) as [->|(HF & _)]; [done|].
  apply wpv_bind. eapply wpv_split_down; [done..|lia|done|].
  intros v1 B1 Fr1 Hc. apply wpv_assoc, wpv_bind. eapply wpv_claim; [done..|lia|done|].
  intros v2 Fr2 Hal Hl. apply wpv_ret. eapply Hsome; [|done..]. lia.
Qed.

(** ** Looking at the buddy *)

(** What the merging loops read: the tiling and the flags and sizes of every
    block but the one at [P].  [B] and [Fr] may run ahead of the memory: the
    simulation of [srealloc] merges without writing. *)
Record scan v B Fr (P : Z) : Prop := {
  sc_base : vbase v = base;
  sc_range : 0 < base /\ base + TOTAL_HEAP_SIZE < 2 ^ 63;
  sc_tiles : tiles base B;
  sc_sub : forall a k, Fr !! a = Some k -> B !! a = Some k;
  sc_attr : forall a k, B !! a = Some k -> a <> P ->
    exists x, vA v !! a = Some (block_size k, bool_decide (is_Some (Fr !! a)), false, x);
  sc_pend : Fr !! P = None;
}.

Lemma rep_scan v B Fr P : rep v B Fr P -> scan v B Fr P.
Proof.
  intros Hr. split; try apply Hr. intros a k Ha HaP.
  destruct (r_attr _ _ _ _ _ Hr a k Ha) as (f & x & HA & Hf). exists x. by rewrite <- Hf.
Qed.

Definition merged_tiles (a b lo : Z) (k : nat) B : gmap Z nat := <[lo := S k]> (delete b (delete a B)).

Lemma scan_merge v B Fr P b lo k :
  scan v B Fr P -> B !! P = Some k -> Fr !! b = Some k -> buddies base P b lo k ->
  scan v (merged_tiles P b lo k B) (delete b Fr) lo.
Proof.
  intros Hs HP Hb Hbd. pose proof (sc_sub _ _ _ _ Hs _ _ Hb) as HBb.
  assert (HPb : P <> b) by (intros ->; pose proof (sc_pend _ _ _ _ Hs); congruence).
  assert (Hlo : lo = P \/ lo = b) by (destruct Hbd as [_ [[-> _]|[-> _]]]; auto).
  unfold merged_tiles. split; try apply Hs.
  - apply tiles_merge; [apply Hs|done..].
  - intros a j. rewrite lookup_delete, lookup_insert. case_decide as Hab; [done|]. intros Ha.
    assert (a <> P) by (intros ->; pose proof (sc_pend _ _ _ _ Hs); congruence).
    case_decide as Hal; [destruct Hlo; congruence|]. rewrite !lookup_delete_ne by done. by apply Hs.
  - intros a j. rewrite lookup_insert. case_decide; [done|]. rewrite !lookup_delete.
    case_decide; [done|]. case_decide; [done|]. intros Ha _. by apply Hs.
  - destruct Hlo as [-> | ->]; [|apply lookup_delete_eq].
    rewrite lookup_delete_ne by done. apply Hs.
Qed.

Lemma wpv_buddy_stops m k v B Fr Q :
  scan v B Fr m -> B !! m = Some k -> (k < MAX_ORDER)%nat ->
  (forall lo, let b := buddy_of base m k in buddies base m b lo k -> lo = Z.min m b ->
     (Fr !! b <> Some k -> Q true v) /\ (Fr !! b = Some k -> Q false v)) ->
  wpv (buddy_stops (buddy_of base m k) k) Q v.
Proof.
  intros Hs Hm Hk HQ. pose proof (t_placed _ _ (sc_tiles _ _ _ _ Hs) m k Hm) as Hp.
  destruct (buddy_of_buddies base m k Hk Hp) as (lo & Hbd & Hlo).
  destruct (HQ lo Hbd Hlo) as [HQt HQf]. clear HQ. set (b := buddy_of base m k) in *.
  destruct (buddies_placed _ _ _ _ _ Hbd) as [_ Hpb].
  apply wpv_bind. apply wpv_gets with (g := vbase); [done|]. rewrite (sc_base _ _ _ _ Hs).
  assert ((b <? base) || (base + TOTAL_HEAP_SIZE <=? b) = false) as ->.
  { destruct Hpb as (? & ? & ? & ?). pose proof (placed_pos _ _ _ Hp). lia. }
  destruct (buddy_live base B m k b lo (sc_tiles _ _ _ _ Hs) Hm Hbd) as (j & Hj & HBb).
  assert (Hbm : b <> m).
  { intros Hb. pose proof (placed_pos _ _ _ Hp). destruct Hbd as [_ [[? ?]|[? ?]]]; lia. }
  destruct (sc_attr _ _ _ _ Hs b j HBb Hbm) as (x & HA).
  apply wpv_bind. eapply wpv_ld_attrs; [exact HA|]. intros h [= -> -> _ _]. apply wpv_ret.
  destruct (decide (Fr !! b = Some k)) as [HF|HF].
  - rewrite bool_decide_true by eauto. assert (j = k) as ->.
    { apply (sc_sub _ _ _ _ Hs) in HF. congruence. }
    rewrite Z.eqb_refl. by apply HQf.
  - destruct (negb _ || negb _) eqn:E; [by apply HQt|]. exfalso.
    apply orb_false_iff in E as [E1%negb_false_iff E2%negb_false_iff].
    apply bool_decide_eq_true in E1 as [j' Hj']. pose proof (sc_sub _ _ _ _ Hs _ _ Hj') as Hj2.
    assert (j' = j) as -> by congruence. assert (j = k) as -> by (apply block_size_inj; lia). done.
Qed.

(** ** [buddy_free_and_merge] *)

(** One merging step on the memory. *)
Lemma wpv_merge_step m b lo k v B Fr Q :
  rep v B Fr m -> B !! m = Some k -> (k < MAX_ORDER)%nat -> Fr !! b = Some k ->
  buddies base m b lo k ->
  (forall v', rep v' (merged_tiles m b lo k B) (delete b Fr) lo -> frame 0 0 v v' -> Q tt v') ->
  wpv (fl_remove k b ;;* upd lo (with_size (block_size (S k)))) Q v.
Proof.
  intros Hr Hm Hk Hb Hbd HQ. pose proof (r_sub _ _ _ _ _ Hr _ _ Hb) as HBb.
  destruct (rep_block_pos _ _ _ _ _ _ _ Hr HBb) as [Hb0 Hpb].
  destruct (rep_block_pos _ _ _ _ _ _ _ Hr Hm) as [Hm0 Hpm].
  destruct (fl_node _ _ (r_links _ _ _ _ _ Hr) b k Hb) as (_ & _ & n & p & HLb & _).
  apply wpv_bind. eapply (wpv_take base k b p n); [done|lia|done|by split; [|left]|lia|].
  intros v1 Hf1 Hc1 _ HA1 Hfr1 _.
  pose proof (scan_merge _ _ _ _ _ _ _ (rep_scan _ _ _ _ Hr) Hm Hb Hbd) as Hs.
  assert (Hlo : lo = m \/ lo = b) by (destruct Hbd as [_ [[-> _]|[-> _]]]; auto).
  assert (exists f x, vA v !! lo = Some (block_size k, f, false, x)) as (f & x & HAlo).
  { destruct Hlo as [-> | ->]; [destruct (r_attr _ _ _ _ _ Hr m k Hm) as (f & x & HA & _)
      |destruct (r_attr _ _ _ _ _ Hr b k HBb) as (f & x & HA & _)]; eauto. }
  apply wpv_upd_A with (g := set_a_size (block_size (S k))); [by intros []..|rewrite HA1; eauto|].
  assert (Hplo : placed base lo k) by (destruct Hlo as [-> | ->]; done).
  assert (Hlo0 : 0 < lo) by lia.
  apply HQ.
  - split; try apply Hs.
    + cbn. rewrite (fr_base _ _ _ _ _ Hfr1). apply Hr.
    + eapply flinks_frame; [exact Hf1|done..].
    + done.
    + intros a j Ha. cbn [vA v_upd_A]. rewrite HA1. destruct (decide (a = lo)) as [->|Hal].
      * unfold merged_tiles in Ha. rewrite lookup_insert_eq in Ha. injection Ha as <-.
        rewrite lookup_alter_eq, HAlo. by exists f, x.
      * rewrite lookup_alter_ne by done.
        destruct (sc_attr _ _ _ _ Hs a j Ha Hal) as (y & HA). eauto.
    + intros a j Hj Ha Hba. rewrite lookup_delete in Ha, Hba.
      case_decide; [done|]. case_decide; [done|]. by apply (r_coal _ _ _ _ _ Hr a j Hj Ha).
  - eapply frame_trans; [exact Hfr1|]. split; try done. intros a Ha. cbn.
    apply lookup_alter_ne. intros ->. by apply placed_in_heap in Hplo as [_ ?].
Qed.

(** The allocated blocks while the block that started as [m0] grows into [m]. *)
Definition growing m0 B0 Fr0 B Fr (m : Z) : Prop :=
  (forall a j, a <> m -> alloc B Fr a j <-> alloc B0 Fr0 a j /\ a <> m0) /\
  (forall j, alloc B0 Fr0 m j -> m = m0).

Lemma growing_start m B Fr : growing m B Fr B Fr m.
Proof. split; [|done]. intros a j Ha. split; [done|]. by intros [? _]. Qed.

Lemma growing_step m0 B0 Fr0 v B Fr m b lo k :
  rep v B Fr m -> B !! m = Some k -> Fr !! b = Some k -> buddies base m b lo k ->
  growing m0 B0 Fr0 B Fr m ->
  growing m0 B0 Fr0 (merged_tiles m b lo k B) (delete b Fr) lo.
Proof.
  intros Hr Hm Hb Hbd [Hg1 Hg2].
  assert (Hmb : b <> m) by (intros ->; pose proof (r_pend _ _ _ _ _ Hr); congruence).
  assert (Hlo : lo = m \/ lo = b) by (destruct Hbd as [_ [[-> _]|[-> _]]]; auto).
  assert (Hb0 : forall j, alloc B0 Fr0 b j -> b = m0).
  { intros j Hj. destruct (decide (b = m0)) as [|Hne]; [done|]. exfalso.
    assert (alloc B Fr b j) as [_ ?] by by apply Hg1. congruence. }
  split.
  - intros a j Hal. unfold alloc, merged_tiles. rewrite lookup_insert_ne by done.
    destruct (decide (a = b)) as [->|Hab].
    { rewrite !lookup_delete_eq. split; [by intros [? _]|]. intros [Ha Hne]. by apply Hb0 in Ha. }
    rewrite !(lookup_delete_ne _ b) by done.
    destruct (decide (a = m)) as [->|Ham].
    { rewrite lookup_delete_eq. split; [by intros [? _]|]. intros [Ha Hne]. by apply Hg2 in Ha. }
    rewrite lookup_delete_ne by done. by apply Hg1.
  - destruct Hlo as [-> | ->]; done.
Qed.

(** What freeing the block [m] does. *)
Record freed (m : Z) v B Fr v' B' Fr' : Prop := {
  fd_rep : rep v' B' Fr' 0;
  fd_alloc : forall a j, alloc B' Fr' a j <-> alloc B Fr a j /\ a <> m;
  fd_frame : frame 0 0 v v';
}.

Lemma wpv_get_order m k v B Fr P Q :
  rep v B Fr P -> B !! m = Some k -> Q k v -> wpv (get_order m) Q v.
Proof.
  intros Hr Hm HQ. destruct (r_attr _ _ _ _ _ Hr m k Hm) as (f & x & HA & _).
  apply wpv_bind. eapply wpv_ld_attrs; [exact HA|]. intros h [= -> _ _ _]. apply wpv_ret.
  rewrite order_loop_block_size; [done|]. by destruct (rep_size _ _ _ _ _ _ _ Hr Hm).
Qed.

(** The last steps: the merged block goes on the list of its order. *)
Lemma wpv_release m0 B0 Fr0 v0 m k v B Fr Q :
  rep v B Fr m -> B !! m = Some k -> growing m0 B0 Fr0 B Fr m -> frame 0 0 v0 v ->
  (forall b lo, (k < MAX_ORDER)%nat -> buddies base m b lo k -> Fr !! b <> Some k) ->
  (forall v' B' Fr', freed m0 v0 B0 Fr0 v' B' Fr' -> Q tt v') ->
  wpv (upd m (with_is_free true) ;;* fl_insert k m) Q v.
Proof.
  intros Hr Hm [Hg1 Hg2] Hfr Hbud HQ.
  destruct (rep_block_pos _ _ _ _ _ _ _ Hr Hm) as [Hm0 Hp].
  destruct (rep_size _ _ _ _ _ _ _ Hr Hm) as [Hk _].
  destruct (r_attr _ _ _ _ _ Hr m k Hm) as (f & x & HAm & _).
  apply wpv_bind. apply wpv_upd_A with (g := set_a_free true); [by intros []..|eauto|].
  pose proof (rep_flag _ _ _ _ _ true Hr) as Hr1. set (v1 := v_upd_A _ _ _) in *.
  assert (HAm1 : vA v1 !! m = Some (block_size k, true, false, x)).
  { unfold v1. cbn [vA v_upd_A]. by rewrite lookup_alter_eq, HAm. }
  apply wpv_vok. intros Hok.
  eapply (wpv_put base k m v1 Fr); [apply Hr1|done| | |by apply placed_in_heap in Hp as [_ ?]|].
  { split; [done|]. split; [apply Hr|]. apply Hok. rewrite HAm1. eauto. }
  { intros a j Ha. by eapply rep_free_in_heap. }
  intros v2 Hf2 Hc2 HA2 Hfr2 _ _. apply (HQ _ B (<[m := k]> Fr)). split.
  - split; try done; try apply Hr.
    + rewrite (fr_base _ _ _ _ _ Hfr2). apply Hr1.
    + apply Hc2, Hr1.
    + intros a j. rewrite lookup_insert. case_decide; [|by apply Hr]. subst. by intros [= <-].
    + intros a j Ha. rewrite HA2. destruct (decide (a = m)) as [->|Ham].
      * assert (j = k) as -> by congruence. exists true, x. rewrite lookup_alter_eq, HAm1.
        split; [done|]. intros _. by rewrite lookup_insert_eq, bool_decide_true by eauto.
      * rewrite lookup_alter_ne, lookup_insert_ne by done.
        destruct (r_attr _ _ _ _ _ Hr1 a j Ha) as (f' & y & HA & Hf'). exists f', y. auto.
    + intros a j Hj Ha Hb.
      assert (HaB : B !! a = Some j).
      { rewrite lookup_insert in Ha. case_decide; [congruence|by apply Hr]. }
      pose proof (t_placed _ _ (r_tiles _ _ _ _ _ Hr) a j HaB) as Hpa.
      destruct (buddy_of_buddies base a j Hj Hpa) as (lo & Hbd & _).
      set (b := buddy_of base a j) in *. rewrite lookup_insert in Ha.
      case_decide as Ham; [subst a; injection Ha as ->|].
      * rewrite lookup_insert in Hb. case_decide as Hbm; [|by eapply Hbud].
        pose proof (placed_pos _ _ _ Hpa). destruct Hbd as [_ [[? ?]|[? ?]]]; lia.
      * rewrite lookup_insert in Hb. case_decide as Hbm; [|by apply (r_coal _ _ _ _ _ Hr a j Hj)].
        injection Hb as ->. rewrite <- Hbm in Hbd.
        by apply (Hbud a lo Hj (buddies_sym _ _ _ _ _ Hbd)).
    + rewrite lookup_insert_ne by lia. destruct (Fr !! 0) as [j|] eqn:E; [|done].
      pose proof (flinks_pos _ _ _ _ (r_links _ _ _ _ _ Hr) E). lia.
  - intros a j. unfold alloc. destruct (decide (a = m)) as [->|Ham].
    + rewrite lookup_insert_eq. split; [by intros [_ ?]|]. intros [Ha Hne]. by apply Hg2 in Ha.
    + rewrite lookup_insert_ne by done. by apply Hg1.
  - eapply frame_trans; [exact Hfr|]. eapply frame_trans; [by eapply frame_flag|]. exact Hfr2.
Qed.

Lemma wpv_buddy_free_and_merge m k v B Fr Q :
  rep v B Fr 0 -> alloc B Fr m k ->
  (forall v' B' Fr', freed m v B Fr v' B' Fr' -> Q tt v') ->
  wpv (buddy_free_and_merge m) Q v.
Proof.
  intros Hr [Hm HF] HQ. pose proof (rep_set_pending _ _ _ _ _ Hr HF) as Hrm.
  apply wpv_bind. eapply wpv_get_order; [done..|]. apply wpv_bind.
  destruct (rep_size _ _ _ _ _ _ _ Hr Hm) as [Hk _].
  apply wpv_iter with (n := (MAX_ORDER - k)%nat) (Inv := fun n mo v' =>
    exists B' Fr', n = (MAX_ORDER - snd mo)%nat /\ rep v' B' Fr' (fst mo) /\
      B' !! fst mo = Some (snd mo) /\ growing m B Fr B' Fr' (fst mo) /\ frame 0 0 v v').
  - intros n [m' o] v' (B' & Fr' & -> & Hr' & Hm' & Hg & Hfr). cbn [fst snd] in *.
    destruct (rep_size _ _ _ _ _ _ _ Hr' Hm') as [Ho _].
    apply wpv_if; intros E; cbn [fst snd] in E; [apply Nat.ltb_lt in E|apply Nat.ltb_ge in E].
    2: { apply wpv_ret. cbn [fst snd]. eapply wpv_release; [done..| |done]. lia. }
    apply wpv_bind. apply wpv_gets with (g := fun v => buddy_of (vbase v) m' o); [done|].
    rewrite (r_base _ _ _ _ _ Hr'). apply wpv_bind.
    eapply wpv_buddy_stops; [by apply rep_scan|done..|]. intros lo b Hbd Hlo. split; intros Hb.
    + apply wpv_ret. cbn [fst snd]. eapply wpv_release; [done..| |done].
      intros b' lo' _ Hbd'. by destruct (buddies_fun _ _ _ _ _ _ _ Hbd Hbd') as [<- _].
    + apply wpv_assoc, wpv_bind. fold b.
      replace (if b <? m' then b else m') with lo by (destruct (Z.ltb_spec b m'); lia).
      eapply wpv_merge_step; [done..|]. intros v2 Hr2 Hfr2. apply wpv_ret.
      exists (MAX_ORDER - S o)%nat. split; [lia|].
      exists (merged_tiles m' b lo o B'), (delete b Fr'). cbn [fst snd]. split_and!; [done..| | |].
      * apply lookup_insert_eq.
      * by eapply growing_step.
      * by eapply frame_trans.
  - exists B, Fr. cbn. split_and!; [done..|apply growing_start|apply frame_refl].
  - unfold MAX_ORDER. lia.
Qed.

End ops.
