(* ===== verification/BuddyMmap.v ===== *)
(** * The mmap list and the initial heap

    [mrep base v l]: the headers at [l] are the mmap list of the view [v];
    their regions are mapped, disjoint from each other and from the heap. *)

From S2P Require Import Prelude Memory OS Buddy BuddyView BuddyLists BuddyTiling BuddyInv BuddyOps.

(** A mapped region of [sz] usable bytes with its header at its start. *)
Definition region (sz : Z) : Z := sizeof_MallocMetadata + sz.

Section mmap.
Context {X OS : Type} {OO : OSOps OS} {OM : OSModel OS}.
Implicit Types (v : view X OS) (hp : Z -> Prop).

(** [hp] holds of the addresses of the buddy heap. *)
Record mblock hp v (a sz : Z) : Prop := {
  mb_attr : exists x, vA v !! a = Some (sz, false, true, x);
  mb_size : 0 <= sz /\ 0 < a /\ a + region sz < 2 ^ 63;
  mb_page : (page_size | a) /\ (page_size | region sz);
  mb_mapped : forall x, in_range a (region sz) x -> mapped (vos v) x;
  mb_heap : forall x, in_range a (region sz) x -> ~ hp x;
}.

Record mrep hp v (l : list Z) : Prop := {
  mr_head : vml v = hd0 0 l;
  mr_seg : dseg (vL v) 0 l 0;
  mr_nodup : NoDup l;
  mr_block : forall a, a ∈ l -> exists sz, mblock hp v a sz;
  mr_disj : forall a b sz sz', a ∈ l -> b ∈ l -> a < b -> mblock hp v a sz -> mblock hp v b sz' ->
              a + region sz <= b;
  mr_heap : forall x, hp x -> mapped (vos v) x;
}.

Lemma mblock_fun hp v a sz sz' : mblock hp v a sz -> mblock hp v a sz' -> sz = sz'.
Proof. intros [[x H1] _ _ _ _] [[y H2] _ _ _ _]. congruence. Qed.

Lemma mblock_same hp v v' a sz :
  vA v' !! a = vA v !! a ->
  (forall x, mapped (vos v) x -> in_range a (region sz) x -> mapped (vos v') x) ->
  mblock hp v a sz -> mblock hp v' a sz.
Proof. intros HA Hm []. split; try done; [by rewrite HA|auto]. Qed.

Lemma mrep_0 hp v l : mrep hp v l -> 0 ∉ l.
Proof. intros Hm H0. destruct (mr_block _ _ _ Hm 0 H0) as [sz [_ ? _ _ _]]. lia. Qed.

(** A subset of the list's blocks, each with the header and the memory it had. *)
Lemma mrep_sub hp v v' l l' :
  mrep hp v l -> l' ⊆ l -> NoDup l' -> vml v' = hd0 0 l' -> dseg (vL v') 0 l' 0 ->
  (forall a, a ∈ l' -> vA v' !! a = vA v !! a) ->
  (forall a sz x, a ∈ l' -> mblock hp v a sz -> in_range a (region sz) x -> mapped (vos v') x) ->
  (forall x, hp x -> mapped (vos v') x) ->
  mrep hp v' l' /\ (forall a sz, a ∈ l' -> mblock hp v' a sz <-> mblock hp v a sz).
Proof.
  intros Hm Hsub Hnd Hh Hd HA Hmap Hhp.
  assert (Hmb : forall a sz, a ∈ l' -> mblock hp v a sz -> mblock hp v' a sz).
  { intros a sz Ha Hb. eapply mblock_same; [by apply HA| |done]. eauto. }
  assert (Hmb' : forall a sz, a ∈ l' -> mblock hp v' a sz <-> mblock hp v a sz).
  { intros a sz Ha. split; [|by apply Hmb]. intros Hb.
    destruct (mr_block _ _ _ Hm a (Hsub _ Ha)) as [sz' Hb'].
    by rewrite (mblock_fun _ _ _ _ _ Hb (Hmb _ _ Ha Hb')). }
  split; [|done]. split; try done.
  - intros a Ha. destruct (mr_block _ _ _ Hm a (Hsub _ Ha)) as [sz Hb]. exists sz. by apply Hmb'.
  - intros a b sz sz' Ha Hb Hlt Hba Hbb. apply Hmb' in Hba; [|done]. apply Hmb' in Hbb; [|done].
    eapply (mr_disj _ _ _ Hm a b); eauto.
Qed.

(** What an operation on mappings leaves alone: the payload bytes outside
    [[lo, lo+n)], the headers in the heap, and the heap's own state. *)
Record mframe hp (lo n : Z) v v' : Prop := {
  mf_fl : vfl v' = vfl v;
  mf_base : vbase v' = vbase v;
  mf_init : vinit v' = vinit v;
  mf_hdr : forall a, (forall x, in_range a sizeof_MallocMetadata x -> hp x) ->
             vA v' !! a = vA v !! a /\ vL v' !! a = vL v !! a;
  mf_bytes : forall x, ~ in_range lo n x -> vbytes v' !! x = vbytes v !! x;
}.

Definition v_set_os (o : OS) v : view X OS :=
  View (vA v) (vL v) (vfl v) (vml v) (vbytes v) (vbase v) (vinit v) o.

(** ** [mmap_push] *)

(** A fresh region lies apart from the list's blocks and the heap. *)
Lemma fresh_apart_list hp v l o' m sz :
  mrep hp v l -> freshly_mapped (mapped (vos v)) (mapped o') m (region sz) -> 0 <= sz ->
  forall a, a ∈ l -> hdr_apart m sizeof_MallocMetadata a /\ a <> m.
Proof.
  intros Hm (_ & _ & Hnew & _) Hsz a Ha. destruct (mr_block _ _ _ Hm a Ha) as [s [_ ? _ Hma _]].
  unfold hdr_apart, region, in_range, sizeof_MallocMetadata in *.
  pose proof (fun x Hx => Hnew x (Hma x Hx)) as Hd. pose proof (Hd a). pose proof (Hd m). lia.
Qed.

Lemma fresh_apart_heap hp v l o' m sz :
  mrep hp v l -> freshly_mapped (mapped (vos v)) (mapped o') m (region sz) -> 0 <= sz ->
  forall a, (forall x, in_range a sizeof_MallocMetadata x -> hp x) ->
  hdr_apart m sizeof_MallocMetadata a /\ a <> m /\ a ∉ l.
Proof.
  intros Hm (_ & _ & Hnew & _) Hsz a Ha.
  pose proof (fun x Hx => Hnew x (mr_heap _ _ _ Hm x (Ha x Hx))) as Hd.
  assert (a ∉ l).
  { intros Hal. destruct (mr_block _ _ _ Hm a Hal) as [s [_ ? _ _ Hh]].
    apply (Hh a); [|apply Ha]; unfold in_range, region, sizeof_MallocMetadata; lia. }
  unfold hdr_apart, region, in_range, sizeof_MallocMetadata in *.
  pose proof (Hd a). pose proof (Hd m). split_and!; [lia..|done].
Qed.

(** A mapping apart from the list's becomes its first entry. *)
Lemma mrep_cons hp v v' l m sz :
  mrep hp v l -> m ∉ l -> (forall a s, a ∈ l -> mblock hp v' a s <-> mblock hp v a s) ->
  mblock hp v' m sz ->
  (forall b s x, b ∈ l -> mblock hp v' b s -> in_range b (region s) x -> ~ in_range m (region sz) x) ->
  vml v' = m -> dseg (vL v') 0 (m :: l) 0 -> (forall x, hp x -> mapped (vos v') x) ->
  mrep hp v' (m :: l).
Proof.
  intros Hm Hml Hsame Hnew Hdj Hh Hseg Hmap. destruct (mb_size _ _ _ _ Hnew). split; try done.
  - apply NoDup_cons. split; [done|apply Hm].
  - intros a [->|Ha]%elem_of_cons; [eauto|].
    destruct (mr_block _ _ _ Hm a Ha) as [s Hs]. exists s. by apply Hsame.
  - intros a b s s' Ha Hb Hlt Has Hbs.
    apply elem_of_cons in Ha as [->|Ha]; apply elem_of_cons in Hb as [->|Hb]; [lia| | |].
    + pose proof (mblock_fun _ _ _ _ _ Has Hnew) as ->. pose proof (Hdj b s' b Hb Hbs).
      destruct Hbs as [_ ? _ _ _]. unfold in_range, region, sizeof_MallocMetadata in *. lia.
    + pose proof (mblock_fun _ _ _ _ _ Hbs Hnew) as ->. pose proof (Hdj a s m Ha Has).
      unfold in_range, region, sizeof_MallocMetadata in *. lia.
    + apply (mr_disj _ _ _ Hm a b s s'); (done || by apply Hsame).
Qed.

Lemma wpv_mmap_push hp v l o' m sz e Q :
  mrep hp v l -> freshly_mapped (mapped (vos v)) (mapped o') m (region sz) -> 0 <= sz ->
  (page_size | m) -> (page_size | region sz) ->
  (forall v', mrep hp v' (m :: l) -> mblock hp v' m sz ->
     (forall a s, a ∈ l -> mblock hp v' a s <-> mblock hp v a s) ->
     mframe hp m (region sz) v v' -> Q tt v') ->
  wpv (mmap_push m sz e) Q (v_set_os o' v).
Proof.
  intros Hm Hfm Hsz Hp1 Hp2 HQ. pose proof (mrep_0 _ _ _ Hm) as H0.
  pose proof (fresh_apart_list _ _ _ _ _ _ Hm Hfm Hsz) as Hl.
  pose proof (fresh_apart_heap _ _ _ _ _ _ Hm Hfm Hsz) as Hh.
  destruct Hfm as (Hm0 & Hm1 & Hnew & Hmap).
  apply wpv_bind. apply wpv_gets with (g := vml); [done|]. cbn [vml v_set_os].
  rewrite (mr_head _ _ _ Hm). apply wpv_bind, wpv_new_hdr, wpv_bind.
  set (v1 := v_new _ _ _ _).
  assert (HA1 : forall a, hdr_apart m sizeof_MallocMetadata a -> a <> m -> vA v1 !! a = vA v !! a).
  { intros a Ha Ham. unfold v1, v_new. cbn [vA v_set_os]. rewrite lookup_insert_ne by done.
    by apply clobber_lookup. }
  assert (HL1 : vL v1 = <[m := (hd0 0 l, 0)]> (clobber m sizeof_MallocMetadata (vL v))) by done.
  unfold nullptr. apply wpv_mono with (P := fun _ v2 =>
    v2 = v_set_L (link_at 0 m (hd0 0 l) (clobber m sizeof_MallocMetadata (vL v))) v1).
  { unfold link_at. cbn [Z.eqb]. rewrite <- HL1. cbn zeta.
    apply wpv_when; intros E; [apply negb_true_iff in E|apply negb_false_iff in E]; rewrite E; [|by destruct v1].
    apply wpv_upd_L with (g := set_prev m); [done..| |done].
    rewrite HL1. destruct l as [|h l]; [done|]. cbn [hd0] in *.
    rewrite lookup_insert_ne by (intros <-; destruct (Hl m) as [_ ?]; [by left|done]).
    rewrite clobber_lookup by (apply Hl; by left).
    by destruct (mr_seg _ _ _ Hm) as [-> _]. }
  intros [] v2 ->. apply wpv_set_mmap_list. set (v3 := v_set_ml _ _).
  assert (Hml : m ∉ l) by (intros Hin; by destruct (Hl m Hin)).
  destruct (mrep_sub hp v (v_set_ml (hd0 0 l) (v_set_L (vL v) v3)) l l) as [Hm3 Hsame]; try done; try apply Hm.
  { intros a Ha. destruct (Hl a Ha). by apply HA1. }
  { intros a s x Ha [] Hx. apply Hmap. auto. }
  { intros x Hx. apply Hmap. left. by apply Hm. }
  assert (Hsame3 : forall a s, a ∈ l -> mblock hp v3 a s <-> mblock hp v a s).
  { intros a s Ha. rewrite <- (Hsame a s Ha). by split; intros []. }
  assert (Hnew3 : mblock hp v3 m sz).
  { split; [exists e; apply lookup_insert_eq|unfold region, sizeof_MallocMetadata in *; lia|done| |].
    - intros x Hx. apply Hmap. by right.
    - intros x Hx Hhx. apply (Hnew x); [by apply Hm|done]. }
  apply HQ; [|done|done|].
  - apply (mrep_cons hp v v3 l m sz); [done|done|done|done| | | |].
    + intros b s x Hb Hbs Hx. apply Hnew. apply Hsame3 in Hbs; [|done]. by apply Hbs.
    + done.
    + apply (dseg_link _ [] m l); [apply NoDup_cons; split; [done|apply Hm]|done|].
      eapply dseg_frame; [|apply Hm]. intros a Ha. apply clobber_lookup. by apply Hl.
    + intros x Hx. apply Hmap. left. by apply Hm.
  - split; try done.
    + intros a Ha. destruct (Hh a Ha) as (Hap & Ham & Hal). split; [by apply HA1|].
      cbn [vL v_set_L v3 v_set_ml]. rewrite link_at_off; [by apply clobber_lookup|done|done|].
      intros ->. destruct l; [done|]. cbn in *. set_solver.
    + intros x Hx. apply new_hdr_bytes with (h := tt) (m := Mem ∅ (vbytes v)).
      unfold in_range, region, sizeof_MallocMetadata in *. lia.
Qed.

(** ** [mmap_free] *)

Definition v_unmap (p n : Z) (o : OS) v : view X OS :=
  View (clobber p n (vA v)) (clobber p n (vL v)) (vfl v) (vml v) (bytes_outside p n (vbytes v))
       (vbase v) (vinit v) o.

(** The other mappings, and every header in the heap, lie apart from [m]. *)
Lemma mrep_apart hp v l1 m l2 sz :
  mrep hp v (l1 ++ m :: l2) -> mblock hp v m sz -> m ∉ l1 ++ l2 ->
  (forall a s x, a ∈ l1 ++ l2 -> mblock hp v a s -> in_range a (region s) x -> ~ in_range m (region sz) x) /\
  (forall a, a ∈ l1 ++ l2 -> hdr_apart m (region sz) a) /\
  (forall a, (forall x, in_range a sizeof_MallocMetadata x -> hp x) ->
     hdr_apart m (region sz) a /\ a <> m /\ a ∉ l1 ++ l2).
Proof.
  intros Hm Hmb Hm12. assert (Hsub : l1 ++ l2 ⊆ l1 ++ m :: l2) by set_solver.
  assert (Hin : m ∈ l1 ++ m :: l2) by set_solver. destruct (mb_size _ _ _ _ Hmb) as (Hsz & Hm0 & Hmax).
  assert (Hap : forall a s x, a ∈ l1 ++ l2 -> mblock hp v a s -> in_range a (region s) x ->
    ~ in_range m (region sz) x).
  { intros a s x Ha Hb Hx. assert (a <> m) by (intros ->; done). destruct (decide (a < m)).
    - pose proof (mr_disj _ _ _ Hm a m s sz (Hsub _ Ha) Hin ltac:(lia) Hb Hmb). unfold in_range in *. lia.
    - pose proof (mr_disj _ _ _ Hm m a sz s Hin (Hsub _ Ha) ltac:(lia) Hmb Hb). unfold in_range in *. lia. }
  split_and!; [exact Hap|..].
  - intros a Ha. destruct (mr_block _ _ _ Hm a (Hsub _ Ha)) as [s Hb].
    pose proof (fun x => Hap a s x Ha Hb) as Hx. pose proof (Hx a). pose proof (Hx m).
    destruct (mb_size _ _ _ _ Hb). unfold hdr_apart, region, in_range, sizeof_MallocMetadata in *. lia.
  - intros a Ha. pose proof (fun x Hx Hr => mb_heap _ _ _ _ Hmb x Hr (Ha x Hx)) as Hd.
    pose proof (Hd a). pose proof (Hd m). split_and!.
    + unfold hdr_apart, region, in_range, sizeof_MallocMetadata in *. lia.
    + unfold region, in_range, sizeof_MallocMetadata in *. lia.
    + intros Hal. destruct (mr_block _ _ _ Hm a (Hsub _ Hal)) as [s [_ ? _ _ Hh]].
      apply (Hh a); [|apply Ha]; unfold in_range, region, sizeof_MallocMetadata in *; lia.
Qed.

(** The neighbours of [m] are other mappings of the list. *)
Lemma mrep_neighbours hp v l1 m l2 :
  mrep hp v (l1 ++ m :: l2) ->
  m ∉ l1 ++ l2 /\
  (forall a, a <> 0 -> a = hd0 0 l2 \/ a = last0 0 l1 -> a ∈ l1 ++ l2 /\ a <> m /\ is_Some (vL v !! a)).
Proof.
  intros Hm. assert (Hm12 : m ∉ l1 ++ l2).
  { pose proof (mr_nodup _ _ _ Hm) as (_ & Hd & [? _]%NoDup_cons)%NoDup_app.
    intros [Hin|?]%elem_of_app; [|done]. apply (Hd m Hin). by left. }
  split; [done|]. intros a Ha Hends.
  assert (Hin : a ∈ l1 ++ l2).
  { apply elem_of_app. destruct Hends as [-> | ->].
    - destruct l2; [done|]. right. by left.
    - left. apply last0_elem. by intros ->. }
  split_and!; [done|by intros ->|]. eapply dseg_lookup; [apply Hm|]. set_solver.
Qed.

Lemma wpv_mmap_free hp v l1 m l2 sz Q :
  mrep hp v (l1 ++ m :: l2) -> mblock hp v m sz ->
  (forall v', mrep hp v' (l1 ++ l2) ->
     (forall a s, a ∈ l1 ++ l2 -> mblock hp v' a s <-> mblock hp v a s) ->
     mframe hp m (region sz) v v' -> Q tt v') ->
  wpv (mmap_free m) Q v.
Proof.
  intros Hm Hmb HQ. pose proof (mrep_0 _ _ _ Hm) as H0. pose proof (mr_nodup _ _ _ Hm) as Hnd.
  destruct (mrep_neighbours _ _ _ _ _ Hm) as [Hm12 Hends].
  destruct (mrep_apart _ _ _ _ _ _ Hm Hmb Hm12) as (Hap & Hhap & Hheap).
  apply wpv_bind. eapply (wpv_unlink _ _ _ m (hd0 0 l2) (last0 0 l1) _ _ set_mmap_list_sets_head);
    [done..|by eapply dseg_mid, mr_seg| | | | |].
  { intros E. destruct (Hends m) as (_ & ? & _); [intros ->; set_solver|auto|done]. }
  { intros E. destruct (Hends m) as (_ & ? & _); [intros ->; set_solver|auto|done]. }
  { intros ?. apply Hends; auto. }
  { intros ?. apply Hends; auto. }
  intros v1 L1 -> HLm HL1. set (v1 := v_set_L L1 _).
  assert (HA1 : vA v1 = vA v /\ vos v1 = vos v /\ vbytes v1 = vbytes v /\ vL v1 = L1 /\
    vfl v1 = vfl v /\ vbase v1 = vbase v /\ vinit v1 = vinit v /\ vml v1 = hd0 0 (l1 ++ l2)).
  { unfold v1. pose proof (mr_head _ _ _ Hm) as Hh. destruct (Z.eqb_spec (last0 0 l1) 0) as [Hz|Hz].
    - apply Z.eqb_eq, last0_0_notin in Hz as ->; [done|set_solver].
    - split_and!; try done. cbn [vml v_set_L]. rewrite Hh. by destruct l1. }
  destruct HA1 as (HA1 & Ho1 & Hb1 & HL1' & Hfl1 & Hba1 & Hi1 & Hml1). clearbody v1.
  destruct (mb_attr _ _ _ _ Hmb) as [e HAm].
  apply wpv_bind. apply wpv_ld with (at_ := (sz, false, true, e)) (l := (hd0 0 l2, last0 0 l1)).
  { by rewrite HA1. } { by rewrite HL1'. }
  destruct (mb_size _ _ _ _ Hmb) as (Hsz & Hm0 & Hmax). destruct (mb_page _ _ _ _ Hmb) as [Hp1 Hp2].
  cbn [m_size hdr_of]. rewrite wrap64_small by (unfold region, sizeof_MallocMetadata in *; lia).
  fold (region sz). eapply wpv_modify with (g := fun v => v_unmap m (region sz) (munmap m (region sz) (vos v)) v).
  { intros s. unfold view_of, v_unmap, unmap_mem. cbn. by rewrite !fmap_clobber. }
  set (v2 := v_unmap _ _ _ _).
  assert (Hsub : l1 ++ l2 ⊆ l1 ++ m :: l2) by set_solver.
  destruct (mrep_sub hp v v2 (l1 ++ m :: l2) (l1 ++ l2)) as [Hm2 Hsame]; try done.
  - revert Hnd. rewrite <- Permutation_middle. by intros [_ ?]%NoDup_cons.
  - eapply dseg_frame; [|apply dseg_unlink; [done|set_solver|apply Hm]].
    intros a Ha. cbn [vL v2 v_unmap]. rewrite clobber_lookup, HL1' by by apply Hhap.
    apply HL1. by intros ->.
  - intros a Ha. cbn [vA v2 v_unmap]. by rewrite clobber_lookup, HA1 by by apply Hhap.
  - intros a s x Ha Hb Hx. cbn [vos v2 v_unmap]. rewrite Ho1. apply munmap_spec; [done..|].
    split; [by apply Hb|]. by eapply Hap.
  - intros x Hx. cbn [vos v2 v_unmap]. rewrite Ho1. apply munmap_spec; [done..|].
    split; [by apply Hm|]. intros Hr. by apply (mb_heap _ _ _ _ Hmb x).
  - apply HQ; [done..|]. split; try done.
    + intros a Ha. destruct (Hheap a Ha) as (Hpa & Hne & Hal).
      cbn [vA vL v2 v_unmap]. rewrite !clobber_lookup, HA1, HL1' by done. split; [done|].
      rewrite HL1 by done. apply unlink_at_off; [done|..]; intros E;
        destruct (decide (a = 0)) as [->|]; try congruence; exfalso; apply Hal, Hends; auto.
    + intros x Hx. cbn [vbytes v2 v_unmap]. rewrite Hb1. unfold bytes_outside.
      destruct (vbytes v !! x) as [b|] eqn:E; [apply map_lookup_filter_Some_2|
        apply map_lookup_filter_None_2; by left]; [done|]. cbn. unfold in_range in Hx. lia.
Qed.

End mmap.

Section init.
Context {X OS : Type} {OO : OSOps OS} {OM : OSModel OS} (x0 : X) (base : Z).
Implicit Types (v : view X OS) (B Fr : gmap Z nat).

Abbreviation rep := (rep base).
Abbreviation frame := (frame base).
Abbreviation outside_heap := (outside_heap base).
Abbreviation heap_range := (in_range base TOTAL_HEAP_SIZE).

Lemma mblock_outside v a sz : mblock heap_range v a sz -> outside_heap a.
Proof.
  intros [_ ? _ _ Hh]. unfold outside_heap, BuddyInv.outside_heap, in_range, region,
    TOTAL_HEAP_SIZE, INITIAL_BLOCKS, MMAP_THRESHOLD, sizeof_MallocMetadata in *.
  pose proof (Hh a). pose proof (Hh base). lia.
Qed.

(** The buddy operations preserve the mmap list. *)
Lemma mrep_frame v v' l lo n :
  mrep heap_range v l -> frame lo n v v' ->
  mrep heap_range v' l /\
  (forall a sz, a ∈ l -> mblock heap_range v' a sz <-> mblock heap_range v a sz).
Proof.
  intros Hm Hfr. assert (Hout : forall a, a ∈ l -> outside_heap a).
  { intros a Ha. destruct (mr_block _ _ _ Hm a Ha) as [sz Hb]. by eapply mblock_outside. }
  pose proof (fr_os _ _ _ _ _ Hfr) as Ho.
  apply mrep_sub with (l := l); rewrite ?Ho; try done; try apply Hm.
  - rewrite (fr_ml _ _ _ _ _ Hfr). apply Hm.
  - eapply dseg_frame; [|apply Hm]. intros a Ha. by apply Hfr, Hout.
  - intros a Ha. by apply Hfr, Hout.
  - intros a sz x _ Hb. by apply Hb.
Qed.

(** The operations on mappings preserve the buddy heap. *)
Lemma rep_mframe v v' B Fr lo n :
  rep v B Fr 0 -> mframe heap_range lo n v v' -> rep v' B Fr 0.
Proof.
  intros Hr []. eapply rep_same; [done..|]. intros a k Ha. apply mf_hdr0. intros x Hx.
  destruct (rep_block_pos _ _ _ _ _ _ _ Hr Ha) as [_ Hp].
  destruct (rep_size _ _ _ _ _ _ _ Hr Ha) as [_ Hs]. destruct Hp as (_ & _ & ? & ?).
  unfold in_range, MIN_BLOCK_SIZE, sizeof_MallocMetadata in *. lia.
Qed.

(** ** [buddy_init]'s loop *)

(** The state before iteration [n]. *)
Definition initialising v0 v (n : Z) : Prop :=
  vbase v = base /\ flinks v (first_tiles base n) /\
  heads_complete v (first_tiles base n) MAX_ORDER /\
  (forall i, 0 <= i < n ->
     vA v !! (base + i * MMAP_THRESHOLD) = Some (MMAP_THRESHOLD, true, false, x0)) /\
  frame base TOTAL_HEAP_SIZE v0 v.

Lemma wpv_init_block v0 v n Q :
  0 < base -> initialising v0 v n -> 0 <= n < INITIAL_BLOCKS ->
  (forall v', initialising v0 v' (n + 1) -> Q tt v') ->
  wpv (init_block x0 n) Q v.
Proof.
  intros Hbase (Hb & Hf & Hc & HA & Hfr) Hn HQ.
  apply wpv_bind. apply wpv_gets with (g := vbase); [done|]. rewrite Hb.
  set (m := base + n * MMAP_THRESHOLD). apply wpv_bind, wpv_new_hdr. set (v1 := v_new _ _ _ _).
  unfold INITIAL_BLOCKS in Hn.
  assert (Hfar : forall i, 0 <= i < n -> base + i * MMAP_THRESHOLD + 32 <= m).
  { intros i Hi. unfold m, MMAP_THRESHOLD. lia. }
  assert (Htile : forall a k, first_tiles base n !! a = Some k -> a + 32 <= m /\ ~ outside_heap a).
  { intros a k (_ & i & Hi & ->)%first_tiles_lookup. split; [by apply Hfar|].
    unfold outside_heap, BuddyInv.outside_heap, TOTAL_HEAP_SIZE, INITIAL_BLOCKS, MMAP_THRESHOLD, sizeof_MallocMetadata. lia. }
  assert (Hm : ~ outside_heap m /\ 0 < m).
  { unfold outside_heap, BuddyInv.outside_heap, TOTAL_HEAP_SIZE, m, INITIAL_BLOCKS, MMAP_THRESHOLD, sizeof_MallocMetadata. lia. }
  assert (HL1 : forall a, a + 32 <= m \/ m + 32 <= a -> vL v1 !! a = vL v !! a).
  { intros a Ha. unfold v1, v_new. cbn [vL]. rewrite lookup_insert_ne by lia.
    apply clobber_lookup. unfold hdr_apart, sizeof_MallocMetadata. lia. }
  assert (HA1 : forall a, a + 32 <= m \/ m + 32 <= a -> vA v1 !! a = vA v !! a).
  { intros a Ha. unfold v1, v_new. cbn [vA]. rewrite lookup_insert_ne by lia.
    apply clobber_lookup. unfold hdr_apart, sizeof_MallocMetadata. lia. }
  assert (Hout : forall a, outside_heap a -> a + 32 <= m \/ m + 32 <= a).
  { intros a Ha. unfold outside_heap, BuddyInv.outside_heap, TOTAL_HEAP_SIZE, m, INITIAL_BLOCKS, MMAP_THRESHOLD, sizeof_MallocMetadata in *. lia. }
  eapply (wpv_put base MAX_ORDER m v1 (first_tiles base n)); [|done| | |apply Hm|].
  - eapply flinks_frame; [exact Hf|done|]. intros a k Ha. apply HL1. apply Htile in Ha. lia.
  - split; [apply Hm|]. split; [|exists (0, 0); apply lookup_insert_eq].
    destruct (first_tiles base n !! m) as [k|] eqn:E; [|done]. apply Htile in E. lia.
  - intros a k Ha. by eapply Htile.
  - intros v2 Hf2 Hc2 HA2 Hfr2 _ _. apply HQ. unfold initialising. rewrite first_tiles_S by lia. fold m. split_and!.
    + rewrite (fr_base _ _ _ _ _ Hfr2). exact Hb.
    + done.
    + apply Hc2. intros a k Ha HLa. apply (Hc a k Ha). rewrite <- HL1; [done|].
      apply Htile in Ha. lia.
    + intros i Hi. rewrite HA2. destruct (decide (i = n)) as [->|Hin].
      * fold m. rewrite lookup_alter_eq. unfold v1, v_new. cbn [vA]. by rewrite lookup_insert_eq.
      * pose proof (Hfar i ltac:(lia)). rewrite lookup_alter_ne, HA1 by lia. apply HA. lia.
    + eapply frame_trans; [exact Hfr|].
      eapply frame_trans; [|eapply frame_weaken; [exact Hfr2|unfold in_range; lia]].
      split; try done; [|by intros; apply HA1, Hout|by intros; apply HL1, Hout].
      intros x Hx. apply new_hdr_bytes with (h := tt) (m := Mem ∅ (vbytes v)).
      unfold in_range, TOTAL_HEAP_SIZE, INITIAL_BLOCKS, MMAP_THRESHOLD, sizeof_MallocMetadata in *.
      unfold m, MMAP_THRESHOLD. lia.
Qed.

Lemma wpv_init_blocks v Q :
  0 < base -> base + TOTAL_HEAP_SIZE < 2 ^ 63 -> vbase v = base -> flinks v ∅ ->
  (forall v', rep v' (initial_tiles base) (initial_tiles base) 0 ->
     frame base TOTAL_HEAP_SIZE v v' -> Q tt v') ->
  wpv (init_blocks x0) Q v.
Proof.
  intros Hb0 Hb1 Hb Hf HQ. unfold init_blocks.
  eapply wpv_mono; [apply wpv_for_each with (Inv := fun l v' =>
    exists n, 0 <= n <= INITIAL_BLOCKS /\ l = seqZ n (INITIAL_BLOCKS - n) /\ initialising v v' n)|].
  - intros n l v' (n' & Hn & Hl & Hi).
    destruct (decide (0 < INITIAL_BLOCKS - n')); [|by rewrite seqZ_nil in Hl by lia].
    rewrite seqZ_cons in Hl by done. injection Hl as -> ->.
    eapply wpv_init_block; [done..|lia|]. intros v'' Hi'. exists (n' + 1). split; [lia|].
    split; [f_equal; lia|done].
  - exists 0. split; [done|]. split; [done|]. split_and!; [done|done|done|lia|apply frame_refl].
  - intros [] v' (n & Hn & Hl & (Hb' & Hf' & Hc' & HA' & Hfr')). cbn.
    assert (n = INITIAL_BLOCKS) as ->.
    { destruct (decide (0 < INITIAL_BLOCKS - n)); [|lia]. rewrite seqZ_cons in Hl by done. done. }
    apply HQ; [|done]. split; try done.
    + apply initial_tiles_ok.
    + intros a k Ha. pose proof Ha as (-> & i & Hi & ->)%initial_tiles_lookup.
      exists true, x0. rewrite HA' by done. split; [done|]. intros _.
      by rewrite bool_decide_true by eauto.
    + intros a k Hk (-> & _)%initial_tiles_lookup. lia.
    + destruct (initial_tiles base !! 0) as [k|] eqn:E; [|done].
      apply initial_tiles_lookup in E as (_ & i & Hi & Heq). unfold MMAP_THRESHOLD in *. lia.
Qed.

End init.
