(* ===== verification/BuddyGrow.v ===== *)
(** * Growing a block in place

    [srealloc] first simulates merging a block with its buddies, and merges
    only when the simulation reaches a block large enough.  The simulated
    steps [mstep] are the steps the merging then performs. *)

From S2P Require Import Prelude Memory OS Buddy BuddyView BuddyLists BuddyTiling BuddyInv BuddyOps.

(** The block, its order, the tiling and the free blocks. *)
Abbreviation mstate := (prod (prod Z nat) (prod (gmap Z nat) (gmap Z nat))).

Section grow.
Context {X OS : Type} (base : Z).
Implicit Types (v : view X OS) (B Fr : gmap Z nat).

Abbreviation rep := (rep base).
Abbreviation frame := (frame base).

Inductive mstep : mstate -> mstate -> Prop :=
| MStep m k B Fr b lo :
    (k < MAX_ORDER)%nat -> B !! m = Some k -> Fr !! b = Some k -> buddies base m b lo k ->
    mstep ((m, k), (B, Fr)) ((lo, S k), (merged_tiles m b lo k B, delete b Fr)).

Lemma mstep_order m k BF c o BF' :
  rtc mstep ((m, k), BF) ((c, o), BF') -> (k <= o)%nat.
Proof.
  intros Hst. remember ((m, k), BF) as x eqn:Ex. remember ((c, o), BF') as y eqn:Ey.
  revert m k BF Ex. induction Hst as [?|x x' y Hs Hst IH]; intros m k BF ->.
  - by injection Ey as <- <- <-.
  - inversion Hs; subst. etrans; [|by eapply IH]. lia.
Qed.

Lemma mstep_fun x y z : mstep x y -> mstep x z -> y = z.
Proof.
  intros [m k B Fr b lo _ _ _ Hb]. inversion 1 as [m' k' B' Fr' b' lo' _ _ _ Hb']; subst.
  by destruct (buddies_fun _ _ _ _ _ _ _ Hb Hb') as [-> ->].
Qed.

Lemma mstep_linear x y z : rtc mstep x y -> rtc mstep x z -> rtc mstep y z \/ rtc mstep z y.
Proof.
  intros Hy. revert z. induction Hy as [x|x x' y Hs Hy IH]; intros z Hz; [by left|].
  apply rtc_inv in Hz as [<-|(x'' & Hs' & Hz)].
  - right. by eapply rtc_l.
  - rewrite (mstep_fun _ _ _ Hs Hs') in *. by apply IH.
Qed.

(** Merging up to a block of [size] usable bytes is possible. *)
Definition can_grow B Fr m k size : Prop :=
  exists c o B' Fr', rtc mstep ((m, k), (B, Fr)) ((c, o), (B', Fr')) /\ (k < o)%nat /\
    size <= block_size o - sizeof_MallocMetadata.

(** Where the merging stops short of [size], it cannot be reached. *)
Lemma cannot_grow B Fr m k size c o B' Fr' :
  rtc mstep ((m, k), (B, Fr)) ((c, o), (B', Fr')) -> (o <= MAX_ORDER)%nat ->
  ((k < o)%nat -> block_size o - sizeof_MallocMetadata < size) ->
  (forall y, ~ mstep ((c, o), (B', Fr')) y) -> ~ can_grow B Fr m k size.
Proof.
  intros Hst Ho Hnf Hend (c1 & o1 & B1 & Fr1 & Hst1 & Hko & Hfit).
  destruct (mstep_linear _ _ _ Hst Hst1) as [Hr|Hr].
  - apply rtc_inv in Hr as [[= <- <- <- <-]|(y & Hs & _)]; [specialize (Hnf Hko); lia|by apply (Hend y)].
  - apply mstep_order in Hr. specialize (Hnf ltac:(lia)).
    destruct (decide (o1 = o)) as [->|]; [lia|].
    pose proof (block_size_lt o1 o ltac:(lia) Ho). lia.
Qed.

(** The simulation is exact: what it finds, [mstep] reaches, and it fails only
    when merging cannot reach [size]. *)
Lemma wpv_merge_search on_fit size m k v B Fr Q :
  rep v B Fr m -> B !! m = Some k -> (~ can_grow B Fr m k size -> Q None v) ->
  (forall c o B' Fr', rtc mstep ((m, k), (B, Fr)) ((c, o), (B', Fr')) -> (k < o <= MAX_ORDER)%nat ->
     size <= block_size o - sizeof_MallocMetadata ->
     wpv (on_fit o) (fun p v' => Q (Some p) v') v) ->
  wpv (merge_search on_fit size m k) Q v.
Proof.
  intros Hr Hm HN HS. destruct (rep_size _ _ _ _ _ _ _ Hr Hm) as [Hk _].
  apply wpv_iter with (n := (MAX_ORDER - k)%nat) (Inv := fun n co v' =>
    v' = v /\ n = (MAX_ORDER - snd co)%nat /\ (k <= snd co <= MAX_ORDER)%nat /\
    ((k < snd co)%nat -> block_size (snd co) - sizeof_MallocMetadata < size) /\ exists B' Fr',
      rtc mstep ((m, k), (B, Fr)) (co, (B', Fr')) /\ scan base v B' Fr' (fst co) /\
      B' !! fst co = Some (snd co)).
  - intros n [c o] v' (-> & -> & Ho & Hnf & B' & Fr' & Hst & Hs & Hc). cbn [fst snd] in *.
    apply wpv_if; intros E; cbn [fst snd] in E; [apply Nat.ltb_lt in E|apply Nat.ltb_ge in E].
    2: { apply wpv_ret, HN. eapply cannot_grow; [exact Hst|lia|done|]. intros y Hy. inversion Hy. lia. }
    apply wpv_bind. apply wpv_gets with (g := fun v => buddy_of (vbase v) c o); [done|].
    rewrite (r_base _ _ _ _ _ Hr). apply wpv_bind.
    eapply wpv_buddy_stops; [done..|]. intros lo b Hbd Hlo. split; intros Hb.
    { apply wpv_ret, HN. eapply cannot_grow; [exact Hst|lia|done|]. intros y Hy.
      inversion Hy as [m1 k1 B1 Fr1 b1 lo1 _ _ Hb1 Hbd1]; subst.
      by destruct (buddies_fun _ _ _ _ _ _ _ Hbd Hbd1) as [<- _]. }
    fold b. replace (if b <? c then b else c) with lo by (destruct (Z.ltb_spec b c); lia).
    cbn [fst snd]. assert (HoS : (S o <= MAX_ORDER)%nat) by lia.
    pose proof (block_size_min (S o) HoS). pose proof (block_size_max (S o) HoS).
    unfold MIN_BLOCK_SIZE, MMAP_THRESHOLD, sizeof_MallocMetadata in *.
    rewrite wrap64_small by lia.
    assert (Hst' : rtc mstep ((m, k), (B, Fr)) ((lo, S o), (merged_tiles c b lo o B', delete b Fr'))).
    { eapply rtc_r; [exact Hst|]. by constructor. }
    apply wpv_if; intros Hfit.
    + apply wpv_bind. eapply wpv_mono; [eapply HS; [exact Hst'|lia|lia]|].
      intros p v' HQ. by apply wpv_ret.
    + apply wpv_ret. exists (MAX_ORDER - S o)%nat. split; [lia|]. cbn [fst snd].
      split_and!; [done|done|lia..| |].
      { intros _. lia. }
      do 2 eexists. split; [exact Hst'|]. split.
      * by eapply scan_merge.
      * apply lookup_insert_eq.
  - cbn. split_and!; [done|done|lia|lia|lia|]. exists B, Fr. split; [done|]. split; [by apply rep_scan|done].
  - unfold MAX_ORDER. lia.
Qed.

Lemma wpv_merge_up o m k v B Fr c B' Fr' Q :
  rep v B Fr m -> B !! m = Some k -> rtc mstep ((m, k), (B, Fr)) ((c, o), (B', Fr')) ->
  (o <= MAX_ORDER)%nat ->
  (forall v', rep v' B' Fr' c -> B' !! c = Some o -> growing m B Fr B' Fr' c -> frame 0 0 v v' ->
     Q c v') ->
  wpv (merge_up o m k) Q v.
Proof.
  intros Hr Hm Hst Ho HQ. pose proof (mstep_order _ _ _ _ _ _ Hst) as Hko.
  apply wpv_bind.
  apply wpv_iter with (n := (o - k)%nat) (Inv := fun n mo v1 =>
    n = (o - snd mo)%nat /\ exists B1 Fr1, rtc mstep (mo, (B1, Fr1)) ((c, o), (B', Fr')) /\
      rep v1 B1 Fr1 (fst mo) /\ B1 !! fst mo = Some (snd mo) /\ growing m B Fr B1 Fr1 (fst mo) /\
      frame 0 0 v v1).
  - intros n [m1 k1] v1 (-> & B1 & Fr1 & Hst1 & Hr1 & Hm1 & Hg & Hfr). cbn [fst snd] in *.
    pose proof (mstep_order _ _ _ _ _ _ Hst1) as Hk1.
    apply wpv_if; intros E; cbn [fst snd] in E; [apply Nat.ltb_lt in E|apply Nat.ltb_ge in E].
    2: { apply wpv_ret. cbn [fst snd]. apply rtc_inv in Hst1 as [[= -> -> -> ->]|(y & Hs & Hst2)].
         - apply wpv_ret. by apply HQ.
         - inversion Hs; subst. apply mstep_order in Hst2. lia. }
    apply rtc_inv in Hst1 as [[= -> -> -> ->]|(y & Hs & Hst2)]; [lia|].
    inversion Hs as [m2 k2 B2 Fr2 b lo Hk Hm2 Hb Hbd]; subst.
    apply wpv_bind. apply wpv_gets with (g := fun v => buddy_of (vbase v) m1 k1); [done|].
    rewrite (r_base _ _ _ _ _ Hr1), (buddy_of_intro _ _ _ _ _ Hbd).
    replace (if b <? m1 then b else m1) with lo.
    2: { destruct (rep_block_pos _ _ _ _ _ _ _ Hr1 Hm1) as [_ Hp]. apply placed_pos in Hp.
         destruct (Z.ltb_spec b m1); destruct Hbd as [_ [[? ?]|[? ?]]]; lia. }
    apply wpv_assoc, wpv_bind. eapply wpv_merge_step; [done..|]. intros v2 Hr2 Hfr2.
    apply wpv_ret. exists (o - S k1)%nat. split; [lia|]. cbn [fst snd]. split; [done|].
    do 2 eexists. split; [exact Hst2|]. split_and!; [done|apply lookup_insert_eq| |].
    + by eapply growing_step.
    + by eapply frame_trans.
  - cbn. split; [done|]. exists B, Fr. split_and!; [done..|apply growing_start|apply frame_refl].
  - unfold MAX_ORDER in *. lia.
Qed.

(** What growing the allocated block [m] into the block [c] of order [o] does. *)
Record grown (m c : Z) (o : nat) v B Fr v' B' Fr' : Prop := {
  gr_rep : rep v' B' Fr' 0;
  gr_new : alloc B' Fr' c o;
  gr_old : forall a j, a <> c -> alloc B' Fr' a j <-> alloc B Fr a j /\ a <> m;
  gr_taken : forall j, alloc B Fr c j -> c = m;
  gr_frame : frame 0 0 v v';
}.

(** [merged->is_free = false] after the merges. *)
Lemma wpv_grown m c o v B Fr v' B' Fr' Q :
  rep v' B' Fr' c -> B' !! c = Some o -> growing m B Fr B' Fr' c -> frame 0 0 v v' ->
  (forall v'', grown m c o v B Fr v'' B' Fr' -> Q tt v'') ->
  wpv (upd c (with_is_free false)) Q v'.
Proof.
  intros Hr Hc [Hg1 Hg2] Hfr HQ. destruct (r_attr _ _ _ _ _ Hr c o Hc) as (f & e & HA & _).
  apply wpv_upd_A with (g := set_a_free false); [by intros []..|eauto|].
  destruct (rep_block_pos _ _ _ _ _ _ _ Hr Hc) as [_ Hp].
  apply HQ. split; [|split; [done|apply Hr]|done|done|].
  - eapply rep_settle; [by apply rep_flag| |done]. cbn [vA v_upd_A]. by rewrite lookup_alter_eq, HA.
  - eapply frame_trans; [exact Hfr|]. by eapply frame_flag.
Qed.

End grow.
