(* ===== verification/BuddyStats.v ===== *)
(** * Free lists as sequences, and the statistics

    The list of an order, read from its head, is an ascending sequence of
    free blocks of that order; the statistics fold over these sequences and
    over the tiling. *)

From stdpp Require Import sorting.
From S2P Require Import Prelude Memory OS.
From S2P Require Import Buddy BuddyView BuddyLists BuddyTiling BuddyInv BuddyMmap.

Lemma sorted_lt_NoDup l : StronglySorted Z.lt l -> NoDup l.
Proof.
  induction 1 as [|a l Hs IH Ha]; constructor; [|done].
  intros Hin. rewrite Forall_forall in Ha. specialize (Ha a Hin). lia.
Qed.

Section stats.
Context {X OS : Type}.
Implicit Types (v : view X OS) (B Fr : gmap Z nat).

(** [l] is the list of order [k], from its head to its end. *)
Record listed v Fr (k : nat) (l : list Z) : Prop := {
  ls_head : vfl v !! k = Some (hd0 0 l);
  ls_seg : dseg (vL v) 0 l 0;
  ls_sorted : StronglySorted Z.lt l;
  ls_free : forall a, a ∈ l -> Fr !! a = Some k;
}.

Lemma flinks_seg v Fr k : flinks v Fr -> forall n a p,
  (above (vL v) a < n)%nat -> Fr !! a = Some k -> snd <$> vL v !! a = Some p ->
  exists l, dseg (vL v) p (a :: l) 0 /\ StronglySorted Z.lt (a :: l) /\
    (forall b, b ∈ a :: l -> Fr !! b = Some k).
Proof.
  intros Hf. induction n as [|n IH]; intros a p Hn Ha Hp; [lia|].
  destruct (fl_node _ _ Hf a k Ha) as (_ & Hpos & nx & p' & HL & Hnx & _).
  rewrite HL in Hp. injection Hp as <-. destruct Hnx as [->|(Hlt & HF & n' & HLn)].
  - exists []. cbn. split_and!; [done|done|by repeat constructor|].
    by intros b ->%list_elem_of_singleton.
  - destruct (IH nx a) as (l & Hseg & Hs & Hl); [|done|by rewrite HLn|].
    { pose proof (above_lt (vL v) a nx Hlt ltac:(eauto)). lia. }
    exists (nx :: l). split_and!.
    + split; [done|exact Hseg].
    + constructor; [done|]. constructor; [done|]. apply StronglySorted_inv in Hs as [_ Hs].
      eapply Forall_impl; [exact Hs|]. cbn. lia.
    + intros b [->|Hb]%elem_of_cons; [done|auto].
Qed.

Lemma listed_exists v Fr k : flinks v Fr -> (k <= MAX_ORDER)%nat -> exists l, listed v Fr k l.
Proof.
  intros Hf Hk. destruct (lookup_lt_is_Some_2 (vfl v) k) as [h Hh].
  { rewrite (fl_len _ _ Hf). lia. }
  destruct (fl_head _ _ Hf k h Hh) as [->|(HF & n & HL)].
  - exists []. split; [done|done|constructor|by intros a Ha%not_elem_of_nil].
  - destruct (flinks_seg _ _ k Hf (S (above (vL v) h)) h 0) as (l & Hs & Hst & Hl);
      [lia|done|by rewrite HL|]. by exists (h :: l).
Qed.

Lemma listed_pos v Fr k l : flinks v Fr -> listed v Fr k l -> 0 ∉ l.
Proof.
  intros Hf Hl H0. apply (ls_free _ _ _ _ Hl) in H0. pose proof (flinks_pos _ _ _ _ Hf H0). lia.
Qed.

Lemma dseg_next L p l a n q :
  dseg L p l 0 -> a ∈ l -> L !! a = Some (n, q) -> n <> 0 -> n ∈ l.
Proof.
  revert p. induction l as [|b l IH]; intros p Hd Ha HL Hn; [by apply not_elem_of_nil in Ha|].
  destruct Hd as [Hb Hd]. apply elem_of_cons in Ha as [->|Ha].
  - rewrite HL in Hb. injection Hb as -> _. right. apply hd0_elem. by intros ->.
  - right. by eapply IH.
Qed.

(** Where the heads are complete, the list holds every free block of the order. *)
Lemma listed_complete v Fr k l :
  flinks v Fr -> heads_complete v Fr k -> listed v Fr k l -> forall a, Fr !! a = Some k -> a ∈ l.
Proof.
  intros Hf Hc Hl a. assert (H : forall n b, b <= n -> Fr !! b = Some k -> b ∈ l); [|by intros; eapply H].
  assert (Hneg : forall b, Fr !! b = Some k -> 0 < b) by (intros; by eapply flinks_pos).
  intros n. destruct (decide (0 <= n)) as [Hn|]; [|by intros b Hb HF%Hneg; lia].
  pattern n. apply Zlt_0_ind; [|done]. clear n Hn. intros n IH _ b Hb HF.
  destruct (fl_node _ _ Hf b k HF) as (_ & Hpos & nx & p & HL & _ & [->|(Hp & HFp & p' & HLp)]).
  - pose proof (Hc b nx HF HL) as Hh. rewrite (ls_head _ _ _ _ Hl) in Hh. injection Hh as Hh.
    rewrite <- Hh. apply hd0_elem. intros ->. cbn in Hh. lia.
  - eapply dseg_next; [apply Hl| |exact HLp|lia]. apply (IH (b - 1)); [lia|lia|done].
Qed.

(** ** Folds along a list *)

(** [step] adds a function of the header's size. *)
Lemma wpv_list_fold step g (sz : Z -> Z) l p acc v Q :
  (forall c h, step c h = c + g (m_size h)) -> 0 ∉ l -> NoDup l -> dseg (vL v) p l 0 ->
  (forall a, a ∈ l -> exists f mp x, vA v !! a = Some (sz a, f, mp, x)) -> 0 <= acc < 2 ^ 64 ->
  Q (wrap64 (acc + sumZ (g ∘ sz <$> l))) v ->
  wpv (list_fold step (hd0 0 l) acc) Q v.
Proof.
  intros Hstep H0 Hnd Hd HA Hacc HQ. apply wpv_bind, wpv_walk_fuel.
  apply wpv_iter with (n := length l) (Inv := fun n ma v' =>
    v' = v /\ exists l1 l2, l = l1 ++ l2 /\ n = length l2 /\
      ma = (hd0 0 l2, wrap64 (acc + sumZ (g ∘ sz <$> l1)))).
  - intros n ma v' (-> & l1 & l2 & Hl & -> & ->). cbn [fst snd]. destruct l2 as [|a l2].
    + apply wpv_ret. rewrite app_nil_r in Hl. by subst.
    + cbn [hd0]. unfold nullptr. rewrite (proj2 (Z.eqb_neq a 0)) by (intros ->; set_solver).
      subst l. destruct (HA a) as (f & mp & x & HAa); [set_solver|].
      apply wpv_bind. eapply wpv_ld; [exact HAa|by eapply dseg_mid|]. apply wpv_ret.
      exists (length l2). split; [cbn; lia|]. split; [done|]. exists (l1 ++ [a]), l2.
      rewrite <- app_assoc. split_and!; [done..|]. cbn [hdr_of m_next fst snd]. f_equal.
      rewrite Hstep, fmap_app, sumZ_app. cbn [m_size].
      rewrite wrap64_idemp. f_equal. cbn. lia.
  - split; [done|]. exists [], l. split_and!; [done..|]. cbn [fmap list_fmap sumZ].
    by rewrite Z.add_0_r, wrap64_small by done.
  - apply Nat.lt_succ_r. by eapply dseg_length.
Qed.

Lemma listed_nodup v Fr k l : listed v Fr k l -> NoDup l.
Proof.
  intros Hl. by apply sorted_lt_NoDup, (ls_sorted _ _ _ _ Hl).
Qed.

(** The lists of all the orders. *)
Definition all_lists v Fr (ls : list (list Z)) : Prop := Forall2 (listed v Fr) (seq 0 (S MAX_ORDER)) ls.

Lemma all_lists_exist v Fr : flinks v Fr -> exists ls, all_lists v Fr ls.
Proof.
  intros Hf. assert (H : forall os, (forall k, k ∈ os -> (k <= MAX_ORDER)%nat) ->
    exists ls, Forall2 (listed v Fr) os ls).
  { induction os as [|k os IH]; intros Hos; [by exists []; constructor|].
    destruct (listed_exists v Fr k Hf) as [l Hl]; [apply Hos; by left|].
    destruct IH as [ls Hls]; [intros j Hj; apply Hos; by right|]. exists (l :: ls). by constructor. }
  apply H. intros k Hk%elem_of_seq. lia.
Qed.

(** The usable size of a free block. *)
Definition free_usable Fr (a : Z) : Z :=
  match Fr !! a with Some k => block_size k - sizeof_MallocMetadata | None => 0 end.

Lemma wpv_orders_fold step g base v B Fr os ls acc Q :
  (forall c h, step c h = c + g (m_size h - sizeof_MallocMetadata)) -> rep base v B Fr 0 ->
  Forall2 (listed v Fr) os ls -> 0 <= acc < 2 ^ 64 ->
  Q (wrap64 (acc + sumZ (g ∘ free_usable Fr <$> concat ls))) v ->
  wpv (orders_fold step os acc) Q v.
Proof.
  intros Hstep Hr Hls. revert acc. induction Hls as [|k l os ls Hl Hls IH]; intros acc Hacc HQ.
  - apply wpv_ret. cbn in HQ. by rewrite Z.add_0_r, wrap64_small in HQ.
  - pose proof (r_links _ _ _ _ _ Hr) as Hf. cbn [orders_fold].
    apply wpv_bind. eapply wpv_fl_get; [apply Hl|]. apply wpv_bind.
    eapply (wpv_list_fold _ (fun s => g (s - sizeof_MallocMetadata))
      (fun a => free_usable Fr a + sizeof_MallocMetadata));
      [exact Hstep|by eapply listed_pos|by eapply listed_nodup|apply Hl| |done|].
    + intros a Ha. pose proof (ls_free _ _ _ _ Hl a Ha) as HF.
      destruct (r_attr _ _ _ _ _ Hr a k (r_sub _ _ _ _ _ Hr _ _ HF)) as (f & x & HA & _).
      unfold free_usable. rewrite HF. exists f, false, x. rewrite HA. by f_equal; f_equal; f_equal; f_equal; lia.
    + apply IH; [apply wrap64_range|]. rewrite wrap64_idemp. cbn [concat] in HQ.
      rewrite fmap_app, sumZ_app, Z.add_assoc in HQ.
      rewrite (list_fmap_ext _ (g ∘ free_usable Fr) l); [done|]. intros i a _. cbn. f_equal. lia.
Qed.

(** ** The number of blocks *)

Lemma tiles_size base B : tiles base B -> Z.of_nat (size B) <= 32768.
Proof.
  intros HB. pose (grid := (fun i => base + i * 128) <$> seqZ 0 32768).
  assert (Hsub : dom B ⊆ (list_to_set grid : gset Z)).
  { intros a Ha. apply elem_of_dom in Ha as [k Ha]. apply elem_of_list_to_set.
    destruct (t_placed _ _ HB a k Ha) as (Hk & Hd & Hlo & Hhi).
    pose proof (block_size_min k Hk). unfold MIN_BLOCK_SIZE, TOTAL_HEAP_SIZE, INITIAL_BLOCKS, MMAP_THRESHOLD in *.
    assert (Hd' : (block_size 0 | a - base)) by (etrans; [apply (block_size_divide 0 k); lia|done]).
    change (block_size 0) with 128 in Hd'. destruct Hd' as [i Hi].
    apply list_elem_of_fmap. exists i. split; [lia|]. apply elem_of_seqZ_iff. lia. }
  rewrite <- size_dom. etrans; [apply inj_le, (subseteq_size _ _ Hsub)|].
  rewrite size_list_to_set; unfold grid.
  2: { apply NoDup_fmap_2; [intros i j; cbn; lia|apply NoDup_seqZ]. }
  rewrite length_fmap, length_seqZ. lia.
Qed.

Lemma listed_length base v B Fr k l :
  rep base v B Fr 0 -> listed v Fr k l -> Z.of_nat (length l) <= 32768.
Proof.
  intros Hr Hl. etrans; [|apply (tiles_size base B), Hr]. apply inj_le.
  rewrite <- size_dom, <- (size_list_to_set (C := gset Z) l) by (by eapply listed_nodup).
  apply subseteq_size. intros a Ha%elem_of_list_to_set. apply elem_of_dom.
  exists k. apply Hr. by apply Hl.
Qed.

Lemma all_lists_length base v B Fr ls :
  rep base v B Fr 0 -> all_lists v Fr ls -> Z.of_nat (length (concat ls)) <= 11 * 32768.
Proof.
  intros Hr Hls. assert (H : Z.of_nat (length (concat ls)) <= 32768 * Z.of_nat (length ls)).
  - unfold all_lists in Hls. induction Hls as [|k l os ls Hl Hls IH]; [cbn; lia|].
    cbn [concat length]. rewrite length_app.
    pose proof (listed_length _ _ _ _ _ _ Hr Hl). lia.
  - apply Forall2_length in Hls. rewrite length_seq in Hls. unfold MAX_ORDER in Hls. lia.
Qed.

Lemma wpv_num_free_blocks base v B Fr ls Q :
  rep base v B Fr 0 -> all_lists v Fr ls -> Q (Z.of_nat (length (concat ls))) v ->
  wpv _num_free_blocks Q v.
Proof.
  intros Hr Hls HQ. eapply (wpv_orders_fold _ (fun _ => 1)); [done|done|done|lia|].
  rewrite (sumZ_const 1) by (intros x (a & -> & _)%list_elem_of_fmap; done).
  rewrite length_fmap, wrap64_small; [by rewrite Z.add_0_l, Z.mul_1_l|].
  pose proof (all_lists_length _ _ _ _ _ Hr Hls). lia.
Qed.

Lemma wpv_num_free_bytes base v B Fr ls Q :
  rep base v B Fr 0 -> all_lists v Fr ls ->
  Q (wrap64 (sumZ (free_usable Fr <$> concat ls))) v -> wpv _num_free_bytes Q v.
Proof. intros Hr Hls HQ. by eapply (wpv_orders_fold _ (fun n => n)). Qed.

(** ** [count_all_buddy] *)

(** The blocks below [x]. *)
Definition below B (x : Z) : gmap Z nat := filter (fun ak => fst ak < x) B.

Lemma below_step base B a k :
  tiles base B -> B !! a = Some k ->
  below B (a + block_size k) = <[a := k]> (below B a) /\ below B a !! a = None.
Proof.
  intros HB Ha. pose proof (placed_pos _ _ _ (t_placed _ _ HB a k Ha)) as Hpos. split.
  - apply map_eq. intros b. unfold below. destruct (decide (b = a)) as [->|Hba].
    + rewrite lookup_insert_eq. apply map_lookup_filter_Some. cbn. split; [done|lia].
    + rewrite lookup_insert_ne by done. apply option_eq. intros j.
      rewrite !map_lookup_filter_Some. cbn. split; (intros [Hb Hlt]; split; [done|]); [|lia].
      destruct (decide (b < a)); [done|]. pose proof (t_disj _ _ HB a b k j Ha Hb). lia.
  - apply map_lookup_filter_None. right. cbn. intros j _. lia.
Qed.

(** The blocks follow each other without a gap. *)
Lemma tiles_next base B a k :
  tiles base B -> B !! a = Some k -> a + block_size k < base + TOTAL_HEAP_SIZE ->
  exists j, B !! (a + block_size k) = Some j.
Proof.
  intros HB Ha Hlt. destruct (t_placed _ _ HB a k Ha) as (Hk & _ & Hlo & _).
  pose proof (block_size_min k Hk). unfold MIN_BLOCK_SIZE in *.
  destruct (t_cover _ _ HB (a + block_size k)) as (c & j & Hc & Hin); [unfold in_range; lia|].
  unfold in_range in Hin. destruct (decide (c = a + block_size k)) as [->|Hne]; [by exists j|].
  destruct (Z.lt_trichotomy a c) as [Hac|[->|Hca]].
  - pose proof (t_disj _ _ HB a c k j Ha Hc Hac). lia.
  - assert (j = k) by congruence. subst. lia.
  - pose proof (t_disj _ _ HB c a j k Hc Ha Hca). lia.
Qed.

Lemma tiles_first base B : tiles base B -> exists k, B !! base = Some k.
Proof.
  intros HB. destruct (t_cover _ _ HB base) as (c & j & Hc & Hin).
  { unfold in_range, TOTAL_HEAP_SIZE, INITIAL_BLOCKS, MMAP_THRESHOLD. lia. }
  destruct (t_placed _ _ HB c j Hc) as (_ & _ & Hlo & _). unfold in_range in Hin.
  assert (c = base) as -> by lia. by exists j.
Qed.

Lemma below_all base B x : tiles base B -> base + TOTAL_HEAP_SIZE <= x -> below B x = B.
Proof.
  intros HB Hx. apply map_filter_id. cbn. intros a k Ha. pose proof (placed_offset _ _ _ (t_placed _ _ HB a k Ha)). lia.
Qed.

Lemma wpv_count_all_buddy base v B Fr Q :
  rep base v B Fr 0 ->
  Q (Z.of_nat (size B), TOTAL_HEAP_SIZE - sizeof_MallocMetadata * Z.of_nat (size B)) v ->
  wpv count_all_buddy Q v.
Proof.
  intros Hr HQ. destruct (r_range _ _ _ _ _ Hr) as [Hb0 Hb1]. pose proof (r_tiles _ _ _ _ _ Hr) as HB.
  pose proof (tiles_size _ _ HB) as Hsz.
  apply wpv_bind. apply wpv_gets with (g := vbase); [done|]. rewrite (r_base _ _ _ _ _ Hr).
  unfold nullptr. rewrite (proj2 (Z.eqb_neq base 0)) by lia.
  apply wpv_bind, wpv_walk_fuel, wpv_bind. apply wpv_vok. intros Hok.
  assert (Hfuel : (size B <= size (vL v))%nat).
  { rewrite <- !size_dom. apply subseteq_size. intros a [k Ha]%elem_of_dom. apply elem_of_dom, Hok.
    destruct (r_attr _ _ _ _ _ Hr a k Ha) as (f & x & -> & _). eauto. }
  apply wpv_iter with (n := size B) (Inv := fun n pbb v' => exists ptr, v' = v /\
    let c := size (below B ptr) in
    pbb = (ptr, (Z.of_nat c, ptr - base - sizeof_MallocMetadata * Z.of_nat c)) /\
    (n + c)%nat = size B /\ base <= ptr <= base + TOTAL_HEAP_SIZE /\
    sizeof_MallocMetadata * Z.of_nat c <= ptr - base /\
    (ptr < base + TOTAL_HEAP_SIZE -> exists k, B !! ptr = Some k)); [|exists base; cbn zeta|lia].
  - intros n pbb v' (ptr & -> & -> & Hn & Hp & Hbytes & HBp). apply wpv_if; intros E.
    2: { apply wpv_ret, wpv_ret. assert (ptr = base + TOTAL_HEAP_SIZE) as -> by lia.
         rewrite (below_all base) by (done || lia). replace (base + TOTAL_HEAP_SIZE - base) with TOTAL_HEAP_SIZE by lia. done. }
    destruct HBp as [k Hk]; [lia|]. destruct (r_attr _ _ _ _ _ Hr ptr k Hk) as (f & x & HA & _).
    destruct (t_placed _ _ HB ptr k Hk) as (Hko & _ & _ & Hhi). pose proof (block_size_min k Hko).
    apply wpv_bind. eapply wpv_ld_attrs; [exact HA|]. intros h [= -> _ _ _].
    destruct (below_step _ _ _ _ HB Hk) as [Hst Hno].
    assert (Hc : size (below B (ptr + block_size k)) = S (size (below B ptr))).
    { by rewrite Hst, map_size_insert_None. }
    assert (Hle : (size (below B (ptr + block_size k)) <= size B)%nat).
    { apply map_subseteq_size, map_filter_subseteq. }
    unfold MIN_BLOCK_SIZE, TOTAL_HEAP_SIZE, INITIAL_BLOCKS, MMAP_THRESHOLD, sizeof_MallocMetadata in *.
    rewrite (proj2 (Z.eqb_neq (block_size k) 0)) by lia. apply wpv_ret.
    exists (size B - size (below B (ptr + block_size k)))%nat. split; [lia|].
    exists (ptr + block_size k). cbn zeta. rewrite Hc. split_and!; [done| |lia..| ].
    + rewrite !wrap64_small by lia. f_equal. f_equal; lia.
    + intros Hlt. eapply tiles_next; [done..|].
      unfold TOTAL_HEAP_SIZE, INITIAL_BLOCKS, MMAP_THRESHOLD. lia.
  - assert (below B base = ∅) as ->.
    { apply map_eq. intros a. rewrite lookup_empty. apply map_lookup_filter_None. right. cbn. intros k Ha.
      pose proof (placed_offset _ _ _ (t_placed _ _ HB a k Ha)). lia. }
    rewrite map_size_empty. cbn [Z.of_nat]. split; [done|]. split; [f_equal; f_equal; lia|].
    unfold TOTAL_HEAP_SIZE, INITIAL_BLOCKS, MMAP_THRESHOLD, sizeof_MallocMetadata.
    split_and!; [lia..|]. intros _. by apply tiles_first.
Qed.

(** ** A heap with nothing allocated *)

(** With every block free, coalescing has restored the initial tiling. *)
Lemma all_free base v B Fr :
  rep base v B Fr 0 -> (forall a k, ~ alloc B Fr a k) -> B = initial_tiles base /\ Fr = initial_tiles base.
Proof.
  intros Hr Hno. pose proof (r_tiles _ _ _ _ _ Hr) as HB.
  assert (HF : forall a k, B !! a = Some k -> Fr !! a = Some k).
  { intros a k Ha. destruct (Fr !! a) as [j|] eqn:E; [|by edestruct Hno; split].
    apply (r_sub _ _ _ _ _ Hr) in E. congruence. }
  assert (HFB : Fr = B).
  { apply map_eq. intros a. apply option_eq. intros k. split; [apply Hr|apply HF]. }
  assert (Hord : forall k a, B !! a = Some k -> k = MAX_ORDER).
  { intros k. induction k as [k IH] using lt_wf_ind. intros a Ha.
    destruct (t_placed _ _ HB a k Ha) as (Hk & _). destruct (decide (k = MAX_ORDER)) as [|Hlt]; [done|exfalso].
    assert (Hk' : (k < MAX_ORDER)%nat) by lia.
    destruct (buddy_of_buddies base a k Hk' (t_placed _ _ HB a k Ha)) as (lo & Hbd & _).
    destruct (buddy_live base B a k _ lo HB Ha Hbd) as (j & Hj & Hb).
    destruct (decide (j = k)) as [->|].
    - apply (r_coal _ _ _ _ _ Hr a k Hk'); by apply HF.
    - assert (j = MAX_ORDER) by (apply (IH j ltac:(lia) _ Hb)). lia. }
  assert (B = initial_tiles base); [|by subst].
  apply map_eq. intros a. apply option_eq. intros k. rewrite initial_tiles_lookup. split.
  - intros Ha. pose proof (Hord k a Ha) as ->. split; [done|].
    destruct (t_placed _ _ HB a _ Ha) as (_ & [q Hq] & Hlo & Hhi).
    change (block_size MAX_ORDER) with 131072 in *. exists q.
    unfold TOTAL_HEAP_SIZE, INITIAL_BLOCKS, MMAP_THRESHOLD in *. lia.
  - intros (-> & i & Hi & ->).
    destruct (t_cover _ _ HB (base + i * MMAP_THRESHOLD)) as (c & j & Hc & Hin).
    { unfold in_range, TOTAL_HEAP_SIZE, INITIAL_BLOCKS, MMAP_THRESHOLD in *. lia. }
    pose proof (Hord j c Hc) as ->. destruct (t_placed _ _ HB c _ Hc) as (_ & [q Hq] & _).
    change (block_size MAX_ORDER) with 131072 in *. unfold in_range, MMAP_THRESHOLD in *.
    assert (c = base + i * (128 * 1024)) as <- by lia. done.
Qed.

End stats.
