(* ===== verification/Heap.v ===== *)
(** * The state of the buddy allocators

    [ready ob v B Fr l]: after [buddy_init], with its heap at [ob] (or without
    one, when [sbrk] failed), tiled by [B] of which [Fr] are free, and the
    mmap list [l].  [live_is] relates the state to the map of the blocks users
    hold. *)

From S2P Require Import Prelude Memory OS AllocSpec.
From S2P Require Import Buddy BuddyView BuddyLists BuddyTiling BuddyInv BuddyOps BuddyMmap BuddyGrow.

Section heap.
Context {X OS : Type} {OO : OSOps OS} {OM : OSModel OS}.
Implicit Types (v : view X OS) (B Fr : gmap Z nat) (ob : option Z) (L : gmap Z Z).

Definition heap_range ob : Z -> Prop :=
  match ob with Some base => in_range base TOTAL_HEAP_SIZE | None => fun _ => False end.

(** Without a heap every free list is empty. *)
Definition owned ob v B Fr : Prop :=
  match ob with
  | Some base => rep base v B Fr 0
  | None => B = ∅ /\ Fr = ∅ /\ vfl v = replicate (S MAX_ORDER) nullptr
  end.

Record ready ob v B Fr (l : list Z) : Prop := {
  rd_init : vinit v = true;
  rd_heap : owned ob v B Fr;
  rd_mmap : mrep (heap_range ob) v l;
}.

(** A user pointer [p] to [n] usable bytes. *)
Definition live ob v B Fr (l : list Z) (p n : Z) : Prop :=
  (exists k, alloc B Fr (meta_from_ptr p) k /\ n = block_size k - sizeof_MallocMetadata) \/
  (meta_from_ptr p ∈ l /\ mblock (heap_range ob) v (meta_from_ptr p) n).

Definition live_is ob v B Fr l L : Prop := forall p n, L !! p = Some n <-> live ob v B Fr l p n.

Lemma meta_ptr m : meta_from_ptr (ptr_from_meta m) = m.
Proof. unfold meta_from_ptr, ptr_from_meta. lia. Qed.

Lemma ptr_meta p : ptr_from_meta (meta_from_ptr p) = p.
Proof. unfold meta_from_ptr, ptr_from_meta. lia. Qed.

(** ** The extents of the blocks *)

(** The bytes from [a] to [a + n] belong to one block, free or live. *)
Definition extent ob v B (l : list Z) (a n : Z) : Prop :=
  (exists k, B !! a = Some k /\ n = block_size k) \/
  (exists sz, a ∈ l /\ mblock (heap_range ob) v a sz /\ n = region sz).

Lemma owned_block ob v B Fr a k :
  owned ob v B Fr -> B !! a = Some k -> exists base, ob = Some base /\ rep base v B Fr 0 /\
    0 < a /\ placed base a k /\ base + TOTAL_HEAP_SIZE < 2 ^ 63 /\ MIN_BLOCK_SIZE <= block_size k.
Proof.
  destruct ob as [base|]; [|by intros (-> & _)]. intros Hr Ha. exists base.
  destruct (rep_block_pos _ _ _ _ _ _ _ Hr Ha). destruct (r_range _ _ _ _ _ Hr).
  destruct (rep_size _ _ _ _ _ _ _ Hr Ha). done.
Qed.

Lemma extent_range ob v B Fr l a n :
  ready ob v B Fr l -> extent ob v B l a n ->
  0 < a /\ sizeof_MallocMetadata <= n /\ a + n < 2 ^ 63.
Proof.
  intros Hr [(k & Ha & ->)|(sz & Ha & [_ ? _ _ _] & ->)].
  - destruct (owned_block _ _ _ _ _ _ (rd_heap _ _ _ _ _ Hr) Ha) as (base & -> & _ & ? & Hp & ? & ?).
    destruct Hp as (_ & _ & ? & ?). unfold MIN_BLOCK_SIZE, sizeof_MallocMetadata in *. lia.
  - unfold region, sizeof_MallocMetadata in *. lia.
Qed.

Lemma extent_apart ob v B Fr l a n b m :
  ready ob v B Fr l -> extent ob v B l a n -> extent ob v B l b m -> a < b -> a + n <= b.
Proof.
  intros Hr Ha Hb Hlt. pose proof (extent_range _ _ _ _ _ _ _ Hr Ha).
  pose proof (extent_range _ _ _ _ _ _ _ Hr Hb).
  destruct Ha as [(k & Ha & ->)|(sz & Ha & Hma & ->)]; destruct Hb as [(j & Hb & ->)|(sz' & Hb & Hmb & ->)].
  - destruct (owned_block _ _ _ _ _ _ (rd_heap _ _ _ _ _ Hr) Ha) as (base & -> & Hrep & _).
    eapply t_disj; [apply Hrep|done..].
  - destruct (owned_block _ _ _ _ _ _ (rd_heap _ _ _ _ _ Hr) Ha) as (base & -> & Hrep & _ & Hp & _).
    pose proof (mb_heap _ _ _ _ Hmb) as Hh. destruct Hp as (_ & _ & ? & ?).
    unfold heap_range, in_range, sizeof_MallocMetadata in *.
    pose proof (Hh b). lia.
  - destruct (owned_block _ _ _ _ _ _ (rd_heap _ _ _ _ _ Hr) Hb) as (base & -> & Hrep & _ & Hp & _).
    pose proof (mb_heap _ _ _ _ Hma) as Hh. destruct Hp as (_ & _ & ? & ?).
    unfold heap_range, in_range, sizeof_MallocMetadata in *.
    pose proof (Hh b). lia.
  - by apply (mr_disj _ _ _ (rd_mmap _ _ _ _ _ Hr) a b sz sz').
Qed.

Lemma extent_fun ob v B Fr l a n m :
  ready ob v B Fr l -> extent ob v B l a n -> extent ob v B l a m -> n = m.
Proof.
  intros Hr Ha Hb.
  assert (Hno : forall k sz, B !! a = Some k -> mblock (heap_range ob) v a sz -> False).
  { intros k sz Hk [_ ? _ _ Hh].
    destruct (owned_block _ _ _ _ _ _ (rd_heap _ _ _ _ _ Hr) Hk) as (base & -> & _ & _ & (_ & _ & ? & ?) & _ & ?).
    apply (Hh a); unfold heap_range, in_range, region, MIN_BLOCK_SIZE, sizeof_MallocMetadata in *; lia. }
  destruct Ha as [(k & Ha & ->)|(sz & Ha & Hma & ->)]; destruct Hb as [(j & Hb & ->)|(sz' & Hb & Hmb & ->)].
  - congruence.
  - by edestruct Hno.
  - by edestruct Hno.
  - by rewrite (mblock_fun _ _ _ _ _ Hma Hmb).
Qed.

Lemma live_extent ob v B Fr l p n :
  live ob v B Fr l p n -> extent ob v B l (meta_from_ptr p) (sizeof_MallocMetadata + n).
Proof.
  intros [(k & [Hk _] & ->)|[Hl Hm]]; [left; exists k; split; [done|lia]|right; exists n; done].
Qed.

Lemma live_separated ob v B Fr l L :
  ready ob v B Fr l -> live_is ob v B Fr l L -> separated L.
Proof.
  intros Hr HL. split.
  - intros p n Hp%HL. pose proof (live_extent _ _ _ _ _ _ _ Hp) as He.
    apply (extent_range _ _ _ _ _ _ _ Hr) in He. pose proof Hp as [(k & [Hk _] & ->)|[_ []]].
    + destruct (owned_block _ _ _ _ _ _ (rd_heap _ _ _ _ _ Hr) Hk) as (_ & _ & _ & _ & _ & _ & ?).
      unfold meta_from_ptr, MIN_BLOCK_SIZE, sizeof_MallocMetadata in *. lia.
    + unfold meta_from_ptr, sizeof_MallocMetadata in *. lia.
  - intros p n q m Hp%HL%live_extent Hq%HL%live_extent Hlt.
    pose proof (extent_apart _ _ _ _ _ _ _ _ _ Hr Hp Hq) as Ha.
    unfold meta_from_ptr, sizeof_MallocMetadata in *. lia.
Qed.

(** The payload of a live block lies apart from any other block. *)
Lemma payload_apart ob v B Fr l p n a m x :
  ready ob v B Fr l -> live ob v B Fr l p n -> extent ob v B l a m -> a <> meta_from_ptr p ->
  in_range p n x -> ~ in_range a m x.
Proof.
  intros Hr Hp%live_extent Ha Hne. 
  pose proof (extent_apart _ _ _ _ _ _ _ _ _ Hr Hp Ha).
  pose proof (extent_apart _ _ _ _ _ _ _ _ _ Hr Ha Hp).
  unfold in_range, meta_from_ptr, sizeof_MallocMetadata in *. lia.
Qed.

(** The [is_mmap] member of the header of a user pointer. *)
Definition kind v (p : Z) : option bool := (fun a => a_mmap a) <$> vA v !! meta_from_ptr p.

Lemma kind_buddy ob v B Fr l p k :
  ready ob v B Fr l -> alloc B Fr (meta_from_ptr p) k -> kind v p = Some false.
Proof.
  intros Hr [HB _]. destruct (owned_block _ _ _ _ _ _ (rd_heap _ _ _ _ _ Hr) HB) as (base & -> & Hrep & _).
  destruct (r_attr _ _ _ _ _ Hrep _ _ HB) as (f & e & HA & _). unfold kind. by rewrite HA.
Qed.

Lemma kind_mmap hp v p n : mblock hp v (meta_from_ptr p) n -> kind v p = Some true.
Proof. intros [[e HA] _ _ _ _]. unfold kind. by rewrite HA. Qed.

Lemma kind_same ob v B Fr l ob' v' B' Fr' l' p n :
  ready ob v B Fr l -> ready ob' v' B' Fr' l' -> live ob v B Fr l p n ->
  (forall k, alloc B Fr (meta_from_ptr p) k -> alloc B' Fr' (meta_from_ptr p) k) ->
  (meta_from_ptr p ∈ l -> mblock (heap_range ob) v (meta_from_ptr p) n ->
   mblock (heap_range ob') v' (meta_from_ptr p) n) ->
  kind v' p = kind v p.
Proof.
  intros Hr Hr' [(k & Hk & _)|[Hl Hm]] Hal Hmb.
  - rewrite (kind_buddy _ _ _ _ _ _ _ Hr Hk). by eapply kind_buddy; [|apply Hal].
  - rewrite (kind_mmap _ _ _ _ Hm). by eapply kind_mmap, Hmb.
Qed.

(** The blocks [L] keep their kind and their payload. *)
Definition keeps L v v' : Prop :=
  forall p n, L !! p = Some n ->
    kind v' p = kind v p /\ forall x, in_range p n x -> vbytes v' !! x = vbytes v !! x.

Lemma keeps_refl L v : keeps L v v.
Proof. by intros p n _. Qed.

Lemma keeps_trans L v1 v2 v3 : keeps L v1 v2 -> keeps L v2 v3 -> keeps L v1 v3.
Proof.
  intros H1 H2 p n HL. destruct (H1 p n HL) as [Hk1 Hb1], (H2 p n HL) as [Hk2 Hb2].
  split; [congruence|]. intros x Hx. by rewrite Hb2, Hb1.
Qed.

Lemma keeps_sub L L' v v' : L' ⊆ L -> keeps L v v' -> keeps L' v v'.
Proof. intros Hs H1 p n HL. eapply H1. by eapply lookup_weaken. Qed.

Lemma keeps_none v v' : keeps ∅ v v'.
Proof. intros p n Hp. by rewrite lookup_empty in Hp. Qed.

(** ** The effect of the core operations on the live blocks *)

Lemma ready_frame base v v' B Fr l B' Fr' lo n :
  ready (Some base) v B Fr l -> frame base lo n v v' -> rep base v' B' Fr' 0 ->
  ready (Some base) v' B' Fr' l /\
  (forall a sz, a ∈ l -> mblock (heap_range (Some base)) v' a sz <-> mblock (heap_range (Some base)) v a sz).
Proof.
  intros [Hi _ Hm] Hfr Hr. destruct (mrep_frame _ _ _ _ _ _ Hm Hfr) as [Hm' Hs].
  split; [|done]. split; [|done|done]. rewrite (fr_init _ _ _ _ _ Hfr). done.
Qed.

Lemma extent_not_mapped base v B Fr l a k :
  ready (Some base) v B Fr l -> B !! a = Some k -> a ∉ l.
Proof.
  intros Hr Ha Hl. destruct (mr_block _ _ _ (rd_mmap _ _ _ _ _ Hr) a Hl) as [sz Hm].
  destruct Hm as [_ ? _ _ Hh].
  destruct (owned_block _ _ _ _ _ _ (rd_heap _ _ _ _ _ Hr) Ha) as (base' & [= <-] & _ & _ & (_ & _ & ? & ?) & _ & ?).
  apply (Hh a); unfold heap_range, in_range, region, MIN_BLOCK_SIZE, sizeof_MallocMetadata in *; lia.
Qed.

(** [live] of the blocks other than the one a buddy operation changed. *)
Lemma live_allocated base v B Fr l L t p v' B' Fr' :
  ready (Some base) v B Fr l -> live_is (Some base) v B Fr l L ->
  allocated base t p v B Fr v' B' Fr' ->
  let n := block_size t - sizeof_MallocMetadata in
  ready (Some base) v' B' Fr' l /\ L !! ptr_from_meta p = None /\
  live_is (Some base) v' B' Fr' l (<[ptr_from_meta p := n]> L) /\ keeps L v v'.
Proof.
  intros Hr HL [Hr' Hnew Hold (o & Ho & HF & Hfr)]. cbn zeta.
  destruct (ready_frame _ _ _ _ _ _ _ _ _ _ Hr Hfr Hr') as [Hrd Hmb].
  pose proof (r_sub _ _ _ _ _ (rd_heap _ _ _ _ _ Hr) _ _ HF) as HB.
  pose proof (extent_not_mapped _ _ _ _ _ _ _ Hr HB) as Hpl.
  split; [done|]. split; [|split].
  - destruct (L !! ptr_from_meta p) as [m|] eqn:E; [|done]. apply HL in E as [(k & [_ Hk] & _)|[Hl _]];
      rewrite meta_ptr in *; [congruence|done].
  - intros q m. rewrite lookup_insert. case_decide as Hq.
    + subst q. unfold live. rewrite !meta_ptr. split.
      * intros [= <-]. left. by exists t.
      * intros [(k & [Hk _] & ->)|[? _]]; [|done]. destruct Hnew. congruence.
    + rewrite (HL q m). assert (meta_from_ptr q <> p) by (intros <-; by rewrite ptr_meta in Hq).
      unfold live. split; (intros [(k & Hk & ->)|[Hl Hm]]; [left; exists k; split; [by apply (Hold _ k)|done]|
        right; split; [done|by apply Hmb]]).
  - intros q m Hq. apply HL in Hq. split.
    { eapply kind_same; [exact Hr|exact Hrd|done| |by intros; apply Hmb].
      intros j Hj. apply Hold; [|done]. intros E. rewrite E in Hj. destruct Hj as [_ ?]. congruence. }
    intros x Hx. apply Hfr. eapply (payload_apart _ _ _ _ _ q m p _ _ Hr Hq); [| |done].
    + left. by exists o.
    + intros ->. destruct Hq as [(k & [_ Hk] & _)|[? _]]; [congruence|done].
Qed.

Lemma live_freed base v B Fr l L m k v' B' Fr' :
  ready (Some base) v B Fr l -> live_is (Some base) v B Fr l L -> alloc B Fr m k ->
  freed base m v B Fr v' B' Fr' ->
  ready (Some base) v' B' Fr' l /\ live_is (Some base) v' B' Fr' l (delete (ptr_from_meta m) L) /\
  keeps (delete (ptr_from_meta m) L) v v'.
Proof.
  intros Hr HL [HB _] [Hr' Hal Hfr].
  destruct (ready_frame _ _ _ _ _ _ _ _ _ _ Hr Hfr Hr') as [Hrd Hmb].
  pose proof (extent_not_mapped _ _ _ _ _ _ _ Hr HB) as Hml.
  split; [done|]. split.
  - intros q n. rewrite lookup_delete. unfold live. case_decide as Hq.
    + subst q. rewrite meta_ptr. split; [done|]. intros [(j & Hj%Hal & _)|[? _]]; [naive_solver|done].
    + rewrite (HL q n). assert (meta_from_ptr q <> m) by (intros <-; by rewrite ptr_meta in Hq).
      unfold live. split; (intros [(j & Hj & ->)|[Hl Hm]]; [left; exists j; split; [|done]|
        right; split; [done|by apply Hmb]]); [by apply Hal|by apply Hal in Hj as [? _]].
  - intros q n [Hqm Hq]%lookup_delete_Some. apply HL in Hq. split.
    { eapply kind_same; [exact Hr|exact Hrd|done| |by intros; apply Hmb].
      intros j Hj. apply Hal. split; [done|]. intros <-. by rewrite ptr_meta in Hqm. }
    intros x _. apply Hfr. unfold in_range. lia.
Qed.

Lemma live_grown base v B Fr l L m k c o v' B' Fr' :
  ready (Some base) v B Fr l -> live_is (Some base) v B Fr l L -> alloc B Fr m k ->
  grown base m c o v B Fr v' B' Fr' ->
  let n := block_size o - sizeof_MallocMetadata in
  ready (Some base) v' B' Fr' l /\ delete (ptr_from_meta m) L !! ptr_from_meta c = None /\
  live_is (Some base) v' B' Fr' l (<[ptr_from_meta c := n]> (delete (ptr_from_meta m) L)) /\
  keeps (delete (ptr_from_meta m) L) v v' /\ (forall x, vbytes v' !! x = vbytes v !! x).
Proof.
  intros Hr HL [HB _] [Hr' Hnew Hold Htk Hfr]. cbn zeta.
  destruct (ready_frame _ _ _ _ _ _ _ _ _ _ Hr Hfr Hr') as [Hrd Hmb].
  pose proof (extent_not_mapped _ _ _ _ _ _ _ Hr HB) as Hml.
  assert (Hcl : c ∉ l) by (eapply extent_not_mapped; [exact Hrd|apply Hnew]).
  split; [done|]. split_and!.
  - rewrite lookup_delete. case_decide as Hmc; [done|].
    destruct (L !! ptr_from_meta c) as [z|] eqn:E; [|done]. apply HL in E as [(j & Hj & _)|[Hl _]];
      rewrite meta_ptr in *; [apply Htk in Hj as ->; done|done].
  - intros q z. rewrite lookup_insert. case_decide as Hq.
    + subst q. unfold live. rewrite !meta_ptr. split.
      * intros [= <-]. left. by exists o.
      * intros [(j & [Hj _] & ->)|[? _]]; [|done]. destruct Hnew. congruence.
    + assert (meta_from_ptr q <> c) by (intros <-; by rewrite ptr_meta in Hq).
      rewrite lookup_delete. unfold live. case_decide as Hqm.
      * subst q. rewrite meta_ptr in *. split; [done|].
        intros [(j & Hj & _)|[? _]]; [apply Hold in Hj; naive_solver|done].
      * assert (meta_from_ptr q <> m) by (intros <-; by rewrite ptr_meta in Hqm).
        rewrite (HL q z). unfold live.
        split; (intros [(j & Hj & ->)|[Hl Hm]]; [left; exists j; split; [|done]|
          right; split; [done|by apply Hmb]]); [by apply Hold|by apply Hold in Hj as [? _]].
  - intros q z [Hqm Hq]%lookup_delete_Some. apply HL in Hq. split.
    { eapply kind_same; [exact Hr|exact Hrd|done| |by intros; apply Hmb].
      assert (meta_from_ptr q <> m) by (intros <-; by rewrite ptr_meta in Hqm).
      intros j Hj. apply Hold; [|done]. intros E. rewrite E in Hj. by apply Htk in Hj; congruence. }
    intros x _. apply Hfr. unfold in_range. lia.
  - intros x. apply Hfr. unfold in_range. lia.
Qed.

End heap.
