(* ===== verification/HeapOps.v ===== *)
(** * The allocator operations on the live blocks

    [user_ready v L]: after [buddy_init], [L] maps the user pointers in use to
    their usable sizes.  The operations the two buddy allocators share are
    specified by their effect on [L] and on the payload bytes. *)

From S2P Require Import Prelude Memory OS AllocSpec.
From S2P Require Import Buddy BuddyView BuddyLists BuddyTiling BuddyInv BuddyOps BuddyMmap BuddyGrow Heap.

Section ops.
Context {X OS : Type} {OO : OSOps OS} {OM : OSModel OS} (x0 : X).
Implicit Types (v : view X OS) (B Fr : gmap Z nat) (ob : option Z) (L : gmap Z Z).

Definition user_ready_at ob v L : Prop :=
  exists B Fr l, ready ob v B Fr l /\ live_is ob v B Fr l L.

Definition user_ready v L : Prop := exists ob, user_ready_at ob v L.

(** The static data before the first call. *)
Definition untouched v : Prop :=
  vinit v = false /\ vfl v = replicate (S MAX_ORDER) nullptr /\ vml v = nullptr /\ vbase v = nullptr.

Definition user_inv v L : Prop := (untouched v /\ L = ∅) \/ user_ready v L.

Lemma user_inv_separated v L : user_inv v L -> separated L.
Proof.
  intros [[_ ->]|(ob & B & Fr & l & Hr & HL)]; [split; intros p n *; by rewrite lookup_empty|].
  by eapply live_separated.
Qed.

(** ** [buddy_alloc] *)

(** The usable size of the block a buddy request gets. *)
Definition bucket (n : Z) : Z := block_size (size_to_order n) - sizeof_MallocMetadata.

Lemma bucket_enough n :
  0 <= n < MMAP_THRESHOLD -> Z.min n (MMAP_THRESHOLD - sizeof_MallocMetadata) <= bucket n.
Proof.
  intros Hn. unfold bucket, size_to_order. cbn zeta. set (nn := wrap64 _).
  assert (nn = n + 32) as ->.
  { unfold nn, sizeof_MallocMetadata, MMAP_THRESHOLD in *. rewrite wrap64_small; lia. }
  change MIN_BLOCK_SIZE with (block_size 0).
  destruct (order_loop_spec (n + 32) (S MAX_ORDER) 0) as (_ & _ & Hc); [lia..|].
  change (block_size MAX_ORDER) with 131072 in *. unfold MMAP_THRESHOLD, sizeof_MallocMetadata in *.
  destruct Hc as [Hc| ->]; [lia|]. change (block_size MAX_ORDER) with 131072. lia.
Qed.

Lemma wpv_alloc_block n v L Q :
  user_ready v L -> Q 0 v ->
  (forall m v', 0 < m -> L !! ptr_from_meta m = None -> keeps L v v' ->
     user_ready v' (<[ptr_from_meta m := bucket n]> L) -> Q m v') ->
  wpv (buddy_alloc x0 n) Q v.
Proof.
  intros (ob & B & Fr & l & Hr & HL) H0 HQ. destruct ob as [base|].
  - pose proof (rd_heap _ _ _ _ _ Hr) as Hrep. cbn [owned] in Hrep.
    eapply wpv_buddy_alloc; [done|done|]. cbn zeta. intros m o v' B' Fr' _ _ _ HF Hal _.
    destruct (live_allocated _ _ _ _ _ _ _ _ _ _ _ Hr HL Hal) as (Hr' & Hn & HL' & Hb).
    apply HQ; [|done..|by exists (Some base), B', Fr', l].
    by destruct (rep_block_pos _ _ _ _ _ _ _ Hrep (r_sub _ _ _ _ _ Hrep _ _ HF)).
  - destruct (rd_heap _ _ _ _ _ Hr) as (-> & -> & Hfl). pose proof (size_to_order_le n) as Ht.
    unfold buddy_alloc. rewrite (proj2 (Nat.ltb_ge MAX_ORDER _)) by done.
    apply wpv_iter with (n := (S MAX_ORDER - size_to_order n)%nat) (Inv := fun k ord v' =>
      v' = v /\ (ord <= S MAX_ORDER)%nat /\ k = (S MAX_ORDER - ord)%nat); [|split_and!; (done || lia)|lia].
    intros k ord v' (-> & Hord & ->).
    apply wpv_if; intros E; [apply Nat.leb_le in E|by apply wpv_ret].
    apply wpv_bind. eapply wpv_fl_get; [rewrite Hfl; apply lookup_replicate_2; lia|].
    apply wpv_ret. exists (S MAX_ORDER - S ord)%nat. split; [lia|]. split_and!; (done || lia).
Qed.

(** ** Mappings *)

Lemma live_mmap_frame ob v B Fr l v' lo n :
  ready ob v B Fr l -> mframe (heap_range ob) lo n v v' -> owned ob v' B Fr.
Proof.
  intros Hr Hmf. pose proof (rd_heap _ _ _ _ _ Hr) as Ho. destruct ob as [base|].
  - by eapply rep_mframe.
  - destruct Ho as (-> & -> & Hfl). split_and!; [done..|]. by rewrite (mf_fl _ _ _ _ _ Hmf).
Qed.

Lemma wpv_map_block m sz e o' v L Q :
  user_ready v L -> freshly_mapped (mapped (vos v)) (mapped o') m (region sz) -> 0 <= sz ->
  (page_size | m) -> (page_size | region sz) ->
  (forall v', L !! ptr_from_meta m = None -> keeps L v v' ->
     user_ready v' (<[ptr_from_meta m := sz]> L) -> Q tt v') ->
  wpv (mmap_push m sz e) Q (v_set_os o' v).
Proof.
  intros (ob & B & Fr & l & Hr & HL) Hf Hsz Hp1 Hp2 HQ.
  pose proof Hf as (Hm0 & _ & Hnew & _).
  assert (Hout : forall a n, extent ob v B l a n -> ~ in_range m (region sz) a).
  { intros a n He. assert (mapped (vos v) a).
    - pose proof (extent_range _ _ _ _ _ _ _ Hr He) as Hrg.
      destruct He as [(k & Hk & ->)|(s & Ha & Hm & ->)].
      + apply (rd_mmap _ _ _ _ _ Hr).
        destruct (owned_block _ _ _ _ _ _ (rd_heap _ _ _ _ _ Hr) Hk) as (base & -> & _ & _ & (_ & _ & ? & ?) & _ & ?).
        unfold heap_range, in_range, MIN_BLOCK_SIZE in *. lia.
      + apply Hm. unfold in_range, region, sizeof_MallocMetadata in *. lia.
    - by apply Hnew. }
  eapply wpv_mmap_push; [apply Hr|done..|]. intros v' Hm' Hmb' Hsame Hmf.
  assert (Hnot : forall n, live ob v B Fr l (ptr_from_meta m) n -> False).
  { intros n Hl%live_extent. rewrite meta_ptr in Hl. apply (Hout _ _ Hl).
    unfold in_range, region, sizeof_MallocMetadata. lia. }
  assert (Hrd : ready ob v' B Fr (m :: l)).
  { split; [by rewrite (mf_init _ _ _ _ _ Hmf); apply Hr|by eapply live_mmap_frame|done]. }
  apply HQ.
  - destruct (L !! ptr_from_meta m) as [n|] eqn:E; [|done]. apply HL in E. by apply Hnot in E.
  - intros p n Hp. apply HL in Hp. split.
    { eapply kind_same; [exact Hr|exact Hrd|done|done|]. intros. by apply Hsame. }
    intros x Hx. apply Hmf. intros Hr'. 
    assert (mapped (vos v) x); [|by apply (Hnew x)].
    destruct Hp as [(k & [Hk _] & ->)|[Ha Hmb]].
    + apply (rd_mmap _ _ _ _ _ Hr).
      destruct (owned_block _ _ _ _ _ _ (rd_heap _ _ _ _ _ Hr) Hk) as (base & -> & _ & _ & (_ & _ & ? & ?) & _ & ?).
      unfold heap_range, in_range, meta_from_ptr, sizeof_MallocMetadata in *. lia.
    + apply Hmb. unfold in_range, region, meta_from_ptr, sizeof_MallocMetadata in *. lia.
  - exists ob, B, Fr, (m :: l). split.
    + done.
    + intros p n. rewrite lookup_insert. unfold live. case_decide as Hp.
      * subst p. rewrite meta_ptr. split.
        -- intros [= <-]. right. split; [by left|done].
        -- intros [(k & Hk & ->)|[_ Hmn]]; [|by rewrite (mblock_fun _ _ _ _ _ Hmn Hmb')].
           edestruct Hnot. left. exists k. by rewrite meta_ptr.
      * assert (meta_from_ptr p <> m) by (intros <-; by rewrite ptr_meta in Hp).
        rewrite (HL p n). unfold live. split; (intros [?|[Hpl Hmp]]; [by left|right]).
        -- split; [by right|by apply Hsame].
        -- apply elem_of_cons in Hpl as [?|Hpl]; [done|]. split; [done|by apply Hsame].
Qed.

Lemma wpv_unmap_block p n ob v B Fr l L Q :
  ready ob v B Fr l -> live_is ob v B Fr l L -> L !! p = Some n -> meta_from_ptr p ∈ l ->
  (forall v', keeps (delete p L) v v' -> user_ready_at ob v' (delete p L) -> Q tt v') ->
  wpv (mmap_free (meta_from_ptr p)) Q v.
Proof.
  intros Hr HL HLp Hpl HQ. pose proof (proj1 (HL p n) HLp) as Hlive.
  assert (Hmb : mblock (heap_range ob) v (meta_from_ptr p) n).
  { destruct Hlive as [(k & [Hk _] & _)|[_ ?]]; [|done]. exfalso.
    destruct (owned_block _ _ _ _ _ _ (rd_heap _ _ _ _ _ Hr) Hk) as (base & -> & _).
    by eapply extent_not_mapped. }
  apply list_elem_of_split in Hpl as (l1 & l2 & ->).
  pose proof (mr_nodup _ _ _ (rd_mmap _ _ _ _ _ Hr)) as Hnd.
  revert Hnd. rewrite <- Permutation_middle. intros [Hm12 _]%NoDup_cons.
  eapply wpv_mmap_free; [apply Hr|done|]. intros v' Hm' Hsame Hmf.
  assert (Hrd : ready ob v' B Fr (l1 ++ l2)).
  { split; [by rewrite (mf_init _ _ _ _ _ Hmf); apply Hr|by eapply live_mmap_frame|done]. }
  apply HQ.
  - intros q s [Hqp Hq]%lookup_delete_Some. apply HL in Hq.
    assert (meta_from_ptr p <> meta_from_ptr q) by (unfold meta_from_ptr; lia). split.
    { eapply kind_same; [exact Hr|exact Hrd|done|done|]. intros Hin Hmq. apply Hsame; [set_solver|done]. }
    intros x Hx. apply Hmf. eapply (payload_apart _ _ _ _ _ q s _ _ _ Hr Hq); [| |done].
    + right. exists n. split; [set_solver|done].
    + done.
  - exists B, Fr, (l1 ++ l2). split.
    + done.
    + intros q s. rewrite lookup_delete. unfold live. case_decide as Hq.
      * subst q. split; [done|]. intros [(k & [Hk _] & _)|[? _]]; [|done]. exfalso.
        destruct (owned_block _ _ _ _ _ _ (rd_heap _ _ _ _ _ Hr) Hk) as (base & -> & _).
        eapply extent_not_mapped; [exact Hr|done|set_solver].
      * assert (meta_from_ptr p <> meta_from_ptr q) by (unfold meta_from_ptr; lia).
        rewrite (HL q s). unfold live. split; (intros [?|[Hql Hmq]]; [by left|right]).
        -- assert (meta_from_ptr q ∈ l1 ++ l2) by set_solver. split; [done|by apply Hsame].
        -- split; [set_solver|by apply Hsame].
Qed.

(** ** [sfree] *)

Lemma live_attr ob v B Fr l p n :
  ready ob v B Fr l -> live ob v B Fr l p n ->
  (exists e k, vA v !! meta_from_ptr p = Some (block_size k, false, false, e) /\
     alloc B Fr (meta_from_ptr p) k /\ n = block_size k - sizeof_MallocMetadata) \/
  (exists e, vA v !! meta_from_ptr p = Some (n, false, true, e) /\ meta_from_ptr p ∈ l).
Proof.
  intros Hr [(k & [HB HF] & ->)|[Hl Hm]]; [left|right].
  - destruct (owned_block _ _ _ _ _ _ (rd_heap _ _ _ _ _ Hr) HB) as (base & -> & Hrep & Hp & _).
    destruct (r_attr _ _ _ _ _ Hrep _ _ HB) as (f & e & HA & Hf). exists e, k.
    rewrite Hf in HA by lia. rewrite HF in HA. done.
  - destruct Hm as [[e HA] _ _ _ _]. by exists e.
Qed.

Lemma wpv_sfree_at ob p n v L Q :
  user_ready_at ob v L -> L !! p = Some n ->
  (forall v', keeps (delete p L) v v' -> user_ready_at ob v' (delete p L) -> Q tt v') ->
  wpv (sfree p) Q v.
Proof.
  intros (B & Fr & l & Hr & HL) HLp HQ.
  pose proof (proj1 (HL p n) HLp) as Hlive.
  pose proof (sep_range _ (live_separated _ _ _ _ _ _ Hr HL) _ _ HLp) as (Hp0 & _ & _).
  unfold sfree. unfold nullptr at 1. rewrite (proj2 (Z.eqb_neq p 0)) by lia. cbn zeta. apply wpv_bind.
  destruct (live_attr _ _ _ _ _ _ _ Hr Hlive) as [(e & k & HA & Hal & Hn)|(e & HA & Hl)];
    (eapply wpv_ld_attrs; [exact HA|]); intros h [= _ -> -> _].
  - destruct (owned_block _ _ _ _ _ _ (rd_heap _ _ _ _ _ Hr) (proj1 Hal)) as (base & -> & Hrep & _).
    eapply wpv_buddy_free_and_merge; [done..|]. intros v' B' Fr' Hfd.
    destruct (live_freed _ _ _ _ _ _ _ _ _ _ _ Hr HL Hal Hfd) as (Hr' & HL' & Hb).
    rewrite ptr_meta in HL', Hb. apply HQ; [done|]. by exists B', Fr', l.
  - by eapply wpv_unmap_block.
Qed.

Lemma wpv_sfree p n v L Q :
  user_ready v L -> L !! p = Some n ->
  (forall v', keeps (delete p L) v v' -> user_ready v' (delete p L) -> Q tt v') ->
  wpv (sfree p) Q v.
Proof.
  intros [ob Hu] HLp HQ. eapply wpv_sfree_at; [done..|]. intros v' Hk Hu'.
  apply HQ; [done|by exists ob].
Qed.

(** ** Stores into a payload *)

(** A change to payload bytes of the block [p] only, which may destroy stale
    headers in it. *)
Lemma user_ready_store p n d k v v' L :
  user_ready v L -> L !! p = Some n -> p <= d -> d + k <= p + n ->
  vA v' = clobber d k (vA v) -> vL v' = clobber d k (vL v) -> vfl v' = vfl v -> vml v' = vml v ->
  vbase v' = vbase v -> vinit v' = vinit v -> vos v' = vos v ->
  user_ready v' L /\ (forall q s, L !! q = Some s -> kind v' q = kind v q).
Proof.
  intros (ob & B & Fr & l & Hr & HL) HLp Hd Hk HA HLk Hfl Hml Hb Hi Ho.
  pose proof (proj1 (HL p n) HLp) as Hlive. pose proof (live_extent _ _ _ _ _ _ _ Hlive) as He.
  assert (Hap : forall a m, extent ob v B l a m -> hdr_apart d k a).
  { intros a m Ha. pose proof (extent_range _ _ _ _ _ _ _ Hr Ha).
    pose proof (extent_apart _ _ _ _ _ _ _ _ _ Hr Ha He).
    pose proof (extent_apart _ _ _ _ _ _ _ _ _ Hr He Ha).
    unfold hdr_apart, meta_from_ptr, sizeof_MallocMetadata in *. lia. }
  assert (HB : forall a j, B !! a = Some j -> vA v' !! a = vA v !! a /\ vL v' !! a = vL v !! a).
  { intros a j Ha. rewrite HA, HLk, !clobber_lookup; [done|..]; eapply Hap; left; eauto. }
  assert (Hl : forall a, a ∈ l -> vA v' !! a = vA v !! a /\ vL v' !! a = vL v !! a).
  { intros a Ha. destruct (mr_block _ _ _ (rd_mmap _ _ _ _ _ Hr) a Ha) as [s Hm].
    rewrite HA, HLk, !clobber_lookup; [done|..]; eapply Hap; right; eauto. }
  pose proof (rd_mmap _ _ _ _ _ Hr) as Hm.
  destruct (mrep_sub (heap_range ob) v v' l l) as [Hm' Hsame]; rewrite ?Ho, ?Hml; try done; try apply Hm.
  { eapply dseg_frame; [|apply Hm]. intros a Ha. by apply Hl. }
  { intros a Ha. by apply Hl. }
  { intros a s x _ Hs. apply Hs. }
  split.
  2: { intros q s Hq%HL%live_extent. unfold kind. rewrite HA, clobber_lookup; [done|]. by eapply Hap. }
  exists ob, B, Fr, l. split; [split|].
  - rewrite Hi. apply Hr.
  - pose proof (rd_heap _ _ _ _ _ Hr) as Hh. destruct ob as [base|].
    + by eapply rep_same.
    + destruct Hh as (-> & -> & ?). split_and!; [done..|congruence].
  - done.
  - intros q s. rewrite (HL q s). unfold live.
    split; (intros [?|[Hql Hmq]]; [by left|right; split; [done|by apply Hsame]]).
Qed.

Lemma wpv_memset_payload p n d b k v L Q :
  user_ready v L -> L !! p = Some n -> p <= d -> d + k <= p + n ->
  (forall v', user_ready v' L -> (forall q s, L !! q = Some s -> kind v' q = kind v q) ->
     (forall x, vbytes v' !! x = if decide (d <= x < d + k) then Some b else vbytes v !! x) -> Q tt v') ->
  wpv (memset d b k) Q v.
Proof.
  intros Hu HLp Hd Hk HQ.
  apply wpv_modify with (g := fun v => View (clobber d k (vA v)) (clobber d k (vL v)) (vfl v) (vml v)
    (fill_bytes d b k (vbytes v)) (vbase v) (vinit v) (vos v)).
  { intros s. unfold view_of. cbn. by rewrite !fmap_clobber. }
  apply HQ; [by eapply user_ready_store|intros q r; by eapply user_ready_store|].
  intros x. apply fill_bytes_lookup.
Qed.

Lemma wpv_memmove_payload p n d s k v L Q :
  user_ready v L -> L !! p = Some n -> p <= d -> d + k <= p + n ->
  (forall v', user_ready v' L -> (forall q s, L !! q = Some s -> kind v' q = kind v q) ->
     (forall x, vbytes v' !! x = if decide (d <= x < d + k) then vbytes v !! (s + (x - d)) else vbytes v !! x) ->
     Q tt v') ->
  wpv (memmove d s k) Q v.
Proof.
  intros Hu HLp Hd Hk HQ.
  apply wpv_modify with (g := fun v => View (clobber d k (vA v)) (clobber d k (vL v)) (vfl v) (vml v)
    (copy_bytes d s k (vbytes v) (vbytes v)) (vbase v) (vinit v) (vos v)).
  { intros st. unfold view_of. cbn. by rewrite !fmap_clobber. }
  apply HQ; [by eapply user_ready_store|intros q r; by eapply user_ready_store|].
  intros x. apply copy_bytes_lookup.
Qed.

(** ** [buddy_init] *)

Definition cleared v : Prop :=
  vinit v = true /\ vfl v = replicate (S MAX_ORDER) nullptr /\ vml v = nullptr.

Lemma mrep_nil hp v : vml v = nullptr -> (forall x, hp x -> mapped (vos v) x) -> mrep hp v [].
Proof. intros Hml Hh. split; try done; [constructor|set_solver|set_solver]. Qed.

Lemma no_heap v : cleared v -> ready None v ∅ ∅ [] /\ live_is None v ∅ ∅ [] ∅.
Proof.
  intros (Hi & Hfl & Hml). split; [split; [done..|by apply mrep_nil]|].
  intros p n. rewrite lookup_empty. split; [done|].
  intros [(k & [? _] & _)|[Hl _]]; [done|by apply not_elem_of_nil in Hl].
Qed.

Lemma wpv_install base before v Q :
  cleared v -> vbase v = base -> freshly_mapped before (mapped (vos v)) base TOTAL_HEAP_SIZE ->
  (forall v', ready (Some base) v' (initial_tiles base) (initial_tiles base) [] ->
     live_is (Some base) v' (initial_tiles base) (initial_tiles base) [] ∅ -> Q tt v') ->
  wpv (init_blocks x0) Q v.
Proof.
  intros (Hi & Hfl & Hml) Hb (Hb0 & Hb1 & _ & Hmap) HQ. eapply wpv_init_blocks; [exact Hb0|done..| |].
  - split; [by rewrite Hfl|done|]. intros k h Hk. rewrite Hfl in Hk.
    apply lookup_replicate in Hk as [-> _]. by left.
  - intros v' Hr Hfr. apply HQ.
    + split; [by rewrite (fr_init _ _ _ _ _ Hfr)|done|]. apply mrep_nil.
      * by rewrite (fr_ml _ _ _ _ _ Hfr).
      * rewrite (fr_os _ _ _ _ _ Hfr). intros x Hx. apply Hmap. by right.
    + intros p n. rewrite lookup_empty. split; [done|].
      intros [(k & [? ?] & _)|[Hl _]]; [congruence|by apply not_elem_of_nil in Hl].
Qed.

(** ** System calls *)

Lemma wpv_os_call {A} (f : OS -> A * OS) Q v :
  Q (fst (f (vos v))) (v_set_os (snd (f (vos v))) v) -> wpv (os_call f) Q v.
Proof. intros HQ s <-. unfold wp, os_call. cbn in HQ. by destruct (f (os s)). Qed.

Lemma user_ready_os o' v L :
  (forall x, mapped o' x <-> mapped (vos v) x) -> user_ready v L -> user_ready (v_set_os o' v) L.
Proof.
  intros Ho (ob & B & Fr & l & Hr & HL). exists ob, B, Fr, l.
  destruct (mrep_sub (heap_range ob) v (v_set_os o' v) l l) as [Hm Hs]; try done; try apply Hr.
  { intros a sz x _ Hb Hx. apply Ho. by apply Hb. }
  { intros x Hx. apply Ho. by apply Hr. }
  split; [split; [apply Hr| |done]|].
  - pose proof (rd_heap _ _ _ _ _ Hr) as Hh. destruct ob as [base|]; [by eapply rep_same|done].
  - intros p n. rewrite (HL p n). unfold live.
    split; (intros [?|[Hl Hm']]; [by left|right; split; [done|by apply Hs]]).
Qed.

(** The request of a mapping for a block of [sz] usable bytes. *)
Lemma wpv_map_call huge sz v L Q :
  user_ready v L -> 0 <= sz -> (page_size | region sz) ->
  (forall o', user_ready (v_set_os o' v) L -> Q MAP_FAILED (v_set_os o' v)) ->
  (forall p o', p <> MAP_FAILED -> 0 < p -> (page_size | p) ->
     freshly_mapped (mapped (vos v)) (mapped o') p (region sz) -> Q p (v_set_os o' v)) ->
  wpv (os_call (mmap (region sz) huge)) Q v.
Proof.
  intros Hu Hsz Hpg Hno Hyes. apply wpv_os_call.
  destruct (mmap_spec (region sz) huge (vos v)) as [(o' & -> & Ho)|(p & o' & -> & Hp & Hf)].
  - unfold region, sizeof_MallocMetadata. lia.
  - by apply Hno, user_ready_os.
  - pose proof Hf as (? & ? & _). apply Hyes; try done.
    cbn; unfold MAP_FAILED, region, sizeof_MallocMetadata in *. lia.
Qed.

(** ** Moving a payload *)

Lemma others_apart L q m r s x :
  separated L -> L !! q = Some m -> L !! r = Some s -> r <> q -> in_range r s x -> ~ in_range q m x.
Proof.
  intros HL Hq Hr Hne. pose proof (sep_apart _ HL _ _ _ _ Hq Hr).
  pose proof (sep_apart _ HL _ _ _ _ Hr Hq). unfold in_range. lia.
Qed.

(** [memmove(newp, oldp, k)] into a block just granted. *)
Lemma wpv_move_block v0 L0 p q m k v Q :
  user_ready v (<[q := m]> L0) -> L0 !! q = None -> keeps L0 v0 v -> k <= m ->
  (forall x, in_range p k x -> vbytes v !! x = vbytes v0 !! x) ->
  (forall v', user_ready v' (<[q := m]> L0) -> keeps L0 v0 v' ->
     (forall i, 0 <= i < k -> vbytes v' !! (q + i) = vbytes v0 !! (p + i)) -> Q tt v') ->
  wpv (memmove q p k) Q v.
Proof.
  intros Hu Hq Hb Hk Hp HQ.
  assert (HqL : <[q := m]> L0 !! q = Some m) by apply lookup_insert_eq.
  eapply (wpv_memmove_payload q m); [done..|lia|lia|]. intros v' Hu' Hkd Hby. apply HQ; [done|..].
  - intros r s Hr. assert (r <> q) by congruence. destruct (Hb r s Hr) as [Hbk Hbb]. split.
    { rewrite <- Hbk. apply (Hkd r s). by rewrite lookup_insert_ne. }
    intros x Hx. rewrite Hby. case_decide as Hin; [|by apply Hbb]. exfalso.
    eapply (others_apart (<[q := m]> L0) q m r s x); [by eapply user_inv_separated; right|done| |done|done|].
    + by rewrite lookup_insert_ne.
    + unfold in_range. lia.
  - intros i Hi. rewrite Hby, decide_True by lia. replace (q + i - q) with i by lia.
    apply Hp. unfold in_range. lia.
Qed.

(** ** Reallocation *)

(** The block [p] of [n] bytes has moved to [q], with [m] bytes. *)
Record moved (p n : Z) v L (q m : Z) v' : Prop := {
  mv_fresh : delete p L !! q = None;
  mv_live : user_ready v' (<[q := m]> (delete p L));
  mv_rest : keeps (delete p L) v v';
  mv_data : forall i, 0 <= i < Z.min n m -> vbytes v' !! (q + i) = vbytes v !! (p + i);
}.

Lemma moved_keep p n v L : user_ready v L -> L !! p = Some n -> moved p n v L p n v.
Proof.
  intros Hu Hp. split; [apply lookup_delete_eq| |apply keeps_refl|done].
  by rewrite insert_delete_id.
Qed.

(** Copying to a larger block and releasing the old one. *)
Lemma wpv_copy_free p n q m v0 v L (rest : M (heap X OS) Z) Q :
  user_ready v0 L -> user_ready v (<[q := m]> L) -> L !! p = Some n -> L !! q = None ->
  keeps L v0 v -> n <= m ->
  (forall v2, user_ready v2 (<[q := m]> L) -> kind v2 p = kind v0 p ->
     (forall v3, keeps (delete p (<[q := m]> L)) v2 v3 -> user_ready v3 (delete p (<[q := m]> L)) ->
        Q q v3) -> wpv rest Q v2) ->
  (forall v', moved p n v0 L q m v' -> Q q v') ->
  wpv (memmove q p n ;;* rest) Q v.
Proof.
  intros Hu0 Hu Hp Hq Hk Hnm Hfree HQ. assert (Hpq : p <> q) by congruence.
  apply wpv_bind. eapply (wpv_move_block v0 L p q m n); try done.
  { intros x Hx. by apply (Hk p n Hp). }
  intros v2 Hu2 Hk2 Hd. apply Hfree; [done|by apply (Hk2 p n Hp)|].
  intros v3 Hk3 Hu3. apply HQ. rewrite delete_insert_ne in Hk3, Hu3 by done. split.
  - by rewrite lookup_delete_ne.
  - done.
  - eapply keeps_trans; [eapply keeps_sub; [apply delete_subseteq|exact Hk2]|].
    eapply keeps_sub; [|exact Hk3]. apply insert_subseteq. by rewrite lookup_delete_ne.
  - intros i Hi. rewrite <- Hd by lia. apply (Hk3 q m); [apply lookup_insert_eq|].
    unfold in_range. lia.
Qed.

Lemma live_of_kind v L p n b :
  user_ready v L -> L !! p = Some n -> kind v p = Some b ->
  exists ob B Fr l, ready ob v B Fr l /\ live_is ob v B Fr l L /\
    if b then meta_from_ptr p ∈ l /\ exists e, vA v !! meta_from_ptr p = Some (n, false, true, e)
    else exists k e, alloc B Fr (meta_from_ptr p) k /\
      vA v !! meta_from_ptr p = Some (block_size k, false, false, e).
Proof.
  intros (ob & B & Fr & l & Hr & HL) Hp Hk. exists ob, B, Fr, l. split; [done|]. split; [done|].
  apply HL in Hp. unfold kind in Hk.
  destruct (live_attr _ _ _ _ _ _ _ Hr Hp) as [(e & k & HA & Hal & _)|(e & HA & Hl)];
    rewrite HA in Hk; injection Hk as <-; eauto.
Qed.

(** Mappings are whole pages. *)
Lemma mapping_multiple v L p n :
  user_ready v L -> L !! p = Some n -> kind v p = Some true -> (sizeof_MallocMetadata | region n).
Proof.
  intros Hu Hp Hk. destruct (live_of_kind _ _ _ _ _ Hu Hp Hk) as (ob & B & Fr & l & Hr & HL & Hl & e & HA).
  destruct (mr_block _ _ _ (rd_mmap _ _ _ _ _ Hr) _ Hl) as [sz [[e' HA'] _ [_ Hpg] _ _]].
  assert (sz = n) as -> by congruence. destruct page_size_pow2 as (j & Hj & Hpw).
  etrans; [|exact Hpg]. rewrite Hpw. exists (2 ^ (j - 5)).
  change sizeof_MallocMetadata with (2 ^ 5). rewrite <- Z.pow_add_r by lia. f_equal. lia.
Qed.

(** Releasing a mapping, and clearing the flag of a buddy block before [sfree]. *)
Lemma wpv_free_mapping p n v L Q :
  user_ready v L -> L !! p = Some n -> kind v p = Some true ->
  (forall v', keeps (delete p L) v v' -> user_ready v' (delete p L) -> Q tt v') ->
  wpv (mmap_free (meta_from_ptr p)) Q v.
Proof.
  intros Hu Hp Hk HQ. destruct (live_of_kind _ _ _ _ _ Hu Hp Hk) as (ob & B & Fr & l & Hr & HL & Hl & _).
  eapply wpv_unmap_block; [done..|]. intros v' Hk' Hu'. apply HQ; [done|by exists ob].
Qed.

Lemma wpv_clear_flag p n v L Q :
  user_ready v L -> L !! p = Some n -> Q tt v ->
  wpv (upd (meta_from_ptr p) (with_is_free false)) Q v.
Proof.
  intros Hu Hp HQ. assert (exists a, vA v !! meta_from_ptr p = Some a /\ set_a_free false a = a) as (a & HA & Ha).
  { destruct Hu as (ob & B & Fr & l & Hr & HL). apply HL in Hp.
    destruct (live_attr _ _ _ _ _ _ _ Hr Hp) as [(e & k & HA & _)|(e & HA & _)]; eauto. }
  apply wpv_upd_A with (g := set_a_free false); [by intros []..|eauto|].
  assert (v_upd_A (set_a_free false) (meta_from_ptr p) v = v) as ->; [|done].
  destruct v. unfold v_upd_A. cbn in *. by rewrite (alter_as_insert _ _ _ _ HA), Ha, insert_id.
Qed.

(** Merging in place: the innermost part of [srealloc]'s simulation loop. *)
Lemma wpv_grow_block base p k o c B' Fr' v0 v B Fr l L Q :
  let m := meta_from_ptr p in let n := block_size k - sizeof_MallocMetadata in
  ready (Some base) v0 B Fr l -> live_is (Some base) v0 B Fr l L -> alloc B Fr m k ->
  rtc (mstep base) ((m, k), (B, Fr)) ((c, o), (B', Fr')) -> (k < o <= MAX_ORDER)%nat ->
  rep base v B Fr m -> frame base 0 0 v0 v ->
  (forall v', moved p n v0 L (ptr_from_meta c) (block_size o - sizeof_MallocMetadata) v' ->
     Q (ptr_from_meta c) v') ->
  wpv (let* merged := merge_up o m k in
       upd merged (with_is_free false) ;;*
       when (negb (merged =? m)) (memmove (ptr_from_meta merged) p n) ;;*
       ret (ptr_from_meta merged)) Q v.
Proof.
  cbn zeta. set (m := meta_from_ptr p). set (n := block_size k - _).
  intros Hrd HL Hal Hst Ho Hr Hfr HQ. pose proof (block_size_lt k o ltac:(lia) ltac:(lia)) as Hlt.
  apply wpv_bind. eapply wpv_merge_up; [done|apply Hal|done|lia|].
  intros v1 Hr1 Hc Hg Hfr1. apply wpv_bind.
  apply (wpv_grown base m c o v0 B Fr v1 B' Fr'); [done..|by eapply frame_trans|]. intros v2 Hgr.
  destruct (live_grown _ _ _ _ _ _ _ _ _ _ _ _ _ Hrd HL Hal Hgr) as (Hrd2 & Hq & HL2 & Hk & Hby).
  unfold m in Hq, HL2, Hk. rewrite ptr_meta in *.
  assert (Hu2 : user_ready v2 (<[ptr_from_meta c := block_size o - sizeof_MallocMetadata]> (delete p L))).
  { by exists (Some base), B', Fr', l. }
  apply wpv_bind. apply wpv_when; intros E.
  - eapply wpv_move_block; [exact Hu2|done|exact Hk|lia|by intros x _|].
    intros v3 Hu3 Hk3 Hd. apply wpv_ret, HQ. split; try done. intros i Hi. apply Hd. lia.
  - apply wpv_ret, HQ. apply negb_false_iff, Z.eqb_eq in E. subst c. split; try done.
    unfold m. rewrite ptr_meta. intros i _. apply Hby.
Qed.

End ops.

(** The usable bytes a request is sure to get: a request between the usable
    size of the largest buddy block and the mapping threshold gets that block. *)
Definition grant (n : Z) : Z :=
  if n <? MMAP_THRESHOLD then Z.min n (MMAP_THRESHOLD - sizeof_MallocMetadata) else n.

(** ** Rounding up to a power of two *)

Definition round_up (total align : Z) : Z :=
  Z.land (wrap64 (total + align - 1)) (Z.lnot (align - 1)).

Lemma round_up_spec total j :
  0 <= j <= 62 -> 0 <= total < 2 ^ 62 ->
  total <= round_up total (2 ^ j) < total + 2 ^ j /\ (2 ^ j | round_up total (2 ^ j)).
Proof.
  intros Hj Ht. assert (0 < 2 ^ j) by (apply Z.pow_pos_nonneg; lia).
  assert (2 ^ j <= 2 ^ 62) by (apply Z.pow_le_mono_r; lia).
  unfold round_up. rewrite wrap64_small by lia.
  rewrite <- Z.ldiff_land. replace (2 ^ j - 1) with (Z.ones j) by (rewrite Z.ones_equiv; lia).
  rewrite Z.ldiff_ones_r, Z.shiftr_div_pow2, Z.shiftl_mul_pow2 by lia.
  split; [|apply Z.divide_factor_r].
  pose proof (Z.div_mod (total + 2 ^ j - 1) (2 ^ j)).
  pose proof (Z.mod_pos_bound (total + 2 ^ j - 1) (2 ^ j)). lia.
Qed.
