(* ===== verification/HeapRealloc.v ===== *)
(** * Reallocation and mapping, shared by the two buddy allocators

    The pieces of [srealloc], [mmap_alloc] and [buddy_init] that
    [malloc_3.cpp] and [malloc_4.cpp] have in common, stated for any [smalloc]
    that meets [smalloc_ok]. *)

From S2P Require Import Prelude Memory OS AllocSpec.
From S2P Require Import Buddy BuddyView BuddyLists BuddyTiling BuddyInv BuddyOps BuddyMmap BuddyGrow.
From S2P Require Import Heap HeapOps.

Lemma grant_le_request n : grant n <= n.
Proof. unfold grant. destruct (n <? MMAP_THRESHOLD); lia. Qed.

Lemma grant_short n : grant n < n <-> 131040 < n < 131072.
Proof. unfold grant, MMAP_THRESHOLD, sizeof_MallocMetadata. destruct (Z.ltb_spec n (128 * 1024)); lia. Qed.

Lemma valid_request_pos n : valid_request n = true -> 0 <= n -> 0 < n <= MAX_ALLOC_SIZE.
Proof. unfold valid_request, MAX_ALLOC_SIZE. lia. Qed.

(** The guard [size == 0 || (double)size > MAX_ALLOC_SIZE]. *)
Lemma valid_request_guard n :
  (n =? 0) || (MAX_ALLOC_SIZE <? n) = false -> valid_request n = true.
Proof. unfold valid_request, MAX_ALLOC_SIZE. by intros [-> ->]%orb_false_iff. Qed.

Section realloc.
Context {X OS : Type} {OO : OSOps OS} {OM : OSModel OS} (x0 : X).
Implicit Types (v : view X OS) (B Fr : gmap Z nat) (L : gmap Z Z).

(** ** Obtaining the heap *)

(** [heap_base = sbrk(TOTAL_HEAP_SIZE)] and the loop over the initial blocks. *)
Lemma wpv_take_heap v Q :
  cleared v ->
  (forall v', let base := brk (vos v) in
     ready (Some base) v' (initial_tiles base) (initial_tiles base) [] ->
     live_is (Some base) v' (initial_tiles base) (initial_tiles base) [] ∅ -> Q tt v') ->
  (forall v', cleared v' -> Q tt v') ->
  wpv (let* base := os_call (sbrk TOTAL_HEAP_SIZE) in
       modify (with_heap_base base) ;;*
       if base =? MAP_FAILED then ret tt else init_blocks x0) Q v.
Proof.
  intros Hc HQ HN. assert (HT : 0 < TOTAL_HEAP_SIZE) by done. apply wpv_bind, wpv_os_call.
  destruct (sbrk_spec TOTAL_HEAP_SIZE (vos v) HT) as [E|(o' & E & Hbo & Hfm)];
    rewrite E; cbn [fst snd]; apply wpv_bind;
    (apply wpv_modify with (g := fun v' => View (vA v') (vL v') (vfl v') (vml v') (vbytes v')
      (fst (sbrk TOTAL_HEAP_SIZE (vos v))) (vinit v') (vos v')); [by rewrite E|]).
  - apply wpv_ret. by apply HN.
  - pose proof Hfm as (? & ? & _). apply wpv_if; intros Hmf; [unfold MAP_FAILED in *; lia|].
    eapply wpv_install; [done|by cbn; rewrite E|exact Hfm|]. intros v' Hr HL. by eapply HQ.
Qed.

(** ** Mapping a rounded request *)

Lemma wpv_map_rounded huge n j e fail v L Q :
  user_ready v L -> 0 < n <= MAX_ALLOC_SIZE -> 0 <= j <= 21 -> (page_size | 2 ^ j) ->
  (forall o', user_ready (v_set_os o' v) L -> wpv fail Q (v_set_os o' v)) ->
  (forall m sz v', 0 < m -> n <= sz -> L !! ptr_from_meta m = None -> keeps L v v' ->
     user_ready v' (<[ptr_from_meta m := sz]> L) -> Q m v') ->
  let total := round_up (wrap64 (sizeof_MallocMetadata + n)) (2 ^ j) in
  wpv (let* raw := os_call (mmap total huge) in
       if raw =? MAP_FAILED then fail
       else mmap_push raw (wrap64 (total - sizeof_MallocMetadata)) e ;;* ret raw) Q v.
Proof.
  intros Hu Hn Hj Hpg Hno Hyes. cbn zeta. unfold MAX_ALLOC_SIZE in *.
  change sizeof_MallocMetadata with 32. rewrite (wrap64_small (32 + n)) by lia.
  destruct (round_up_spec (32 + n) j ltac:(lia) ltac:(lia)) as [Hru Hdv].
  assert (2 ^ j <= 2 ^ 21) by (apply Z.pow_le_mono_r; lia).
  set (total := round_up _ _) in *. rewrite wrap64_small by lia.
  assert (Htot : region (total - 32) = total) by (unfold region, sizeof_MallocMetadata; lia).
  assert (Hdiv : (page_size | region (total - 32))) by (rewrite Htot; by etrans).
  rewrite <- Htot at 1. apply wpv_bind. eapply wpv_map_call; [done|lia|done| |].
  - intros o' Hu'. rewrite Z.eqb_refl. by apply Hno.
  - intros p o' Hp Hp0 Hpp Hf. rewrite (proj2 (Z.eqb_neq p _)) by done. apply wpv_bind.
    eapply wpv_map_block; [exact Hu|exact Hf|lia|done|done|].
    intros v' HN Hb Hu'. apply wpv_ret. eapply Hyes; [done| |done..]. lia.
Qed.

(** ** [scalloc] *)

(** What [scalloc] does to the live blocks. *)
Definition scalloc_ok (scalloc : Z -> Z -> M (heap X OS) Z) : Prop :=
  forall num size v L Q, let total := wrap64 (num * size) in
    user_inv v L ->
    (forall v', keeps L v v' -> user_inv v' L -> Q 0 v') ->
    (forall p m v', num <> 0 -> size <> 0 -> total <= MAX_ALLOC_SIZE -> total <= m -> L !! p = None ->
       keeps L v v' -> user_ready v' (<[p := m]> L) ->
       (forall i, 0 <= i < total -> vbytes v' !! (p + i) = Some 0) -> Q p v') ->
    (forall p m s1 v', num <> 0 -> size <> 0 -> total <= MAX_ALLOC_SIZE -> grant total <= m < total -> L !! p = None ->
       keeps L v (view_of s1) -> user_ready (view_of s1) (<[p := m]> L) -> vbytes v' = fill_bytes p 0 total (vbytes (view_of s1)) ->
       Q p v') ->
    wpv (scalloc num size) Q v.

(** Zeroing a block just granted. *)
Lemma wpv_zero_block p m total v0 v L Q :
  user_ready v (<[p := m]> L) -> L !! p = None -> keeps L v0 v -> total <= m ->
  (forall v', keeps L v0 v' -> user_ready v' (<[p := m]> L) ->
     (forall i, 0 <= i < total -> vbytes v' !! (p + i) = Some 0) -> Q tt v') ->
  wpv (memset p 0 total) Q v.
Proof.
  intros Hu HN Hk Hm HQ.
  eapply (wpv_memset_payload p m); [done|apply lookup_insert_eq|lia|lia|].
  intros v2 Hu2 Hkd Hby. apply HQ; [|done|].
  - intros q n Hq. destruct (Hk q n Hq) as [Hk1 Hb1]. assert (q <> p) by congruence.
    split; [rewrite <- Hk1; apply (Hkd q n); by rewrite lookup_insert_ne|].
    intros x Hx. rewrite Hby. case_decide as Hin; [|by apply Hb1]. exfalso.
    eapply (others_apart (<[p := m]> L) p m q n x); [by eapply user_inv_separated; right|
      apply lookup_insert_eq|by rewrite lookup_insert_ne|done|done|unfold in_range; lia].
  - intros i Hi. by rewrite Hby, decide_True by lia.
Qed.

(** Zeroing the block of [m] bytes at [p], within it or past its end. *)
Lemma wpv_zero_or_overrun p m total v0 v L (Q : unit -> view X OS -> Prop) :
  user_ready v (<[p := m]> L) -> L !! p = None -> keeps L v0 v -> grant total <= m ->
  (forall v', total <= m -> keeps L v0 v' -> user_ready v' (<[p := m]> L) ->
     (forall i, 0 <= i < total -> vbytes v' !! (p + i) = Some 0) -> Q tt v') ->
  (forall s1 v', grant total <= m < total -> keeps L v0 (view_of s1) -> user_ready (view_of s1) (<[p := m]> L) ->
     vbytes v' = fill_bytes p 0 total (vbytes (view_of s1)) -> Q tt v') ->
  wpv (memset p 0 total) Q v.
Proof.
  intros Hu HN Hk Hg Hin Hover. destruct (decide (total <= m)) as [Hle|Hlt].
  - eapply wpv_zero_block; [exact Hu|done|exact Hk|done|]. intros v'. by apply Hin.
  - intros s1 <-. apply wp_modify. apply (Hover s1); [lia|done..].
Qed.

(** ** [srealloc] *)

(** What [smalloc] does to the live blocks. *)
Definition smalloc_ok (smalloc : Z -> M (heap X OS) Z) : Prop :=
  forall n v L Q, user_inv v L -> 0 <= n ->
    (forall v', keeps L v v' -> user_inv v' L -> (user_ready v L -> user_ready v' L) -> Q 0 v') ->
    (forall p m v', 0 < p -> valid_request n = true -> grant n <= m -> L !! p = None ->
       keeps L v v' -> user_ready v' (<[p := m]> L) -> Q p v') ->
    wpv (smalloc n) Q v.

Section with_smalloc.
Context (smalloc : Z -> M (heap X OS) Z) (Hsmalloc : smalloc_ok smalloc).

(** Allocating a larger block for the [n] bytes at [p]; [copy] moves them
    there and releases [p]. *)
Lemma wpv_new_block p n size (copy : Z -> M (heap X OS) Z) v L Q :
  user_ready v L -> L !! p = Some n -> 0 <= size -> (valid_request size = true -> n <= grant size) ->
  (forall v', keeps L v v' -> user_ready v' L -> Q 0 v') ->
  (forall q m v1, user_ready v1 (<[q := m]> L) -> L !! q = None -> keeps L v v1 ->
     valid_request size = true -> grant size <= m -> wpv (copy q) Q v1) ->
  wpv (let* newp := smalloc size in if newp =? nullptr then ret nullptr else copy newp) Q v.
Proof.
  intros Hu Hp Hsz Hn Hno Hcopy. apply wpv_bind. apply (Hsmalloc size v L); [by right|done| |].
  - intros v1 Hk Hu1 Hur. apply wpv_ret, Hno; auto.
  - intros q m v1 Hq Hv Hm HN Hk Hu1. unfold nullptr. rewrite (proj2 (Z.eqb_neq q 0)) by lia. eauto.
Qed.

(** The branch for a mapping too small for the request. *)
Lemma wpv_realloc_mapping p n size v L Q :
  user_ready v L -> L !! p = Some n -> kind v p = Some true -> n < size ->
  (forall v', keeps L v v' -> user_ready v' L -> Q 0 v') ->
  (forall q m v', valid_request size = true -> grant size <= m -> moved p n v L q m v' -> Q q v') ->
  wpv (let* newp := smalloc size in
       if newp =? nullptr then ret nullptr
       else
         let* h := ld (meta_from_ptr p) in
         memmove newp p (m_size h) ;;* mmap_free (meta_from_ptr p) ;;* ret newp) Q v.
Proof.
  intros Hu Hp Hkp Hs Hno Hyes.
  pose proof (sep_range _ (user_inv_separated v L (or_intror Hu)) _ _ Hp) as (_ & Hn0 & _).
  assert (Hng : n <= grant size).
  { unfold grant. destruct (Z.ltb_spec size MMAP_THRESHOLD); [|lia].
    pose proof (mapping_multiple _ _ _ _ Hu Hp Hkp) as [w Hw].
    unfold region, MMAP_THRESHOLD, sizeof_MallocMetadata in *. lia. }
  eapply wpv_new_block; [done|done|lia|done|done|]. intros q m v1 Hu1 HN Hk Hv Hm.
  destruct (Hk p n Hp) as [Hkp1 _]. rewrite Hkp in Hkp1.
  assert (Hp1 : <[q := m]> L !! p = Some n) by (rewrite lookup_insert_ne by congruence; done).
  destruct (live_of_kind _ _ _ _ _ Hu1 Hp1 Hkp1) as (ob1 & B1 & Fr1 & l1 & _ & _ & _ & e1 & HA1).
  apply wpv_bind. eapply wpv_ld_attrs; [exact HA1|]. intros h1 [= -> _ _ _].
  eapply wpv_copy_free; [exact Hu|exact Hu1|done..|lia| |].
  - intros v2 Hu2 Hkd HQ3. apply wpv_bind. eapply wpv_free_mapping; [done..|by rewrite Hkd|].
    intros v3 Hk3 Hu3. apply wpv_ret. by apply HQ3.
  - intros v' Hmv. by eapply Hyes.
Qed.

(** The branch for a buddy block that merging cannot make large enough. *)
Lemma wpv_realloc_elsewhere p n size (rest : Z -> M (heap X OS) Z) v L Q :
  user_ready v L -> L !! p = Some n -> n < size -> n <= MMAP_THRESHOLD - sizeof_MallocMetadata ->
  (forall q v2 L2, user_ready v2 L2 -> L2 !! p = Some n ->
     (forall v3, keeps (delete p L2) v2 v3 -> user_ready v3 (delete p L2) -> Q q v3) ->
     wpv (rest q) Q v2) ->
  (forall v', keeps L v v' -> user_ready v' L -> Q 0 v') ->
  (forall q m v', valid_request size = true -> grant size <= m -> moved p n v L q m v' -> Q q v') ->
  wpv (let* newp := smalloc size in
       if newp =? nullptr then ret nullptr
       else memmove newp p n ;;* rest newp) Q v.
Proof.
  intros Hu Hp Hs Hmax Hrel Hno Hyes.
  pose proof (sep_range _ (user_inv_separated v L (or_intror Hu)) _ _ Hp) as (_ & Hn0 & _).
  assert (Hng : n <= grant size).
  { unfold grant. destruct (size <? MMAP_THRESHOLD); lia. }
  eapply wpv_new_block; [done|done|lia|done|done|]. intros q m v1 Hu1 HN Hk Hv Hm.
  assert (Hp1 : <[q := m]> L !! p = Some n) by (rewrite lookup_insert_ne by congruence; done).
  eapply wpv_copy_free; [exact Hu|exact Hu1|done..|lia| |].
  - intros v2 Hu2 _ HQ3. by eapply Hrel.
  - intros v' Hmv. by eapply Hyes.
Qed.

(** The simulation and what follows it. *)
Lemma wpv_realloc_search base p k size (on_fit : nat -> nat -> M (heap X OS) Z) fallback v B Fr l L Q :
  let m := meta_from_ptr p in let n := block_size k - sizeof_MallocMetadata in
  ready (Some base) v B Fr l -> live_is (Some base) v B Fr l L -> alloc B Fr m k ->
  (forall c o B' Fr', rtc (mstep base) ((m, k), (B, Fr)) ((c, o), (B', Fr')) -> (k < o <= MAX_ORDER)%nat ->
     size <= block_size o - sizeof_MallocMetadata ->
     wpv (on_fit k o) (fun q v' => q = ptr_from_meta c /\
       moved p n v L q (block_size o - sizeof_MallocMetadata) v') v) ->
  (~ can_grow base B Fr m k size -> wpv fallback Q v) ->
  (forall c o B' Fr' v', rtc (mstep base) ((m, k), (B, Fr)) ((c, o), (B', Fr')) ->
     size <= block_size o - sizeof_MallocMetadata ->
     moved p n v L (ptr_from_meta c) (block_size o - sizeof_MallocMetadata) v' -> Q (ptr_from_meta c) v') ->
  wpv (let* orig_order := get_order m in
       let* grown := merge_search (on_fit orig_order) size m orig_order in
       match (grown : option Z) with Some q => ret q | None => fallback end) Q v.
Proof.
  cbn zeta. intros Hr HL Hal Hfit Hfb HQ. pose proof (rd_heap _ _ _ _ _ Hr) as Hrep. cbn [owned] in Hrep.
  pose proof (rep_set_pending _ _ _ _ _ Hrep (proj2 Hal)) as Hpend.
  apply wpv_bind. eapply wpv_get_order; [exact Hrep|apply Hal|]. apply wpv_bind.
  eapply (wpv_merge_search base); [exact Hpend|apply Hal|done|].
  intros c o B' Fr' Hst Ho Hsz. eapply wpv_mono; [by eapply Hfit|].
  intros q v' [-> Hmv]. apply wpv_ret. by eapply HQ.
Qed.

End with_smalloc.

End realloc.
