(* ===== verification/HeapContract.v ===== *)
(** * The buddy allocators' interface against the contract

    [malloc_3.cpp] and [malloc_4.cpp] share [sfree] and the state; they differ
    in [smalloc], [scalloc] and [srealloc].  A record of what these three do
    to the live blocks implies the contract [AllocatorSpec]. *)

From S2P Require Import Prelude Memory OS AllocSpec.
From S2P Require Import Buddy BuddyView BuddyInv Heap HeapOps HeapRealloc.

(** The public interface. *)
Record interface (X OS : Type) := Interface {
  if_smalloc : Z -> M (heap X OS) Z;
  if_scalloc : Z -> Z -> M (heap X OS) Z;
  if_srealloc : Z -> Z -> M (heap X OS) Z;
}.
Arguments Interface {X OS} _ _ _.
Arguments if_smalloc {X OS} _.
Arguments if_scalloc {X OS} _.
Arguments if_srealloc {X OS} _.

Section contract.
Context {X OS : Type} {OO : OSOps OS} {OM : OSModel OS}.
Implicit Types (v : view X OS) (L : gmap Z Z).

Record implements (ops : interface X OS) : Prop := {
  im_smalloc : smalloc_ok (if_smalloc ops);
  im_scalloc : scalloc_ok (if_scalloc ops);
  im_srealloc : forall p n size v L Q, user_ready v L -> L !! p = Some n -> 0 <= size ->
    (forall v', keeps L v v' -> user_ready v' L -> Q 0 v') ->
    (forall q m v', valid_request size = true -> grant size <= m -> moved p n v L q m v' -> Q q v') ->
    wpv (if_srealloc ops p size) Q v;
  im_null : forall n s, if_srealloc ops nullptr n s = if_smalloc ops n s;
}.

Definition heap_allocator (ops : interface X OS) : Allocator (heap X OS) := {|
  al_malloc := if_smalloc ops;
  al_calloc := if_scalloc ops;
  al_free := sfree;
  al_realloc := if_srealloc ops;
  al_store := memset;
  al_read := fun s x => bytes (mm s) !! x;
  al_inv := fun s L => user_inv (view_of s) L;
  al_grant := grant;
|}.

Lemma keeps_same_data ops L (s s' : heap X OS) :
  keeps L (view_of s) (view_of s') -> @same_data _ (heap_allocator ops) L s s'.
Proof. intros Hk p n i Hp Hi. apply (Hk p n Hp). unfold in_range. lia. Qed.

Lemma live_ready v L p n : user_inv v L -> L !! p = Some n -> user_ready v L.
Proof. intros [[_ ->]|?] Hp; [by rewrite lookup_empty in Hp|done]. Qed.

Lemma implements_contract ops : implements ops -> @AllocatorSpec _ (heap_allocator ops).
Proof.
  intros Him. split; cbn [al_malloc al_calloc al_free al_realloc al_store al_read al_inv al_grant heap_allocator].
  - intros s L. apply user_inv_separated.
  - apply grant_le_request.
  - intros n s L Hn Hi. apply wpv_to_wp. eapply im_smalloc; [done|done|lia|..].
    + intros v' Hk Hu _ s' <-. split; [by apply keeps_same_data|]. by left.
    + intros p m v' _ Hv Hm HN Hk Hu s' <-. split; [by apply keeps_same_data|]. right.
      split; [done|]. exists m. split; [done|]. split; [done|by right].
  - cbn zeta. intros num size s L _ _ Hi. apply wpv_to_wp. eapply im_scalloc; [done..| | |].
    + intros v' Hk Hu s' <-. left. split; [done|]. split; [by apply keeps_same_data|done].
    + intros p m v' Hnum Hsz Hmax Hm HN Hk Hu Hz s' <-. right. split_and!; [done..|]. exists m. left.
      split; [done|]. split; [by split; [done|right]|]. split; [by apply keeps_same_data|done].
    + intros p m s1 v' Hnum Hsz Hmax Hm HN Hk Hu Hz s' <-. right. split_and!; [done..|]. exists m. right.
      split; [done|]. exists s1. split; [by split; [done|right]|]. split; [by apply keeps_same_data|].
      intros x. change (vbytes (view_of s') !! x = if decide (p <= x < p + wrap64 (num * size)) then Some 0 else vbytes (view_of s1) !! x).
      rewrite Hz. apply fill_bytes_lookup.
  - intros p n s L Hi Hp. apply wpv_to_wp. eapply wpv_sfree; [by eapply live_ready|done|].
    intros v' Hk Hu s' <-. split; [by apply keeps_same_data|by right].
  - done.
  - intros n s _. apply Him.
  - intros p n size s L Hs Hi Hp. apply wpv_to_wp.
    eapply im_srealloc; [done|by eapply live_ready|done|lia|..].
    + intros v' Hk Hu s' <-. left. split; [done|]. split; [by right|by apply keeps_same_data].
    + intros q m v' Hv Hm [] s' <-. right. split; [done|]. exists m. split_and!; [done| | |done].
      * split; [done|by right].
      * by apply keeps_same_data.
  - intros p n d b k s L Hi Hp Hd Hk Hdk. apply wpv_to_wp.
    eapply wpv_memset_payload; [by eapply live_ready|done..|].
    intros v' Hu _ Hb s' <-. split; [by right|exact Hb].
Qed.

End contract.
