(* ===== verification/Malloc3.v ===== *)
(** * [memory-allocator/malloc_3.cpp]: the buddy allocator

    Initialisation, mappings and the public interface, on the core of
    [Buddy]; the correctness of the interface as an instance of
    [AllocatorSpec]. *)

From S2P Require Import Prelude Memory OS AllocSpec.
From S2P Require Import Buddy BuddyView BuddyLists BuddyTiling BuddyInv BuddyOps BuddyMmap BuddyGrow.
From S2P Require Import Heap HeapOps HeapRealloc HeapContract.

Section malloc3.
Context {OS : Type} `{OSOps OS}.

Abbreviation St := (heap unit OS).

Definition buddy_init : M St unit :=
  let* init := gets initialized in
  if (init : bool) then ret tt
  else
    modify (with_initialized true) ;;*
    let* cur := os_call (sbrk 0) in
    let remainder := cur mod TOTAL_HEAP_SIZE in
    let* padded :=
      (if remainder =? 0 then ret true
       else
         let* r := os_call (sbrk (TOTAL_HEAP_SIZE - remainder)) in
         ret (negb (r =? MAP_FAILED))) in
    if negb padded then ret tt
    else
      let* base := os_call (sbrk TOTAL_HEAP_SIZE) in
      modify (with_heap_base base) ;;*
      if base =? MAP_FAILED then ret tt else init_blocks tt.

Definition mmap_alloc (usable_size : Z) : M St Z :=
  let total := wrap64 (sizeof_MallocMetadata + usable_size) in
  let page := page_size in
  let total := Z.land (wrap64 (total + page - 1)) (Z.lnot (page - 1)) in
  let* raw := os_call (mmap total false) in
  if raw =? MAP_FAILED then ret nullptr
  else
    mmap_push raw (wrap64 (total - sizeof_MallocMetadata)) tt ;;*
    ret raw.

(** [m ? ptr_from_meta(m) : nullptr] *)
Definition to_user (m : Z) : Z := if m =? nullptr then nullptr else ptr_from_meta m.

Definition smalloc (size : Z) : M St Z :=
  if (size =? 0) || (MAX_ALLOC_SIZE <? size) then ret nullptr
  else
    buddy_init ;;*
    if MMAP_THRESHOLD <=? size then
      let* m := mmap_alloc size in ret (to_user m)
    else
      let* m := buddy_alloc tt size in ret (to_user m).

Definition scalloc (num size : Z) : M St Z :=
  if (num =? 0) || (size =? 0) then ret nullptr
  else
    let total := wrap64 (num * size) in
    if MAX_ALLOC_SIZE <? total then ret nullptr
    else
      let* ptr := smalloc total in
      if ptr =? nullptr then ret nullptr
      else memset ptr 0 total ;;* ret ptr.

(** The body of the innermost [if] of [srealloc]'s simulation loop. *)
Definition grow (oldp m usable size : Z) (orig_order ord : nat) : M St Z :=
  upd m (with_is_free true) ;;*
  let* merged := merge_up ord m orig_order in
  upd merged (with_is_free false) ;;*
  when (negb (merged =? m))
    (memmove (ptr_from_meta merged) oldp (if usable <? size then usable else size)) ;;*
  ret (ptr_from_meta merged).

Definition srealloc (oldp size : Z) : M St Z :=
  if (size =? 0) || (MAX_ALLOC_SIZE <? size) then ret nullptr
  else if oldp =? nullptr then smalloc size
  else
    let m := meta_from_ptr oldp in
    let* h := ld m in
    if m_is_mmap h then
      if size <=? m_size h then ret oldp
      else
        let* newp := smalloc size in
        if newp =? nullptr then ret nullptr
        else
          let* h := ld m in
          memmove newp oldp (m_size h) ;;*
          mmap_free m ;;*
          ret newp
    else
      let usable := wrap64 (m_size h - sizeof_MallocMetadata) in
      if (size <=? usable) && (wrap64 (sizeof_MallocMetadata + size) <=? m_size h) then ret oldp
      else if size <=? usable then ret oldp
      else
        let* orig_order := get_order m in
        let* grown := merge_search (grow oldp m usable size orig_order) size m orig_order in
        match (grown : option Z) with
        | Some p => ret p
        | None =>
            let* newp := smalloc size in
            if newp =? nullptr then ret nullptr
            else
              memmove newp oldp usable ;;*
              upd m (with_is_free false) ;;*
              sfree oldp ;;*
              ret newp
        end.

End malloc3.

(** ** Effect on the live blocks *)

Section correct.
Context {OS : Type} {OO : OSOps OS} {OM : OSModel OS}.
Implicit Types (v : view unit OS) (L : gmap Z Z).

(** [buddy_init] at the first call: a heap aligned to its size, or none. *)
Lemma wpv_first_init v Q :
  untouched v ->
  (forall base v', (TOTAL_HEAP_SIZE | base) ->
     ready (Some base) v' (initial_tiles base) (initial_tiles base) [] ->
     live_is (Some base) v' (initial_tiles base) (initial_tiles base) [] ∅ -> Q tt v') ->
  (forall v', ready None v' ∅ ∅ [] -> live_is None v' ∅ ∅ [] ∅ -> Q tt v') ->
  wpv buddy_init Q v.
Proof.
  intros (Hi & Hfl & Hml & Hb) HQ HN.
  apply wpv_bind. apply wpv_gets with (g := vinit); [done|]. rewrite Hi.
  apply wpv_bind. apply wpv_modify with (g := fun v => View (vA v) (vL v) (vfl v) (vml v) (vbytes v)
    (vbase v) true (vos v)); [done|].
  set (v1 := View _ _ _ _ _ _ _ _). assert (Hv1 : cleared v1) by done.
  assert (HN' : forall v', cleared v' -> Q tt v') by (intros v' [? ?]%no_heap; by apply HN).
  apply wpv_bind, wpv_os_call. rewrite sbrk_zero. cbn [fst snd].
  pose proof (brk_range (vos v1)) as Hbrk.
  assert (HT : 0 < TOTAL_HEAP_SIZE) by done.
  set (r := brk (vos v1) mod TOTAL_HEAP_SIZE).
  pose proof (Z.mod_pos_bound (brk (vos v1)) TOTAL_HEAP_SIZE HT) as Hrb. fold r in Hrb.
  pose proof (Z.div_mod (brk (vos v1)) TOTAL_HEAP_SIZE ltac:(lia)) as Hdm. fold r in Hdm.
  apply wpv_bind. apply wpv_mono with (P := fun padded v2 => cleared v2 /\
    (padded = true -> (TOTAL_HEAP_SIZE | brk (vos v2)))).
  - apply wpv_if; intros Hr.
    + apply wpv_ret. split; [done|]. intros _. exists (brk (vos v1) / TOTAL_HEAP_SIZE). cbn [vos v_set_os snd]. lia.
    + apply wpv_bind, wpv_os_call.
      destruct (sbrk_spec (TOTAL_HEAP_SIZE - r) (vos v1)) as [E|(o' & E & Hbo & Hfm)]; [lia| |];
        cbn [vos v_set_os]; rewrite E; cbn [fst snd]; apply wpv_ret; (split; [done|]).
      * intros Hf. by rewrite Z.eqb_refl in Hf.
      * intros _. cbn [vos v_set_os]. rewrite Hbo. exists (brk (vos v1) / TOTAL_HEAP_SIZE + 1). lia.
  - intros padded v2 (Hc & Hal). apply wpv_if; intros Hp; [by apply wpv_ret, HN'|].
    apply negb_false_iff in Hp. specialize (Hal Hp).
    eapply wpv_take_heap; [done| |done]. cbn zeta. intros v' Hr HL. by eapply HQ.
Qed.

Lemma wpv_buddy_init v L Q :
  user_inv v L -> (forall v', keeps L v v' -> user_ready v' L -> Q tt v') ->
  wpv buddy_init Q v.
Proof.
  intros [[Hun ->]|Hu] HQ.
  - apply wpv_first_init; [done|..];
      [intros base v' _ Hr HL|intros v' Hr HL]; (apply HQ; [apply keeps_none|]); do 4 eexists; by split.
  - pose proof Hu as (ob & B & Fr & l & Hr & HL). apply wpv_bind.
    apply wpv_gets with (g := vinit); [done|]. rewrite (rd_init _ _ _ _ _ Hr).
    apply wpv_ret, HQ; [apply keeps_refl|done].
Qed.

Lemma wpv_mmap_alloc n v L Q :
  user_ready v L -> 0 < n <= MAX_ALLOC_SIZE ->
  (forall v', keeps L v v' -> user_ready v' L -> Q 0 v') ->
  (forall m sz v', 0 < m -> n <= sz -> L !! ptr_from_meta m = None -> keeps L v v' ->
     user_ready v' (<[ptr_from_meta m := sz]> L) -> Q m v') ->
  wpv (mmap_alloc n) Q v.
Proof.
  intros Hu Hn Hno Hyes. unfold mmap_alloc. cbn zeta. destruct page_size_pow2 as (j & Hj & Hpg).
  fold (round_up (wrap64 (sizeof_MallocMetadata + n)) page_size). rewrite Hpg.
  eapply wpv_map_rounded; [done|done|lia|by rewrite Hpg| |done].
  intros o' Hu'. apply wpv_ret, Hno; [by intros p m|done].
Qed.

Lemma to_user_ptr m : 0 < m -> to_user m = ptr_from_meta m.
Proof. intros. unfold to_user, nullptr. by rewrite (proj2 (Z.eqb_neq m 0)) by lia. Qed.

Lemma smalloc3_ok : smalloc_ok (smalloc : Z -> M (heap unit OS) Z).
Proof.
  intros n v L Q Hu Hn Hno Hyes. unfold smalloc. apply wpv_if; intros Hv.
  { apply wpv_ret, Hno; [apply keeps_refl|done|done]. }
  assert (Hn' : 0 < n <= MAX_ALLOC_SIZE) by (unfold MAX_ALLOC_SIZE in *; lia).
  pose proof (valid_request_guard _ Hv) as Hvr.
  apply wpv_bind. eapply wpv_buddy_init; [done|]. intros v1 Hb1 Hu1.
  apply wpv_if; intros Ht; apply wpv_bind; [eapply wpv_mmap_alloc|eapply wpv_alloc_block]; try done.
  - intros v2 Hb2 Hu2. apply wpv_ret, Hno; [by eapply keeps_trans|by right|done].
  - intros m sz v2 Hm Hsz HN Hb2 Hu2. apply wpv_ret. rewrite to_user_ptr by done.
    apply (Hyes _ sz); try done; [unfold ptr_from_meta, sizeof_MallocMetadata; lia| |by eapply keeps_trans].
    unfold grant. by rewrite (proj2 (Z.ltb_ge n _)) by lia.
  - apply wpv_ret, Hno; [done|by right|done].
  - intros m v2 Hm HN Hb2 Hu2. apply wpv_ret. rewrite to_user_ptr by done.
    apply (Hyes _ (bucket n)); try done; [unfold ptr_from_meta, sizeof_MallocMetadata; lia| |by eapply keeps_trans].
    unfold grant. rewrite (proj2 (Z.ltb_lt n _)) by lia. apply bucket_enough. lia.
Qed.

Lemma scalloc3_ok : scalloc_ok (scalloc : Z -> Z -> M (heap unit OS) Z).
Proof.
  intros num size v L Q. cbn zeta. intros Hu Hno Hyes Hover. pose proof (wrap64_range (num * size)).
  unfold scalloc. cbn zeta. set (total := wrap64 _) in *.
  apply wpv_if; intros Hz; [by apply wpv_ret, Hno; [apply keeps_refl|]|].
  apply wpv_if; intros Hmx; [by apply wpv_ret, Hno; [apply keeps_refl|]|].
  apply wpv_bind. eapply smalloc3_ok; [done|lia| |].
  - intros v1 Hk Hu1 _. by apply wpv_ret, Hno.
  - intros p m v1 Hp Hv Hm HN Hk Hu1. unfold nullptr. rewrite (proj2 (Z.eqb_neq p 0)) by lia.
    apply wpv_bind. eapply wpv_zero_or_overrun; [exact Hu1|done|exact Hk|done| |].
    + intros v2 Hle Hk2 Hu2 Hb2. apply wpv_ret. apply (Hyes _ m); (done || lia).
    + intros s2 v2 Hlt Hk2 Hu2 Hb2. apply wpv_ret. apply (Hover _ m s2); (done || lia).
Qed.

(** Merging in [srealloc]. *)
Lemma wpv_grow p k size base c o B' Fr' v B Fr l L :
  let m := meta_from_ptr p in let n := block_size k - sizeof_MallocMetadata in
  ready (Some base) v B Fr l -> live_is (Some base) v B Fr l L -> alloc B Fr m k -> n < size ->
  rtc (mstep base) ((m, k), (B, Fr)) ((c, o), (B', Fr')) -> (k < o <= MAX_ORDER)%nat ->
  wpv (grow p m n size k o) (fun q v' => q = ptr_from_meta c /\
    moved p n v L q (block_size o - sizeof_MallocMetadata) v') v.
Proof.
  cbn zeta. intros Hr HL Hal Hs Hst Ho. pose proof (rd_heap _ _ _ _ _ Hr) as Hrep. cbn [owned] in Hrep.
  destruct (rep_block_pos _ _ _ _ _ _ _ Hrep (proj1 Hal)) as [_ Hpl].
  destruct (r_attr _ _ _ _ _ Hrep _ _ (proj1 Hal)) as (f & e & HA & _).
  unfold grow. apply wpv_bind, wpv_upd_A with (g := set_a_free true); [by intros []..|eauto|].
  rewrite (proj2 (Z.ltb_lt _ size)) by done.
  eapply (wpv_grow_block base p k o c B' Fr' v); [exact Hr|exact HL|done|done|lia| | |done].
  - apply rep_flag. by apply rep_set_pending, Hal.
  - by eapply frame_flag.
Qed.

Lemma wpv_srealloc p n size v L Q :
  user_ready v L -> L !! p = Some n -> 0 <= size ->
  (forall v', keeps L v v' -> user_ready v' L -> Q 0 v') ->
  (forall q m v', valid_request size = true -> grant size <= m -> moved p n v L q m v' -> Q q v') ->
  wpv (srealloc p size) Q v.
Proof.
  intros Hu Hp Hsz Hno Hyes. pose proof (user_inv_separated v L (or_intror Hu)) as Hsep.
  destruct (sep_range _ Hsep _ _ Hp) as (Hp0 & Hn0 & Hmax).
  unfold srealloc. apply wpv_if; intros Hv; [by apply wpv_ret, Hno; [apply keeps_refl|]|].
  pose proof (valid_request_guard _ Hv) as Hvr. pose proof (grant_le_request size) as Hg.
  assert (Hkeep : size <= n -> Q p v) by (intros; apply (Hyes p n); [done|lia|by apply moved_keep]).
  unfold nullptr at 1. rewrite (proj2 (Z.eqb_neq p 0)) by lia. cbn zeta.
  pose proof Hu as (ob & B & Fr & l & Hr & HL). pose proof (proj1 (HL p n) Hp) as Hlive.
  apply wpv_bind.
  destruct (live_attr _ _ _ _ _ _ _ Hr Hlive) as [(e & k & HA & Hal & Hn)|(e & HA & Hl)];
    (eapply wpv_ld_attrs; [exact HA|]); intros h [= -> _ -> _].
  - destruct (owned_block _ _ _ _ _ _ (rd_heap _ _ _ _ _ Hr) (proj1 Hal)) as (base & -> & _ & _ & Hpl & _).
    assert (Hk : (k <= MAX_ORDER)%nat) by apply Hpl.
    pose proof (block_size_max k Hk). rewrite <- Hn, (wrap64_small n) by lia.
    apply wpv_if; intros E1; [apply wpv_ret, Hkeep; lia|].
    apply wpv_if; intros E2; [apply wpv_ret, Hkeep; lia|].
    subst n. eapply wpv_realloc_search; [exact Hr|exact HL|exact Hal| | |].
    + intros c o B' Fr' Hst Ho Hfit. eapply wpv_grow; [exact Hr|exact HL|done|lia|exact Hst|done].
    + intros _. eapply wpv_realloc_elsewhere with (rest := fun newp =>
        upd (meta_from_ptr p) (with_is_free false) ;;* sfree p ;;* ret newp);
        [apply smalloc3_ok|exact Hu|exact Hp|lia|unfold sizeof_MallocMetadata; lia| |done|done].
      intros q v2 L2 Hu2 Hp2 HQ3. apply wpv_bind. eapply wpv_clear_flag; [done..|].
      apply wpv_bind. eapply wpv_sfree; [done..|]. intros v3 Hk3 Hu3. by apply wpv_ret, HQ3.
    + intros c o B' Fr' v' _ Hfit Hmv. eapply Hyes; [done| |exact Hmv]. lia.
  - apply wpv_if; intros Hs; [apply wpv_ret, Hkeep; lia|].
    eapply wpv_realloc_mapping; [apply smalloc3_ok|done|done|unfold kind; by rewrite HA|lia|done|done].
Qed.

Lemma malloc3_implements : implements (Interface smalloc scalloc srealloc).
Proof.
  split; cbn [if_smalloc if_scalloc if_srealloc].
  - apply smalloc3_ok.
  - apply scalloc3_ok.
  - intros *. apply wpv_srealloc.
  - intros n s. unfold srealloc, smalloc. by destruct (_ || _).
Qed.

End correct.
