(* ===== verification/Malloc3Props.v ===== *)
(** * The properties of [malloc_3.cpp] *)

From stdpp Require Import sorting.
From S2P Require Import Prelude Memory OS AllocSpec.
From S2P Require Import Buddy BuddyView BuddyLists BuddyTiling BuddyInv BuddyOps BuddyMmap BuddyGrow.
From S2P Require Import BuddyStats Heap HeapOps HeapRealloc HeapContract Malloc3.

(** ** Helper lemmas *)

Section helpers.
Context {OS : Type} {OO : OSOps OS} {OM : OSModel OS}.
Implicit Types (v : view unit OS) (B Fr : gmap Z nat) (L : gmap Z Z).

(** The initial blocks in address order. *)
Definition initial_list (base : Z) : list Z := (fun i => base + i * MMAP_THRESHOLD) <$> seqZ 0 INITIAL_BLOCKS.

Lemma sorted_fmap_seqZ (f : Z -> Z) m n :
  (forall i j, i < j -> f i < f j) -> StronglySorted Z.lt (f <$> seqZ m n).
Proof.
  intros Hf. remember (Z.to_nat n) as k eqn:Hk. revert m n Hk.
  induction k as [|k IH]; intros m n Hk; [rewrite seqZ_nil by lia; constructor|].
  rewrite seqZ_cons by lia. cbn. constructor; [apply IH; lia|].
  apply Forall_fmap, Forall_forall. intros i Hi%elem_of_seqZ_iff. cbn. apply Hf. lia.
Qed.

#[local] Instance Zlt_antisymm : AntiSymm (=) Z.lt.
Proof. intros x y. lia. Qed.

Lemma listed_initial base v l :
  rep base v (initial_tiles base) (initial_tiles base) 0 ->
  listed v (initial_tiles base) MAX_ORDER l -> l = initial_list base.
Proof.
  intros Hr Hl. apply (StronglySorted_unique Z.lt).
  - apply Hl.
  - apply sorted_fmap_seqZ. unfold MMAP_THRESHOLD. lia.
  - apply NoDup_Permutation.
    + by eapply listed_nodup.
    + apply NoDup_fmap_2; [intros i j; unfold MMAP_THRESHOLD; lia|apply NoDup_seqZ].
    + intros a. unfold initial_list. rewrite list_elem_of_fmap. split.
      * intros Ha%(ls_free _ _ _ _ Hl). apply initial_tiles_lookup in Ha as (_ & i & Hi & ->).
        exists i. split; [done|]. apply elem_of_seqZ_iff. lia.
      * intros (i & -> & Hi%elem_of_seqZ_iff).
        eapply listed_complete; [apply Hr..|exact Hl|]. apply initial_tiles_lookup.
        split; [done|]. exists i. split; [lia|done].
Qed.

Lemma fresh_untouched (o : OS) : untouched (view_of (fresh_heap (X := unit) o)).
Proof. done. Qed.

End helpers.

Section more_helpers.
Context {OS : Type} {OO : OSOps OS} {OM : OSModel OS}.
Implicit Types (v : view unit OS) (B Fr : gmap Z nat) (L : gmap Z Z).

(** The grown block contains the block it grew from. *)
Lemma mstep_contains base m k BF c o BF' :
  rtc (mstep base) ((m, k), BF) ((c, o), BF') -> c <= m /\ m + block_size k <= c + block_size o.
Proof.
  intros Hst. remember ((m, k), BF) as x eqn:Ex. remember ((c, o), BF') as y eqn:Ey.
  revert m k BF Ex. induction Hst as [?|x x' y Hs Hst IH]; intros m k BF ->.
  - injection Ey as <- <- <-. lia.
  - inversion Hs as [? ? ? ? b lo Hk _ _ Hbd]; subst. specialize (IH eq_refl _ _ _ eq_refl).
    pose proof (block_size_S k ltac:(lia)). pose proof (block_size_min k ltac:(lia)).
    unfold MIN_BLOCK_SIZE in *. destruct Hbd as [_ [[-> _]|[-> ->]]]; lia.
Qed.

(** A freed block lies in a free block of the new tiling. *)
Lemma freed_block_free base m k v B Fr v' B' Fr' :
  rep base v B Fr 0 -> alloc B Fr m k -> freed base m v B Fr v' B' Fr' ->
  exists a j, Fr' !! a = Some j /\ in_range a (block_size j) m.
Proof.
  intros Hr [Hm HF] [Hr' Hal _]. destruct (t_placed _ _ (r_tiles _ _ _ _ _ Hr) m k Hm) as (Hk & Hp).
  pose proof (placed_offset _ _ _ (t_placed _ _ (r_tiles _ _ _ _ _ Hr) m k Hm)).
  destruct (t_cover _ _ (r_tiles _ _ _ _ _ Hr') m) as (c & j & Hc & Hin); [unfold in_range; lia|].
  destruct (Fr' !! c) as [i|] eqn:E.
  - exists c, j. split; [|done]. apply (r_sub _ _ _ _ _ Hr') in E as E'. congruence.
  - exfalso. destruct (proj1 (Hal c j)) as [[HcB _] Hne]; [done|].
    pose proof (t_disj _ _ (r_tiles _ _ _ _ _ Hr) c m j k HcB Hm).
    pose proof (block_size_min k Hk). unfold in_range, MIN_BLOCK_SIZE in *. lia.
Qed.

(** Releasing the blocks of [ps] one after the other. *)
Lemma wpv_free_all ob ps v L Q :
  user_ready_at ob v L -> NoDup ps -> (forall p, p ∈ ps <-> is_Some (L !! p)) ->
  (forall v', user_ready_at ob v' ∅ -> Q tt v') -> wpv (for_each sfree ps) Q v.
Proof.
  revert v L. induction ps as [|p ps IH]; intros v L Hu Hnd Hps HQ; cbn [for_each].
  - apply wpv_ret, HQ. assert (L = ∅) as <-; [|done]. apply map_eq. intros p. rewrite lookup_empty.
    apply eq_None_not_Some. rewrite <- Hps. apply not_elem_of_nil.
  - apply NoDup_cons in Hnd as [Hp Hnd]. destruct (proj1 (Hps p) ltac:(by left)) as [n Hn].
    apply wpv_bind. eapply wpv_sfree_at; [done..|]. intros v' _ Hu'. eapply IH; [exact Hu'|done| |done].
    intros q. rewrite lookup_delete. case_decide as Hpq; [subst; split; [done|by intros []]|].
    rewrite <- Hps. set_solver.
Qed.

Lemma orders_initial base v ls :
  rep base v (initial_tiles base) (initial_tiles base) 0 ->
  all_lists v (initial_tiles base) ls -> concat ls = initial_list base.
Proof.
  intros Hr Hls. assert (Hnil : forall k l, k <> MAX_ORDER -> listed v (initial_tiles base) k l -> l = []).
  { intros k l Hk Hl. destruct l as [|a l]; [done|]. exfalso. apply Hk.
    pose proof (ls_free _ _ _ _ Hl a ltac:(by left)) as Ha. by apply initial_tiles_lookup in Ha as [-> _]. }
  unfold all_lists in Hls. change (S MAX_ORDER) with (MAX_ORDER + 1)%nat in Hls. rewrite seq_app in Hls.
  apply Forall2_app_inv_l in Hls as (ls1 & ls2 & H1 & H2 & ->).
  rewrite concat_app. assert (concat ls1 = []) as ->.
  { assert (Ho : forall k, k ∈ seq 0 MAX_ORDER -> k <> MAX_ORDER) by (intros k Hk%elem_of_seq; lia).
    revert Ho. induction H1 as [|k l os ls1 Hl H1 IH]; intros Ho; [done|]. cbn [concat].
    rewrite (Hnil k l (Ho k ltac:(by left)) Hl), IH; [done|]. intros j Hj. apply Ho. by right. }
  inversion H2 as [|? l ? ls3 Hl H3]; subst. inversion H3; subst. cbn. rewrite app_nil_r.
  by eapply listed_initial.
Qed.

(** The [size] member of the header at [a]. *)
Definition header_size (s : heap unit OS) (a : Z) : Z :=
  match hdrs (mm s) !! a with Some h => m_size h | None => 0 end.

Lemma mblock_header_size hp (s : heap unit OS) a sz : mblock hp (view_of s) a sz -> header_size s a = sz.
Proof.
  intros [[x HA] _ _ _ _]. unfold view_of in HA. cbn [vA] in HA. rewrite lookup_fmap in HA.
  unfold header_size. destruct (hdrs (mm s) !! a) as [h|]; [|done].
  unfold attrs in HA. cbn in HA. congruence.
Qed.

Lemma wpv_mmap_fold step g hp (s : heap unit OS) l acc Q :
  (forall c h, step c h = c + g (m_size h)) -> mrep hp (view_of s) l -> 0 <= acc < 2 ^ 64 ->
  Q (wrap64 (acc + sumZ (g ∘ header_size s <$> l))) (view_of s) ->
  wpv (let* head := gets mmap_list in list_fold step head acc) Q (view_of s).
Proof.
  intros Hstep Hm Hacc HQ. apply wpv_bind, wpv_gets with (g := vml); [done|].
  rewrite (mr_head _ _ _ Hm). eapply wpv_list_fold; [exact Hstep|by eapply mrep_0|apply Hm|apply Hm| |done|done].
  intros a Ha. destruct (mr_block _ _ _ Hm a Ha) as [sz Hb].
  rewrite (mblock_header_size _ _ _ _ Hb). destruct Hb as [[x HA] _ _ _ _]. eauto.
Qed.

(** [buddy_alloc] leaves the other headers and the list of mappings; what the
    search for a block of order [t] depends on is [size_to_order]. *)
Lemma size_to_order_capped n :
  MMAP_THRESHOLD - sizeof_MallocMetadata < n < MMAP_THRESHOLD -> size_to_order n = MAX_ORDER.
Proof.
  intros Hn. unfold size_to_order. cbn zeta. unfold MMAP_THRESHOLD, sizeof_MallocMetadata in *.
  rewrite wrap64_small by lia. change MIN_BLOCK_SIZE with (block_size 0).
  pose proof (order_loop_spec (n + 32) (S MAX_ORDER) 0 ltac:(lia) ltac:(lia) ltac:(lia)) as (Hle & _ & Hc).
  cbn zeta in Hle, Hc. set (o := order_loop _ _ _ _) in *. destruct Hc as [Hc|Hc]; [|done].
  destruct (decide (o = MAX_ORDER)) as [|Hne]; [done|].
  pose proof (block_size_lt o MAX_ORDER ltac:(lia) ltac:(lia)).
  change (block_size MAX_ORDER) with 131072 in *. lia.
Qed.

End more_helpers.

(** ** Properties *)

Section props.
Context {OS : Type} {OO : OSOps OS} {OM : OSModel OS}.
Implicit Types (B Fr : gmap Z nat) (L : gmap Z Z).

Abbreviation malloc3 := (Interface smalloc scalloc srealloc : interface unit OS).

(** C1: [malloc_3.cpp] keeps the allocator contract: [smalloc], [sfree] and
    [srealloc] run without undefined behaviour and terminate; blocks handed out
    are disjoint from the live ones and hold the request; [sfree] and
    [srealloc] keep the others' bytes, and [srealloc] the block's own; the
    state at program start satisfies the invariant.  The exception, a defect:
    a request of 131041 to 131071 bytes, and no other, can get a smaller
    block; [scalloc], which otherwise hands out zeroed blocks with the same
    guarantees, then clears the requested bytes past the end of the block, and
    nothing more is promised. *)
Theorem malloc3_contract :
  @AllocatorSpec _ (heap_allocator malloc3) /\ (forall o, @al_inv _ (heap_allocator malloc3) (fresh_heap o) ∅) /\
  forall n, @al_grant _ (heap_allocator malloc3) n < n <-> 131040 < n < 131072.
Proof. split; [apply implements_contract, malloc3_implements|]. split; [intros o; by left|]. apply grant_short. Qed.

(** The first [buddy_init] either leaves the allocator without a heap
    (every free list empty, [sbrk] having failed), or places a heap aligned to
    its size whose 32 maximal blocks are all free and are, in address order,
    the list of order 10. *)
Theorem buddy_init_aligned (o : OS) :
  wp buddy_init (fun _ s => initialized s = true /\ mmap_list s = nullptr /\
    (free_lists s = replicate 11 nullptr \/
     exists base, heap_base s = base /\ (TOTAL_HEAP_SIZE | base) /\
       rep base (view_of s) (initial_tiles base) (initial_tiles base) 0 /\
       listed (view_of s) (initial_tiles base) MAX_ORDER (initial_list base))) (fresh_heap o).
Proof.
  apply wpv_to_wp, wpv_first_init; [done|..].
  - intros base v' Hal [Hi Hr Hm] _ s' <-. split; [done|]. split; [apply Hm|]. right.
    exists base. split; [apply Hr|]. split; [done|]. split; [done|].
    destruct (listed_exists (view_of s') (initial_tiles base) MAX_ORDER) as [l Hl]; [apply Hr|done|].
    by rewrite <- (listed_initial _ _ _ Hr Hl).
  - intros v' [Hi (_ & _ & Hfl) Hm] _ s' <-. split; [done|]. split; [apply Hm|]. by left.
Qed.

(** C24: [buddy_alloc] takes the first block of the smallest order whose list is
    not empty, starting at the least order whose blocks hold the request with
    its header; the block is cut to that order, keeps its address, lies in the
    heap aligned to its size, and joins the allocated blocks, which are
    otherwise unchanged.  It fails only when all the lists searched are empty,
    and then changes nothing. *)
Theorem buddy_alloc_first_fit n (s : heap unit OS) base B Fr
    (Hn : 0 < n <= MMAP_THRESHOLD - sizeof_MallocMetadata) (Hr : rep base (view_of s) B Fr 0) :
  let t := size_to_order n in
  (n + sizeof_MallocMetadata <= block_size t /\
   forall j, (j < t)%nat -> block_size j < n + sizeof_MallocMetadata) /\
  wp (buddy_alloc tt n) (fun p s' =>
    (p = nullptr /\ view_of s' = view_of s /\
     forall j, (t <= j <= MAX_ORDER)%nat -> free_lists s !! j = Some nullptr) \/
    (exists o B' Fr', (t <= o)%nat /\ (forall j, (t <= j < o)%nat -> free_lists s !! j = Some nullptr) /\
       free_lists s !! o = Some p /\ rep base (view_of s') B' Fr' 0 /\ placed base p t /\
       alloc B' Fr' p t /\ forall a k, a <> p -> alloc B' Fr' a k <-> alloc B Fr a k)) s.
Proof.
  cbn zeta. split.
  - pose proof (order_loop_spec (n + 32) (S MAX_ORDER) 0 ltac:(lia) ltac:(lia) ltac:(lia)) as (_ & Hlt & Hc).
    assert (E : size_to_order n = order_loop (S MAX_ORDER) (n + 32) (block_size 0) 0).
    { unfold size_to_order, MMAP_THRESHOLD, sizeof_MallocMetadata in *. cbn zeta. by rewrite wrap64_small by lia. }
    rewrite <- E in Hlt, Hc. split; [|exact Hlt]. destruct Hc as [Hc| ->]; [done|].
    change (block_size MAX_ORDER) with 131072. unfold MMAP_THRESHOLD, sizeof_MallocMetadata in *. lia.
  - apply wpv_to_wp. eapply wpv_buddy_alloc; [done| |].
    + intros Hnone s' Hs'. left. done.
    + cbn zeta. intros p o v' B' Fr' Ho Hempty Hhead _ [Hr' Hnew Hold _] _ s' <-. right.
      exists o, B', Fr'. split_and!; try done. by apply (t_placed _ _ (r_tiles _ _ _ _ _ Hr')), Hnew.
Qed.

(** C23: Freeing a buddy block removes it from the allocated blocks, leaves it
    inside a free block, and leaves no two free blocks that are buddies. *)
Theorem sfree_coalesces m k (s : heap unit OS) base B Fr
    (Hr : rep base (view_of s) B Fr 0) (Ha : alloc B Fr m k) :
  wp (sfree (ptr_from_meta m)) (fun _ s' => exists B' Fr',
    rep base (view_of s') B' Fr' 0 /\
    (forall a j, alloc B' Fr' a j <-> alloc B Fr a j /\ a <> m) /\
    (exists a j, Fr' !! a = Some j /\ in_range a (block_size j) m) /\
    (forall a j, (j < MAX_ORDER)%nat -> Fr' !! a = Some j -> Fr' !! buddy_of base a j <> Some j) /\
    (forall x, bytes (mm s') !! x = bytes (mm s) !! x)) s.
Proof.
  apply wpv_to_wp. destruct (rep_block_pos _ _ _ _ _ _ _ Hr (proj1 Ha)) as [Hm0 _].
  unfold sfree. rewrite meta_ptr. unfold nullptr, ptr_from_meta, sizeof_MallocMetadata.
  rewrite (proj2 (Z.eqb_neq (m + 32) 0)) by lia. cbn zeta.
  destruct (r_attr _ _ _ _ _ Hr m k (proj1 Ha)) as (f & e & HA & Hf).
  rewrite Hf, (proj2 Ha) in HA by lia.
  apply wpv_bind. eapply wpv_ld_attrs; [exact HA|]. intros h [= _ -> -> _].
  eapply wpv_buddy_free_and_merge; [done..|]. intros v' B' Fr' Hfd s' <-. exists B', Fr'.
  split_and!; [apply Hfd|apply Hfd| |apply Hfd|].
  - by eapply freed_block_free.
  - intros x. apply (fd_frame _ _ _ _ _ _ _ _ Hfd). unfold in_range. lia.
Qed.

(** C25: Once every live block is freed, in whatever order, the heap is back to
    its 32 maximal free blocks, no mapping is left, and the statistics count
    32 free blocks. *)
Theorem freeing_all_restores_heap ps (s : heap unit OS) base L
    (Hu : user_ready_at (Some base) (view_of s) L) (Hnd : NoDup ps)
    (Hps : forall p, p ∈ ps <-> is_Some (L !! p)) :
  wp (for_each sfree ps ;;* let* n := _num_free_blocks in let* b := _num_free_bytes in ret (n, b))
    (fun nb s' => nb = (32, 32 * (MMAP_THRESHOLD - sizeof_MallocMetadata)) /\ mmap_list s' = nullptr /\
       rep base (view_of s') (initial_tiles base) (initial_tiles base) 0) s.
Proof.
  apply wpv_to_wp, wpv_bind. eapply wpv_free_all; [done..|]. intros v (B & Fr & l & Hr & HL).
  pose proof (rd_heap _ _ _ _ _ Hr) as Hrep. cbn [owned] in Hrep.
  destruct (all_free _ _ _ _ Hrep) as [-> ->].
  { intros a k Ha. assert (live (Some base) v B Fr l (ptr_from_meta a) (block_size k - sizeof_MallocMetadata)) as Hlive.
    { left. exists k. by rewrite meta_ptr. }
    apply HL in Hlive. by rewrite lookup_empty in Hlive. }
  assert (Hl : l = []).
  { destruct l as [|a l]; [done|]. exfalso.
    destruct (mr_block _ _ _ (rd_mmap _ _ _ _ _ Hr) a ltac:(by left)) as [sz Hm].
    assert (Hx : (∅ : gmap Z Z) !! ptr_from_meta a = Some sz); [|by rewrite lookup_empty in Hx].
    apply HL. right. rewrite meta_ptr. split; [by left|done]. }
  destruct (all_lists_exist v (initial_tiles base)) as [ls Hls]; [apply Hrep|].
  pose proof (orders_initial _ _ _ Hrep Hls) as Hc.
  apply wpv_bind. eapply wpv_num_free_blocks; [done..|]. apply wpv_bind.
  eapply wpv_num_free_bytes; [done..|]. apply wpv_ret. intros s' <-. rewrite Hc. split; [|split; [|done]].
  - rewrite (sumZ_const (MMAP_THRESHOLD - sizeof_MallocMetadata)); [done|].
    intros x (a & -> & Ha)%list_elem_of_fmap. unfold free_usable.
    apply list_elem_of_fmap in Ha as (i & -> & Hi%elem_of_seqZ_iff).
    by rewrite (proj2 (initial_tiles_lookup base _ MAX_ORDER)) by (split; [done|exists i; split; [lia|done]]).
  - rewrite Hl in Hr. apply (rd_mmap _ _ _ _ _ Hr).
Qed.

(** C26: A block that merging with its free buddies makes large enough is grown
    that way: the result is not null, contains the old block, holds its bytes,
    and the other live blocks are untouched. *)
Theorem srealloc_grows_in_place p k size (s : heap unit OS) base B Fr l L
    (Hr : ready (Some base) (view_of s) B Fr l) (HL : live_is (Some base) (view_of s) B Fr l L)
    (Ha : alloc B Fr (meta_from_ptr p) k) (Hv : valid_request size = true)
    (Hsize : block_size k - sizeof_MallocMetadata < size)
    (Hg : can_grow base B Fr (meta_from_ptr p) k size) :
  let n := block_size k - sizeof_MallocMetadata in
  wp (srealloc p size) (fun q s' => exists m,
    q <> nullptr /\ q <= p /\ p + n <= q + m /\ size <= m /\ moved p n (view_of s) L q m (view_of s')) s.
Proof.
  cbn zeta. apply wpv_to_wp. set (n := block_size k - _).
  pose proof (rd_heap _ _ _ _ _ Hr) as Hrep. cbn [owned] in Hrep.
  assert (HLp : L !! p = Some n) by (apply HL; left; by exists k).
  destruct (rep_block_pos _ _ _ _ _ _ _ Hrep (proj1 Ha)) as [Hm0 Hpl].
  assert (Hk : (k <= MAX_ORDER)%nat) by apply Hpl.
  pose proof (block_size_min k Hk). pose proof (block_size_max k Hk).
  unfold MIN_BLOCK_SIZE, MMAP_THRESHOLD, sizeof_MallocMetadata in *.
  apply valid_request_pos in Hv; [|lia]. unfold srealloc.
  rewrite (proj2 (Z.eqb_neq size 0)), (proj2 (Z.ltb_ge MAX_ALLOC_SIZE size)) by lia.
  cbn [orb]. unfold nullptr at 1.
  rewrite (proj2 (Z.eqb_neq p 0)) by (unfold meta_from_ptr, sizeof_MallocMetadata in *; lia).
  cbn zeta. destruct (r_attr _ _ _ _ _ Hrep _ _ (proj1 Ha)) as (f & e & HA & _).
  apply wpv_bind. eapply wpv_ld_attrs; [exact HA|]. intros h [= -> _ -> _].
  assert (Hw : wrap64 (block_size k - sizeof_MallocMetadata) = n).
  { apply wrap64_small. unfold n, sizeof_MallocMetadata. lia. }
  rewrite Hw, (proj2 (Z.leb_gt size n)) by (unfold n, sizeof_MallocMetadata; lia). cbn [andb].
  pose proof (rep_set_pending _ _ _ _ _ Hrep (proj2 Ha)) as Hpend.
  apply wpv_bind. eapply wpv_get_order; [exact Hrep|apply Ha|]. apply wpv_bind.
  eapply (wpv_merge_search base); [exact Hpend|apply Ha|done|].
  intros c o B' Fr' Hst Ho Hfit.
  eapply wpv_mono; [by eapply wpv_grow|].
  intros q v' [-> Hmv]. apply wpv_ret. intros s' <-. exists (block_size o - sizeof_MallocMetadata).
  destruct (mstep_contains _ _ _ _ _ _ _ Hst) as [Hc1 Hc2].
  pose proof (sep_range _ (user_inv_separated _ _ (or_intror (mv_live _ _ _ _ _ _ _ Hmv))) _ _
    ltac:(apply lookup_insert_eq)) as (Hq0 & _).
  unfold nullptr, n, ptr_from_meta, meta_from_ptr, sizeof_MallocMetadata in *. split_and!; (done || lia).
Qed.

(** C27: The block statistics: [_num_allocated_blocks] counts every block of the
    heap, free or not, and every mapping (the comment above them,
    "only buddy blocks (not mmap)", says otherwise); [_num_allocated_bytes]
    adds their usable bytes; [_num_meta_data_bytes] is one header for each. *)
Theorem block_statistics (s : heap unit OS) base B Fr l
    (Hr : ready (Some base) (view_of s) B Fr l) :
  let blocks := wrap64 (Z.of_nat (size B) + Z.of_nat (length l)) in
  wp (let* n := _num_allocated_blocks in let* b := _num_allocated_bytes in
      let* m := _num_meta_data_bytes in ret (n, b, m))
    (fun r s' => s' = s /\ r = (blocks,
       wrap64 (TOTAL_HEAP_SIZE - sizeof_MallocMetadata * Z.of_nat (size B) + sumZ (header_size s <$> l)),
       wrap64 (blocks * sizeof_MallocMetadata))) s.
Proof.
  cbn zeta. apply wpv_to_wp. pose proof (rd_heap _ _ _ _ _ Hr) as Hrep. cbn [owned] in Hrep.
  pose proof (tiles_size _ _ (r_tiles _ _ _ _ _ Hrep)) as Hsz.
  set (N := wrap64 _). assert (Hblocks : forall Q, Q N (view_of s) -> wpv _num_allocated_blocks Q (view_of s)).
  { intros Q HQ. apply wpv_bind. eapply wpv_count_all_buddy; [done|]. cbn [fst].
    eapply (wpv_mmap_fold _ (fun _ => 1)); [done|apply Hr|lia|].
    rewrite (sumZ_const 1) by (intros x (a & -> & _)%list_elem_of_fmap; done).
    by rewrite length_fmap, Z.mul_1_l. }
  apply wpv_bind, Hblocks, wpv_bind, wpv_bind. eapply wpv_count_all_buddy; [done|]. cbn [snd].
  eapply (wpv_mmap_fold _ (fun n => n)); [done|apply Hr| |].
  { unfold TOTAL_HEAP_SIZE, INITIAL_BLOCKS, MMAP_THRESHOLD, sizeof_MallocMetadata. lia. }
  apply wpv_bind, wpv_bind, Hblocks, wpv_ret, wpv_ret. intros s' Hs.
  split; [by apply view_of_inj|done].
Qed.

(** The statistics of the free lists: [_num_free_blocks] is the number of
    blocks reachable from the list heads and [_num_free_bytes] the sum of their
    usable sizes; each list is an ascending sequence of free blocks of its
    order, and the list of order 10 holds every free block of order 10. *)
Theorem free_list_statistics (s : heap unit OS) base B Fr (Hr : rep base (view_of s) B Fr 0) :
  exists ls, all_lists (view_of s) Fr ls /\
    (forall a, Fr !! a = Some MAX_ORDER -> exists l, ls !! MAX_ORDER = Some l /\ a ∈ l) /\
    wp (let* n := _num_free_blocks in let* b := _num_free_bytes in ret (n, b))
      (fun r s' => s' = s /\ r = (Z.of_nat (length (concat ls)),
         wrap64 (sumZ (free_usable Fr <$> concat ls)))) s.
Proof.
  destruct (all_lists_exist (view_of s) Fr) as [ls Hls]; [apply Hr|]. exists ls. split; [done|]. split.
  - intros a Ha. destruct (Forall2_lookup_l _ _ _ MAX_ORDER MAX_ORDER Hls) as (l & Hl & Hlist).
    { apply lookup_seq. split; [done|unfold MAX_ORDER; lia]. }
    exists l. split; [done|]. eapply listed_complete; [apply Hr..|exact Hlist|done].
  - apply wpv_to_wp, wpv_bind. eapply wpv_num_free_blocks; [done..|]. apply wpv_bind.
    eapply wpv_num_free_bytes; [done..|]. apply wpv_ret. intros s' Hs. split; [by apply view_of_inj|done].
Qed.

(** C40: A defect.  When [buddy_alloc] splits a block down to the order of the
    request, whose list and the lists between were empty, the list heads from
    the order of the request to the one below the order of the block are null
    afterwards too, although in each of these orders the upper half just split
    off is free: [fl_remove] is called on a block that is in no list, and
    clears the head. *)
Theorem splitting_loses_halves n (s : heap unit OS) base B Fr o p
    (Hr : rep base (view_of s) B Fr 0) (Ho : (size_to_order n < o <= MAX_ORDER)%nat)
    (Hempty : forall j, (size_to_order n <= j < o)%nat -> free_lists s !! j = Some nullptr)
    (Hhead : free_lists s !! o = Some p) (Hp : p <> nullptr) :
  wp (buddy_alloc tt n) (fun q s' => q = p /\ exists B' Fr', rep base (view_of s') B' Fr' 0 /\
    forall j, (size_to_order n <= j < o)%nat ->
      free_lists s' !! j = Some nullptr /\ Fr' !! (p + block_size j) = Some j) s.
Proof.
  apply wpv_to_wp. eapply wpv_buddy_alloc; [done| |].
  - intros Hnone s' _. specialize (Hnone o ltac:(lia)). change (vfl (view_of s)) with (free_lists s) in *.
    rewrite Hhead in Hnone. unfold nullptr in Hp. congruence.
  - cbn zeta. intros q o' v' B' Fr' Ho' Hempty' Hhead' HF Hal Hhalves s' <-.
    change (vfl (view_of s)) with (free_lists s) in *.
    assert (o' = o) as ->.
    { destruct (Nat.lt_trichotomy o' o) as [Hlt|[|Hlt]]; [|done|].
      - rewrite (Hempty o' ltac:(lia)) in Hhead'. injection Hhead' as <-.
        pose proof (flinks_pos _ _ _ _ (r_links _ _ _ _ _ Hr) HF). unfold nullptr in *. lia.
      - rewrite (Hempty' o ltac:(lia)) in Hhead. unfold nullptr in Hp. congruence. }
    split; [congruence|]. assert (q = p) as -> by congruence. exists B', Fr'. split; [apply Hal|done].
Qed.

(** A defect.  A request between the usable size of a maximal block and the
    mapping threshold (131041 to 131071 bytes) passes for a buddy request and
    gets a maximal block, of 131040 usable bytes: less than asked for. *)
Theorem smalloc_short_block n (s : heap unit OS) L
    (Hi : user_inv (view_of s) L)
    (Hn : MMAP_THRESHOLD - sizeof_MallocMetadata < n < MMAP_THRESHOLD) :
  wp (smalloc n) (fun p s' => p = nullptr \/
    exists usable, usable < n /\ user_ready (view_of s') (<[p := usable]> L)) s.
Proof.
  apply wpv_to_wp. unfold MMAP_THRESHOLD, sizeof_MallocMetadata in *. unfold smalloc.
  rewrite (proj2 (Z.eqb_neq n 0)), (proj2 (Z.ltb_ge MAX_ALLOC_SIZE n)) by (unfold MAX_ALLOC_SIZE; lia).
  cbn [orb]. apply wpv_bind. eapply wpv_buddy_init; [done|]. intros v1 _ Hu.
  unfold MMAP_THRESHOLD. rewrite (proj2 (Z.leb_gt _ n)) by lia.
  apply wpv_bind. eapply wpv_alloc_block; [done| |].
  - apply wpv_ret. by left.
  - intros m v2 Hm _ _ Hu2. apply wpv_ret. intros s' <-. right. rewrite to_user_ptr by done.
    exists (bucket n). split; [|done]. unfold bucket. rewrite size_to_order_capped.
    + change (block_size MAX_ORDER) with 131072. unfold sizeof_MallocMetadata. lia.
    + unfold MMAP_THRESHOLD, sizeof_MallocMetadata. lia.
Qed.

End props.

(** ** Concrete runs *)

Definition base0 : Z := 4194304.

(** After initialisation, and after a first request of 90 bytes. *)
Definition s1 : heap unit toy := after buddy_init (fresh_heap toy0).
Definition s2 : heap unit toy := after (buddy_alloc tt 90) s1.

Lemma s1_lists : free_lists s1 = replicate 10 0 ++ [base0].
Proof. vm_compute. done. Qed.

Lemma s1_ready :
  ready (Some base0) (view_of s1) (initial_tiles base0) (initial_tiles base0) [] /\
  live_is (Some base0) (view_of s1) (initial_tiles base0) (initial_tiles base0) [] ∅.
Proof.
  destruct (wpv_after buddy_init (fun _ v' =>
    (exists base, ready (Some base) v' (initial_tiles base) (initial_tiles base) [] /\
       live_is (Some base) v' (initial_tiles base) (initial_tiles base) [] ∅) \/
    vfl v' = replicate (S MAX_ORDER) nullptr) (fresh_heap toy0)) as (_ & _ & [(base & Hr & HL)|Hn]).
  - apply wpv_first_init; [done|..].
    + intros base v' _ Hr HL. left. by exists base.
    + intros v' Hr _. right. apply Hr.
  - assert (base = base0) as ->; [|done]. fold s1 in Hr. pose proof (rd_heap _ _ _ _ _ Hr) as Hh.
    rewrite <- (r_base _ _ _ _ _ Hh). vm_compute. done.
  - exfalso. fold s1 in Hn. change (vfl (view_of s1)) with (free_lists s1) in Hn. by rewrite s1_lists in Hn.
Qed.

Lemma s2_ready : exists B Fr,
  ready (Some base0) (view_of s2) B Fr [] /\
  live_is (Some base0) (view_of s2) B Fr [] {[ptr_from_meta base0 := 96]} /\
  alloc B Fr base0 0 /\ Fr !! (base0 + 128) = Some 0%nat.
Proof.
  destruct s1_ready as [Hr HL]. pose proof (rd_heap _ _ _ _ _ Hr) as Hrep. cbn [owned] in Hrep.
  destruct (wpv_after (buddy_alloc tt 90) (fun p v' => p = base0 -> exists B Fr,
    ready (Some base0) v' B Fr [] /\ live_is (Some base0) v' B Fr [] {[ptr_from_meta base0 := 96]} /\
    alloc B Fr base0 0 /\ Fr !! (base0 + 128) = Some 0%nat) s1) as (p & E & HQ).
  - eapply wpv_buddy_alloc; [exact Hrep|done|]. cbn zeta. intros p o v' B' Fr' _ _ _ HF Hal Hh ->.
    change (size_to_order 90) with 0%nat in *.
    destruct (live_allocated _ _ _ _ _ _ _ _ _ _ _ Hr HL Hal) as (Hr' & _ & HL' & _).
    exists B', Fr'. split; [done|]. split; [exact HL'|]. split; [apply Hal|].
    apply initial_tiles_lookup in HF as [-> _]. destruct (Hh 0%nat) as [_ Hh0]; [unfold MAX_ORDER; lia|done].
  - apply HQ. fold s2 in E. assert (E' : match buddy_alloc tt 90 s1 with Ok (p, _) => p = base0 | Err _ => False end).
    { vm_compute. done. } by rewrite E in E'.
Qed.

#[local] Opaque s1 s2.

Lemma malloc3_contract_witness :
  @AllocatorSpec _ (heap_allocator (Interface smalloc scalloc srealloc : interface unit toy)) /\
  match smalloc 100 (fresh_heap toy0) with Ok (p, _) => p = base0 + 32 | Err _ => False end.
Proof. split; [apply malloc3_contract|vm_compute; done]. Defined.

Lemma buddy_alloc_first_fit_witness :
  0 < 90 <= MMAP_THRESHOLD - sizeof_MallocMetadata /\
  (90 + sizeof_MallocMetadata <= block_size (size_to_order 90)) /\
  exists p s', buddy_alloc tt 90 s1 = Ok (p, s').
Proof.
  split; [done|]. destruct s1_ready as [Hr _].
  destruct (buddy_alloc_first_fit 90 s1 base0 _ _ ltac:(done) (rd_heap _ _ _ _ _ Hr)) as [[Hn _] Hw].
  split; [exact Hn|]. apply wp_run in Hw as (p & s' & Hw & _). by exists p, s'.
Defined.

Lemma sfree_coalesces_witness :
  exists s' B' Fr', sfree (ptr_from_meta base0) s2 = Ok (tt, s') /\ rep base0 (view_of s') B' Fr' 0 /\
    forall a j, (j < MAX_ORDER)%nat -> Fr' !! a = Some j -> Fr' !! buddy_of base0 a j <> Some j.
Proof.
  destruct s2_ready as (B & Fr & Hr & _ & Ha & _).
  pose proof (sfree_coalesces base0 0 s2 base0 B Fr (rd_heap _ _ _ _ _ Hr) Ha) as Hw.
  apply wp_run in Hw as ([] & s' & Hw & B' & Fr' & Hrep & _ & _ & Hc & _).
  exists s', B', Fr'. split; [exact Hw|split; [exact Hrep|exact Hc]].
Defined.

Lemma freeing_all_restores_heap_witness :
  exists s', (for_each sfree [ptr_from_meta base0] ;;*
    let* n := _num_free_blocks in let* b := _num_free_bytes in ret (n, b)) s2 = Ok ((32, 4193280), s').
Proof.
  destruct s2_ready as (B & Fr & Hr & HL & _).
  assert (Hu : user_ready_at (Some base0) (view_of s2) {[ptr_from_meta base0 := 96]}) by (exists B, Fr, []; split; assumption).
  assert (Hps : forall p, p ∈ [ptr_from_meta base0] <-> is_Some (({[ptr_from_meta base0 := 96]} : gmap Z Z) !! p)).
  { intros p. rewrite list_elem_of_singleton, lookup_singleton_is_Some. split; congruence. }
  destruct (wp_run _ _ _ (freeing_all_restores_heap _ s2 base0 _ Hu (NoDup_singleton _) Hps))
    as (nb & s' & E & -> & _). exists s'. exact E.
Defined.

Lemma srealloc_grows_in_place_witness :
  exists s' q, srealloc (ptr_from_meta base0) 200 s2 = Ok (q, s') /\ q <> nullptr /\ q <= ptr_from_meta base0.
Proof.
  destruct s2_ready as (B & Fr & Hr & HL & Ha & Hh).
  assert (Hg : can_grow base0 B Fr (meta_from_ptr (ptr_from_meta base0)) 0 200).
  { do 4 eexists. split; [|split].
    - apply rtc_once. apply (MStep base0 base0 0 B Fr (base0 + 128) base0); [unfold MAX_ORDER; lia|apply Ha|done|].
      split; [|left; done]. split_and!; [unfold MAX_ORDER; lia|by exists 0|done|done].
    - lia.
    - done. }
  destruct (wp_run _ _ _ (srealloc_grows_in_place (ptr_from_meta base0) 0 200 s2 base0 B Fr [] _
    Hr HL Ha eq_refl ltac:(done) Hg)) as (q & s' & E & m & Hq & Hle & _).
  exists s', q. split; [exact E|split; [exact Hq|exact Hle]].
Defined.

Lemma block_statistics_witness :
  exists r, (let* n := _num_allocated_blocks in let* b := _num_allocated_bytes in
      let* m := _num_meta_data_bytes in ret (n, b, m)) s1 = Ok (r, s1).
Proof.
  destruct s1_ready as [Hr _].
  destruct (wp_run _ _ _ (block_statistics s1 base0 _ _ [] Hr)) as (r & s' & E & -> & _). exists r. exact E.
Defined.

Lemma free_list_statistics_witness :
  exists r, (let* n := _num_free_blocks in let* b := _num_free_bytes in ret (n, b)) s1 = Ok (r, s1).
Proof.
  destruct s1_ready as [Hr _].
  destruct (free_list_statistics s1 base0 _ _ (rd_heap _ _ _ _ _ Hr)) as (ls & _ & _ & Hw).
  destruct (wp_run _ _ _ Hw) as (r & s' & E & -> & _). exists r. exact E.
Defined.

Lemma splitting_loses_halves_witness :
  exists q s', buddy_alloc tt 90 s1 = Ok (q, s') /\ free_lists s' !! 9%nat = Some nullptr.
Proof.
  destruct s1_ready as [Hr _].
  assert (Hl : forall j, (size_to_order 90 <= j < 10)%nat -> free_lists s1 !! j = Some nullptr).
  { intros j Hj. rewrite s1_lists. rewrite lookup_app_l by (rewrite length_replicate; lia).
    apply lookup_replicate_2. lia. }
  assert (Hh : free_lists s1 !! 10%nat = Some base0) by (rewrite s1_lists; done).
  assert (Ho : (size_to_order 90 < 10 <= MAX_ORDER)%nat).
  { change (size_to_order 90) with 0%nat. unfold MAX_ORDER. lia. }
  destruct (wp_run _ _ _ (splitting_loses_halves 90 s1 base0 _ _ 10 base0 (rd_heap _ _ _ _ _ Hr) Ho Hl Hh ltac:(done)))
    as (q & s' & E & _ & B' & Fr' & _ & Hn).
  exists q, s'. split; [exact E|]. apply (Hn 9%nat). change (size_to_order 90) with 0%nat. lia.
Defined.

Lemma smalloc_short_block_witness :
  exists p s', smalloc 131050 (fresh_heap toy0) = Ok (p, s').
Proof.
  destruct (wp_run _ _ _ (smalloc_short_block 131050 (fresh_heap toy0) ∅ (or_introl (conj (fresh_untouched toy0) eq_refl))
    ltac:(done))) as (p & s' & E & _). exists p, s'. exact E.
Defined.

(** [n] requests of [size] bytes; the last result. *)
Fixpoint requests (n : nat) (size : Z) : M (heap unit toy) Z :=
  match n with
  | O => ret nullptr
  | S O => smalloc size
  | S n' => smalloc size ;;* requests n' size
  end.

(** The consequence of the lost halves on a concrete system: after 32
    requests of 10 bytes the free lists are empty and the next request fails,
    with 352 blocks in the heap of which 32 are in use. *)
Theorem small_requests_exhaust_heap :
  match (requests 32 10 ;;* let* f := _num_free_blocks in let* a := _num_allocated_blocks in
         let* p := smalloc 10 in ret (f, a, p)) (fresh_heap toy0) with
  | Ok (r, _) => r = (0, 352, nullptr)
  | Err _ => False
  end.
Proof. vm_compute. done. Qed.
