(* ===== verification/Malloc4.v ===== *)
(** * [memory-allocator/malloc_4.cpp]: the buddy allocator with huge pages

    The allocator of [malloc_3.cpp] with one more member, [is_huge], in the
    metadata, and large requests mapped with [MAP_HUGETLB].  The functions the
    two files share are the core of [Buddy] at headers with a boolean
    extension, [false] in buddy blocks. *)

From S2P Require Import Prelude Memory OS AllocSpec.
From S2P Require Import Buddy BuddyView BuddyLists BuddyTiling BuddyInv BuddyOps BuddyMmap BuddyGrow.
From S2P Require Import Heap HeapOps HeapRealloc HeapContract.

Definition HUGEPAGE_SMALLOC : Z := 4 * 1024 * 1024.
Definition HUGEPAGE_SCALLOC : Z := 2 * 1024 * 1024.
Definition HUGEPAGE_SIZE : Z := 2 * 1024 * 1024.

(** [struct MallocMetadata]; the extension is [is_huge]. *)
Definition Metadata : Type := MallocMetadata bool.

Definition m_is_huge (h : Metadata) : bool := m_ext h.

Section malloc4.
Context {OS : Type} `{OSOps OS}.

Abbreviation St := (heap bool OS).

Definition fl_insert (order : nat) (m : Z) : M St unit := Buddy.fl_insert order m.
Definition fl_remove (order : nat) (m : Z) : M St unit := Buddy.fl_remove order m.
Definition get_buddy (m : Z) (order : nat) : M St Z := Buddy.get_buddy m order.
Definition get_order (m : Z) : M St nat := Buddy.get_order m.
Definition init_blocks : M St unit := Buddy.init_blocks false.
Definition split_block (m : Z) (order : nat) : M St Z := Buddy.split_block false m order.
Definition buddy_alloc (usable_size : Z) : M St Z := Buddy.buddy_alloc false usable_size.
Definition buddy_free_and_merge (m : Z) : M St unit := Buddy.buddy_free_and_merge m.
Definition mmap_free (m : Z) : M St unit := Buddy.mmap_free m.
Definition sfree (p : Z) : M St unit := Buddy.sfree p.

(** A failing [sbrk] for the padding goes unnoticed. *)
Definition buddy_init : M St unit :=
  let* init := gets initialized in
  if (init : bool) then ret tt
  else
    modify (with_initialized true) ;;*
    let* cur := os_call (sbrk 0) in
    let remainder := cur mod TOTAL_HEAP_SIZE in
    (if remainder =? 0 then ret 0 else os_call (sbrk (TOTAL_HEAP_SIZE - remainder))) ;;*
    let* base := os_call (sbrk TOTAL_HEAP_SIZE) in
    modify (with_heap_base base) ;;*
    if base =? MAP_FAILED then ret tt else init_blocks.

Definition mmap_alloc_internal (usable_size : Z) (hugepage : bool) : M St Z :=
  let total := wrap64 (sizeof_MallocMetadata + usable_size) in
  let align := if hugepage then HUGEPAGE_SIZE else page_size in
  let regular :=
    let total := Z.land (wrap64 (total + align - 1)) (Z.lnot (align - 1)) in
    let* raw := os_call (mmap total false) in
    if raw =? MAP_FAILED then ret nullptr
    else mmap_push raw (wrap64 (total - sizeof_MallocMetadata)) false ;;* ret raw in
  if hugepage then
    let rounded := Z.land (wrap64 (total + HUGEPAGE_SIZE - 1)) (Z.lnot (HUGEPAGE_SIZE - 1)) in
    let* raw := os_call (mmap rounded true) in
    if raw =? MAP_FAILED then regular
    else mmap_push raw (wrap64 (rounded - sizeof_MallocMetadata)) true ;;* ret raw
  else regular.

(** [m ? ptr_from_meta(m) : nullptr] *)
Definition to_user (m : Z) : Z := if m =? nullptr then nullptr else ptr_from_meta m.

Definition smalloc (size : Z) : M St Z :=
  if (size =? 0) || (MAX_ALLOC_SIZE <? size) then ret nullptr
  else
    buddy_init ;;*
    if MMAP_THRESHOLD <=? size then
      let huge := HUGEPAGE_SMALLOC <=? size in
      let* m := mmap_alloc_internal size huge in ret (to_user m)
    else
      let* m := buddy_alloc size in ret (to_user m).

Definition scalloc (num size : Z) : M St Z :=
  if (num =? 0) || (size =? 0) then ret nullptr
  else
    let total := wrap64 (num * size) in
    if MAX_ALLOC_SIZE <? total then ret nullptr
    else
      buddy_init ;;*
      let* m :=
        (if MMAP_THRESHOLD <=? total then
           let huge := HUGEPAGE_SCALLOC <? size in
           mmap_alloc_internal total huge
         else buddy_alloc total) in
      if m =? nullptr then ret nullptr
      else
        let ptr := ptr_from_meta m in
        memset ptr 0 total ;;* ret ptr.

(** The body of the innermost [if] of [srealloc]'s simulation loop. *)
Definition grow (oldp m usable : Z) (orig_order ord : nat) : M St Z :=
  let* merged := merge_up ord m orig_order in
  upd merged (with_is_free false) ;;*
  when (negb (merged =? m)) (memmove (ptr_from_meta merged) oldp usable) ;;*
  ret (ptr_from_meta merged).

Definition srealloc (oldp size : Z) : M St Z :=
  if (size =? 0) || (MAX_ALLOC_SIZE <? size) then ret nullptr
  else if oldp =? nullptr then smalloc size
  else
    let m := meta_from_ptr oldp in
    let* h := ld m in
    if m_is_mmap h then
      if size <=? m_size h then ret oldp
      else
        let* newp := smalloc size in
        if newp =? nullptr then ret nullptr
        else
          let* h := ld m in
          memmove newp oldp (m_size h) ;;*
          mmap_free m ;;*
          ret newp
    else
      let usable := wrap64 (m_size h - sizeof_MallocMetadata) in
      if size <=? usable then ret oldp
      else
        let* orig_order := get_order m in
        let* grown := merge_search (grow oldp m usable orig_order) size m orig_order in
        match (grown : option Z) with
        | Some p => ret p
        | None =>
            let* newp := smalloc size in
            if newp =? nullptr then ret nullptr
            else
              memmove newp oldp usable ;;*
              sfree oldp ;;*
              ret newp
        end.

Definition _num_free_blocks : M St Z := Buddy._num_free_blocks.
Definition _num_free_bytes : M St Z := Buddy._num_free_bytes.
Definition count_all_buddy : M St (Z * Z) := Buddy.count_all_buddy.
Definition _num_allocated_blocks : M St Z := Buddy._num_allocated_blocks.
Definition _num_allocated_bytes : M St Z := Buddy._num_allocated_bytes.
Definition _num_meta_data_bytes : M St Z := Buddy._num_meta_data_bytes.
Definition _size_meta_data : M St Z := Buddy._size_meta_data.

End malloc4.

(** ** Effect on the live blocks *)

Section correct.
Context {OS : Type} {OO : OSOps OS} {OM : OSModel OS}.
Implicit Types (v : view bool OS) (L : gmap Z Z).

(** [buddy_init] at the first call: a heap at the break, or none. *)
Lemma m4_wpv_first_init v Q :
  untouched v ->
  (forall base v', ready (Some base) v' (initial_tiles base) (initial_tiles base) [] ->
     live_is (Some base) v' (initial_tiles base) (initial_tiles base) [] ∅ -> Q tt v') ->
  (forall v', ready None v' ∅ ∅ [] -> live_is None v' ∅ ∅ [] ∅ -> Q tt v') ->
  wpv buddy_init Q v.
Proof.
  intros (Hi & Hfl & Hml & Hb) HQ HN.
  apply wpv_bind. apply wpv_gets with (g := vinit); [done|]. rewrite Hi.
  apply wpv_bind. apply wpv_modify with (g := fun v => View (vA v) (vL v) (vfl v) (vml v) (vbytes v)
    (vbase v) true (vos v)); [done|].
  set (v1 := View _ _ _ _ _ _ _ _). assert (Hv1 : cleared v1) by done.
  assert (HN' : forall v', cleared v' -> Q tt v') by (intros v' [? ?]%no_heap; by apply HN).
  apply wpv_bind, wpv_os_call, wpv_bind. rewrite sbrk_zero. cbn [fst snd].
  apply wpv_mono with (P := fun _ v2 => cleared v2).
  - apply wpv_if; intros _; [by apply wpv_ret|by apply wpv_os_call].
  - intros _ v2 Hc. eapply wpv_take_heap; [done| |done]. cbn zeta. intros v' Hr HL. by eapply HQ.
Qed.

Lemma m4_wpv_buddy_init v L Q :
  user_inv v L -> (forall v', keeps L v v' -> user_ready v' L -> Q tt v') ->
  wpv buddy_init Q v.
Proof.
  intros [[Hun ->]|Hu] HQ.
  - apply m4_wpv_first_init; [done|..];
      [intros base v' Hr HL|intros v' Hr HL]; (apply HQ; [apply keeps_none|]); do 4 eexists; by split.
  - pose proof Hu as (ob & B & Fr & l & Hr & HL). apply wpv_bind.
    apply wpv_gets with (g := vinit); [done|]. rewrite (rd_init _ _ _ _ _ Hr).
    apply wpv_ret, HQ; [apply keeps_refl|done].
Qed.

Lemma m4_wpv_mmap_alloc n huge v L Q :
  user_ready v L -> 0 < n <= MAX_ALLOC_SIZE ->
  (forall v', keeps L v v' -> user_ready v' L -> Q 0 v') ->
  (forall m sz v', 0 < m -> n <= sz -> L !! ptr_from_meta m = None -> keeps L v v' ->
     user_ready v' (<[ptr_from_meta m := sz]> L) -> Q m v') ->
  wpv (mmap_alloc_internal n huge) Q v.
Proof.
  intros Hu Hn Hno Hyes. unfold mmap_alloc_internal. cbn zeta.
  destruct page_size_pow2 as (j & Hj & Hpg).
  assert (H21 : (page_size | 2 ^ 21)).
  { rewrite Hpg. exists (2 ^ (21 - j)). rewrite <- Z.pow_add_r by lia. f_equal. lia. }
  set (align := if huge then HUGEPAGE_SIZE else page_size).
  assert (exists i, 0 <= i <= 21 /\ align = 2 ^ i /\ (page_size | 2 ^ i)) as (i & Hi & Hal & Hd).
  { unfold align. destruct huge; [by exists 21|exists j]. split; [lia|]. by rewrite Hpg. }
  fold (round_up (wrap64 (sizeof_MallocMetadata + n)) align).
  fold (round_up (wrap64 (sizeof_MallocMetadata + n)) HUGEPAGE_SIZE).
  change HUGEPAGE_SIZE with (2 ^ 21). rewrite Hal.
  assert (Hreg : forall v1, user_ready v1 L -> keeps L v v1 ->
    wpv (let* raw := os_call (mmap (round_up (wrap64 (sizeof_MallocMetadata + n)) (2 ^ i)) false) in
         if raw =? MAP_FAILED then ret nullptr
         else mmap_push raw (wrap64 (round_up (wrap64 (sizeof_MallocMetadata + n)) (2 ^ i) -
                sizeof_MallocMetadata)) false ;;* ret raw) Q v1).
  { intros v1 Hu1 Hk1. eapply wpv_map_rounded; [done|done|lia|done| |].
    - intros o' Hu'. apply wpv_ret, Hno; [|done]. eapply keeps_trans; [exact Hk1|]. by intros p m.
    - intros m sz v' Hm Hsz HN Hk Hu'. eapply Hyes; [done..| |done]. by eapply keeps_trans. }
  apply wpv_if; intros _; [|apply Hreg; [done|apply keeps_refl]].
  eapply wpv_map_rounded; [done|done|lia|done| |done].
  intros o' Hu'. apply Hreg; [done|]. by intros p m.
Qed.

Lemma m4_to_user_ptr m : 0 < m -> to_user m = ptr_from_meta m.
Proof. intros. unfold to_user, nullptr. by rewrite (proj2 (Z.eqb_neq m 0)) by lia. Qed.

(** The block for a request: a mapping from the threshold on, a buddy block
    below it. *)
Lemma wpv_obtain n huge v L Q :
  user_ready v L -> 0 < n <= MAX_ALLOC_SIZE ->
  (forall v', keeps L v v' -> user_ready v' L -> Q 0 v') ->
  (forall m sz v', 0 < m -> grant n <= sz -> L !! ptr_from_meta m = None -> keeps L v v' ->
     user_ready v' (<[ptr_from_meta m := sz]> L) -> Q m v') ->
  wpv (if MMAP_THRESHOLD <=? n then mmap_alloc_internal n huge else buddy_alloc n) Q v.
Proof.
  intros Hu Hn Hno Hyes. apply wpv_if; intros Ht.
  - eapply m4_wpv_mmap_alloc; [done..|]. intros m sz v' Hm Hsz. apply Hyes; [done|].
    pose proof (grant_le_request n). lia.
  - eapply wpv_alloc_block; [done| |].
    + apply Hno; [apply keeps_refl|done].
    + intros m v' Hm HN Hk Hu'. eapply Hyes; [done| |done..].
      unfold grant. rewrite (proj2 (Z.ltb_lt n _)) by lia. apply bucket_enough. lia.
Qed.

Lemma smalloc4_ok : smalloc_ok (smalloc : Z -> M (heap bool OS) Z).
Proof.
  intros n v L Q Hu Hn Hno Hyes. unfold smalloc. apply wpv_if; intros Hv.
  { apply wpv_ret, Hno; [apply keeps_refl|done|done]. }
  pose proof (valid_request_guard _ Hv) as Hvr. pose proof (valid_request_pos _ Hvr Hn) as Hn'.
  apply wpv_bind. eapply m4_wpv_buddy_init; [done|]. intros v1 Hb1 Hu1. cbn zeta.
  assert (Hob : wpv (if MMAP_THRESHOLD <=? n then mmap_alloc_internal n (HUGEPAGE_SMALLOC <=? n)
      else buddy_alloc n) (fun m v' => wpv (ret (to_user m)) Q v') v1).
  { eapply wpv_obtain; [done|done| |].
    - intros v2 Hk2 Hu2. apply wpv_ret, Hno; [by eapply keeps_trans|by right|done].
    - intros m sz v2 Hm Hsz HN Hk2 Hu2. apply wpv_ret. rewrite m4_to_user_ptr by done.
      apply (Hyes _ sz); try done; [unfold ptr_from_meta, sizeof_MallocMetadata; lia|by eapply keeps_trans]. }
  by destruct (MMAP_THRESHOLD <=? n); apply wpv_bind.
Qed.

Lemma scalloc4_ok : scalloc_ok (scalloc : Z -> Z -> M (heap bool OS) Z).
Proof.
  intros num size v L Q. cbn zeta. intros Hu Hno Hyes Hover. pose proof (wrap64_range (num * size)).
  unfold scalloc. cbn zeta. set (total := wrap64 _) in *.
  apply wpv_if; intros Hz; [by apply wpv_ret, Hno; [apply keeps_refl|]|].
  apply wpv_if; intros Hmx; [by apply wpv_ret, Hno; [apply keeps_refl|]|].
  apply wpv_bind. eapply m4_wpv_buddy_init; [done|]. intros v1 Hk1 Hu1. apply wpv_bind.
  assert (Hend : forall m sz v2, 0 < m -> grant total <= sz -> L !! ptr_from_meta m = None -> keeps L v1 v2 ->
    user_ready v2 (<[ptr_from_meta m := sz]> L) ->
    wpv (if m =? nullptr then ret nullptr
         else memset (ptr_from_meta m) 0 total ;;* ret (ptr_from_meta m)) Q v2).
  { intros m sz v2 Hm Hsz HN Hk2 Hu2. unfold nullptr. rewrite (proj2 (Z.eqb_neq m 0)) by lia.
    apply wpv_bind. eapply (wpv_zero_or_overrun _ _ _ v); [exact Hu2|done|by eapply keeps_trans|done| |].
    - intros v3 Hle Hk3 Hu3 Hb3. apply wpv_ret. apply (Hyes _ sz); (done || lia).
    - intros s3 v3 Hlt Hk3 Hu3 Hb3. apply wpv_ret. apply (Hover _ sz s3); (done || lia). }
  destruct (decide (total = 0)) as [Ht|Ht].
  - rewrite (proj2 (Z.leb_gt MMAP_THRESHOLD total)) by (unfold MMAP_THRESHOLD; lia).
    eapply wpv_alloc_block; [done| |].
    + apply wpv_ret, Hno; [done|by right].
    + intros m v2 Hm HN Hk2 Hu2. eapply Hend; [done| |done..].
      rewrite Ht. vm_compute. done.
  - eapply wpv_obtain; [done|lia| |].
    + intros v2 Hk2 Hu2. apply wpv_ret, Hno; [by eapply keeps_trans|by right].
    + intros m sz v2 Hm Hsz. by apply Hend.
Qed.

(** Merging in [srealloc]. *)
Lemma m4_wpv_grow p k base c o B' Fr' v B Fr l L :
  let m := meta_from_ptr p in let n := block_size k - sizeof_MallocMetadata in
  ready (Some base) v B Fr l -> live_is (Some base) v B Fr l L -> alloc B Fr m k ->
  rtc (mstep base) ((m, k), (B, Fr)) ((c, o), (B', Fr')) -> (k < o <= MAX_ORDER)%nat ->
  wpv (grow p m n k o) (fun q v' => q = ptr_from_meta c /\
    moved p n v L q (block_size o - sizeof_MallocMetadata) v') v.
Proof.
  cbn zeta. intros Hr HL Hal Hst Ho. pose proof (rd_heap _ _ _ _ _ Hr) as Hrep. cbn [owned] in Hrep.
  eapply (wpv_grow_block base p k o c B' Fr' v); [exact Hr|exact HL|done|done|lia| | |done].
  - by apply rep_set_pending, Hal.
  - apply frame_refl.
Qed.

Lemma m4_wpv_srealloc p n size v L Q :
  user_ready v L -> L !! p = Some n -> 0 <= size ->
  (forall v', keeps L v v' -> user_ready v' L -> Q 0 v') ->
  (forall q m v', valid_request size = true -> grant size <= m -> moved p n v L q m v' -> Q q v') ->
  wpv (srealloc p size) Q v.
Proof.
  intros Hu Hp Hsz Hno Hyes. pose proof (user_inv_separated v L (or_intror Hu)) as Hsep.
  destruct (sep_range _ Hsep _ _ Hp) as (Hp0 & Hn0 & Hmax).
  unfold srealloc, get_order, mmap_free, sfree.
  apply wpv_if; intros Hv; [by apply wpv_ret, Hno; [apply keeps_refl|]|].
  pose proof (valid_request_guard _ Hv) as Hvr. pose proof (grant_le_request size) as Hg.
  assert (Hkeep : size <= n -> Q p v) by (intros; apply (Hyes p n); [done|lia|by apply moved_keep]).
  unfold nullptr at 1. rewrite (proj2 (Z.eqb_neq p 0)) by lia. cbn zeta.
  pose proof Hu as (ob & B & Fr & l & Hr & HL). pose proof (proj1 (HL p n) Hp) as Hlive.
  apply wpv_bind.
  destruct (live_attr _ _ _ _ _ _ _ Hr Hlive) as [(e & k & HA & Hal & Hn)|(e & HA & Hl)];
    (eapply wpv_ld_attrs; [exact HA|]); intros h [= -> _ -> _].
  - destruct (owned_block _ _ _ _ _ _ (rd_heap _ _ _ _ _ Hr) (proj1 Hal)) as (base & -> & _ & _ & Hpl & _).
    assert (Hk : (k <= MAX_ORDER)%nat) by apply Hpl.
    pose proof (block_size_max k Hk). rewrite <- Hn, (wrap64_small n) by lia.
    apply wpv_if; intros E1; [apply wpv_ret, Hkeep; lia|].
    subst n. eapply wpv_realloc_search.
    + exact Hr.
    + exact HL.
    + exact Hal.
    + intros c o B' Fr' Hst Ho Hfit. by eapply m4_wpv_grow.
    + intros _. eapply wpv_realloc_elsewhere with (rest := fun newp => Buddy.sfree p ;;* ret newp);
        [apply smalloc4_ok|exact Hu|exact Hp|lia|unfold sizeof_MallocMetadata; lia| |done|done].
      intros q v2 L2 Hu2 Hp2 HQ3.
      apply wpv_bind. eapply wpv_sfree; [done..|]. intros v3 Hk3 Hu3. by apply wpv_ret, HQ3.
    + intros c o B' Fr' v' _ Hfit Hmv. eapply Hyes; [done| |exact Hmv]. lia.
  - apply wpv_if; intros Hs; [apply wpv_ret, Hkeep; lia|].
    eapply wpv_realloc_mapping; [apply smalloc4_ok|done|done|unfold kind; by rewrite HA|lia|done|done].
Qed.

Lemma malloc4_implements : implements (Interface smalloc scalloc srealloc : interface bool OS).
Proof.
  split; cbn [if_smalloc if_scalloc if_srealloc].
  - apply smalloc4_ok.
  - apply scalloc4_ok.
  - intros *. apply m4_wpv_srealloc.
  - intros n s. unfold srealloc, smalloc. by destruct (_ || _).
Qed.

End correct.

(** ** The header of a new mapping *)

Section push.
Context {OS : Type} {OO : OSOps OS} {OM : OSModel OS}.

Lemma wp_mmap_push_header m usable ext (s : heap bool OS) Q :
  (mmap_list s <> 0 -> is_Some (hdrs (mm s) !! mmap_list s) /\
     hdr_apart m sizeof_MallocMetadata (mmap_list s) /\ mmap_list s <> m) ->
  (forall s', os s' = os s -> mmap_list s' = m ->
     hdrs (mm s') !! m = Some (MkMeta usable false true ext (mmap_list s) nullptr) -> Q tt s') ->
  wp (mmap_push m usable ext) Q s.
Proof.
  intros Hhead HQ. unfold mmap_push, new_hdr, set_mmap_list, when, nullptr.
  do 5 (wp_step; cbn beta iota). destruct (Z.eqb_spec (mmap_list s) 0) as [E|E]; cbn [negb].
  - apply wp_ret, wp_modify. apply HQ; [done|done|]. apply lookup_insert_eq.
  - destruct (Hhead E) as ([h Hh] & Hap & Hne). unfold upd. eapply wp_try_modify.
    + unfold mem_upd_hdr. cbn [get_mem set_mem heap_mem mm with_mm hdrs mem_new_hdr].
      rewrite lookup_insert_ne, clobber_lookup, Hh by done. done.
    + apply wp_modify. apply HQ; [done|done|].
      cbn [mm with_mm with_mmap_list set_mem heap_mem hdrs mem_new_hdr].
      rewrite lookup_insert_ne by done. apply lookup_insert_eq.
Qed.

(** A region fresh in a system that maps what the state's does. *)
Lemma fresh_header_apart ob (s : heap bool OS) B Fr l (o o' : OS) p sz :
  ready ob (view_of s) B Fr l -> (forall x, mapped o x <-> mapped (os s) x) -> 0 <= sz ->
  freshly_mapped (mapped o) (mapped o') p (region sz) -> mmap_list s <> 0 ->
  is_Some (hdrs (mm s) !! mmap_list s) /\ hdr_apart p sizeof_MallocMetadata (mmap_list s) /\ mmap_list s <> p.
Proof.
  intros [_ _ Hm] Ho Hsz (H1 & H2 & H3 & H4) Hne. pose proof (mr_head _ _ _ Hm) as Hh. cbn [vml view_of] in Hh.
  destruct l as [|a l]; [done|]. cbn [hd0] in Hh. rewrite Hh in *.
  assert (Hf : freshly_mapped (mapped (vos (view_of s))) (mapped o') p (region sz)).
  { split_and!; [done..| |]; cbn [vos view_of].
    - intros x Hx. by apply H3, Ho.
    - intros x. by rewrite H4, Ho. }
  destruct (fresh_apart_list _ _ _ _ _ _ Hm Hf Hsz a) as [Hap Hap']; [by left|]. split; [|done].
  destruct (mr_seg _ _ _ Hm) as [Hl _]. cbn [vL view_of] in Hl. rewrite lookup_fmap in Hl.
  destruct (hdrs (mm s) !! a); [eauto|done].
Qed.

End push.

(** ** Properties *)

Section props.
Context {OS : Type} {OO : OSOps OS} {OM : OSModel OS}.

Abbreviation malloc4 := (Interface smalloc scalloc srealloc : interface bool OS).

(** C9: [malloc_4.cpp] keeps the allocator contract: [smalloc], [sfree] and
    [srealloc] run without undefined behaviour and terminate, blocks handed out
    are disjoint from the live ones and hold the request, payloads survive the
    other operations, and the state at program start satisfies the invariant.
    The exception, a defect: a request of 131041 to 131071 bytes, and no other,
    can get a smaller block; [scalloc], which otherwise hands out zeroed blocks
    with the same guarantees, then clears the requested bytes past the end of
    the block, and nothing more is promised. *)
Theorem malloc4_contract :
  @AllocatorSpec _ (heap_allocator malloc4) /\ (forall o, @al_inv _ (heap_allocator malloc4) (fresh_heap o) ∅) /\
  forall n, @al_grant _ (heap_allocator malloc4) n < n <-> 131040 < n < 131072.
Proof. split; [apply implements_contract, malloc4_implements|]. split; [intros o; by left|]. apply grant_short. Qed.

(** The mapping for a huge request: the length is a multiple of 2 MB that
    holds the request and its header; the header says [is_huge] exactly when
    the system granted [MAP_HUGETLB], and otherwise the block is an ordinary
    mapping of the same length; the block heads the list of mappings.  With
    both mappings refused the result is null and the list is unchanged. *)
Theorem huge_mapping n (s : heap bool OS) ob B Fr l
    (Hr : ready ob (view_of s) B Fr l) (Hn : HUGEPAGE_SMALLOC <= n <= MAX_ALLOC_SIZE) :
  let rounded := round_up (sizeof_MallocMetadata + n) HUGEPAGE_SIZE in
  let '(raw1, o1) := mmap rounded true (os s) in
  let '(raw2, o2) := mmap rounded false o1 in
  let '(raw, huge, o) := if raw1 =? MAP_FAILED then (raw2, false, o2) else (raw1, true, o1) in
  (HUGEPAGE_SIZE | rounded) /\ sizeof_MallocMetadata + n <= rounded /\
  wp (mmap_alloc_internal n true) (fun m s' => os s' = o /\
    if raw =? MAP_FAILED then m = nullptr /\ mmap_list s' = mmap_list s
    else m = raw /\ mmap_list s' = m /\
         hdrs (mm s') !! m =
           Some (MkMeta (rounded - sizeof_MallocMetadata) false true huge (mmap_list s) nullptr)) s.
Proof.
  cbn zeta. assert (Htot : round_up (sizeof_MallocMetadata + n) HUGEPAGE_SIZE =
    round_up (wrap64 (sizeof_MallocMetadata + n)) HUGEPAGE_SIZE).
  { unfold HUGEPAGE_SMALLOC, MAX_ALLOC_SIZE, sizeof_MallocMetadata in *. by rewrite wrap64_small by lia. }
  unfold HUGEPAGE_SMALLOC, MAX_ALLOC_SIZE in Hn.
  destruct (round_up_spec (sizeof_MallocMetadata + n) 21) as [Hru Hdv];
    [lia|unfold sizeof_MallocMetadata; lia|]. fold HUGEPAGE_SIZE in Hru, Hdv.
  change (2 ^ 21) with HUGEPAGE_SIZE in Hru, Hdv.
  set (rounded := round_up _ _) in *. unfold sizeof_MallocMetadata, HUGEPAGE_SIZE in Hru.
  assert (Hreg : region (rounded - 32) = rounded) by (unfold region, sizeof_MallocMetadata; lia).
  pose proof (mmap_spec rounded true (os s) ltac:(lia)) as H1.
  destruct (mmap rounded true (os s)) as [raw1 o1] eqn:E1.
  pose proof (mmap_spec rounded false o1 ltac:(lia)) as H2.
  destruct (mmap rounded false o1) as [raw2 o2] eqn:E2.
  assert (Hpush : forall raw huge o o', (forall x, mapped o x <-> mapped (os s) x) -> raw <> MAP_FAILED ->
    ((exists o'', (raw, o') = (MAP_FAILED, o'') /\ (forall x, mapped o'' x <-> mapped o x)) \/
     (exists p o'', (raw, o') = (p, o'') /\ (page_size | p) /\ freshly_mapped (mapped o) (mapped o'') p rounded)) ->
    wp (mmap_push raw (wrap64 (rounded - sizeof_MallocMetadata)) huge ;;* ret raw)
      (fun m s' => os s' = o' /\ m = raw /\ mmap_list s' = m /\ hdrs (mm s') !! m =
        Some (MkMeta (rounded - sizeof_MallocMetadata) false true huge (mmap_list s) nullptr)) (with_os o' s)).
  { intros raw huge o o' Ho Hraw [(o'' & [= -> <-] & _)|(p & o'' & [= <- <-] & _ & Hf)]; [done|].
    rewrite <- Hreg in Hf. rewrite wrap64_small by (unfold sizeof_MallocMetadata; lia). wp_step.
    apply wp_mmap_push_header.
    - apply (fresh_header_apart ob s B Fr l o o' raw (rounded - 32) Hr Ho ltac:(lia) Hf).
    - intros s' Hos Hml Hh. apply wp_ret. done. }
  unfold mmap_alloc_internal. cbn zeta.
  fold (round_up (wrap64 (sizeof_MallocMetadata + n)) HUGEPAGE_SIZE). rewrite <- Htot.
  destruct (Z.eqb_spec raw1 MAP_FAILED) as [F1|F1].
  - split; [done|]. split; [unfold sizeof_MallocMetadata; lia|].
    wp_step. unfold wp at 1, os_call. rewrite E1. rewrite F1, Z.eqb_refl.
    wp_step. unfold wp at 1, os_call. cbn [os with_os]. rewrite E2.
    assert (Hsame : forall x, mapped o1 x <-> mapped (os s) x).
    { destruct H1 as [(o' & [= _ <-] & Ho)|(p & o' & [= <- <-] & _ & Hf & Hf' & _)]; [done|].
      rewrite F1 in Hf'. unfold MAP_FAILED in Hf'. lia. }
    destruct (Z.eqb_spec raw2 MAP_FAILED) as [F2|F2]; [by apply wp_ret|].
    eapply wp_mono; [apply (Hpush raw2 false o1 o2 Hsame F2 H2)|]. intros m s' (? & ? & ? & ?). done.
  - split; [done|]. split; [unfold sizeof_MallocMetadata; lia|].
    wp_step. unfold wp at 1, os_call. rewrite E1. rewrite (proj2 (Z.eqb_neq raw1 _)) by done.
    eapply wp_mono; [apply (Hpush raw1 true (os s) o1 ltac:(done) F1 H1)|]. intros m s' (? & ? & ? & ?). done.
Qed.

End props.

(** ** Witnesses *)

Lemma malloc4_contract_witness :
  @AllocatorSpec _ (heap_allocator (Interface smalloc scalloc srealloc : interface bool toy)) /\
  match smalloc 100 (fresh_heap toy0) with Ok (p, _) => p = 4194304 + 32 | Err _ => False end.
Proof. split; [apply malloc4_contract|vm_compute; done]. Defined.

(** After initialisation. *)
Definition huge_start : heap bool toy := after buddy_init (fresh_heap toy0).

Lemma huge_start_ready : exists ob B Fr l, ready ob (view_of huge_start) B Fr l.
Proof.
  destruct (wpv_after buddy_init (fun _ v' => exists ob B Fr l, ready ob v' B Fr l) (fresh_heap (X := bool) toy0))
    as (_ & _ & Hr); [|exact Hr].
  apply m4_wpv_first_init; [done|intros base v' Hr _|intros v' Hr _]; by do 4 eexists.
Qed.

#[local] Opaque huge_start.

(** The toy system refuses huge pages: a request of 5 MB gets an ordinary
    mapping of 6 MB. *)
Lemma huge_mapping_witness :
  let rounded := round_up (sizeof_MallocMetadata + 5242880) HUGEPAGE_SIZE in
  rounded = 6291456 /\ (HUGEPAGE_SIZE | rounded) /\ sizeof_MallocMetadata + 5242880 <= rounded.
Proof.
  split; [vm_compute; reflexivity|].
  destruct huge_start_ready as (ob & B & Fr & l & Hr).
  pose proof (huge_mapping 5242880 huge_start ob B Fr l Hr ltac:(done)) as Hm. cbn zeta in Hm.
  generalize dependent (os huge_start). intros o0 Hm.
  match type of Hm with context [mmap ?n true o0] => destruct (mmap n true o0) as [raw1 o1] end.
  match type of Hm with context [mmap ?n false o1] => destruct (mmap n false o1) as [raw2 o2] end.
  destruct (raw1 =? MAP_FAILED); exact (conj (proj1 Hm) (proj1 (proj2 Hm))).
Defined.
