(* ===== verification/Malloc1.v ===== *)
(** * [memory-allocator/malloc_1.cpp]: allocation without release

    [smalloc] moves the program break; there is no [sfree]. *)

From S2P Require Import Prelude Memory OS.

Definition MAX_ALLOC_SIZE : Z := 100000000.

Section malloc1.
Context {OS : Type} `{OSOps OS}.

Definition os_call {A} (f : OS -> A * OS) : M OS A := fun o => Ok (f o).

Definition smalloc (size : Z) : M OS Z :=
  if (size =? 0) || (MAX_ALLOC_SIZE <? size) then ret nullptr
  else
    let* ptr := os_call (sbrk size) in
    if ptr =? MAP_FAILED then ret nullptr else ret ptr.

(** A sequence of requests. *)
Fixpoint smallocs (sizes : list Z) : M OS (list Z) :=
  match sizes with
  | [] => ret []
  | n :: sizes' => let* p := smalloc n in let* ps := smallocs sizes' in ret (p :: ps)
  end.

End malloc1.

Section props.
Context {OS : Type} {OO : OSOps OS} {OM : OSModel OS}.

Lemma m1_wp_smalloc n (o : OS) Q :
  0 <= n -> Q nullptr o ->
  (forall o', 0 < n <= MAX_ALLOC_SIZE -> brk o' = brk o + n ->
     freshly_mapped (mapped o) (mapped o') (brk o) n -> Q (brk o) o') ->
  wp (smalloc n) Q o.
Proof.
  intros Hn H0 HQ. unfold smalloc, MAX_ALLOC_SIZE in *. wp_step; [by apply wp_ret|]. wp_step.
  unfold wp at 1, os_call. pose proof (brk_range o).
  destruct (sbrk_spec n o) as [E|(o' & E & Hb & Hf)]; [lia|rewrite E; by apply wp_ret|rewrite E].
  rewrite (proj2 (Z.eqb_neq _ _)) by (unfold MAP_FAILED; lia). apply wp_ret, HQ; (done || lia).
Qed.

(** The blocks of a sequence of requests: each result is null or the start
    of memory that was not mapped before, the valid requests alone can succeed,
    and every block ends before the next one begins. *)
Theorem smallocs_apart sizes (o : OS) (Hs : Forall (fun n => 0 <= n) sizes) :
  wp (smallocs sizes) (fun ps o' => length ps = length sizes /\
    (forall i p n, ps !! i = Some p -> sizes !! i = Some n -> p <> nullptr ->
       0 < n <= MAX_ALLOC_SIZE /\ brk o <= p /\ p + n <= brk o' /\
       (forall x, in_range p n x -> ~ mapped o x /\ mapped o' x)) /\
    (forall i j p n q, ps !! i = Some p -> sizes !! i = Some n -> ps !! j = Some q -> (i < j)%nat ->
       p <> nullptr -> q <> nullptr -> p + n <= q) /\
    (forall x, mapped o x -> mapped o' x) /\ brk o <= brk o') o.
Proof.
  revert o. induction Hs as [|n sizes Hn Hs IH]; intros o; cbn [smallocs].
  - apply wp_ret. split_and!; (done || lia).
  - wp_step. apply m1_wp_smalloc; [done| |].
    + wp_step. eapply wp_mono; [apply IH|]. intros ps o' (Hlen & H1 & H2 & H3 & H4). apply wp_ret.
      split_and!; [by cbn; f_equal| | |done|done].
      * intros [|i] p k; [intros [= <-]; done|by apply H1].
      * intros [|i] [|j] p k q; cbn; [lia|intros [= <-]; done|lia|].
        intros Hp Hk Hq Hij. apply (H2 i j); (done || lia).
    + intros o1 Hn' Hb (Hf1 & Hf2 & Hf3 & Hf4). wp_step. eapply wp_mono; [apply IH|].
      intros ps o' (Hlen & H1 & H2 & H3 & H4). apply wp_ret.
      split_and!; [by cbn; f_equal| | |intros x Hx; apply H3, Hf4; by left|lia].
      * intros [|i] p k; cbn.
        -- intros [= <-] [= <-] _. split_and!; [lia|lia|lia|lia|]. intros x Hx.
           split; [by intros Hm; apply (Hf3 x)|]. apply H3, Hf4. by right.
        -- intros Hp Hk Hne. destruct (H1 i p k Hp Hk Hne) as (Hk1 & Hlo & Hhi & Hx). split_and!; [lia..|].
           intros x Hin. destruct (Hx x Hin) as [Hx1 Hx2]. split; [|done]. intros Hm. apply Hx1, Hf4. by left.
      * intros [|i] [|j] p k q; cbn; [lia| |lia|].
        -- intros [= <-] [= <-] Hq _ _ Hq0. destruct (lookup_lt_is_Some_2 sizes j) as [kq Hkq].
           { rewrite <- Hlen. by eapply lookup_lt_Some. }
           destruct (H1 j q kq Hq Hkq Hq0) as (_ & Hlo & _). lia.
        -- intros Hp Hk Hq Hij. apply (H2 i j); (done || lia).
Qed.

End props.

Lemma smallocs_apart_witness :
  exists ps o', smallocs [10; 0; 20] toy0 = Ok (ps, o') /\ length ps = 3%nat.
Proof.
  destruct (wp_run _ _ _ (smallocs_apart [10; 0; 20] toy0 ltac:(repeat constructor; lia)))
    as (ps & o' & E & Hlen & _). exists ps, o'. split; [exact E|exact Hlen].
Defined.
