(* ===== verification/KernelBan.v ===== *)
(** * [hw2-process-management/]: system-call bans in the kernel

    The system calls of [hw2.c] and the guards the other files describe as
    patches to [sys.c], [pipe.c] and [signal.c].  The kernel's task list is a
    map from task pointers to the two members used here; [find_task_by_vpid]
    and the caller's credentials are the kernel's, parameters of the model. *)

From Stdlib Require Import Ascii.
From S2P Require Import Prelude.

(** ** State *)

Definition EPERM : Z := 1.
Definition ESRCH : Z := 3.
Definition EINVAL : Z := 22.

Definition BAN_GETPID : Z := 1.
Definition BAN_PIPE : Z := 2.
Definition BAN_KILL : Z := 4.

(** The members of [struct task_struct] the code uses; [syscall_bans] is a
    [char], [real_parent] a pointer that may be null. *)
Record task_struct := Task {
  syscall_bans : Z;
  real_parent : Z;
}.

Record kernel := Kernel {
  tasks : gmap Z task_struct;
  current : Z;
  klog : list string;
}.

(** Conversion to [char], signed on x86. *)
Definition char (x : Z) : Z := sign_wrap 8 x.

Definition task_at (p : Z) : M kernel task_struct := try_gets (fun k => tasks k !! p).

Definition set_bans (p v : Z) : M kernel unit :=
  try_modify (fun k =>
    match tasks k !! p with
    | Some t => Some (Kernel (<[p := Task v (real_parent t)]> (tasks k)) (current k) (klog k))
    | None => None
    end).

Definition current_task : M kernel task_struct := let* c := gets current in task_at c.

(** ** The system calls *)

Definition ban_char_to_mask (ban : ascii) : Z :=
  if Ascii.eqb ban "g" then BAN_GETPID
  else if Ascii.eqb ban "p" then BAN_PIPE
  else if Ascii.eqb ban "k" then BAN_KILL
  else -1.

Definition sys_hello : M kernel Z :=
  modify (fun k => Kernel (tasks k) (current k) (klog k ++ ["Hello, World!"%string])) ;;* ret 0.

Section syscalls.
(** [find_task_by_vpid]: null or a task pointer; and whether the caller's uid
    is the root's. *)
Context (find_task_by_vpid : Z -> Z) (caller_is_root : bool).

Definition clamp (x : Z) : Z := if 1 <? x then 1 else x.

Definition sys_set_ban (ban_getpid ban_pipe ban_kill : Z) : M kernel Z :=
  if (ban_getpid <? 0) || (ban_pipe <? 0) || (ban_kill <? 0) then ret (- EINVAL)
  else if negb caller_is_root then ret (- EPERM)
  else
    let ban_getpid := clamp ban_getpid in
    let ban_pipe := clamp ban_pipe in
    let ban_kill := clamp ban_kill in
    let* c := gets current in
    set_bans c (char (Z.lor (Z.lor (if negb (ban_getpid =? 0) then BAN_GETPID else 0)
                                   (if negb (ban_pipe =? 0) then BAN_PIPE else 0))
                            (if negb (ban_kill =? 0) then BAN_KILL else 0))) ;;*
    ret 0.

Definition sys_get_ban (ban : ascii) : M kernel Z :=
  let mask := ban_char_to_mask ban in
  if mask <? 0 then ret (- EINVAL)
  else
    let* t := current_task in
    ret (if negb (Z.land (syscall_bans t) mask =? 0) then 1 else 0).

Definition sys_check_ban (pid : Z) (ban : ascii) : M kernel Z :=
  let mask := ban_char_to_mask ban in
  if mask <? 0 then ret (- EINVAL)
  else
    let target := find_task_by_vpid pid in
    if target =? 0 then ret (- ESRCH)
    else
      let* me := current_task in
      if negb (Z.land (syscall_bans me) mask =? 0) then ret (- EPERM)
      else
        let* t := task_at target in
        ret (if negb (Z.land (syscall_bans t) mask =? 0) then 1 else 0).

(** The loop of [sys_flip_ban_branch]: one iteration, from [i], [proc] and
    [banned_count], and the loop. *)
Definition flip_step (height mask : Z) (ipc : Z * Z * Z) : M kernel ((Z * Z * Z) + Z) :=
  let '(i, proc, banned_count) := ipc in
  if i <? height then
    if proc =? 0 then ret (inr banned_count)
    else
      let* t := task_at proc in
      if proc =? real_parent t then ret (inr banned_count)
      else
        let bans := char (Z.lxor (syscall_bans t) (char mask)) in
        set_bans proc bans ;;*
        let banned_count := if negb (Z.land bans mask =? 0) then banned_count + 1 else banned_count in
        ret (inl (i + 1, real_parent t, banned_count))
  else ret (inr banned_count).

Definition flip_loop (height mask proc : Z) : M kernel Z :=
  iter (S (Z.to_nat height)) (flip_step height mask) (0, proc, 0).

Definition sys_flip_ban_branch (height : Z) (ban : ascii) : M kernel Z :=
  if height <=? 0 then ret (- EINVAL)
  else
    let mask := ban_char_to_mask ban in
    if mask <? 0 then ret (- EINVAL)
    else
      let* me := current_task in
      if negb (Z.land (syscall_bans me) mask =? 0) then ret (- EPERM)
      else flip_loop height mask (real_parent me).

(** The check the patches add as the first line of [sys_getpid], [sys_pipe2]
    and [sys_kill]; [body] is the kernel's function. *)
Definition guarded (mask : Z) (body : M kernel Z) : M kernel Z :=
  let* me := current_task in
  if negb (Z.land (syscall_bans me) mask =? 0) then ret (- EPERM) else body.

Definition sys_getpid (body : M kernel Z) : M kernel Z := guarded 0x01 body.
Definition sys_pipe2 (body : M kernel Z) : M kernel Z := guarded 0x02 body.
Definition sys_kill (body : M kernel Z) : M kernel Z := guarded 0x04 body.

End syscalls.

(** ** Well-formed kernels *)

(** The tree of processes: parent pointers are null or point to tasks, and
    strictly descend in [rank] except at a process that is its own parent.
    Every mask is one of the eight the system calls store. *)
Record wf (k : kernel) : Prop := {
  wf_current : is_Some (tasks k !! current k);
  wf_null : tasks k !! 0 = None;
  wf_parent : forall a t, tasks k !! a = Some t ->
    real_parent t = 0 \/ is_Some (tasks k !! real_parent t);
  wf_bans : forall a t, tasks k !! a = Some t -> 0 <= syscall_bans t < 8;
  wf_tree : exists rank : Z -> nat, forall a t, tasks k !! a = Some t ->
    real_parent t <> a -> (rank (real_parent t) < rank a)%nat;
}.

(** The ancestors the loop visits: at most [n], stopping at the top. *)
Fixpoint up (ts : gmap Z task_struct) (n : nat) (proc : Z) : list Z :=
  match n with
  | O => []
  | S n' =>
      match ts !! proc with
      | Some t => if proc =? real_parent t then [] else proc :: up ts n' (real_parent t)
      | None => []
      end
  end.

Definition banned (ts : gmap Z task_struct) (mask a : Z) : bool :=
  match ts !! a with Some t => negb (Z.land (syscall_bans t) mask =? 0) | None => false end.

(** The tasks with the bit [mask] of those in [l] inverted. *)
Definition flipped (l : list Z) (mask : Z) (ts : gmap Z task_struct) : gmap Z task_struct :=
  map_imap (fun a t => Some (if decide (a ∈ l) then Task (Z.lxor (syscall_bans t) mask) (real_parent t) else t)) ts.

(** ** Masks *)

Lemma mask_cases ban :
  ban_char_to_mask ban = -1 \/ ban_char_to_mask ban = 1 \/ ban_char_to_mask ban = 2 \/ ban_char_to_mask ban = 4.
Proof. unfold ban_char_to_mask. repeat case_match; auto. Qed.

Lemma small_char x : 0 <= x < 8 -> char x = x.
Proof.
  intros Hx. unfold char, sign_wrap. cbn zeta. rewrite Z.mod_small by lia.
  by rewrite (proj2 (Z.ltb_lt x (2 ^ (8 - 1)))) by lia.
Qed.

Ltac octal x := let H := fresh in
  assert (H : x = 0 \/ x = 1 \/ x = 2 \/ x = 3 \/ x = 4 \/ x = 5 \/ x = 6 \/ x = 7) by lia;
  destruct H as [->|[->|[->|[->|[->|[->|[->| ->]]]]]]].

Lemma lxor_mask x mask :
  0 <= x < 8 -> mask = 1 \/ mask = 2 \/ mask = 4 ->
  0 <= Z.lxor x mask < 8 /\ (Z.land (Z.lxor x mask) mask =? 0) = negb (Z.land x mask =? 0) /\
  Z.lxor (Z.lxor x mask) mask = x.
Proof.
  intros Hx Hm. octal x; destruct Hm as [->|[->| ->]]; cbn; split_and!; (done || lia).
Qed.

(** ** The tree of processes *)

(** Two task maps with the same processes and the same parent pointers. *)
Definition same_tree (ts ts' : gmap Z task_struct) : Prop :=
  forall a, real_parent <$> ts' !! a = real_parent <$> ts !! a.

Lemma same_tree_none ts ts' a : same_tree ts ts' -> ts !! a = None -> ts' !! a = None.
Proof. intros He Ha. specialize (He a). rewrite Ha in He. by destruct (ts' !! a). Qed.

Lemma same_tree_some ts ts' a t' :
  same_tree ts ts' -> ts' !! a = Some t' -> exists t, ts !! a = Some t /\ real_parent t = real_parent t'.
Proof. intros He Ha. specialize (He a). rewrite Ha in He. destruct (ts !! a); simplify_eq/=. eauto. Qed.

Lemma same_tree_is_some ts ts' a : same_tree ts ts' -> is_Some (ts !! a) -> is_Some (ts' !! a).
Proof. intros He [t Ha]. specialize (He a). rewrite Ha in He. destruct (ts' !! a); [eauto|done]. Qed.

Lemma same_tree_insert ts p t v :
  ts !! p = Some t -> same_tree ts (<[p := Task v (real_parent t)]> ts).
Proof.
  intros Hp a. destruct (decide (a = p)) as [->|]; [by rewrite lookup_insert_eq, Hp|by rewrite lookup_insert_ne].
Qed.

Lemma same_tree_flipped l mask ts : same_tree ts (flipped l mask ts).
Proof. intros a. unfold flipped. rewrite map_lookup_imap. destruct (ts !! a); cbn; [by case_decide|done]. Qed.

(** Updates of the masks within the eight values keep a kernel well formed. *)
Lemma wf_same_tree k ts' log' :
  wf k -> same_tree (tasks k) ts' ->
  (forall a t, ts' !! a = Some t -> 0 <= syscall_bans t < 8) -> wf (Kernel ts' (current k) log').
Proof.
  intros [Hcur Hnull Hpar _ [rank Hrank]] He Hb. split; cbn.
  - by eapply same_tree_is_some.
  - by eapply same_tree_none.
  - intros a t' Ha. destruct (same_tree_some _ _ _ _ He Ha) as (t & Ht & <-).
    destruct (Hpar _ _ Ht) as [|]; [by left|right]. by eapply same_tree_is_some.
  - done.
  - exists rank. intros a t' Ha. destruct (same_tree_some _ _ _ _ He Ha) as (t & Ht & <-). by apply Hrank.
Qed.

Lemma wf_insert k p t v log' :
  wf k -> tasks k !! p = Some t -> 0 <= v < 8 ->
  wf (Kernel (<[p := Task v (real_parent t)]> (tasks k)) (current k) log').
Proof.
  intros Hwf Hp Hv. apply wf_same_tree; [done|by apply same_tree_insert|].
  intros a t'. destruct (decide (a = p)) as [->|]; [rewrite lookup_insert_eq; by intros [= <-]|].
  rewrite lookup_insert_ne by done. apply (wf_bans _ Hwf).
Qed.

Lemma lookup_flipped l mask ts a :
  flipped l mask ts !! a =
    (fun t => if decide (a ∈ l) then Task (Z.lxor (syscall_bans t) mask) (real_parent t) else t) <$> ts !! a.
Proof. unfold flipped. rewrite map_lookup_imap. by destruct (ts !! a). Qed.

Lemma wf_flipped k l mask :
  wf k -> mask = 1 \/ mask = 2 \/ mask = 4 ->
  wf (Kernel (flipped l mask (tasks k)) (current k) (klog k)).
Proof.
  intros Hwf Hm. apply wf_same_tree; [done|apply same_tree_flipped|].
  intros a t'. rewrite lookup_flipped. destruct (tasks k !! a) as [t|] eqn:Ha; [|done].
  cbn. intros [= <-]. pose proof (wf_bans _ Hwf _ _ Ha) as Hb.
  case_decide; [|done]. by apply lxor_mask.
Qed.

Lemma up_same_tree ts ts' n p : same_tree ts ts' -> up ts' n p = up ts n p.
Proof.
  intros He. revert p. induction n as [|n IH]; intros p; [done|]. cbn.
  specialize (He p). destruct (ts !! p), (ts' !! p); simplify_eq/=; [|done]. rewrite He, IH. done.
Qed.

(** The ranks of the ancestors the loop visits are at most the first one's. *)
Lemma up_rank ts (rank : Z -> nat) n p a :
  (forall a t, ts !! a = Some t -> real_parent t <> a -> (rank (real_parent t) < rank a)%nat) ->
  a ∈ up ts n p -> (rank a <= rank p)%nat.
Proof.
  intros Hr. revert p. induction n as [|n IH]; intros p; cbn; [set_solver|].
  destruct (ts !! p) as [t|] eqn:Hp; [|set_solver].
  destruct (Z.eqb_spec p (real_parent t)) as [|Hne]; [set_solver|].
  rewrite elem_of_cons. intros [->|Ha]; [lia|].
  specialize (IH _ Ha). specialize (Hr _ _ Hp (not_eq_sym Hne)). lia.
Qed.

Lemma up_fresh k n p t :
  wf k -> tasks k !! p = Some t -> p <> real_parent t -> p ∉ up (tasks k) n (real_parent t).
Proof.
  intros Hwf Hp Hne Hin. destruct (wf_tree _ Hwf) as [rank Hr].
  pose proof (up_rank _ _ _ _ _ Hr Hin). pose proof (Hr _ _ Hp (not_eq_sym Hne)). lia.
Qed.

Lemma flipped_cons ts p t l mask :
  ts !! p = Some t -> p ∉ l ->
  flipped l mask (<[p := Task (Z.lxor (syscall_bans t) mask) (real_parent t)]> ts) = flipped (p :: l) mask ts.
Proof.
  intros Hp Hl. apply map_eq. intros a. rewrite !lookup_flipped. destruct (decide (a = p)) as [->|Hne].
  - rewrite lookup_insert_eq, Hp. cbn. rewrite decide_False by done. by rewrite decide_True by set_solver.
  - rewrite lookup_insert_ne by done. destruct (ts !! a); [|done]. cbn. f_equal.
    repeat case_decide; done || set_solver.
Qed.

Lemma up_null k n : wf k -> up (tasks k) n 0 = [].
Proof. intros Hwf. destruct n; [done|]. cbn. by rewrite (wf_null _ Hwf). Qed.

Definition count_banned (ts : gmap Z task_struct) (mask : Z) (l : list Z) : Z :=
  Z.of_nat (length (List.filter (banned ts mask) l)).

Lemma wp_current_task (k : kernel) (Q : task_struct -> kernel -> Prop) :
  wf k -> (forall t, tasks k !! current k = Some t -> Q t k) -> wp current_task Q k.
Proof.
  intros Hwf HQ. destruct (wf_current _ Hwf) as [t Ht]. unfold current_task, task_at.
  do 2 (wp_step; cbn beta). wp_step; [done|]. by apply HQ.
Qed.

Lemma wp_set_bans k p t v (Q : unit -> kernel -> Prop) :
  tasks k !! p = Some t ->
  Q tt (Kernel (<[p := Task v (real_parent t)]> (tasks k)) (current k) (klog k)) ->
  wp (set_bans p v) Q k.
Proof. intros Ht HQ. unfold set_bans, wp, try_modify. by rewrite Ht. Qed.

(** ** What each call does *)

Lemma flip_iter mask c n fuel i height proc k :
  mask = 1 \/ mask = 2 \/ mask = 4 -> wf k ->
  proc = 0 \/ is_Some (tasks k !! proc) -> height - i = Z.of_nat n -> (n < fuel)%nat ->
  wp (iter fuel (flip_step height mask) (i, proc, c))
    (fun r k' =>
       k' = Kernel (flipped (up (tasks k) n proc) mask (tasks k)) (current k) (klog k) /\
       r = c + count_banned (tasks k') mask (up (tasks k) n proc)) k.
Proof.
  assert (Hnil : forall ts, flipped [] mask ts = ts).
  { intros ts. apply map_eq. intros a. rewrite lookup_flipped. by destruct (ts !! a). }
  intros Hm. revert c fuel i proc k. induction n as [|n IH]; intros c fuel i proc k Hwf Hp Hn Hf;
    (destruct fuel as [|fuel]; [lia|]); cbn [iter]; wp_step; cbn beta; unfold flip_step at 1.
  - rewrite (proj2 (Z.ltb_ge i height)) by lia. cbn. unfold count_banned. cbn. rewrite Hnil.
    split; [by destruct k|lia].
  - rewrite (proj2 (Z.ltb_lt i height)) by lia.
    destruct (Z.eqb_spec proc 0) as [->|Hp0].
    { apply wp_ret. cbn beta iota. rewrite up_null by done. apply wp_ret. unfold count_banned. cbn. rewrite Hnil.
      split; [by destruct k|lia]. }
    destruct Hp as [?|[t Ht]]; [done|]. cbn [up]. rewrite Ht.
    wp_step. unfold task_at at 1. wp_step; [exact Ht|].
    destruct (Z.eqb_spec proc (real_parent t)) as [He|Hne].
    { apply wp_ret. cbn beta iota. apply wp_ret. unfold count_banned. cbn. rewrite Hnil. split; [by destruct k|lia]. }
    pose proof (wf_bans _ Hwf _ _ Ht) as Hb. destruct (lxor_mask _ mask Hb Hm) as (Hx & Hland & _).
    rewrite !(small_char mask), (small_char (Z.lxor _ _)) by lia.
    wp_step. eapply wp_set_bans; [done|]. cbn beta zeta. apply wp_ret. cbn beta iota.
    set (l := up (tasks k) n (real_parent t)). set (t' := Task _ _).
    assert (Hsame : same_tree (tasks k) (<[proc := t']> (tasks k))) by by apply same_tree_insert.
    assert (Hfresh : proc ∉ l) by by apply up_fresh.
    eapply wp_mono.
    { apply (IH _ fuel (i + 1)); [by apply wf_insert| |lia|lia]. cbn.
      destruct (wf_parent _ Hwf _ _ Ht); [by left|right]. by eapply same_tree_is_some. }
    cbn. rewrite (up_same_tree _ _ _ _ Hsame). fold l. intros r k' [-> ->]. subst t'. cbn [tasks].
    rewrite flipped_cons by done. split; [done|]. unfold count_banned. cbn [List.filter].
    replace (banned (flipped (proc :: l) mask (tasks k)) mask proc)
      with (negb (Z.land (Z.lxor (syscall_bans t) mask) mask =? 0));
      [destruct (Z.land (Z.lxor (syscall_bans t) mask) mask =? 0); cbn [negb length]; lia|].
    unfold banned. rewrite lookup_flipped, Ht. cbn. by rewrite decide_True by set_solver.
Qed.

Lemma mask_valid ban : 0 <= ban_char_to_mask ban ->
  ban_char_to_mask ban = 1 \/ ban_char_to_mask ban = 2 \/ ban_char_to_mask ban = 4.
Proof. destruct (mask_cases ban) as [->|]; [lia|done]. Qed.

Lemma up_length ts n p : (length (up ts n p) <= n)%nat.
Proof.
  revert p. induction n; intros p; cbn; [lia|]. destruct (ts !! p); cbn; [|lia].
  case_match; cbn; [lia|]. specialize (IHn (real_parent t)). lia.
Qed.

Lemma up_NoDup k n p : wf k -> NoDup (up (tasks k) n p).
Proof.
  intros Hwf. revert p. induction n; intros p; cbn; [constructor|].
  destruct (tasks k !! p) eqn:Hp; [|constructor]. destruct (Z.eqb_spec p (real_parent t)); [constructor|].
  constructor; [by apply up_fresh|done].
Qed.

(** The ancestors [sys_flip_ban_branch height] reaches from the caller. *)
Definition branch (k : kernel) (height : Z) : list Z :=
  match tasks k !! current k with
  | Some me => up (tasks k) (Z.to_nat height) (real_parent me)
  | None => []
  end.

Lemma branch_not_self k height : wf k -> current k ∉ branch k height.
Proof.
  intros Hwf. unfold branch. destruct (tasks k !! current k) as [me|] eqn:Hme; [|set_solver].
  destruct (decide (current k = real_parent me)) as [He|]; [|by apply up_fresh].
  destruct (Z.to_nat height); cbn; [set_solver|]. rewrite <- He, Hme. rewrite (proj2 (Z.eqb_eq _ _)); [set_solver|done].
Qed.

(** The specification of the flip: the result and the kernel after it. *)
Definition flip_result (k : kernel) (height : Z) (ban : ascii) : Z * kernel :=
  let mask := ban_char_to_mask ban in
  if (height <=? 0) || (mask <? 0) then (- EINVAL, k)
  else if banned (tasks k) mask (current k) then (- EPERM, k)
  else
    let ts := flipped (branch k height) mask (tasks k) in
    (count_banned ts mask (branch k height), Kernel ts (current k) (klog k)).

Lemma flip_run k height ban :
  wf k -> sys_flip_ban_branch height ban k = Ok (flip_result k height ban).
Proof.
  intros Hwf. unfold sys_flip_ban_branch, flip_result.
  destruct (Z.leb_spec height 0); [done|]. destruct (Z.ltb_spec (ban_char_to_mask ban) 0); [done|]. cbn [orb].
  pose proof (mask_valid ban ltac:(lia)) as Hm. destruct (wf_current _ Hwf) as [me Hme].
  cut (wp (let* me := current_task in
           if negb (Z.land (syscall_bans me) (ban_char_to_mask ban) =? 0) then ret (- EPERM)
           else flip_loop height (ban_char_to_mask ban) (real_parent me))
         (fun r k' => (r, k') = flip_result k height ban) k).
  { unfold flip_result. destruct (Z.leb_spec height 0); [lia|]. destruct (Z.ltb_spec (ban_char_to_mask ban) 0); [lia|].
    intros Hwp. apply wp_run in Hwp as (r & k' & -> & Hr). cbn [orb] in Hr. by rewrite Hr. }
  wp_step. apply wp_current_task; [done|]. intros t Ht. unfold flip_result, branch, banned. rewrite Ht.
  destruct (Z.leb_spec height 0); [lia|]. destruct (Z.ltb_spec (ban_char_to_mask ban) 0); [lia|]. cbn [orb].
  destruct (negb _); [by apply wp_ret|].
  eapply wp_mono; [apply (flip_iter _ 0 (Z.to_nat height)); try done; try lia; by apply (wf_parent _ Hwf _ _ Ht)|].
  cbn. intros r k' [-> ->]. done.
Qed.

Lemma set_ban_run k me root g p q :
  tasks k !! current k = Some me ->
  sys_set_ban root g p q k =
    if (g <? 0) || (p <? 0) || (q <? 0) then Ok (- EINVAL, k)
    else if negb root then Ok (- EPERM, k)
    else Ok (0, Kernel (<[current k := Task (Z.min g 1 + 2 * Z.min p 1 + 4 * Z.min q 1) (real_parent me)]> (tasks k))
                       (current k) (klog k)).
Proof.
  intros Hme. unfold sys_set_ban.
  destruct ((g <? 0) || (p <? 0) || (q <? 0)) eqn:Hneg; [done|]. destruct root; [|done]. cbn [negb].
  unfold bind, gets, set_bans, try_modify. rewrite Hme. unfold ret. do 7 f_equal.
  assert (Hc : forall x, 0 <= x -> (clamp x = 0 /\ Z.min x 1 = 0) \/ (clamp x = 1 /\ Z.min x 1 = 1)).
  { intros x Hx. unfold clamp. destruct (Z.ltb_spec 1 x); lia. }
  apply orb_false_iff in Hneg as [[??]%orb_false_iff ?].
  destruct (Hc g ltac:(lia)) as [[-> ->]|[-> ->]], (Hc p ltac:(lia)) as [[-> ->]|[-> ->]],
    (Hc q ltac:(lia)) as [[-> ->]|[-> ->]]; done.
Qed.

Lemma get_ban_run k me ban :
  tasks k !! current k = Some me ->
  sys_get_ban ban k =
    Ok (if ban_char_to_mask ban <? 0 then - EINVAL
        else if banned (tasks k) (ban_char_to_mask ban) (current k) then 1 else 0, k).
Proof.
  intros Hme. unfold sys_get_ban, banned. rewrite Hme. case_match; [done|].
  unfold current_task, task_at, bind, gets, try_gets. by rewrite Hme.
Qed.

Lemma guarded_run k me mask body :
  tasks k !! current k = Some me ->
  guarded mask body k = if banned (tasks k) mask (current k) then Ok (- EPERM, k) else body k.
Proof.
  intros Hme. unfold guarded, current_task, task_at, banned, bind, gets, try_gets. rewrite Hme. by case_match.
Qed.

Lemma check_ban_run find k pid ban :
  wf k -> (find pid <> 0 -> is_Some (tasks k !! find pid)) ->
  sys_check_ban find pid ban k =
    Ok (if ban_char_to_mask ban <? 0 then - EINVAL
        else if find pid =? 0 then - ESRCH
        else if banned (tasks k) (ban_char_to_mask ban) (current k) then - EPERM
        else if banned (tasks k) (ban_char_to_mask ban) (find pid) then 1 else 0, k).
Proof.
  intros Hwf Hfind. destruct (wf_current _ Hwf) as [me Hme]. unfold sys_check_ban, banned. rewrite Hme.
  case_match; [done|]. destruct (Z.eqb_spec (find pid) 0) as [|Hne]; [done|].
  destruct (Hfind Hne) as [t Ht]. unfold current_task, task_at, bind, gets, try_gets. rewrite Hme.
  case_match; [done|]. by rewrite Ht.
Qed.

(** The three bits of a mask built from three flags. *)
Lemma mask_bits g p q :
  0 <= g -> 0 <= p -> 0 <= q ->
  let v := Z.min g 1 + 2 * Z.min p 1 + 4 * Z.min q 1 in
  0 <= v < 8 /\ negb (Z.land v 1 =? 0) = (0 <? g) /\ negb (Z.land v 2 =? 0) = (0 <? p) /\
  negb (Z.land v 4 =? 0) = (0 <? q).
Proof.
  intros Hg Hp Hq.
  assert (Hc : forall x, 0 <= x -> (Z.min x 1 = 0 /\ (0 <? x) = false) \/ (Z.min x 1 = 1 /\ (0 <? x) = true)) by lia.
  destruct (Hc g Hg) as [[-> ->]|[-> ->]], (Hc p Hp) as [[-> ->]|[-> ->]], (Hc q Hq) as [[-> ->]|[-> ->]];
    cbn; split_and!; (done || lia).
Qed.

(** ** Flipping twice *)

Lemma flipped_involutive l mask ts :
  mask = 1 \/ mask = 2 \/ mask = 4 -> (forall a t, ts !! a = Some t -> 0 <= syscall_bans t < 8) ->
  flipped l mask (flipped l mask ts) = ts.
Proof.
  intros Hm Hb. apply map_eq. intros a. rewrite !lookup_flipped.
  destruct (ts !! a) as [t|] eqn:Ha; [|done]. cbn. case_decide; [|done]. cbn.
  destruct (lxor_mask _ mask (Hb _ _ Ha) Hm) as (_ & _ & ->). by destruct t.
Qed.

Lemma branch_flipped k height mask :
  wf k -> branch (Kernel (flipped (branch k height) mask (tasks k)) (current k) (klog k)) height = branch k height.
Proof.
  intros Hwf. pose proof (branch_not_self k height Hwf) as Hn. set (l := branch k height) in *.
  unfold branch. cbn. rewrite lookup_flipped. subst l.
  destruct (decide (current k ∈ branch k height)) as [|_]; [done|].
  destruct (tasks k !! current k) as [me|] eqn:Hme; cbn; unfold branch; rewrite Hme; [|done].
  apply up_same_tree, same_tree_flipped.
Qed.

Lemma banned_flipped l mask ts a :
  mask = 1 \/ mask = 2 \/ mask = 4 -> (forall a t, ts !! a = Some t -> 0 <= syscall_bans t < 8) ->
  is_Some (ts !! a) ->
  banned (flipped l mask ts) mask a = if decide (a ∈ l) then negb (banned ts mask a) else banned ts mask a.
Proof.
  intros Hm Hb [t Ha]. unfold banned. rewrite lookup_flipped, Ha. cbn. case_decide; [|done]. cbn.
  by destruct (lxor_mask _ mask (Hb _ _ Ha) Hm) as (_ & -> & _).
Qed.

Lemma up_is_some ts n p a : a ∈ up ts n p -> is_Some (ts !! a).
Proof.
  revert p. induction n; intros p; cbn; [set_solver|]. destruct (ts !! p) eqn:Hp; [|set_solver].
  case_match; [set_solver|]. rewrite elem_of_cons. intros [->|?]; eauto.
Qed.

Lemma branch_is_some k height a : a ∈ branch k height -> is_Some (tasks k !! a).
Proof. unfold branch. case_match; [apply up_is_some|set_solver]. Qed.

(** What is banned after a flip was not before: the two counts of a list
    add up to its length. *)
Lemma count_complement ts ts' mask l :
  (forall a, a ∈ l -> banned ts' mask a = negb (banned ts mask a)) ->
  count_banned ts' mask l + count_banned ts mask l = Z.of_nat (length l).
Proof.
  unfold count_banned. induction l as [|a l IH]; intros Hl; [done|]. cbn. rewrite (Hl a) by set_solver.
  specialize (IH ltac:(set_solver)). destruct (banned ts mask a); cbn; lia.
Qed.

Lemma flip_success k height ban :
  wf k -> 0 < height -> 0 <= ban_char_to_mask ban -> banned (tasks k) (ban_char_to_mask ban) (current k) = false ->
  let ts := flipped (branch k height) (ban_char_to_mask ban) (tasks k) in
  sys_flip_ban_branch height ban k =
    Ok (count_banned ts (ban_char_to_mask ban) (branch k height), Kernel ts (current k) (klog k)).
Proof.
  intros Hwf Hh Hm Hb. rewrite flip_run by done. unfold flip_result.
  destruct (Z.leb_spec height 0); [lia|]. destruct (Z.ltb_spec (ban_char_to_mask ban) 0); [lia|]. cbn [orb].
  by rewrite Hb.
Qed.

Lemma flip_success_twice k height ban :
  wf k -> 0 < height -> 0 <= ban_char_to_mask ban -> banned (tasks k) (ban_char_to_mask ban) (current k) = false ->
  exists k1 r1 r2, sys_flip_ban_branch height ban k = Ok (r1, k1) /\ sys_flip_ban_branch height ban k1 = Ok (r2, k) /\
    0 <= r1 /\ 0 <= r2 /\ r1 + r2 = Z.of_nat (length (branch k height)).
Proof.
  intros Hwf Hh Hm Hb. pose proof (mask_valid _ Hm) as Hm'. pose proof (wf_bans _ Hwf) as Hbans.
  destruct (wf_current _ Hwf) as [me Hme].
  do 3 eexists. split; [by apply flip_success|]. split.
  - rewrite flip_success; [|by apply wf_flipped|done|done|]; cbn [tasks current klog].
    + rewrite branch_flipped, flipped_involutive by done. by destruct k.
    + rewrite banned_flipped by eauto. by rewrite decide_False by by apply branch_not_self.
  - unfold count_banned at 1 2. split; [lia|]. split; [lia|].
    apply count_complement. intros a Ha.
    rewrite banned_flipped by (try done; by eapply branch_is_some). by rewrite decide_True.
Qed.

(** ** Properties *)

(** C28: [sys_flip_ban_branch] on every kernel whose processes form a tree:
    it terminates without dereferencing a null pointer; an invalid height or
    character gives -EINVAL before a ban of the caller gives -EPERM, both
    without effect; otherwise exactly the tasks of the branch - distinct
    ancestors, at most [height] of them, never the caller - have the one bit
    inverted, every other task and field is as before, and the result is the
    number of them that are banned afterwards. *)
Theorem flip_ban_branch_ok k height ban :
  wf k ->
  let mask := ban_char_to_mask ban in
  let anc := branch k height in
  NoDup anc /\ Z.of_nat (length anc) <= Z.max 0 height /\ current k ∉ anc /\
  exists r ts, sys_flip_ban_branch height ban k = Ok (r, Kernel ts (current k) (klog k)) /\
    if (height <=? 0) || (mask <? 0) then r = - EINVAL /\ ts = tasks k
    else if banned (tasks k) mask (current k) then r = - EPERM /\ ts = tasks k
    else r = count_banned ts mask anc /\
         forall a, ts !! a = (fun t => if decide (a ∈ anc)
                                       then Task (Z.lxor (syscall_bans t) mask) (real_parent t)
                                       else t) <$> tasks k !! a.
Proof.
  intros Hwf mask anc. split_and!.
  - subst anc. unfold branch. case_match; [by apply up_NoDup|constructor].
  - subst anc. unfold branch. case_match; [|cbn; lia].
    pose proof (up_length (tasks k) (Z.to_nat height) (real_parent t)). lia.
  - by apply branch_not_self.
  - rewrite flip_run by done. unfold flip_result. fold mask. destruct ((height <=? 0) || (mask <? 0)).
    + exists (- EINVAL), (tasks k). by destruct k.
    + case_match; [exists (- EPERM), (tasks k); by destruct k|]. do 2 eexists. split; [done|]. split; [done|].
      intros a. apply lookup_flipped.
Qed.

(** Flipping the same branch twice restores every task: the second call
    undoes the first one exactly, on every branch of the code, and when the
    calls succeed the two results add up to the number of ancestors
    reached. *)
Theorem flip_twice k height ban :
  wf k ->
  exists r1 r2 k1,
    sys_flip_ban_branch height ban k = Ok (r1, k1) /\ sys_flip_ban_branch height ban k1 = Ok (r2, k) /\
    ((r1 < 0 /\ r2 = r1) \/
     (0 <= r1 /\ 0 <= r2 /\ r1 + r2 = Z.of_nat (length (branch k height)))).
Proof.
  intros Hwf.
  assert (Herr : forall r, r < 0 -> flip_result k height ban = (r, k) -> exists r1 r2 k1,
    sys_flip_ban_branch height ban k = Ok (r1, k1) /\ sys_flip_ban_branch height ban k1 = Ok (r2, k) /\
    ((r1 < 0 /\ r2 = r1) \/ (0 <= r1 /\ 0 <= r2 /\ r1 + r2 = Z.of_nat (length (branch k height))))).
  { intros r Hr Hres. exists r, r, k. rewrite !flip_run, Hres by done. split; [done|]. split; [done|by left]. }
  destruct (Z.leb_spec height 0) as [Hh|Hh].
  { apply (Herr (- EINVAL)); [done|]. unfold flip_result. by rewrite (proj2 (Z.leb_le _ _) Hh). }
  destruct (Z.ltb_spec (ban_char_to_mask ban) 0) as [Hm|Hm].
  { apply (Herr (- EINVAL)); [done|]. unfold flip_result. rewrite (proj2 (Z.ltb_lt _ _) Hm). by rewrite orb_true_r. }
  destruct (banned (tasks k) (ban_char_to_mask ban) (current k)) eqn:Hb.
  { apply (Herr (- EPERM)); [done|]. unfold flip_result. rewrite (proj2 (Z.leb_gt _ _) Hh), (proj2 (Z.ltb_ge _ _) Hm).
    cbn [orb]. by rewrite Hb. }
  destruct (flip_success_twice k height ban) as (k1 & r1 & r2 & H1 & H2 & Hr); [done..|].
  exists r1, r2, k1. split; [done|]. split; [done|by right].
Qed.

(** [sys_set_ban] checks its arguments before the caller's uid; with a
    negative argument or a caller other than root nothing changes.
    Otherwise it succeeds, changes no other task and no other field, and
    [sys_get_ban] then reports each of the three bans as set exactly when its
    argument was positive, and -EINVAL for any other character. *)
Theorem set_ban_then_get_ban k root g p q :
  wf k ->
  if (g <? 0) || (p <? 0) || (q <? 0) then sys_set_ban root g p q k = Ok (- EINVAL, k)
  else if negb root then sys_set_ban root g p q k = Ok (- EPERM, k)
  else exists k1, sys_set_ban root g p q k = Ok (0, k1) /\
    (forall a, a <> current k -> tasks k1 !! a = tasks k !! a) /\ same_tree (tasks k) (tasks k1) /\
    current k1 = current k /\ klog k1 = klog k /\
    forall ban, sys_get_ban ban k1 =
      Ok (if Ascii.eqb ban "g" then Z.min g 1
          else if Ascii.eqb ban "p" then Z.min p 1
          else if Ascii.eqb ban "k" then Z.min q 1
          else - EINVAL, k1).
Proof.
  intros Hwf. destruct (wf_current _ Hwf) as [me Hme]. rewrite (set_ban_run k me) by done.
  destruct ((g <? 0) || (p <? 0) || (q <? 0)) eqn:Hneg; [done|]. destruct root; [|done]. cbn [negb].
  destruct (mask_bits g p q) as (_ & Hg & Hp & Hq); [lia..|].
  set (v := Z.min g 1 + _ + _) in *. eexists. split; [done|]. cbn [tasks current klog].
  split; [intros a Ha; by apply lookup_insert_ne|]. split; [by apply same_tree_insert|]. split; [done|]. split; [done|].
  intros ban. rewrite (get_ban_run _ (Task v (real_parent me))) by apply lookup_insert_eq.
  unfold banned, ban_char_to_mask. cbn [tasks current]. rewrite lookup_insert_eq. cbn [syscall_bans].
  repeat case_match; try done; unfold BAN_GETPID, BAN_PIPE, BAN_KILL in *; do 2 f_equal; lia.
Qed.

(** C29: A ban is enforced: after a successful [sys_set_ban] the guarded
    [getpid], [pipe] and [kill] fail with -EPERM, without running the
    kernel's function, exactly when their argument was positive; otherwise
    they are the kernel's function. *)
Theorem set_ban_enforced k g p q (getpid pipe kill : M kernel Z) :
  wf k -> 0 <= g -> 0 <= p -> 0 <= q ->
  exists k1, sys_set_ban true g p q k = Ok (0, k1) /\
    sys_getpid getpid k1 = (if 0 <? g then Ok (- EPERM, k1) else getpid k1) /\
    sys_pipe2 pipe k1 = (if 0 <? p then Ok (- EPERM, k1) else pipe k1) /\
    sys_kill kill k1 = (if 0 <? q then Ok (- EPERM, k1) else kill k1).
Proof.
  intros Hwf Hg Hp Hq. destruct (wf_current _ Hwf) as [me Hme]. rewrite (set_ban_run k me) by done.
  rewrite !(proj2 (Z.ltb_ge _ 0)) by done. cbn [orb negb].
  destruct (mask_bits g p q) as (_ & Bg & Bp & Bq); [lia..|]. set (v := Z.min g 1 + _ + _) in *.
  eexists. split; [done|]. unfold sys_getpid, sys_pipe2, sys_kill.
  rewrite !(guarded_run _ (Task v (real_parent me))) by apply lookup_insert_eq.
  unfold banned. cbn [tasks current]. rewrite lookup_insert_eq. cbn [syscall_bans]. rewrite Bg, Bp, Bq.
  by split_and!.
Qed.

(** C30: [sys_check_ban] changes nothing, and its errors have the documented
    priority: an invalid character, then an unknown pid, then a caller that
    is itself banned; otherwise it reports whether the target is banned. *)
Theorem check_ban_ok find k pid ban :
  wf k -> (find pid <> 0 -> is_Some (tasks k !! find pid)) ->
  exists r, sys_check_ban find pid ban k = Ok (r, k) /\
    let mask := ban_char_to_mask ban in
    if mask <? 0 then r = - EINVAL
    else if find pid =? 0 then r = - ESRCH
    else if banned (tasks k) mask (current k) then r = - EPERM
    else r = (if banned (tasks k) mask (find pid) then 1 else 0).
Proof.
  intros Hwf Hfind. rewrite check_ban_run by done. eexists. split; [done|]. cbn zeta. by repeat case_match.
Qed.

(** A process never reads its own ban with [sys_check_ban]: on its own
    pid the answer is 0 or an error, and -EPERM when it is banned. *)
Theorem check_ban_self find k pid ban r k' :
  wf k -> find pid = current k -> sys_check_ban find pid ban k = Ok (r, k') ->
  r = - EINVAL \/ (banned (tasks k) (ban_char_to_mask ban) (current k) = true /\ r = - EPERM) \/
  (banned (tasks k) (ban_char_to_mask ban) (current k) = false /\ r = 0).
Proof.
  intros Hwf Hfind. rewrite check_ban_run by (try done; rewrite Hfind; intros _; apply (wf_current _ Hwf)).
  rewrite Hfind. destruct (wf_current _ Hwf) as [me Hme]. intros [= <- _].
  case_match; [by left|right]. destruct (Z.eqb_spec (current k) 0) as [He|].
  { pose proof (wf_null _ Hwf) as Hn. rewrite <- He in Hn. by rewrite Hme in Hn. }
  destruct (banned _ _ _); [by left|by right].
Qed.

(** ** Sequences of calls *)

(** The calls of this file, and a step: the process that makes the call,
    whether it is root's, and the call. *)
Inductive call :=
| Hello
| SetBan (ban_getpid ban_pipe ban_kill : Z)
| GetBan (ban : ascii)
| CheckBan (pid : Z) (ban : ascii)
| FlipBanBranch (height : Z) (ban : ascii).

Definition run_call (find : Z -> Z) (root : bool) (c : call) : M kernel Z :=
  match c with
  | Hello => sys_hello
  | SetBan g p q => sys_set_ban root g p q
  | GetBan ban => sys_get_ban ban
  | CheckBan pid ban => sys_check_ban find pid ban
  | FlipBanBranch height ban => sys_flip_ban_branch height ban
  end.

Definition run_calls (find : Z -> Z) : list (Z * bool * call) -> M kernel unit :=
  for_each (fun '(p, root, c) =>
    modify (fun k => Kernel (tasks k) p (klog k)) ;;* (run_call find root c ;;* ret tt)).

Lemma run_call_wf find root c k :
  wf k -> (forall pid, find pid <> 0 -> is_Some (tasks k !! find pid)) ->
  wp (run_call find root c) (fun _ k' => wf k' /\ same_tree (tasks k) (tasks k') /\ current k' = current k) k.
Proof.
  intros Hwf Hfind. destruct (wf_current _ Hwf) as [me Hme]. unfold wp, run_call.
  destruct c as [|g p q|ban|pid ban|height ban].
  - cbn. split; [|done]. apply wf_same_tree; [done|done|apply (wf_bans _ Hwf)].
  - rewrite (set_ban_run k me) by done. destruct ((g <? 0) || (p <? 0) || (q <? 0)) eqn:Hneg; [done|].
    destruct root; [|done]. cbn [negb]. destruct (mask_bits g p q) as [Hv _]; [lia..|].
    split; [by apply wf_insert|]. split; [by apply same_tree_insert|done].
  - by rewrite (get_ban_run k me) by done.
  - by rewrite check_ban_run by auto.
  - rewrite flip_run by done. unfold flip_result. destruct (Z.leb_spec height 0); [done|].
    destruct (Z.ltb_spec (ban_char_to_mask ban) 0); [done|]. cbn [orb]. destruct (banned _ _ _); [done|].
    split; [|split; [apply same_tree_flipped|done]]. apply wf_flipped; [done|]. apply mask_valid. lia.
Qed.

(** C31: Any sequence of these calls, made by any processes of the kernel in
    any order, runs without dereferencing a null or dangling task pointer,
    keeps every mask among the eight values of three ban bits, and never
    changes the set of tasks or a parent pointer. *)
Theorem syscalls_preserve_wf find steps k :
  wf k -> (forall pid, find pid <> 0 -> is_Some (tasks k !! find pid)) ->
  (forall p root c, (p, root, c) ∈ steps -> is_Some (tasks k !! p)) ->
  wp (run_calls find steps) (fun _ k' => wf k' /\ same_tree (tasks k) (tasks k')) k.
Proof.
  intros Hwf Hfind Hsteps. eapply wp_mono.
  - apply (wp_for_each (fun l k' => wf k' /\ same_tree (tasks k) (tasks k') /\
      forall p root c, (p, root, c) ∈ l -> is_Some (tasks k !! p))); [|by split].
    intros [[p root] c] l k' (Hwf' & Hsame & Hl). wp_step. wp_step. cbn. wp_step.
    eapply wp_mono; [apply run_call_wf|].
    + destruct Hwf' as [_ ? ? ? ?]. split; try done. cbn. eapply same_tree_is_some; [done|].
      eapply Hl. by left.
    + intros pid Hpid. cbn. eapply same_tree_is_some; [done|]. by apply Hfind.
    + cbn. intros _ k'' (Hwf'' & Hsame'' & _). split; [done|]. split; [intros a; by rewrite Hsame'', Hsame|].
      intros p' r' c' Hin. eapply Hl. by right.
  - by intros _ k' (? & ? & _).
Qed.

(** ** Witnesses *)

(** The idle task, its own parent; init; a shell with a ban; its child, the
    caller. *)
Definition toy_kernel : kernel :=
  Kernel {[ 1 := Task 0 1; 2 := Task 0 1; 3 := Task 1 2; 4 := Task 4 3 ]} 4 [].

Lemma toy_kernel_cases a t :
  tasks toy_kernel !! a = Some t ->
  (a = 1 /\ t = Task 0 1) \/ (a = 2 /\ t = Task 0 1) \/ (a = 3 /\ t = Task 1 2) \/ (a = 4 /\ t = Task 4 3).
Proof.
  cbn [toy_kernel tasks]. rewrite !lookup_insert_Some, lookup_singleton_Some. naive_solver.
Qed.

Lemma toy_kernel_wf : wf toy_kernel.
Proof.
  split.
  - vm_compute. eauto.
  - done.
  - intros a t [[-> ->]|[[-> ->]|[[-> ->]|[-> ->]]]]%toy_kernel_cases; right; vm_compute; eauto.
  - intros a t [[-> ->]|[[-> ->]|[[-> ->]|[-> ->]]]]%toy_kernel_cases; cbn; lia.
  - exists Z.to_nat. intros a t [[-> ->]|[[-> ->]|[[-> ->]|[-> ->]]]]%toy_kernel_cases; cbn; lia.
Qed.

(** Both ancestors below the idle task are flipped: init included. *)
Lemma flip_ban_branch_ok_witness :
  wf toy_kernel /\ branch toy_kernel 5 = [3; 2] /\
  exists r ts, sys_flip_ban_branch 5 "g" toy_kernel = Ok (r, Kernel ts 4 []) /\ r = 1 /\
    ts !! 2 = Some (Task 1 1) /\ ts !! 3 = Some (Task 0 2).
Proof.
  split; [exact toy_kernel_wf|]. split; [by vm_compute|].
  destruct (flip_ban_branch_ok toy_kernel 5 "g" toy_kernel_wf) as (_ & _ & _ & r & ts & Hrun & Hr).
  exists r, ts. split; [exact Hrun|].
  change (r = count_banned ts 1 [3; 2] /\ forall a, ts !! a =
    (fun t => if decide (a ∈ [3; 2]) then Task (Z.lxor (syscall_bans t) 1) (real_parent t) else t)
      <$> tasks toy_kernel !! a) in Hr.
  destruct Hr as [Hr Hts]. split; [|rewrite !Hts; by vm_compute].
  rewrite Hr. unfold count_banned. cbn [List.filter]. unfold banned. rewrite !Hts. by vm_compute.
Defined.

Lemma flip_twice_witness :
  wf toy_kernel /\ exists r1 r2 k1, sys_flip_ban_branch 5 "g" toy_kernel = Ok (r1, k1) /\
    sys_flip_ban_branch 5 "g" k1 = Ok (r2, toy_kernel).
Proof.
  split; [exact toy_kernel_wf|].
  destruct (flip_twice toy_kernel 5 "g" toy_kernel_wf) as (r1 & r2 & k1 & H1 & H2 & _).
  exists r1, r2, k1. by split.
Defined.

Lemma set_ban_then_get_ban_witness :
  wf toy_kernel /\ exists k1, sys_set_ban true 1 0 7 toy_kernel = Ok (0, k1) /\
    sys_get_ban "g" k1 = Ok (1, k1) /\ sys_get_ban "p" k1 = Ok (0, k1) /\ sys_get_ban "k" k1 = Ok (1, k1).
Proof.
  split; [exact toy_kernel_wf|].
  destruct (set_ban_then_get_ban toy_kernel true 1 0 7 toy_kernel_wf) as (k1 & H1 & _ & _ & _ & _ & Hget).
  exists k1. split; [exact H1|]. rewrite !Hget. by split_and!.
Defined.

Lemma set_ban_enforced_witness :
  exists k1, sys_set_ban true 1 0 0 toy_kernel = Ok (0, k1) /\
    sys_getpid (ret 77) k1 = Ok (-1, k1) /\ sys_pipe2 (ret 77) k1 = Ok (77, k1).
Proof.
  destruct (set_ban_enforced toy_kernel 1 0 0 (ret 77) (ret 77) (ret 77) toy_kernel_wf)
    as (k1 & H1 & H2 & H3 & _); [lia..|].
  exists k1. split; [exact H1|]. split; [exact H2|exact H3].
Defined.

(** A pid table: the pid is the address, for the four tasks. *)
Definition toy_find (pid : Z) : Z := if (1 <=? pid) && (pid <=? 4) then pid else 0.

Lemma toy_find_task pid : toy_find pid <> 0 -> is_Some (tasks toy_kernel !! toy_find pid).
Proof.
  unfold toy_find. destruct ((1 <=? pid) && (pid <=? 4)) eqn:Hp; [|done]. intros _.
  assert (pid = 1 \/ pid = 2 \/ pid = 3 \/ pid = 4) as [->|[->|[->| ->]]] by lia; vm_compute; eauto.
Qed.

Lemma check_ban_ok_witness :
  exists r, sys_check_ban toy_find 3 "g" toy_kernel = Ok (r, toy_kernel) /\ r = 1.
Proof.
  destruct (check_ban_ok toy_find toy_kernel 3 "g" toy_kernel_wf (toy_find_task 3)) as (r & H1 & H2).
  exists r. split; [exact H1|]. exact H2.
Defined.

Lemma check_ban_self_witness :
  exists r, sys_check_ban toy_find 4 "k" toy_kernel = Ok (r, toy_kernel) /\
    (r = -22 \/ (true = true /\ r = -1) \/ (true = false /\ r = 0)).
Proof.
  exists (-1). split; [by vm_compute|].
  exact (check_ban_self toy_find toy_kernel 4 "k" (-1) toy_kernel toy_kernel_wf eq_refl
           ltac:(by vm_compute)).
Defined.

Lemma syscalls_preserve_wf_witness :
  let steps := [(4, true, SetBan 1 1 0); (3, false, FlipBanBranch 2 "k"); (4, false, CheckBan 3 "k"); (2, false, Hello)] in
  wp (run_calls toy_find steps) (fun _ k' => wf k' /\ same_tree (tasks toy_kernel) (tasks k')) toy_kernel.
Proof.
  apply syscalls_preserve_wf; [exact toy_kernel_wf|exact toy_find_task|].
  intros p root c Hin. rewrite !elem_of_cons in Hin.
  destruct Hin as [[= -> -> ->]|[[= -> -> ->]|[[= -> -> ->]|[[= -> -> ->]|Hin]]]];
    [vm_compute; eauto..|by apply elem_of_nil in Hin].
Defined.
