(* ===== verification/Monitor.v ===== *)
(** * POSIX threads: mutex and condition variables

    The thread primitives the web server's code uses, as an interleaving
    semantics: threads run operations whose bodies are lists of statements
    over a shared state, one mutex and its condition variables.  The
    semantics is the documented behaviour of [pthread_mutex_*] and
    [pthread_cond_*], spurious wake-ups and barging included; the bodies are
    the code's, given by the files that model [server.c] and [log.c].  The
    file ends with the facts every such program shares: mutual exclusion for
    well-bracketed bodies, and the algebra of counting threads. *)

From S2P Require Import Prelude.

Section monitor.
Context {Sh Lo CV Op Ev : Type} `{!EqDecision CV}.

(** ** Statements and threads *)

(** Which threads a statement wakes: none, one that waits on the variable,
    or all of them. *)
Inductive notice := Nobody | One (cv : CV) | All (cv : CV).

Inductive instr :=
| Lock
| Unlock
| WaitWhile (c : Sh -> bool) (cv : CV)   (* while (c) pthread_cond_wait(cv) *)
| Act (f : Lo -> Sh -> option (Lo * Sh * option Ev))   (* None: undefined *)
| Notify (f : Sh -> notice).

Inductive status := Running | Waiting (cv : CV) | Woken.

(** A thread: the operation it is in the middle of, if any, the statement it
    is at, its local variables. *)
Record thread := Thread {
  op : option Op;
  pc : nat;
  local : Lo;
  stat : status;
}.

Record config := Config {
  shared : Sh;
  owner : option nat;
  threads : list thread;
}.

Definition with_stat (st : status) (th : thread) : thread := Thread (op th) (pc th) (local th) st.
Definition next (th : thread) : thread := Thread (op th) (S (pc th)) (local th) (stat th).

#[export] Instance status_eq_dec : EqDecision status.
Proof. solve_decision. Defined.

(** 1 for a thread asleep on [cv]. *)
Definition waiting (cv : CV) (th : thread) : Z := if decide (stat th = Waiting cv) then 1 else 0.

Lemma waiting_nonneg cv th : 0 <= waiting cv th.
Proof. unfold waiting. case_decide; lia. Qed.

Definition wake (cv : CV) (th : thread) : thread :=
  if decide (stat th = Waiting cv) then with_stat Woken th else th.

(** The effect of a notification on the threads; [One] leaves the choice of
    the waiter open. *)
Inductive notified : notice -> list thread -> list thread -> Prop :=
| notified_nobody ths : notified Nobody ths ths
| notified_none cv ths :
    (forall th, th ∈ ths -> stat th <> Waiting cv) -> notified (One cv) ths ths
| notified_one cv ths j th :
    ths !! j = Some th -> stat th = Waiting cv -> notified (One cv) ths (<[j := with_stat Woken th]> ths)
| notified_all cv ths : notified (All cv) ths (map (wake cv) ths).

Context (body : Op -> list instr) (init : Op -> Lo).

Definition at_instr (th : thread) : option instr :=
  match op th with Some o => body o !! pc th | None => None end.

(** One step of one thread.  A thread at [Lock] has to find the mutex free;
    a woken one too, and it then evaluates its condition again. *)
Inductive step : config -> option Ev -> config -> Prop :=
| step_start s w ths i o th :
    ths !! i = Some th -> op th = None ->
    step (Config s w ths) None (Config s w (<[i := Thread (Some o) 0 (init o) Running]> ths))
| step_return s w ths i o th :
    ths !! i = Some th -> op th = Some o -> stat th = Running -> pc th = length (body o) ->
    step (Config s w ths) None (Config s w (<[i := Thread None 0 (local th) Running]> ths))
| step_lock s ths i th :
    ths !! i = Some th -> stat th = Running -> at_instr th = Some Lock ->
    step (Config s None ths) None (Config s (Some i) (<[i := next th]> ths))
| step_unlock s ths i th :
    ths !! i = Some th -> stat th = Running -> at_instr th = Some Unlock ->
    step (Config s (Some i) ths) None (Config s None (<[i := next th]> ths))
| step_pass s ths i th c cv :
    ths !! i = Some th -> stat th = Running -> at_instr th = Some (WaitWhile c cv) -> c s = false ->
    step (Config s (Some i) ths) None (Config s (Some i) (<[i := next th]> ths))
| step_wait s ths i th c cv :
    ths !! i = Some th -> stat th = Running -> at_instr th = Some (WaitWhile c cv) -> c s = true ->
    step (Config s (Some i) ths) None (Config s None (<[i := with_stat (Waiting cv) th]> ths))
| step_spurious s w ths i th cv :
    ths !! i = Some th -> stat th = Waiting cv ->
    step (Config s w ths) None (Config s w (<[i := with_stat Woken th]> ths))
| step_relock s ths i th :
    ths !! i = Some th -> stat th = Woken ->
    step (Config s None ths) None (Config s (Some i) (<[i := with_stat Running th]> ths))
| step_act s w ths i th f l' s' e :
    ths !! i = Some th -> stat th = Running -> at_instr th = Some (Act f) -> f (local th) s = Some (l', s', e) ->
    step (Config s w ths) e (Config s' w (<[i := Thread (op th) (S (pc th)) l' Running]> ths))
| step_notify s w ths i th f ths' :
    ths !! i = Some th -> stat th = Running -> at_instr th = Some (Notify f) -> notified (f s) ths ths' ->
    step (Config s w ths) None (Config s w (<[i := next th]> ths')).

(** Runs, with the events they emit. *)
Inductive run : config -> list Ev -> config -> Prop :=
| run_nil c : run c [] c
| run_snoc c tr c1 e c2 :
    run c tr c1 -> step c1 e c2 -> run c (tr ++ option_list e) c2.

Lemma run_cons c e c1 tr c2 : step c e c1 -> run c1 tr c2 -> run c (option_list e ++ tr) c2.
Proof.
  intros Hstep Hrun. induction Hrun as [c1|c1 tr c2 e' c3 Hrun IH Hs].
  - rewrite app_nil_r. by eapply (run_snoc _ []); [constructor|].
  - rewrite app_assoc. by eapply run_snoc; [apply IH|].
Qed.

Definition idle (th : thread) : Prop := op th = None /\ stat th = Running.

Definition initial (s : Sh) (c : config) : Prop :=
  shared c = s /\ owner c = None /\ Forall idle (threads c).

(** Invariants by induction over runs. *)
Lemma run_invariant (Inv : list Ev -> config -> Prop) c tr c' :
  run c tr c' -> Inv [] c ->
  (forall tr c e c', Inv tr c -> step c e c' -> Inv (tr ++ option_list e) c') -> Inv tr c'.
Proof. intros Hrun H0 Hstep. induction Hrun; eauto. Qed.

(** ** Well-bracketed bodies *)

(** Whether the thread at statement [n] of a body holds the mutex (unless it
    waits in that statement). *)
Fixpoint held (b : list instr) (n : nat) (h : bool) : bool :=
  match n, b with
  | S n', i :: b' => held b' n' (match i with Lock => true | Unlock => false | _ => h end)
  | _, _ => h
  end.

Fixpoint well_locked (b : list instr) (h : bool) : bool :=
  match b with
  | [] => negb h
  | Lock :: b' => negb h && well_locked b' true
  | Unlock :: b' => h && well_locked b' false
  | WaitWhile _ _ :: b' => h && well_locked b' h
  | Act _ :: b' | Notify _ :: b' => well_locked b' h
  end.

Lemma held_at b h n i :
  well_locked b h = true -> b !! n = Some i ->
  match i with
  | Lock => held b n h = false /\ held b (S n) h = true
  | Unlock => held b n h = true /\ held b (S n) h = false
  | WaitWhile _ _ => held b n h = true /\ held b (S n) h = true
  | _ => held b (S n) h = held b n h
  end.
Proof.
  revert h n. induction b as [|j b IH]; intros h n Hw Hn; [done|]. destruct n as [|n].
  - injection Hn as ->. destruct i; cbn in *; destruct h; try done; by destruct b.
  - cbn [held]. destruct j; cbn in Hw; try (apply andb_true_iff in Hw as [_ Hw]); by apply (IH _ _ Hw Hn).
Qed.

Lemma held_end b h : well_locked b h = true -> held b (length b) h = false.
Proof.
  revert h. induction b as [|j b IH]; intros h Hw; cbn in *; [by destruct h|].
  destruct j; try (apply andb_true_iff in Hw as [_ Hw]); by apply IH.
Qed.

Definition holding (th : thread) : bool :=
  match op th, stat th with
  | Some o, Running => held (body o) (pc th) false
  | _, _ => false
  end.

(** A thread that waits or was woken is at a wait statement; one that runs
    is not past the end of its call's body. *)
Definition waits_well (th : thread) : Prop :=
  match stat th with
  | Running => forall o, op th = Some o -> (pc th <= length (body o))%nat
  | Waiting cv => exists c, at_instr th = Some (WaitWhile c cv)
  | Woken => exists c cv, at_instr th = Some (WaitWhile c cv)
  end.

(** ** Mutual exclusion *)

(** The mutex's owner is the one thread inside a locked region. *)
Record exclusive (c : config) : Prop := {
  excl_owner : forall i th, threads c !! i = Some th -> holding th = true <-> owner c = Some i;
  excl_alive : forall i, owner c = Some i -> is_Some (threads c !! i);
  excl_waits : forall i th, threads c !! i = Some th -> waits_well th;
}.

Lemma notified_lookup n ths ths' i th' :
  notified n ths ths' -> ths' !! i = Some th' ->
  exists th, ths !! i = Some th /\ (th' = th \/ (exists cv, stat th = Waiting cv) /\ th' = with_stat Woken th).
Proof.
  destruct 1 as [ths|cv ths H|cv ths j th Hj Hw|cv ths]; intros Hi; eauto.
  - destruct (decide (i = j)) as [->|].
    + rewrite list_lookup_insert_eq in Hi by by eapply lookup_lt_Some. injection Hi as <-. eauto 8.
    + rewrite list_lookup_insert_ne in Hi by done. eauto.
  - apply list_lookup_fmap_Some in Hi as (th & -> & Hi). exists th. split; [done|].
    unfold wake. case_decide; eauto.
Qed.

Lemma notified_length n ths ths' : notified n ths ths' -> length ths' = length ths.
Proof. destruct 1; rewrite ?length_insert, ?length_map; done. Qed.

Lemma notified_running n ths ths' i th :
  notified n ths ths' -> ths !! i = Some th -> stat th = Running -> ths' !! i = Some th.
Proof.
  destruct 1 as [ths|cv ths H|cv ths j th' Hj Hw|cv ths]; intros Hi Hr; try done.
  - rewrite list_lookup_insert_ne; [done|]. intros ->. congruence.
  - rewrite list_lookup_fmap, Hi. cbn. unfold wake. rewrite decide_False; [done|]. by rewrite Hr.
Qed.

(** Replacing one thread: the others keep the property. *)
Lemma exclusive_insert s s' w w' ths i th th' :
  exclusive (Config s w ths) -> ths !! i = Some th ->
  waits_well th' ->
  (holding th' = true <-> w' = Some i) ->
  (forall j, j <> i -> w' = Some j <-> w = Some j) ->
  exclusive (Config s' w' (<[i := th']> ths)).
Proof.
  intros [Ho Ha Hw] Hi Hw' Hh Hj. pose proof (lookup_lt_Some _ _ _ Hi). split; cbn in *.
  - intros j tj. destruct (decide (j = i)) as [->|Hne].
    + rewrite list_lookup_insert_eq by done. by intros [= <-].
    + rewrite list_lookup_insert_ne by done. intros Htj. by rewrite (Hj _ Hne), (Ho _ _ Htj).
  - intros j Hwj. destruct (decide (j = i)) as [->|Hne].
    + rewrite list_lookup_insert_eq; eauto.
    + rewrite list_lookup_insert_ne by done. apply Ha. by apply Hj.
  - intros j tj. destruct (decide (j = i)) as [->|Hne].
    + rewrite list_lookup_insert_eq by done. by intros [= <-].
    + rewrite list_lookup_insert_ne by done. apply Hw.
Qed.

Lemma exclusive_notified s w n ths ths' :
  exclusive (Config s w ths) -> notified n ths ths' -> exclusive (Config s w ths').
Proof.
  intros [Ho Ha Hw] Hn. split; cbn in *.
  - intros i th' Hi. destruct (notified_lookup _ _ _ _ _ Hn Hi) as (th & Hth & [->|[[cv Hcv] ->]]); [by apply Ho|].
    rewrite <- (Ho _ _ Hth). unfold holding. cbn. rewrite Hcv. by destruct (op th).
  - intros i Hi. apply lookup_lt_is_Some. rewrite (notified_length _ _ _ Hn). by apply lookup_lt_is_Some, Ha.
  - intros i th' Hi. destruct (notified_lookup _ _ _ _ _ Hn Hi) as (th & Hth & [->|[[cv Hcv] ->]]); [by eapply Hw|].
    specialize (Hw _ _ Hth). unfold waits_well in *. rewrite Hcv in Hw. cbn. destruct Hw as [c Hc]. by exists c, cv.
Qed.

Context (Hlocked : forall o, well_locked (body o) false = true).

Lemma at_instr_held th i :
  at_instr th = Some i -> exists o, op th = Some o /\ body o !! pc th = Some i /\
  match i with
  | Lock => held (body o) (pc th) false = false /\ held (body o) (S (pc th)) false = true
  | Unlock => held (body o) (pc th) false = true /\ held (body o) (S (pc th)) false = false
  | WaitWhile _ _ => held (body o) (pc th) false = true /\ held (body o) (S (pc th)) false = true
  | _ => held (body o) (S (pc th)) false = held (body o) (pc th) false
  end.
Proof.
  unfold at_instr. destruct (op th) as [o|]; [|done]. intros Hi. exists o. split_and!; [done|done|].
  by apply held_at.
Qed.

Lemma waits_well_next th i l : at_instr th = Some i -> waits_well (Thread (op th) (S (pc th)) l Running).
Proof.
  intros Hat o Hop. cbn in *. unfold at_instr in Hat. rewrite Hop in Hat. by apply lookup_lt_Some in Hat.
Qed.

Lemma holding_next th l o :
  op th = Some o -> holding (Thread (op th) (S (pc th)) l Running) = held (body o) (S (pc th)) false.
Proof. intros Hop. unfold holding. cbn. by rewrite Hop. Qed.

Lemma next_running th : stat th = Running -> next th = Thread (op th) (S (pc th)) (local th) Running.
Proof. unfold next. by intros ->. Qed.

Lemma step_exclusive c e c' : exclusive c -> step c e c' -> exclusive c'.
Proof.
  intros Hex Hstep. pose proof Hex as [Ho _ Hw]. destruct Hstep; cbn in Ho, Hw; rewrite ?next_running by done;
    try (match goal with Hat : at_instr ?th = Some _ |- _ =>
           pose proof (waits_well_next _ _ (local th) Hat); destruct (at_instr_held _ _ Hat) as (o & Hop & _ & Hheld) end).
  - eapply exclusive_insert; [done..|intros o' _; cbn; lia| |done].
    rewrite <- (Ho _ _ H). unfold holding. rewrite H0. cbn. by destruct (body o).
  - eapply exclusive_insert; [done..| |done]. rewrite <- (Ho _ _ H). unfold holding. rewrite H0, H1, H2. cbn.
    by rewrite held_end.
  - eapply exclusive_insert; [done..| |].
    + rewrite (holding_next _ _ o) by done. by destruct Hheld as [_ ->].
    + intros j Hj. split; [by intros [= ->]|done].
  - eapply exclusive_insert; [done..| |].
    + rewrite (holding_next _ _ o) by done. by destruct Hheld as [_ ->].
    + intros j Hj. split; [done|]. by intros [= ->].
  - eapply exclusive_insert; [done..| |done].
    rewrite (holding_next _ _ o) by done. by destruct Hheld as [_ ->].
  - eapply exclusive_insert; [done..| | |].
    + unfold waits_well, at_instr in *. cbn. eauto.
    + unfold holding. cbn. by destruct (op th).
    + intros j Hj. split; [done|]. by intros [= ->].
  - eapply exclusive_insert; [done..| | |done].
    + specialize (Hw _ _ H). unfold waits_well in *. rewrite H0 in Hw. destruct Hw as [c Hc]. cbn. by exists c, cv.
    + rewrite <- (Ho _ _ H). unfold holding. cbn. rewrite H0. by destruct (op th).
  - specialize (Hw _ _ H). unfold waits_well in Hw. rewrite H0 in Hw. destruct Hw as (c & cv & Hc).
    destruct (at_instr_held _ _ Hc) as (o & Hop & Hb & Hh & _).
    eapply exclusive_insert; [done..| | |].
    + intros o' Hop'. cbn in *. simplify_eq. apply lookup_lt_Some in Hb. lia.
    + unfold holding. cbn. by rewrite Hop, Hh.
    + intros j Hj. split; [by intros [= ->]|done].
  - eapply exclusive_insert; [done..|by eapply waits_well_next| |done].
    rewrite <- (Ho _ _ H), (holding_next _ _ o), Hheld by done. unfold holding. by rewrite Hop, H0.
  - eapply exclusive_insert; [by eapply exclusive_notified|by eapply notified_running|done| |done].
    rewrite <- (Ho _ _ H), (holding_next _ _ o), Hheld by done. unfold holding. by rewrite Hop, H0.
Qed.

Lemma initial_exclusive s c : initial s c -> exclusive c.
Proof.
  intros (_ & How & Hid). rewrite Forall_lookup in Hid. split.
  - intros i th Hi. destruct (Hid _ _ Hi) as [Hop _]. rewrite How. unfold holding. rewrite Hop. done.
  - rewrite How. done.
  - intros i th Hi. destruct (Hid _ _ Hi) as [Hop Hst]. unfold waits_well. rewrite Hst. congruence.
Qed.

Lemma run_exclusive s c tr c' : initial s c -> run c tr c' -> exclusive c'.
Proof.
  intros Hi Hrun. apply (run_invariant (fun _ => exclusive) _ _ _ Hrun); [by eapply initial_exclusive|].
  intros. by eapply step_exclusive.
Qed.

(** Two threads are never both inside a locked region. *)
Lemma exclusive_unique c i j ti tj :
  exclusive c -> threads c !! i = Some ti -> threads c !! j = Some tj ->
  holding ti = true -> holding tj = true -> i = j.
Proof.
  intros [Ho _ _] Hi Hj Hti Htj. apply (Ho _ _ Hi) in Hti. apply (Ho _ _ Hj) in Htj. congruence.
Qed.

(** ** Progress *)

Lemma notified_exists n ths : exists ths', notified n ths ths'.
Proof.
  destruct n as [|cv|cv]; [eexists; constructor| |eexists; constructor].
  destruct (decide (Exists (fun th => stat th = Waiting cv) ths)) as [He|Hne].
  - apply Exists_exists in He as (th & Hin & Hst). apply list_elem_of_lookup in Hin as [j Hj].
    eexists. by eapply notified_one.
  - exists ths. apply notified_none. intros th Hin Hst. apply Hne. apply Exists_exists. eauto.
Qed.

(** The thread takes a step of its own. *)
Definition moves (c : config) (i : nat) (th : thread) : Prop :=
  exists e c' th', step c e c' /\ threads c' !! i = Some th' /\ th' <> th.

(** The thread needs the mutex, which another one owns. *)
Definition blocked (c : config) (i : nat) (th : thread) : Prop :=
  (stat th = Woken \/ at_instr th = Some Lock) /\ exists j, owner c = Some j /\ j <> i.

(** A thread inside a call sleeps, is blocked, moves, or is at an action
    while it runs. *)
Lemma progress c i th o :
  exclusive c -> threads c !! i = Some th -> op th = Some o ->
  (exists cv, stat th = Waiting cv) \/ blocked c i th \/ moves c i th \/
  (stat th = Running /\ exists f, body o !! pc th = Some (Act f)).
Proof.
  destruct c as [s w ths]. cbn. intros Hex Hi Hop. pose proof Hex as [Ho _ Hw]. cbn in Ho, Hw.
  pose proof (lookup_lt_Some _ _ _ Hi) as Hlt.
  assert (Hmv : forall e s' w' ths' th', step (Config s w ths) e (Config s' w' (<[i := th']> ths')) ->
    length ths' = length ths -> th' <> th -> moves (Config s w ths) i th).
  { intros e s' w' ths' th' Hs Hl Hne. do 3 eexists. split; [exact Hs|]. split; [|exact Hne].
    cbn. apply list_lookup_insert_eq. by rewrite Hl. }
  assert (Hnext : next th <> th) by (destruct th; unfold next; cbn; intros [=]; lia).
  destruct (stat th) as [|cv|] eqn:Hst; [|eauto|].
  - right. destruct (body o !! pc th) as [ins|] eqn:Hb.
    + assert (Hat : at_instr th = Some ins) by (unfold at_instr; by rewrite Hop).
      destruct (at_instr_held _ _ Hat) as (o' & Hop' & _ & Hheld). simplify_eq.
      assert (Hown : held (body o) (pc th) false = true -> w = Some i).
      { intros Hh. apply (Ho _ _ Hi). unfold holding. by rewrite Hop, Hst. }
      destruct ins as [| |cnd cv|f|f].
      * destruct w as [j|]; [|right; left; by eapply Hmv; [by apply step_lock|..]].
        left. split; [by right|]. exists j. split; [done|]. intros ->.
        pose proof (proj2 (Ho _ _ Hi) eq_refl) as Hh. unfold holding in Hh. rewrite Hop, Hst in Hh. destruct Hheld; congruence.
      * rewrite (Hown (proj1 Hheld)) in *. right; left. by eapply Hmv; [by apply step_unlock|..].
      * rewrite (Hown (proj1 Hheld)) in *. right; left. destruct (cnd s) eqn:Hc.
        -- eapply Hmv; [by eapply step_wait|done|]. intros He%(f_equal stat). cbn in He. congruence.
        -- by eapply Hmv; [by eapply step_pass|..].
      * right; right. eauto.
      * right; left. destruct (notified_exists (f s) ths) as [ths' Hn].
        eapply Hmv; [by eapply step_notify|by eapply notified_length|done].
    + right; left. eapply Hmv; [eapply step_return; try done|done|intros He%(f_equal op); cbn in He; congruence].
      specialize (Hw _ _ Hi). unfold waits_well in Hw. rewrite Hst in Hw. specialize (Hw _ Hop).
      apply lookup_ge_None in Hb. lia.
  - destruct w as [j|].
    + right; left. split; [by left|]. exists j. split; [done|]. intros ->.
      pose proof (proj2 (Ho _ _ Hi) eq_refl) as Hh. unfold holding in Hh. by rewrite Hop, Hst in Hh.
    + right; right; left. eapply Hmv; [by apply step_relock|done|]. intros He%(f_equal stat). cbn in He. congruence.
Qed.

(** When every thread inside a call sleeps or is blocked, the mutex is free
    and all of them sleep. *)
Lemma stuck_free c :
  exclusive c ->
  (forall i th o, threads c !! i = Some th -> op th = Some o -> (exists cv, stat th = Waiting cv) \/ blocked c i th) ->
  owner c = None /\ forall i th o, threads c !! i = Some th -> op th = Some o -> exists cv, stat th = Waiting cv.
Proof.
  intros Hex Hstuck. destruct (owner c) as [j|] eqn:How.
  - exfalso. destruct (excl_alive _ Hex _ How) as [th Hj].
    pose proof (proj2 (excl_owner _ Hex _ _ Hj) How) as Hh. unfold holding in Hh.
    destruct (op th) as [o|] eqn:Hop; [|done]. destruct (stat th) eqn:Hst; [|done..].
    destruct (Hstuck _ _ _ Hj Hop) as [[cv ?]|[_ (j' & ? & ?)]]; congruence.
  - split; [done|]. intros i th o Hi Hop. destruct (Hstuck _ _ _ Hi Hop) as [|[_ (j' & ? & ?)]]; [done|congruence].
Qed.

(** ** A call that nobody disturbs *)

(** The body of a call run by a thread on its own: it never waits. *)
Fixpoint alone (b : list instr) (l : Lo) (s : Sh) : option (Lo * Sh) :=
  match b with
  | [] => Some (l, s)
  | (Lock | Unlock | Notify _) :: b' => alone b' l s
  | WaitWhile c _ :: b' => if c s then None else alone b' l s
  | Act f :: b' => '(l', s', _) ← f l s; alone b' l' s'
  end.

Lemma notified_awake n ths : (forall th, th ∈ ths -> forall cv, stat th <> Waiting cv) -> notified n ths ths.
Proof.
  intros Hawake. destruct n as [|cv|cv]; [constructor|by apply notified_none; intros th Hth; apply Hawake|].
  rewrite <- (map_id ths) at 2. rewrite (map_ext_in _ (wake cv)); [constructor|].
  intros th Hth%list_elem_of_In. unfold wake. rewrite decide_False; [done|]. by apply Hawake.
Qed.

Definition owner_at (i : nat) (b : list instr) (n : nat) : option nat := if held b n false then Some i else None.

Lemma alone_runs_from o i ths n l s l' s' :
  (i < length ths)%nat -> (forall th, th ∈ ths -> forall cv, stat th <> Waiting cv) -> (n <= length (body o))%nat ->
  alone (drop n (body o)) l s = Some (l', s') ->
  exists tr, run (Config s (owner_at i (body o) n) (<[i := Thread (Some o) n l Running]> ths)) tr
                 (Config s' None (<[i := Thread (Some o) (length (body o)) l' Running]> ths)).
Proof.
  intros Hi Hawake. remember (length (body o) - n)%nat as k eqn:Hk. revert n l s Hk.
  induction k as [|k IH]; intros n l s Hk Hn Ha.
  - assert (n = length (body o)) as -> by lia. rewrite drop_ge in Ha by lia. cbn in Ha. simplify_eq.
    unfold owner_at. rewrite (held_end _ _ (Hlocked o)). eexists. constructor.
  - destruct (lookup_lt_is_Some_2 (body o) n ltac:(lia)) as [ins Hins]. rewrite (drop_S _ _ _ Hins) in Ha.
    set (th := Thread (Some o) n l Running).
    assert (Hat : at_instr th = Some ins) by done.
    assert (Hth : <[i := th]> ths !! i = Some th) by by apply list_lookup_insert_eq.
    pose proof (held_at _ _ _ _ (Hlocked o) Hins) as Hheld.
    assert (Hgo : forall e l1 s1, step (Config s (owner_at i (body o) n) (<[i := th]> ths)) e
        (Config s1 (owner_at i (body o) (S n)) (<[i := Thread (Some o) (S n) l1 Running]> (<[i := th]> ths))) ->
      alone (drop (S n) (body o)) l1 s1 = Some (l', s') ->
      exists tr, run (Config s (owner_at i (body o) n) (<[i := th]> ths)) tr
                     (Config s' None (<[i := Thread (Some o) (length (body o)) l' Running]> ths))).
    { intros e l1 s1 Hs Hrest. rewrite list_insert_insert_eq in Hs. destruct (IH (S n) l1 s1 ltac:(lia) ltac:(lia) Hrest) as [tr Hrun].
      exists (option_list e ++ tr). by eapply run_cons. }
    unfold owner_at in *. destruct ins as [| |c cv|f|f]; cbn [alone] in Ha.
    + destruct Hheld as [Hh0 Hh]. rewrite Hh0, Hh in *. eapply (Hgo None); [|exact Ha]. by apply (step_lock s _ i th).
    + destruct Hheld as [Hh0 Hh]. rewrite Hh0, Hh in *. eapply (Hgo None); [|exact Ha]. by apply (step_unlock s _ i th).
    + destruct Hheld as [Hh0 Hh]. rewrite Hh0, Hh in *. destruct (c s) eqn:Hc; [done|].
      eapply (Hgo None); [|exact Ha]. by apply (step_pass s _ i th c cv).
    + apply bind_Some in Ha as ([[l1 s1] e] & Hf & Ha). rewrite Hheld in *. eapply (Hgo e); [|exact Ha].
      by apply (step_act s _ _ i th f l1 s1 e).
    + rewrite Hheld in *. eapply (Hgo None); [|exact Ha].
      apply (step_notify s _ _ i th f); [done..|]. apply notified_awake. intros t [j Hj]%list_elem_of_lookup cv.
      apply list_lookup_insert_Some in Hj as [(_ & <- & _)|[_ Hj]]; [done|]. by eapply Hawake, list_elem_of_lookup_2.
Qed.

(** It comes to its end, with the result [alone] computes. *)
Lemma alone_runs o i ths th s l' s' :
  ths !! i = Some th -> op th = None -> (forall th, th ∈ ths -> forall cv, stat th <> Waiting cv) ->
  alone (body o) (init o) s = Some (l', s') ->
  exists tr, run (Config s None ths) tr (Config s' None (<[i := Thread None 0 l' Running]> ths)).
Proof.
  intros Hi Hop Hawake Ha. pose proof (lookup_lt_Some _ _ _ Hi) as Hlt.
  destruct (alone_runs_from o i ths 0 (init o) s l' s' Hlt Hawake ltac:(lia) Ha) as [tr Hrun].
  assert (Ho : owner_at i (body o) 0 = None) by (unfold owner_at; by destruct (body o)). rewrite Ho in Hrun.
  exists (tr ++ []). eapply (run_snoc _ _ _ None).
  - eapply (run_cons _ None); [by apply (step_start s None ths i o th)|exact Hrun].
  - rewrite <- (list_insert_insert_eq ths i (Thread None 0 l' Running) (Thread (Some o) (length (body o)) l' Running)).
    apply (step_return s' None _ i o (Thread (Some o) (length (body o)) l' Running)); [by apply list_lookup_insert_eq|done..].
Qed.

(** ** Threads of a program that makes calls *)

(** A thread outside enters the call [o]; one at the end of its call leaves
    it, with its local variables. *)
Definition enter (i : nat) (o : Op) (c : config) : option config :=
  th ← threads c !! i;
  match op th with
  | None => Some (Config (shared c) (owner c) (<[i := Thread (Some o) 0 (init o) Running]> (threads c)))
  | Some _ => None
  end.

Definition leave (i : nat) (c : config) : option (Op * Lo * config) :=
  th ← threads c !! i; o ← op th;
  if bool_decide (stat th = Running) && Nat.eqb (pc th) (length (body o))
  then Some (o, local th, Config (shared c) (owner c) (<[i := Thread None 0 (local th) Running]> (threads c)))
  else None.

Definition idle_at (i : nat) (c : config) : Prop := exists th, threads c !! i = Some th /\ op th = None.

Lemma enter_step i o c c' :
  enter i o c = Some c' -> exists th, threads c !! i = Some th /\ op th = None /\
    threads c' = <[i := Thread (Some o) 0 (init o) Running]> (threads c) /\ step c None c'.
Proof.
  destruct c as [s w ths]. unfold enter. cbn. intros He. apply bind_Some in He as (th & Hi & He).
  destruct (op th) eqn:Hop; [done|]. simplify_eq. exists th. split_and!; [done..|]. by apply (step_start s w ths i o th).
Qed.

Lemma leave_step i c o v c' :
  leave i c = Some (o, v, c') -> exists th, threads c !! i = Some th /\ op th = Some o /\ stat th = Running /\
    pc th = length (body o) /\ local th = v /\ threads c' = <[i := Thread None 0 v Running]> (threads c) /\ step c None c'.
Proof.
  destruct c as [s w ths]. unfold leave. cbn. intros He. apply bind_Some in He as (th & Hi & He).
  apply bind_Some in He as (o' & Hop & He). destruct (_ && _) eqn:Hc; [|done]. simplify_eq.
  apply andb_true_iff in Hc as [Hst%bool_decide_eq_true Hpc%Nat.eqb_eq].
  exists th. split_and!; [done..|]. by eapply step_return.
Qed.

Lemma idle_at_insert i j th c c' :
  threads c' = <[i := th]> (threads c) -> j <> i -> idle_at j c -> idle_at j c'.
Proof. intros Hq Hne (tj & Hj & Hop). exists tj. split; [|done]. by rewrite Hq, list_lookup_insert_ne. Qed.

Lemma idle_at_new i th c c' :
  threads c' = <[i := th]> (threads c) -> is_Some (threads c !! i) -> op th = None -> idle_at i c'.
Proof. intros Hq Hi Hop. exists th. split; [|done]. rewrite Hq. by apply list_lookup_insert_eq, lookup_lt_is_Some. Qed.

(** *** A step inside the calls *)

(** What a thread's step does to it: [R e th th'], with [e] the event. *)
Definition one_moves (R : option Ev -> thread -> thread -> Prop) (e : option Ev) (c c' : config) : Prop :=
  length (threads c') = length (threads c) /\
  exists i, (i < length (threads c))%nat /\ forall j tj', threads c' !! j = Some tj' ->
    exists tj, threads c !! j = Some tj /\ R (if decide (j = i) then e else None) tj tj'.

Lemma inside_moved (R : option Ev -> thread -> thread -> Prop) c e c' :
  (forall th, R None th th) -> (forall st th, R None th (with_stat st th)) ->
  (forall th ins, stat th = Running -> at_instr th = Some ins -> match ins with Act _ => False | _ => True end -> R None th (next th)) ->
  (forall th f l' s' e, stat th = Running -> at_instr th = Some (Act f) -> f (local th) (shared c) = Some (l', s', e) ->
     R e th (Thread (op th) (S (pc th)) l' Running)) ->
  step c e c' -> map op (threads c') = map op (threads c) -> one_moves R e c c'.
Proof.
  intros Hrefl Hstat Hmove Hact Hstep Hops.
  assert (Hins : forall (ths : list thread) i th th' e0, ths !! i = Some th -> R e0 th th' ->
    length (<[i := th']> ths) = length ths /\
    exists k, (k < length ths)%nat /\ forall j tj', <[i := th']> ths !! j = Some tj' ->
      exists tj, ths !! j = Some tj /\ R (if decide (j = k) then e0 else None) tj tj').
  { intros ths i th th' e0 Hi Ha. split; [apply length_insert|]. exists i.
    split; [by eapply lookup_lt_Some|]. intros j tj' Hj. destruct (decide (j = i)) as [->|Hne].
    - rewrite list_lookup_insert_eq in Hj by by eapply lookup_lt_Some. simplify_eq. by exists th.
    - rewrite list_lookup_insert_ne in Hj by done. exists tj'. split; [done|]. apply Hrefl. }
  assert (Hno : forall (ths : list thread) i th th', ths !! i = Some th -> map op (<[i := th']> ths) = map op ths -> op th' = op th).
  { intros ths i th th' Hi Heq. apply (f_equal (fun l => l !! i)) in Heq.
    rewrite !list_lookup_fmap, list_lookup_insert_eq, Hi in Heq by by eapply lookup_lt_Some. by injection Heq. }
  unfold one_moves. destruct Hstep as
    [s w ths i o th Hi Hop|s w ths i o th Hi Hop Hst Hpc|s ths i th Hi Hst Hat|s ths i th Hi Hst Hat
    |s ths i th c cv Hi Hst Hat Hcond|s ths i th c cv Hi Hst Hat Hcond|s w ths i th cv Hi Hst
    |s ths i th Hi Hst|s w ths i th f l' s' e Hi Hst Hat Hf|s w ths i th f ths' Hi Hst Hat Hn];
    cbn [threads shared] in *;
    try (eapply (Hins _ _ _ _ None); [done|first [exact (Hstat _ _)|by eapply Hmove]]).
  - pose proof (Hno _ _ _ _ Hi Hops) as Heq. cbn in Heq. congruence.
  - pose proof (Hno _ _ _ _ Hi Hops) as Heq. cbn in Heq. congruence.
  - eapply Hins; [done|]. by eapply Hact.
  - pose proof (notified_running _ _ _ _ _ Hn Hi Hst) as Hi'. split; [by rewrite length_insert; eapply notified_length|].
    exists i. split; [by eapply lookup_lt_Some|]. intros j tj' Hj.
    destruct (decide (j = i)) as [->|Hne].
    + rewrite list_lookup_insert_eq in Hj by by eapply lookup_lt_Some. simplify_eq. exists th. split; [done|]. by eapply Hmove.
    + rewrite list_lookup_insert_ne in Hj by done. destruct (notified_lookup _ _ _ _ _ Hn Hj) as (tj & Htj & [->|[_ ->]]);
        exists tj; (split; [done|]); [apply Hrefl|apply Hstat].
Qed.

(** Only thread [i] runs on; the others may be woken. *)
Definition by_thread (i : nat) (c c' : config) : Prop :=
  forall j th, j <> i -> threads c !! j = Some th -> stat th = Running -> threads c' !! j = Some th.

(** A step that changes a thread which is awake and inside its call is that
    thread's. *)
Lemma step_by_thread c e c' i th :
  step c e c' -> threads c !! i = Some th -> (forall cv, stat th <> Waiting cv) -> is_Some (at_instr th) ->
  threads c' !! i <> Some th -> by_thread i c c' /\ map op (threads c') = map op (threads c).
Proof.
  intros Hstep Hi Hw [ins Hat] Hne.
  assert (Hby : forall s w s' w' (ths : list thread) k th0 th', threads c = ths -> ths !! k = Some th0 ->
    threads c' = <[k := th']> ths -> (k = i -> op th' = op th0) ->
    by_thread i (Config s w ths) (Config s' w' (<[k := th']> ths)) /\ map op (<[k := th']> ths) = map op ths).
  { intros s w s' w' ths k th0 th' Hc Hk Hc' Hop. rewrite Hc in Hi. rewrite Hc' in Hne.
    assert (k = i) as ->. { destruct (decide (k = i)) as [|Hki]; [done|]. by rewrite list_lookup_insert_ne in Hne. }
    split; [intros j tj Hj Htj _; cbn; by rewrite list_lookup_insert_ne|].
    rewrite list_fmap_insert, Hop by done. apply list_insert_id. by rewrite list_lookup_fmap, Hk. }
  assert (Hnext : forall th0 th1 : thread, next th0 = th1 -> op th1 = op th0) by by intros ? ? <-.
  destruct Hstep as
    [s w ths k o th0 Hk Hop|s w ths k o th0 Hk Hop Hst Hpc|s ths k th0 Hk Hst Hat0|s ths k th0 Hk Hst Hat0
    |s ths k th0 c cv Hk Hst Hat0 Hcond|s ths k th0 c cv Hk Hst Hat0 Hcond|s w ths k th0 cv Hk Hst
    |s ths k th0 Hk Hst|s w ths k th0 f l' s' e Hk Hst Hat0 Hf|s w ths k th0 f ths' Hk Hst Hat0 Hn];
    cbn [threads] in *; try (eapply Hby; done).
  - eapply Hby; [done|done|done|]. intros ->. simplify_eq. unfold at_instr in Hat. by rewrite Hop in Hat.
  - eapply Hby; [done|done|done|]. intros ->. simplify_eq. unfold at_instr in Hat. rewrite Hop, Hpc in Hat.
    apply lookup_lt_Some in Hat. lia.
  - assert (Hmap : map op ths' = map op ths).
    { clear -Hn. destruct Hn as [ths|cv ths H|cv ths j th1 Hj Hst|cv ths]; [done|done|..].
      - rewrite list_fmap_insert. apply list_insert_id. by rewrite list_lookup_fmap, Hj.
      - rewrite map_map. apply map_ext. intros th1. unfold wake. by case_decide. }
    assert (k = i) as ->.
    { destruct (decide (k = i)) as [|Hki]; [done|]. rewrite list_lookup_insert_ne in Hne by done. exfalso. apply Hne.
      destruct (lookup_lt_is_Some_2 ths' i) as [th1 Hi1]; [rewrite (notified_length _ _ _ Hn); by eapply lookup_lt_Some|].
      destruct (notified_lookup _ _ _ _ _ Hn Hi1) as (th2 & Hi2 & [->|[[cv Hcv] _]]); [congruence|]. simplify_eq.
      by destruct (Hw cv). }
    pose proof (notified_running _ _ _ _ _ Hn Hk Hst) as Hk'. split.
    + intros j tj Hj Htj Hr. cbn. rewrite list_lookup_insert_ne by done. by eapply notified_running.
    + rewrite <- Hmap, list_fmap_insert. apply list_insert_id. by rewrite list_lookup_fmap, Hk'.
Qed.

(** ** Executing a schedule *)

(** A schedule is a list of choices: which thread starts which call, or takes
    its next step; a signal wakes the first waiter. *)
Inductive choice := Start (i : nat) (o : Op) | Go (i : nat).

Definition notify (n : notice) (ths : list thread) : list thread :=
  match n with
  | Nobody => ths
  | One cv =>
      match list_find (fun th => stat th = Waiting cv) ths with
      | Some (j, th) => <[j := with_stat Woken th]> ths
      | None => ths
      end
  | All cv => map (wake cv) ths
  end.

Definition exec_running (c : config) (i : nat) (th : thread) : option (option Ev * config) :=
  let '(Config s w ths) := c in
  let mine := bool_decide (w = Some i) in
  match op th, at_instr th with
  | Some o, None => if Nat.eqb (pc th) (length (body o))
                    then Some (None, Config s w (<[i := Thread None 0 (local th) Running]> ths)) else None
  | _, Some Lock => match w with None => Some (None, Config s (Some i) (<[i := next th]> ths)) | Some _ => None end
  | _, Some Unlock => if mine then Some (None, Config s None (<[i := next th]> ths)) else None
  | _, Some (WaitWhile c cv) =>
      if mine then
        if c s then Some (None, Config s None (<[i := with_stat (Waiting cv) th]> ths))
        else Some (None, Config s (Some i) (<[i := next th]> ths))
      else None
  | _, Some (Act f) =>
      '(l', s', e) ← f (local th) s;
      Some (e, Config s' w (<[i := Thread (op th) (S (pc th)) l' Running]> ths))
  | _, Some (Notify f) => Some (None, Config s w (<[i := next th]> (notify (f s) ths)))
  | None, None => None
  end.

Definition exec (ch : choice) (c : config) : option (option Ev * config) :=
  let '(Config s w ths) := c in
  match ch with
  | Start i o =>
      th ← ths !! i;
      match op th with
      | None => Some (None, Config s w (<[i := Thread (Some o) 0 (init o) Running]> ths))
      | Some _ => None
      end
  | Go i =>
      th ← ths !! i;
      match stat th with
      | Running => exec_running c i th
      | Waiting _ => Some (None, Config s w (<[i := with_stat Woken th]> ths))
      | Woken => match w with None => Some (None, Config s (Some i) (<[i := with_stat Running th]> ths)) | Some _ => None end
      end
  end.

Fixpoint exec_all (chs : list choice) (tr : list Ev) (c : config) : option (list Ev * config) :=
  match chs with
  | [] => Some (tr, c)
  | ch :: chs' => '(e, c') ← exec ch c; exec_all chs' (tr ++ option_list e) c'
  end.

Lemma notify_notified n ths : notified n ths (notify n ths).
Proof.
  destruct n as [|cv|cv]; cbn; [constructor| |constructor].
  destruct (list_find _ ths) as [[j th]|] eqn:Hf.
  - apply list_find_Some in Hf as (Hj & Hst & _). by apply notified_one.
  - apply notified_none. intros th Hin. apply list_find_None in Hf. rewrite Forall_forall in Hf. by apply Hf.
Qed.

Lemma exec_running_step s w ths i th e c' :
  ths !! i = Some th -> stat th = Running -> exec_running (Config s w ths) i th = Some (e, c') -> step (Config s w ths) e c'.
Proof.
  intros Hi Hst He. cbn in He. destruct (at_instr th) as [[| |cnd cv|f|f]|] eqn:Hat.
  - destruct (op th), w; simplify_eq; by apply step_lock.
  - destruct (op th); case_bool_decide; simplify_eq; by apply step_unlock.
  - destruct (op th); case_bool_decide; try done; destruct (cnd s) eqn:Hc; simplify_eq;
      (by eapply step_wait) || by eapply step_pass.
  - destruct (op th) eqn:Hop; apply bind_Some in He as ([[l' s'] e'] & Hf & He); simplify_eq; rewrite <- Hop; by eapply step_act.
  - destruct (op th); simplify_eq; (eapply step_notify; [done..|apply notify_notified]).
  - destruct (op th) eqn:Hop; [|done]. destruct (Nat.eqb_spec (pc th) (length (body o))); [|done].
    simplify_eq. by eapply step_return.
Qed.

Lemma exec_step ch c e c' : exec ch c = Some (e, c') -> step c e c'.
Proof.
  destruct c as [s w ths]. destruct ch as [i o|i]; cbn; intros He; apply bind_Some in He as (th & Hi & He).
  - destruct (op th) eqn:Hop; simplify_eq. by eapply step_start.
  - destruct (stat th) eqn:Hst.
    + by eapply exec_running_step.
    + simplify_eq. by eapply step_spurious.
    + destruct w; simplify_eq. by apply step_relock.
Qed.

Lemma exec_by_thread i c e c' : exec (Go i) c = Some (e, c') -> by_thread i c c'.
Proof.
  assert (Hins : forall (ths : list thread) th j tj, j <> i -> ths !! j = Some tj -> <[i := th]> ths !! j = Some tj)
    by (intros; by rewrite list_lookup_insert_ne).
  destruct c as [s w ths]. cbn. intros He j tj Hne Hj Hr. apply bind_Some in He as (th & Hi & He). cbn [threads] in Hj.
  destruct (stat th); [|simplify_eq; by apply Hins|destruct w; simplify_eq; by apply Hins].
  destruct (at_instr th) as [[| |cnd cv|f|f]|]; destruct (op th); repeat (case_match; try done); simplify_eq;
    try (by apply Hins).
  - apply bind_Some in He as ([[l' s'] e'] & _ & He). simplify_eq. by apply Hins.
  - apply bind_Some in He as ([[l' s'] e'] & _ & He). simplify_eq. by apply Hins.
  - apply Hins; [done|]. by eapply notified_running; [apply notify_notified|..].
  - apply Hins; [done|]. by eapply notified_running; [apply notify_notified|..].
Qed.

Lemma exec_all_run chs c0 tr c tr' c' :
  run c0 tr c -> exec_all chs tr c = Some (tr', c') -> run c0 tr' c'.
Proof.
  revert tr c. induction chs as [|ch chs IH]; intros tr c Hrun He; cbn in He; [by simplify_eq|].
  apply bind_Some in He as ([e c1] & Hs & He). eapply IH; [|done]. eapply run_snoc; [done|]. by eapply exec_step.
Qed.

End monitor.

(** ** Counting threads *)

Section tally.
Context {A : Type} (w : A -> Z).

(** The sum of a weight over the threads. *)
Definition tally (l : list A) : Z := sumZ (map w l).

Lemma tally_insert l i x y : l !! i = Some x -> tally (<[i := y]> l) = tally l - w x + w y.
Proof.
  unfold tally. revert i. induction l as [|z l IH]; intros [|i] Hi; cbn in *; simplify_eq; [lia|].
  etransitivity; [exact (f_equal (Z.add (w z)) (IH _ Hi))|]. lia.
Qed.

Lemma tally_zero l : (forall x, x ∈ l -> w x = 0) -> tally l = 0.
Proof.
  unfold tally. induction l as [|z l IH]; intros Hl; [done|]. cbn. rewrite (Hl z), IH by set_solver. done.
Qed.

Lemma tally_nonneg l : (forall x, 0 <= w x) -> 0 <= tally l.
Proof. unfold tally. intros Hw. induction l as [|z l IH]; [done|]. cbn. specialize (Hw z). lia. Qed.

Lemma tally_le l x : (forall x, 0 <= w x) -> x ∈ l -> w x <= tally l.
Proof.
  intros Hw. induction 1 as [x l|x y l Hx IH]; unfold tally in *; cbn.
  - pose proof (tally_nonneg l Hw). unfold tally in *. lia.
  - specialize (Hw y). lia.
Qed.

Lemma tally_two l i j x y :
  (forall x, 0 <= w x) -> i <> j -> l !! i = Some x -> l !! j = Some y -> w x + w y <= tally l.
Proof.
  intros Hw. revert i j. induction l as [|z l IH]; intros [|i] [|j] Hne Hi Hj; try done; cbn in Hi, Hj; simplify_eq.
  - pose proof (tally_le l y Hw (list_elem_of_lookup_2 _ _ _ Hj)). unfold tally in *. cbn. lia.
  - pose proof (tally_le l x Hw (list_elem_of_lookup_2 _ _ _ Hi)). unfold tally in *. cbn. lia.
  - specialize (IH i j ltac:(congruence) Hi Hj). unfold tally in *. cbn. specialize (Hw z). lia.
Qed.

Lemma tally_pos l : (forall x, 0 <= w x) -> 0 < tally l -> exists x, x ∈ l /\ 0 < w x.
Proof.
  intros Hw Hl. induction l as [|z l IH]; unfold tally in *; cbn in *; [lia|].
  destruct (decide (0 < w z)); [exists z; set_solver|]. specialize (Hw z).
  destruct IH as (x & Hx & Hp); [lia|]. exists x. set_solver.
Qed.

Lemma tally_length l : (forall x, w x <= 1) -> tally l <= Z.of_nat (length l).
Proof. unfold tally. intros Hw. induction l as [|z l IH]; cbn; [lia|]. specialize (Hw z). lia. Qed.

Lemma tally_ext (l l' : list A) : map w l = map w l' -> tally l = tally l'.
Proof. unfold tally. by intros ->. Qed.

End tally.

Arguments tally : simpl never.

Section tally_threads.
Context {Lo CV Op : Type} `{!EqDecision CV}.

Lemma waiting_notified (cv : CV) n (ths ths' : list (thread (Lo := Lo) (Op := Op))) : notified n ths ths' -> tally (waiting cv) ths' <= tally (waiting cv) ths.
Proof.
  assert (Hwake : forall th : thread (Lo := Lo) (CV := CV) (Op := Op), waiting cv (with_stat Woken th) <= waiting cv th).
  { intros th. unfold waiting at 1. rewrite decide_False by done. apply waiting_nonneg. }
  intros Hn. destruct Hn as [ths0|cv0 ths0 H|cv0 ths0 j th Hj Hst|cv0 ths0]; [done|done|..].
  - rewrite (tally_insert _ _ _ _ _ Hj). specialize (Hwake th). lia.
  - unfold tally. rewrite map_map. induction ths0 as [|th ths0 IH]; cbn; [lia|].
    assert (waiting cv (wake cv0 th) <= waiting cv th) by (unfold wake; case_decide; [apply Hwake|lia]). lia.
Qed.

Lemma tally_notified (w : thread (Lo := Lo) (CV := CV) (Op := Op) -> Z) n ths ths' :
  (forall st th, w (with_stat st th) = w th) -> notified n ths ths' -> tally w ths' = tally w ths.
Proof.
  intros Hw Hn. destruct Hn as [ths0|cv ths0 H|cv ths0 j th Hj Hst|cv ths0]; [done|done|..].
  - rewrite (tally_insert _ _ _ _ _ Hj), Hw. lia.
  - unfold tally. f_equal. rewrite map_map. apply map_ext. intros th. unfold wake. case_decide; [apply Hw|done].
Qed.

End tally_threads.

Arguments instr : clear implicits.
Arguments thread : clear implicits.
Arguments config : clear implicits.

(** The operation [o] a thread is in the middle of, from the instruction
    [Hat] it is at. *)
Ltac instr_op Hat o Hop :=
  unfold at_instr in Hat;
  match type of Hat with context [op ?th] => destruct (op th) as [o|] eqn:Hop; [|done] end.
