(* ===== verification/ReqQueue.v ===== *)
(** * [multithreaded-web-server/server.c]: the bounded request queue

    [queue_push] and [queue_pop] as programs of the monitor semantics, one
    statement of the source per instruction, and what every run of any number
    of threads that push and pop satisfies. *)

From S2P Require Import Prelude Monitor.

(** ** The queue *)

Record queue_item := Item { connfd : Z; arrival : Z * Z }.

Record req_queue := Queue {
  items : list queue_item;
  cap : Z;
  head : Z;
  tail : Z;
  count : Z;
}.

(** The members [not_full] and [not_empty] of [req_queue_t]. *)
Inductive cond := not_full | not_empty.

#[export] Instance cond_eq_dec : EqDecision cond.
Proof. solve_decision. Defined.

(** The calls of a thread; the events mark where a call takes effect. *)
Inductive call := Push (fd : Z) (arr : Z * Z) | Pop.
Inductive event := Pushed (x : queue_item) | Popped (x : queue_item).

(** [queue_init]: the array comes from [Malloc], with any contents. *)
Definition queue_init (memory : list queue_item) (cap : Z) : req_queue := Queue memory cap 0 0 0.

(** [%] on [int]: division by zero and overflow are undefined. *)
Definition int_rem (x y : Z) : option Z := if y =? 0 then None else int_ok (Z.rem x y).

(** [items[i]]; outside the array the access is undefined. *)
Definition item_at (q : req_queue) (i : Z) : option queue_item :=
  if 0 <=? i then items q !! Z.to_nat i else None.
Definition set_item (q : req_queue) (i : Z) (x : queue_item) : req_queue :=
  Queue (<[Z.to_nat i := x]> (items q)) (cap q) (head q) (tail q) (count q).

Notation act := (option queue_item -> req_queue -> option (option queue_item * req_queue * option event)).

Definition store_connfd (fd : Z) : act := fun l q =>
  x ← item_at q (tail q); Some (l, set_item q (tail q) (Item fd (arrival x)), None).
Definition store_arrival (arr : Z * Z) : act := fun l q =>
  x ← item_at q (tail q); Some (l, set_item q (tail q) (Item (connfd x) arr), None).
Definition step_tail : act := fun l q =>
  t ← int_ok (tail q + 1); t ← int_rem t (cap q);
  Some (l, Queue (items q) (cap q) (head q) t (count q), None).
Definition count_up (x : queue_item) : act := fun l q =>
  n ← int_ok (count q + 1); Some (l, Queue (items q) (cap q) (head q) (tail q) n, Some (Pushed x)).
Definition load_head : act := fun _ q => x ← item_at q (head q); Some (Some x, q, None).
Definition step_head : act := fun l q =>
  h ← int_ok (head q + 1); h ← int_rem h (cap q);
  Some (l, Queue (items q) (cap q) h (tail q) (count q), None).
Definition count_down : act := fun l q =>
  n ← int_ok (count q - 1); Some (l, Queue (items q) (cap q) (head q) (tail q) n, Popped <$> l).

Notation instr := (Monitor.instr req_queue (option queue_item) cond event).

Definition queue_push (fd : Z) (arr : Z * Z) : list instr :=
  [ Lock;
    WaitWhile (fun q => count q =? cap q) not_full;
    Act (store_connfd fd);
    Act (store_arrival arr);
    Act step_tail;
    Act (count_up (Item fd arr));
    Notify (fun _ => One not_empty);
    Unlock ].

Definition queue_pop : list instr :=
  [ Lock;
    WaitWhile (fun q => count q =? 0) not_empty;
    Act load_head;
    Act step_head;
    Act count_down;
    Notify (fun _ => One not_full);
    Unlock ].

Definition body (o : call) : list instr :=
  match o with Push fd arr => queue_push fd arr | Pop => queue_pop end.

Notation thread := (Monitor.thread (option queue_item) cond call).
Notation config := (Monitor.config req_queue (option queue_item) cond call).
Notation step := (Monitor.step body (fun _ => None)).
Notation run := (Monitor.run body (fun _ => None)).

(** The arguments of the completed pushes and the results of the completed
    pops, in the order in which they take effect. *)
Definition pushed (tr : list event) : list queue_item :=
  omap (fun e => match e with Pushed x => Some x | Popped _ => None end) tr.
Definition popped (tr : list event) : list queue_item :=
  omap (fun e => match e with Popped x => Some x | Pushed _ => None end) tr.

(** ** The ring *)

Definition slot (q : req_queue) (i : Z) : option queue_item := items q !! Z.to_nat (i mod cap q).

(** The queue holds [l] from index [h] on; [dt] is 1 between the update of
    [tail] and the one of [count]. *)
Record ring (q : req_queue) (h dt : Z) (l : list queue_item) : Prop := {
  ring_cap : 0 < cap q < 2 ^ 31;
  ring_items : Z.of_nat (length (items q)) = cap q;
  ring_head : 0 <= h < cap q;
  ring_count : count q = Z.of_nat (length l);
  ring_full : Z.of_nat (length l) + dt <= cap q;
  ring_dt : 0 <= dt <= 1;
  ring_tail : tail q = (h + count q + dt) mod cap q;
  ring_slots : forall k x, l !! k = Some x -> slot q (h + Z.of_nat k) = Some x;
}.

Lemma slot_at q i x : 0 < cap q -> slot q i = Some x -> item_at q (i mod cap q) = Some x.
Proof.
  intros Hc Hs. unfold item_at. pose proof (Z.mod_pos_bound i (cap q) Hc).
  by rewrite (proj2 (Z.leb_le 0 _)) by lia.
Qed.

Lemma ring_slot_some q h dt l i : ring q h dt l -> is_Some (slot q i).
Proof.
  intros [Hc Hi _ _ _ _ _ _]. apply lookup_lt_is_Some. pose proof (Z.mod_pos_bound i (cap q)). lia.
Qed.

Lemma int_rem_in x c : 0 <= x -> 0 < c < 2 ^ 31 -> int_rem x c = Some (x mod c).
Proof.
  intros Hx Hc. unfold int_rem. destruct (Z.eqb_spec c 0); [lia|]. rewrite Z.rem_mod_nonneg by lia.
  apply int_ok_in. pose proof (Z.mod_pos_bound x c). lia.
Qed.

(** Two indices of the ring less than a lap apart are different slots. *)
Lemma mod_apart c h i j : 0 < c -> 0 <= i < c -> 0 <= j < c -> i <> j -> (h + i) mod c <> (h + j) mod c.
Proof.
  intros Hc Hi Hj Hne He.
  assert (((h + i) - (h + j)) mod c = 0) as H0 by by rewrite Zminus_mod, He, Z.sub_diag, Zmod_0_l.
  replace (h + i - (h + j)) with (i - j) in H0 by lia. apply Z.mod_divide in H0 as [k Hk]; [|lia].
  assert (k = 0) by nia. nia.
Qed.

Lemma ring_tail_item q h l y :
  ring q h 0 l -> slot q (h + Z.of_nat (length l)) = Some y -> item_at q (tail q) = Some y.
Proof.
  intros Hr Hy. rewrite (ring_tail _ _ _ _ Hr), (ring_count _ _ _ _ Hr), Z.add_0_r.
  pose proof (ring_cap _ _ _ _ Hr). apply slot_at; [lia|done].
Qed.

(** Writing the free slot behind the contents keeps the ring. *)
Lemma ring_set q h l x :
  ring q h 0 l -> Z.of_nat (length l) < cap q ->
  ring (set_item q (tail q) x) h 0 l /\ slot (set_item q (tail q) x) (h + Z.of_nat (length l)) = Some x.
Proof.
  intros Hr Hlt. pose proof Hr as [Hc Hi Hh Hn Hf Hd Ht Hs]. rewrite Z.add_0_r, Hn in Ht.
  pose proof (Z.mod_pos_bound (h + Z.of_nat (length l)) (cap q)). split.
  - split; cbn; rewrite ?length_insert; try done; [by rewrite Z.add_0_r, Hn|].
    intros k y Hk. unfold slot. cbn. pose proof (lookup_lt_Some _ _ _ Hk).
    rewrite list_lookup_insert_ne; [by apply Hs|]. rewrite Ht.
    pose proof (mod_apart (cap q) h (Z.of_nat (length l)) (Z.of_nat k)).
    pose proof (Z.mod_pos_bound (h + Z.of_nat k) (cap q)). lia.
  - unfold slot. cbn. rewrite <- Ht. apply list_lookup_insert_eq. lia.
Qed.

(** [tail] and [count] advance one after the other. *)
Lemma ring_step_tail q h l :
  ring q h 0 l -> Z.of_nat (length l) < cap q ->
  exists q', (forall v, step_tail v q = Some (v, q', None)) /\ ring q' h 1 l /\
    cap q' = cap q /\ count q' = count q /\ head q' = head q /\ (forall i, slot q' i = slot q i).
Proof.
  intros Hr Hlt. pose proof Hr as [Hc Hi Hh Hn Hf Hd Ht Hs]. pose proof (Z.mod_pos_bound (h + count q + 0) (cap q)).
  unfold step_tail. eexists. split.
  { intros v. rewrite int_ok_in by lia. cbn [mbind option_bind]. rewrite int_rem_in by lia. done. }
  split; [|done]. split; cbn; try done; try lia. rewrite Ht, Z.add_0_r.
  rewrite Z.add_mod_idemp_l by lia. done.
Qed.

Lemma ring_count_up q h l x :
  ring q h 1 l -> slot q (h + Z.of_nat (length l)) = Some x ->
  exists q', (forall v, count_up x v q = Some (v, q', Some (Pushed x))) /\ ring q' h 0 (l ++ [x]) /\
    cap q' = cap q /\ count q' = count q + 1 /\ head q' = head q.
Proof.
  intros [Hc Hi Hh Hn Hf Hd Ht Hs] Hx. unfold count_up. eexists. split.
  { intros v. rewrite int_ok_in by lia. done. }
  split; [|done]. split; cbn; rewrite ?length_app; cbn; try done; try lia.
  - rewrite Ht. f_equal. lia.
  - intros k y Hk. unfold slot. cbn. apply lookup_app_Some in Hk as [Hk|[Hge Hk]]; [by apply Hs|].
    apply list_lookup_singleton_Some in Hk as [Hk ->]. rewrite <- Hx. unfold slot. cbn. do 3 f_equal. lia.
Qed.

Lemma ring_load_head q x l :
  ring q (head q) 0 (x :: l) -> forall v, load_head v q = Some (Some x, q, None).
Proof.
  intros [Hc Hi Hh Hn Hf Hd Ht Hs] v. unfold load_head.
  pose proof (Hs 0%nat x eq_refl) as H0. rewrite Z.add_0_r in H0. apply slot_at in H0; [|lia].
  rewrite Z.mod_small in H0 by lia. by rewrite H0.
Qed.

Lemma ring_step_head q l :
  ring q (head q) 0 l ->
  exists q', (forall v, step_head v q = Some (v, q', None)) /\ ring q' (head q) 0 l /\
    head q' = (head q + 1) mod cap q /\ cap q' = cap q /\ count q' = count q.
Proof.
  intros [Hc Hi Hh Hn Hf Hd Ht Hs]. unfold step_head. eexists. split.
  { intros v. rewrite int_ok_in by lia. cbn [mbind option_bind]. rewrite int_rem_in by lia. done. }
  split; [|done]. split; cbn; done.
Qed.

Lemma ring_count_down q h x l :
  ring q h 0 (x :: l) -> head q = (h + 1) mod cap q ->
  exists q', count_down (Some x) q = Some (Some x, q', Some (Popped x)) /\ ring q' (head q) 0 l /\
    cap q' = cap q /\ count q' = count q - 1 /\ head q' = head q.
Proof.
  intros [Hc Hi Hh Hn Hf Hd Ht Hs] Hhd. cbn [length] in *. unfold count_down. eexists. split.
  { rewrite int_ok_in by lia. done. }
  pose proof (Z.mod_pos_bound (h + 1) (cap q)).
  split; [|done]. split; cbn; try done; try lia.
  - rewrite Z.add_0_r, Hhd, Z.add_mod_idemp_l, Ht by lia. f_equal. lia.
  - intros k y Hk. rewrite <- (Hs (S k) y Hk). unfold slot. cbn. do 2 f_equal.
    rewrite Hhd, Z.add_mod_idemp_l by lia. f_equal. lia.
Qed.

(** ** The queue while a thread holds the mutex *)

(** What holds at statement [n] of a call, with local variable [v], when the
    queue's contents are [l]. *)
Definition at_point (o : call) (n : nat) (v : option queue_item) (q : req_queue) (l : list queue_item) : Prop :=
  let room := Z.of_nat (length l) < cap q in
  let free := slot q (head q + Z.of_nat (length l)) in
  match o, n with
  | Push _ _, 2%nat => ring q (head q) 0 l /\ room
  | Push fd _, 3%nat => ring q (head q) 0 l /\ room /\ exists a, free = Some (Item fd a)
  | Push fd arr, 4%nat => ring q (head q) 0 l /\ room /\ free = Some (Item fd arr)
  | Push fd arr, 5%nat => ring q (head q) 1 l /\ free = Some (Item fd arr)
  | Pop, 2%nat => ring q (head q) 0 l /\ l <> []
  | Pop, 3%nat => ring q (head q) 0 l /\ exists x l', l = x :: l' /\ v = Some x
  | Pop, 4%nat => exists h x l', ring q h 0 l /\ l = x :: l' /\ v = Some x /\ head q = (h + 1) mod cap q
  | _, _ => ring q (head q) 0 l
  end.

(** The effect of an event on the contents. *)
Definition moved (e : option event) (l l' : list queue_item) : Prop :=
  match e with
  | None => l' = l
  | Some (Pushed x) => l' = l ++ [x]
  | Some (Popped x) => l = x :: l'
  end.

(** Case analysis on a call and a statement of its body. *)
Ltac statement o Hb :=
  destruct o; cbn [body] in Hb; unfold queue_push, queue_pop in Hb;
  repeat (match type of Hb with _ !! ?m = _ => is_var m; destruct m end; cbn in Hb);
  try discriminate Hb; try (injection Hb as <-).

Lemma at_act o n f v q l :
  body o !! n = Some (Act f) -> at_point o n v q l ->
  exists v' q' e l', f v q = Some (v', q', e) /\ at_point o (S n) v' q' l' /\ moved e l l' /\ cap q' = cap q.
Proof.
  destruct o as [fd arr|]; cbn [body]; unfold queue_push, queue_pop; intros Hb Hat.
  - do 2 (destruct n as [|n]; [done|cbn in Hb]). destruct n as [|n]; [injection Hb as <-|].
    { destruct Hat as [Hr Hroom]. destruct (ring_slot_some _ _ _ _ (head q + Z.of_nat (length l)) Hr) as [y Hy].
      apply (ring_tail_item _ _ _ _ Hr) in Hy.
      destruct (ring_set q (head q) l (Item fd (arrival y)) Hr Hroom) as [Hr' Hs'].
      do 4 eexists. split; [unfold store_connfd; by rewrite Hy|]. split; [|done]. cbn. split; [done|]. split; [done|]. eauto. }
    destruct n as [|n]; [injection Hb as <-|].
    { destruct Hat as (Hr & Hroom & a & Ha).
      apply (ring_tail_item _ _ _ _ Hr) in Ha.
      destruct (ring_set q (head q) l (Item fd arr) Hr Hroom) as [Hr' Hs'].
      do 4 eexists. split; [unfold store_arrival; by rewrite Ha|]. split; [|done]. cbn. split; [done|]. split; [done|]. exact Hs'. }
    destruct n as [|n]; [injection Hb as <-|].
    { destruct Hat as (Hr & Hroom & Hs). destruct (ring_step_tail _ _ _ Hr Hroom) as (q' & Hf & Hr' & Hc & Hn & Hh & Hsl).
      do 4 eexists. split; [apply Hf|]. split; [|done]. cbn. rewrite Hh, Hsl. by split. }
    destruct n as [|n]; [injection Hb as <-|].
    { destruct Hat as (Hr & Hs). destruct (ring_count_up _ _ _ _ Hr Hs) as (q' & Hf & Hr' & Hc & Hn & Hh).
      do 4 eexists. split; [apply Hf|]. split; [|done]. cbn. by rewrite Hh. }
    do 2 (destruct n as [|n]; [done|cbn in Hb]). done.
  - do 2 (destruct n as [|n]; [done|cbn in Hb]). destruct n as [|n]; [injection Hb as <-|].
    { destruct Hat as [Hr Hl]. destruct l as [|x l]; [done|].
      do 4 eexists. split; [by eapply ring_load_head|]. split; [|done]. cbn. split; [done|]. by exists x, l. }
    destruct n as [|n]; [injection Hb as <-|].
    { destruct Hat as (Hr & x & l' & -> & ->). destruct (ring_step_head _ _ Hr) as (q' & Hf & Hr' & Hh & Hc & Hn).
      do 4 eexists. split; [apply Hf|]. split; [|done]. cbn. exists (head q), x, l'. by rewrite Hc. }
    destruct n as [|n]; [injection Hb as <-|].
    { destruct Hat as (h & x & l' & Hr & -> & -> & Hh). destruct (ring_count_down _ _ _ _ Hr Hh) as (q' & Hf & Hr' & Hc & Hn & Hh').
      do 4 eexists. split; [apply Hf|]. split; [|done]. cbn. by rewrite Hh'. }
    do 2 (destruct n as [|n]; [done|cbn in Hb]). done.
Qed.

Lemma queue_body_locked o : well_locked (body o) false = true.
Proof. by destruct o. Qed.

Lemma at_lock o n v q l : body o !! n = Some Lock -> ring q (head q) 0 l -> at_point o (S n) v q l.
Proof. intros Hb Hr. destruct o; do 8 (destruct n as [|n]; [done|]); done. Qed.

Lemma at_unlock o n v q l : body o !! n = Some Unlock -> at_point o n v q l -> ring q (head q) 0 l.
Proof. intros Hb Hr. destruct o; do 8 (destruct n as [|n]; [done|]); done. Qed.

Lemma at_notify o n f v q l : body o !! n = Some (Notify f) -> at_point o n v q l -> at_point o (S n) v q l.
Proof. intros Hb Hr. destruct o; do 8 (destruct n as [|n]; [done|]); done. Qed.

Lemma at_waiting o n c cv v q l : body o !! n = Some (WaitWhile c cv) -> at_point o n v q l <-> ring q (head q) 0 l.
Proof. intros Hb. destruct o; do 8 (destruct n as [|n]; [done|]); done. Qed.

Lemma at_pass o n c cv v q l :
  body o !! n = Some (WaitWhile c cv) -> c q = false -> at_point o n v q l -> at_point o (S n) v q l.
Proof.
  intros Hb Hc Hr. destruct o as [fd arr|]; (destruct n as [|[|n]]; [done| |do 6 (destruct n as [|n]; [done|]); done]);
    cbn in Hb; injection Hb as <- <-; cbn in *; pose proof (ring_count _ _ _ _ Hr); pose proof (ring_full _ _ _ _ Hr).
  - split; [done|]. lia.
  - split; [done|]. intros ->. cbn in *. lia.
Qed.

Lemma held_act o n f : body o !! n = Some (Act f) -> held (body o) n false = true.
Proof. intros Hb. destruct o; do 8 (destruct n as [|n]; [done|]); done. Qed.

Lemma held_notify o n f : body o !! n = Some (Notify f) -> held (body o) n false = true.
Proof. intros Hb. destruct o; do 8 (destruct n as [|n]; [done|]); done. Qed.

(** ** The invariant of runs *)

Definition consistent (c : config) (l : list queue_item) : Prop :=
  match owner c with
  | None => ring (shared c) (head (shared c)) 0 l
  | Some i => exists th o, threads c !! i = Some th /\ op th = Some o /\ at_point o (pc th) (local th) (shared c) l
  end.

(** Another thread than the owner changes. *)
Lemma consistent_other s w ths i th th' l :
  exclusive body (Config s w ths) -> consistent (Config s w ths) l ->
  ths !! i = Some th -> holding body th = false -> consistent (Config s w (<[i := th']> ths)) l.
Proof.
  intros Hex Hc Hi Hh. unfold consistent in *. cbn in *. destruct w as [j|]; [|done].
  destruct Hc as (tj & o & Hj & Hop & Hat). exists tj, o. split; [|done].
  rewrite list_lookup_insert_ne; [done|]. intros ->.
  pose proof (proj2 (excl_owner _ _ Hex _ _ Hi) eq_refl). congruence.
Qed.

Lemma consistent_owner s ths i th o l :
  ths !! i = Some th -> op th = Some o ->
  consistent (Config s (Some i) ths) l <-> at_point o (pc th) (local th) s l.
Proof.
  intros Hi Hop. unfold consistent. cbn. split; [|by eauto].
  intros (th' & o' & Hi' & Hop' & Hat). by simplify_eq.
Qed.

Lemma step_consistent c e c' l :
  exclusive body c -> consistent c l -> step c e c' ->
  cap (shared c') = cap (shared c) /\ exists l', moved e l l' /\ consistent c' l'.
Proof.
  intros Hex Hc Hstep. destruct Hstep as
    [s w ths i o th Hi Hop|s w ths i o th Hi Hop Hst Hpc|s ths i th Hi Hst Hat|s ths i th Hi Hst Hat
    |s ths i th c cv Hi Hst Hat Hcond|s ths i th c cv Hi Hst Hat Hcond|s w ths i th cv Hi Hst
    |s ths i th Hi Hst|s w ths i th f l' s' e Hi Hst Hat Hf|s w ths i th f ths' Hi Hst Hat Hn];
    pose proof (lookup_lt_Some _ _ _ Hi) as Hlt; cbn [shared].
  - split; [done|]. exists l. split; [done|]. eapply consistent_other; [done..|]. unfold holding. by rewrite Hop.
  - split; [done|]. exists l. split; [done|]. eapply consistent_other; [done..|].
    unfold holding. rewrite Hop, Hst, Hpc. by rewrite (held_end _ _ (queue_body_locked o)).
  - split; [done|]. exists l. split; [done|]. instr_op Hat o Hop.
    apply (consistent_owner _ _ _ (next th) o); [by apply list_lookup_insert_eq|done|]. by apply (at_lock o).
  - split; [done|]. exists l. split; [done|]. instr_op Hat o Hop.
    apply (consistent_owner _ _ _ _ _ _ Hi Hop) in Hc. by apply (at_unlock _ _ _ _ _ Hat) in Hc.
  - split; [done|]. exists l. split; [done|]. instr_op Hat o Hop.
    apply (consistent_owner _ _ _ _ _ _ Hi Hop) in Hc.
    apply (consistent_owner _ _ _ (next th) o); [by apply list_lookup_insert_eq|done|].
    by apply (at_pass _ _ _ _ _ _ _ Hat).
  - split; [done|]. exists l. split; [done|]. instr_op Hat o Hop.
    apply (consistent_owner _ _ _ _ _ _ Hi Hop) in Hc. by apply (at_waiting _ _ _ _ _ _ _ Hat) in Hc.
  - split; [done|]. exists l. split; [done|]. eapply consistent_other; [done..|]. unfold holding. rewrite Hst. by destruct (op th).
  - split; [done|]. exists l. split; [done|].
    pose proof (excl_waits _ _ Hex _ _ Hi) as Hw. unfold waits_well in Hw. rewrite Hst in Hw. destruct Hw as (c & cv & Hw).
    instr_op Hw o Hop.
    apply (consistent_owner _ _ _ (with_stat Running th) o); [by apply list_lookup_insert_eq|done|].
    by apply (at_waiting _ _ _ _ _ _ _ Hw).
  - instr_op Hat o Hop.
    assert (w = Some i) as ->.
    { apply (excl_owner _ _ Hex _ _ Hi). unfold holding. rewrite Hop, Hst. by apply (held_act _ _ _ Hat). }
    apply (consistent_owner _ _ _ _ _ _ Hi Hop) in Hc.
    destruct (at_act _ _ _ _ _ _ Hat Hc) as (v' & q' & e' & l'' & Hf' & Hat' & Hm & Hcap).
    rewrite Hf in Hf'. simplify_eq. split; [done|]. exists l''. split; [done|].
    apply (consistent_owner _ _ _ (Thread (Some o) (S (pc th)) v' Running) o); [by apply list_lookup_insert_eq|done|done].
  - instr_op Hat o Hop.
    assert (w = Some i) as ->.
    { apply (excl_owner _ _ Hex _ _ Hi). unfold holding. rewrite Hop, Hst. by apply (held_notify _ _ _ Hat). }
    split; [done|]. exists l. split; [done|]. apply (consistent_owner _ _ _ _ _ _ Hi Hop) in Hc.
    apply (consistent_owner _ _ _ (next th) o); [|done|by apply (at_notify _ _ _ _ _ _ Hat)].
    apply list_lookup_insert_eq. by rewrite (notified_length _ _ _ Hn).
Qed.

(** ** Threads that wait, and threads that will look again *)

(** What a waiter on [cv] waits for: free slots, or items. *)
Definition resource (cv : cond) (q : req_queue) : Z :=
  match cv with not_full => cap q - count q | not_empty => count q end.

Definition waits_on (o : call) : cond := match o with Push _ _ => not_full | Pop => not_empty end.

(** The calls about to consume the resource of [cv], or about to signal that
    they produced some. *)
Definition engaged_at (cv : cond) (o : call) (n : nat) : Z :=
  match cv, o, n with
  | not_full, Push _ _, (1 | 2 | 3 | 4 | 5)%nat => 1
  | not_full, Pop, 5%nat => 1
  | not_empty, Pop, (1 | 2 | 3 | 4)%nat => 1
  | not_empty, Push _ _, 6%nat => 1
  | _, _, _ => 0
  end.

Definition woken_for (cv : cond) (th : thread) : Z :=
  match op th, stat th with
  | Some o, Woken => if decide (waits_on o = cv) then 1 else 0
  | _, _ => 0
  end.

Definition engaged (cv : cond) (th : thread) : Z :=
  match op th, stat th with
  | Some o, Running => engaged_at cv o (pc th)
  | _, _ => woken_for cv th
  end.

(** While a thread waits on [cv], everything it waits for is spoken for. *)
Definition attended (cv : cond) (c : config) : Prop :=
  0 < tally (waiting cv) (threads c) -> resource cv (shared c) <= tally (engaged cv) (threads c).

Lemma engaged_at_range cv o n : 0 <= engaged_at cv o n <= 1.
Proof. unfold engaged_at. repeat case_match; lia. Qed.

Lemma engaged_nonneg cv th : 0 <= engaged cv th.
Proof. unfold engaged, woken_for. pose proof engaged_at_range. repeat case_match; try lia. by apply engaged_at_range. Qed.

(** One thread changes, without starting to wait. *)
Lemma attended_insert cv s s' w w' ths i th th' :
  attended cv (Config s w ths) -> ths !! i = Some th ->
  waiting cv th' <= waiting cv th ->
  resource cv s' - engaged cv th' <= resource cv s - engaged cv th ->
  attended cv (Config s' w' (<[i := th']> ths)).
Proof.
  unfold attended. cbn [shared threads]. intros Ha Hi Hw Hr. rewrite !(tally_insert _ _ _ _ _ Hi). intros Hpos. lia.
Qed.

Lemma waits_well_op th cv :
  waits_well body th -> stat th = Waiting cv -> exists o, op th = Some o /\ waits_on o = cv.
Proof.
  unfold waits_well. intros Hw Hst. rewrite Hst in Hw. destruct Hw as [c Hc]. unfold at_instr in Hc.
  destruct (op th) as [o|]; [|done]. exists o. split; [done|]. generalize (pc th) Hc. clear.
  intros n Hc. destruct o; do 8 (destruct n as [|n]; cbn in Hc; [by simplify_eq|]); done.
Qed.

(** A notification on [cv'] leaves the waiters on [cv'] attended when one of
    them is woken, and does not concern the others. *)
Lemma attended_notified cv cv' s w ths ths' :
  exclusive body (Config s w ths) -> notified (One cv') ths ths' ->
  (cv <> cv' /\ tally (waiting cv) ths' = tally (waiting cv) ths /\ tally (engaged cv) ths' = tally (engaged cv) ths) \/
  (cv = cv' /\ (tally (waiting cv) ths' = 0 \/
     (0 < tally (waiting cv) ths /\ tally (engaged cv) ths' = tally (engaged cv) ths + 1))).
Proof.
  intros Hex Hn. inversion Hn as [|cv0 ths0 Hnone|cv0 ths0 j th Hj Hw|]; subst.
  - destruct (decide (cv = cv')) as [->|]; [right; split; [done|left]|by left].
    apply tally_zero. intros th Hth. unfold waiting. by rewrite decide_False by by apply Hnone.
  - destruct (waits_well_op _ _ (excl_waits _ _ Hex _ _ Hj) Hw) as (o & Hop & Hon).
    rewrite !(tally_insert _ _ _ _ _ Hj). unfold waiting, engaged, woken_for. cbn. rewrite Hop, Hw, Hon.
    destruct (decide (cv = cv')) as [->|Hne].
    + right. split; [done|right]. rewrite decide_True by done. split; [|lia].
      assert (waiting cv' th <= tally (waiting cv') ths) as Hle
        by (apply tally_le; [apply waiting_nonneg|by eapply list_elem_of_lookup_2]).
      unfold waiting in Hle at 1. rewrite Hw, decide_True in Hle by done. unfold waiting in Hle. lia.
    + left. split; [done|]. rewrite !decide_False by congruence. lia.
Qed.

Lemma act_resource cv o n f v q v' q' e :
  body o !! n = Some (Act f) -> f v q = Some (v', q', e) ->
  resource cv q' - engaged_at cv o (S n) = resource cv q - engaged_at cv o n.
Proof.
  intros Hb Hf.
  statement o Hb; cbn; unfold store_connfd, store_arrival, step_tail, count_up, load_head, step_head, count_down in Hf;
    repeat match type of Hf with (_ ≫= _) = _ => apply bind_Some in Hf as (? & ?Hx & Hf) end; simplify_eq/=;
    try (apply int_ok_Some in Hx as [Hx _]; subst); destruct cv; cbn; lia.
Qed.

Lemma notify_signals o n f q : body o !! n = Some (Notify f) ->
  exists cv, f q = One cv /\ engaged_at cv o n = 1 /\ engaged_at cv o (S n) = 0 /\
    forall cv', cv' <> cv -> engaged_at cv' o n = 0 /\ engaged_at cv' o (S n) = 0.
Proof.
  intros Hb. statement o Hb; eexists; (split; [done|]); (split; [done|]); (split; [done|]); intros [|] Hne; done.
Qed.

(** The statements that touch neither the queue nor a condition variable. *)
Lemma engaged_frame cv o n i :
  body o !! n = Some i ->
  match i with
  | Lock | WaitWhile _ _ => engaged_at cv o n <= engaged_at cv o (S n)
  | Unlock => engaged_at cv o n = 0
  | _ => True
  end.
Proof. intros Hb. statement o Hb; destruct cv; cbn; done. Qed.

Lemma wait_statement o n c cv : body o !! n = Some (WaitWhile c cv) ->
  n = 1%nat /\ waits_on o = cv /\ forall q, c q = true -> resource cv q = 0.
Proof.
  intros Hb. destruct o; cbn [body] in Hb; unfold queue_push, queue_pop in Hb;
    repeat (match type of Hb with _ !! ?m = _ => is_var m; destruct m end; cbn in Hb; try discriminate Hb);
    injection Hb as <- <-; (split; [done|]); (split; [done|]); cbn; intros q Hq; lia.
Qed.

Lemma step_attended cv c e c' : exclusive body c -> attended cv c -> step c e c' -> attended cv c'.
Proof.
  intros Hex Ha Hstep. destruct Hstep as
    [s w ths i o th Hi Hop|s w ths i o th Hi Hop Hst Hpc|s ths i th Hi Hst Hat|s ths i th Hi Hst Hat
    |s ths i th c cv' Hi Hst Hat Hcond|s ths i th c cv' Hi Hst Hat Hcond|s w ths i th cv' Hi Hst
    |s ths i th Hi Hst|s w ths i th f l' s' e Hi Hst Hat Hf|s w ths i th f ths' Hi Hst Hat Hn];
    pose proof (excl_waits _ _ Hex _ _ Hi) as Hww.
  3-5: instr_op Hat o Hop; pose proof (engaged_frame cv _ _ _ Hat) as Hfr; cbn beta iota in Hfr;
    eapply attended_insert; [done..|done|]; unfold engaged, woken_for; cbn; rewrite Hop, Hst;
    pose proof (engaged_at_range cv o (S (pc th))); lia.
  - eapply attended_insert; [done..| |].
    + unfold waiting at 1. rewrite decide_False by done. apply waiting_nonneg.
    + unfold engaged. rewrite Hop. unfold woken_for. rewrite Hop. cbn. destruct cv, o; cbn; lia.
  - eapply attended_insert; [done..| |].
    + unfold waiting at 1. rewrite decide_False by done. apply waiting_nonneg.
    + unfold engaged, woken_for. rewrite Hop, Hst. cbn. rewrite Hpc. destruct cv, o; cbn; lia.
  - instr_op Hat o Hop.
    destruct (wait_statement _ _ _ _ Hat) as (Hpc & Hon & Hres). specialize (Hres _ Hcond).
    destruct (decide (cv = cv')) as [->|Hne].
    + unfold attended. cbn [shared threads]. intros _. rewrite Hres. unfold tally.
      apply (tally_nonneg (engaged cv')). apply engaged_nonneg.
    + eapply attended_insert; [done..| |]; unfold waiting, engaged, woken_for; cbn; rewrite Hst, ?Hop.
      * rewrite !decide_False by congruence. lia.
      * rewrite Hpc. destruct cv, cv', o; done.
  - destruct (waits_well_op _ _ Hww Hst) as (o & Hop & Hon).
    eapply attended_insert; [done..| |]; unfold waiting, engaged, woken_for; cbn; rewrite Hst, ?Hop.
    + rewrite decide_False by done. case_decide; lia.
    + case_decide; lia.
  - unfold waits_well in Hww. rewrite Hst in Hww. destruct Hww as (c & cv' & Hc). instr_op Hc o Hop. destruct (wait_statement _ _ _ _ Hc) as (Hpc & Hon & _).
    eapply attended_insert; [done..| |]; unfold waiting, engaged, woken_for; cbn; rewrite Hst, ?Hop.
    + rewrite !decide_False by done. done.
    + rewrite Hpc. case_decide; destruct cv, o; cbn in *; try congruence; lia.
  - instr_op Hat o Hop.
    pose proof (act_resource cv _ _ _ _ _ _ _ _ Hat Hf). eapply attended_insert; [done..| |].
    + unfold waiting. cbn. rewrite Hst. done.
    + unfold engaged, woken_for. cbn. rewrite Hop, Hst. lia.
  - instr_op Hat o Hop.
    destruct (notify_signals _ _ _ s Hat) as (cv' & Hf & H1 & H0 & Hoth). rewrite Hf in Hn.
    pose proof (notified_running _ _ _ _ _ Hn Hi Hst) as Hi'. unfold attended in *. cbn [shared threads] in *.
    rewrite !(tally_insert _ _ _ _ _ Hi').
    assert (waiting cv (next th) = 0 /\ waiting cv th = 0) as [-> ->] by (unfold waiting; cbn; by rewrite Hst).
    assert (engaged cv th = engaged_at cv o (pc th) /\ engaged cv (next th) = engaged_at cv o (S (pc th))) as [-> ->]
      by (unfold engaged; cbn; by rewrite Hop, Hst).
    destruct (attended_notified cv _ _ _ _ _ Hex Hn) as [(Hne & -> & ->)|(-> & [->|[Hpos ->]])]; [..|lia|].
    + destruct (Hoth _ Hne) as [-> ->]. lia.
    + specialize (Ha Hpos). lia.
Qed.

(** ** Runs from the initial queue *)

Definition invariant (size : Z) (tr : list event) (c : config) : Prop :=
  exclusive body c /\ cap (shared c) = size /\
  (exists l, pushed tr = popped tr ++ l /\ consistent c l) /\ forall cv, attended cv c.

Lemma moved_trace e tr l l' :
  pushed tr = popped tr ++ l -> moved e l l' ->
  pushed (tr ++ option_list e) = popped (tr ++ option_list e) ++ l'.
Proof.
  unfold pushed, popped. intros Htr Hm. rewrite !omap_app, Htr. destruct e as [[x|x]|]; cbn in *; subst.
  - by rewrite !app_nil_r, app_assoc.
  - by rewrite app_nil_r, <- app_assoc.
  - by rewrite !app_nil_r.
Qed.

Lemma run_queue memory size c0 tr c :
  0 < size < 2 ^ 31 -> Z.of_nat (length memory) = size ->
  initial (queue_init memory size) c0 -> run c0 tr c -> invariant size tr c.
Proof.
  intros Hsz Hmem Hinit Hrun. pose proof Hinit as (Hs & How & Hid).
  apply (run_invariant _ _ (invariant size) _ _ _ Hrun).
  - split; [by eapply initial_exclusive|]. split; [by rewrite Hs|]. split.
    + exists []. split; [done|]. unfold consistent. rewrite How, Hs. split; cbn; try done; try lia.
    + intros cv. unfold attended. rewrite tally_zero; [done|]. intros th Hth. unfold waiting.
      rewrite Forall_forall in Hid. destruct (Hid _ Hth) as [_ ->]. done.
  - intros tr1 c1 e c2 (Hex & Hcap & (l & Htr & Hl) & Hatt) Hstep.
    destruct (step_consistent _ _ _ _ Hex Hl Hstep) as (Hcap' & l' & Hm & Hl').
    split; [by eapply step_exclusive; [apply queue_body_locked|..]|]. split; [congruence|]. split.
    + exists l'. split; [by eapply moved_trace|done].
    + intros cv. by eapply step_attended.
Qed.

Lemma at_point_length o n v q l : at_point o n v q l -> Z.of_nat (length l) <= cap q /\ count q = Z.of_nat (length l).
Proof.
  assert (Hr : forall h dt, ring q h dt l -> Z.of_nat (length l) <= cap q /\ count q = Z.of_nat (length l)).
  { intros h dt Hr. pose proof (ring_full _ _ _ _ Hr). pose proof (ring_dt _ _ _ _ Hr).
    pose proof (ring_count _ _ _ _ Hr). lia. }
  unfold at_point. intros Hat. repeat case_match; try (by eapply Hr; apply Hat). by destruct Hat as (h & ? & ? & Hh & _); eauto.
Qed.

Lemma engaged_held cv o n : engaged_at cv o n <> 0 -> held (body o) n false = true.
Proof. intros Hn. destruct o, cv; do 7 (destruct n as [|n]; [done|]); done. Qed.

(** With the mutex free, the engaged threads are the woken ones. *)
Lemma engaged_free_mutex cv c :
  exclusive body c -> owner c = None -> tally (engaged cv) (threads c) = tally (woken_for cv) (threads c).
Proof.
  intros Hex How. unfold tally. f_equal. apply map_ext_in. intros th Hth%list_elem_of_In.
  apply list_elem_of_lookup in Hth as [i Hi]. pose proof (excl_owner _ _ Hex _ _ Hi) as Ho. rewrite How in Ho.
  unfold engaged. destruct (op th) as [o|] eqn:Hop; [|done]. destruct (stat th) eqn:Hst; [|done..].
  unfold woken_for. rewrite Hop, Hst. destruct (decide (engaged_at cv o (pc th) = 0)) as [|Hne]; [done|].
  assert (holding body th = true) as Hh by (unfold holding; rewrite Hop, Hst; by apply (engaged_held cv)).
  by apply Ho in Hh.
Qed.

Lemma invariant_progress size tr c i th o :
  invariant size tr c -> threads c !! i = Some th -> op th = Some o ->
  (exists cv, stat th = Waiting cv) \/ blocked body c i th \/ moves body (fun _ => None) c i th.
Proof.
  intros (Hex & Hcap & (l & Htr & Hl) & _) Hi Hop.
  destruct (progress body (fun _ => None) queue_body_locked c i th o Hex Hi Hop) as [|[|[|(Hst & f & Hf)]]]; [auto..|].
  right; right. destruct c as [s w ths]. cbn in Hi. pose proof (lookup_lt_Some _ _ _ Hi) as Hlt.
  assert (w = Some i) as ->.
  { apply (excl_owner _ _ Hex _ _ Hi). unfold holding. rewrite Hop, Hst. by apply (held_act _ _ _ Hf). }
  apply (consistent_owner _ _ _ _ _ _ Hi Hop) in Hl. destruct (at_act _ _ _ _ _ _ Hf Hl) as (v' & q' & e & l' & Hrunf & _).
  do 3 eexists. split; [eapply step_act; [done..|unfold at_instr; by rewrite Hop|done]|]. cbn.
  split; [by apply list_lookup_insert_eq|]. intros He%(f_equal pc). cbn in He. lia.
Qed.

Lemma invariant_attended size tr c i th cv :
  invariant size tr c -> owner c = None -> threads c !! i = Some th -> stat th = Waiting cv ->
  resource cv (shared c) <= tally (woken_for cv) (threads c).
Proof.
  intros (Hex & _ & _ & Hatt) How Hi Hst. rewrite <- (engaged_free_mutex cv c Hex How). apply Hatt.
  eapply Z.lt_le_trans; [|apply (tally_le _ _ th)].
  - unfold waiting. by rewrite decide_True.
  - apply waiting_nonneg.
  - by eapply list_elem_of_lookup_2.
Qed.

Lemma invariant_count size tr c : invariant size tr c -> 0 <= count (shared c) <= cap (shared c).
Proof.
  intros (_ & _ & (l & _ & Hl) & _). unfold consistent in Hl. destruct (owner c) as [i|].
  - destruct Hl as (th & o & _ & _ & Hat%at_point_length). lia.
  - pose proof (ring_full _ _ _ _ Hl). pose proof (ring_count _ _ _ _ Hl). lia.
Qed.

(** When every thread inside a call sleeps or is blocked, the mutex is free
    and all of them sleep. *)
Lemma stuck_asleep size tr c :
  invariant size tr c ->
  (forall i th o, threads c !! i = Some th -> op th = Some o -> (exists cv, stat th = Waiting cv) \/ blocked body c i th) ->
  owner c = None /\ forall i th o, threads c !! i = Some th -> op th = Some o -> stat th = Waiting (waits_on o).
Proof.
  intros (Hex & _) Hstuck. destruct (stuck_free _ _ Hex Hstuck) as [How Hall]. split; [done|].
  intros i th o Hi Hop. destruct (Hall _ _ _ Hi Hop) as [cv Hst].
  destruct (waits_well_op _ _ (excl_waits _ _ Hex _ _ Hi) Hst) as (o' & Hop' & Hon). by simplify_eq.
Qed.

(** What all of them sleep for is not there. *)
Lemma asleep_resource size tr c i th o :
  invariant size tr c -> owner c = None ->
  (forall j tj oj, threads c !! j = Some tj -> op tj = Some oj -> stat tj = Waiting (waits_on oj)) ->
  threads c !! i = Some th -> op th = Some o -> resource (waits_on o) (shared c) = 0.
Proof.
  intros Hinv How Hall Hi Hop. pose proof (invariant_count _ _ _ Hinv) as Hn.
  pose proof (invariant_attended _ _ _ _ _ _ Hinv How Hi (Hall _ _ _ Hi Hop)) as Hr. rewrite tally_zero in Hr.
  - destruct (waits_on o); cbn in *; lia.
  - intros th' [j Hj]%list_elem_of_lookup. unfold woken_for. destruct (op th') as [o'|] eqn:Hop'; [|done].
    by rewrite (Hall _ _ _ Hj Hop').
Qed.

Section properties.
Context (memory : list queue_item) (size : Z) (c0 : config).
Context (Hsize : 0 < size < 2 ^ 31) (Hmemory : Z.of_nat (length memory) = size).
Context (Hinit : initial (queue_init memory size) c0).

(** C3: The request queue is a bounded FIFO queue, for any number of threads
    that push and pop in any interleaving with any wake-ups: the requests
    popped so far are, in order, the first of those pushed so far; the rest,
    never more than the capacity, are exactly what the ring holds - [count]
    of them from index [head] on - whenever the mutex is free.  No request
    is lost, duplicated or overtaken. *)
Theorem queue_fifo tr c :
  run c0 tr c ->
  exists l, pushed tr = popped tr ++ l /\ Z.of_nat (length l) <= size /\
    (owner c = None ->
       count (shared c) = Z.of_nat (length l) /\
       tail (shared c) = (head (shared c) + count (shared c)) mod size /\
       forall k x, l !! k = Some x -> item_at (shared c) ((head (shared c) + Z.of_nat k) mod size) = Some x).
Proof.
  intros Hrun. destruct (run_queue _ _ _ _ _ Hsize Hmemory Hinit Hrun) as (Hex & Hcap & (l & Htr & Hl) & _).
  exists l. split; [done|]. unfold consistent in Hl. destruct (owner c) as [i|].
  - destruct Hl as (th & o & Hi & Hop & Hat). apply at_point_length in Hat. split; [lia|done].
  - pose proof (ring_full _ _ _ _ Hl). split; [lia|]. intros _. destruct Hl as [Hc Hi Hh Hn Hf Hd Ht Hs].
    split; [done|]. split; [by rewrite Ht, Z.add_0_r, Hcap|].
    intros k x Hk. rewrite <- Hcap. apply slot_at; [lia|]. by apply Hs.
Qed.

(** C22: No execution reaches undefined behaviour or misuses the mutex: a
    thread inside a call sleeps on a condition variable, or needs the mutex
    that another thread owns, or takes its next step - array accesses are in
    bounds, the integer arithmetic does not overflow, a popped item has been
    loaded, only the mutex's owner unlocks it or waits.  At most one thread
    is inside a locked region. *)
Theorem queue_safe tr c :
  run c0 tr c ->
  (forall i th o, threads c !! i = Some th -> op th = Some o ->
     (exists cv, stat th = Waiting cv) \/ blocked body c i th \/ moves body (fun _ => None) c i th) /\
  (forall i j ti tj, threads c !! i = Some ti -> threads c !! j = Some tj ->
     holding body ti = true -> holding body tj = true -> i = j).
Proof.
  intros Hrun. destruct (run_queue _ _ _ _ _ Hsize Hmemory Hinit Hrun) as (Hex & Hcap & (l & Htr & Hl) & _).
  split; [|intros; by eapply exclusive_unique].
  intros i th o. by eapply invariant_progress, run_queue.
Qed.

(** C18: No wake-up is lost: whenever the mutex is free and a producer sleeps
    on [not_full], every free slot of the queue has its own woken producer
    that will look at it; and whenever a consumer sleeps on [not_empty],
    every queued request has its own woken consumer. *)
Theorem queue_no_lost_wakeup tr c i th cv :
  run c0 tr c -> owner c = None -> threads c !! i = Some th -> stat th = Waiting cv ->
  resource cv (shared c) <= tally (woken_for cv) (threads c).
Proof.
  intros Hrun. by eapply invariant_attended, run_queue.
Qed.

(** C16: The queue never deadlocks: if every thread inside a call sleeps or
    is blocked on the mutex, then either all of them are producers asleep on
    a full queue, or all of them are consumers asleep on an empty one. *)
Theorem queue_no_deadlock tr c :
  run c0 tr c ->
  (forall i th o, threads c !! i = Some th -> op th = Some o -> (exists cv, stat th = Waiting cv) \/ blocked body c i th) ->
  exists cv, forall th o, th ∈ threads c -> op th = Some o ->
    waits_on o = cv /\ stat th = Waiting cv /\ resource cv (shared c) = 0.
Proof.
  intros Hrun Hstuck. pose proof (run_queue _ _ _ _ _ Hsize Hmemory Hinit Hrun) as Hinv.
  destruct (stuck_asleep _ _ _ Hinv Hstuck) as [How Hall]. pose proof (invariant_count _ _ _ Hinv) as Hn.
  pose proof Hinv as (_ & Hcap & _). exists (if decide (count (shared c) = 0) then not_empty else not_full).
  intros th o [i Hi]%list_elem_of_lookup Hop. pose proof (asleep_resource _ _ _ _ _ _ Hinv How Hall Hi Hop). pose proof (Hall _ _ _ Hi Hop).
  case_decide; destruct o; cbn in *; (done || lia).
Qed.

End properties.

(** ** Witnesses *)

Definition sleeper : thread := Thread None 0 None Running.

(** A queue of one slot and three threads. *)
Definition toy_start : config := Config (queue_init [Item 0 (0, 0)] 1) None [sleeper; sleeper; sleeper].

(** Threads 1 and 2 pop and go to sleep, then thread 0 pushes. *)
Definition toy_schedule : list (choice (Op := call)) :=
  [Start 1 Pop; Go 1; Go 1; Start 2 Pop; Go 2; Go 2; Start 0 (Push 7 (1, 2))] ++ replicate 8 (Go 0).

Definition toy_end : list event * config :=
  default ([], toy_start) (exec_all body (fun _ => None) toy_schedule [] toy_start).

Lemma toy_run : run toy_start toy_end.1 toy_end.2.
Proof.
  apply (exec_all_run _ _ toy_schedule toy_start [] toy_start); [constructor|]. vm_compute. reflexivity.
Qed.

Lemma toy_initial : initial (queue_init [Item 0 (0, 0)] 1) toy_start.
Proof. split; [done|]. split; [done|]. repeat constructor. Qed.

Lemma queue_fifo_witness :
  exists l, pushed [Pushed (Item 7 (1, 2))] = popped [Pushed (Item 7 (1, 2))] ++ l /\ Z.of_nat (length l) <= 1.
Proof.
  destruct (queue_fifo [Item 0 (0, 0)] 1 toy_start ltac:(lia) eq_refl toy_initial toy_end.1 toy_end.2 toy_run)
    as (l & Hl & Hlen & _).
  exists l. split; [exact Hl|exact Hlen].
Defined.

Lemma queue_safe_witness :
  exists th, threads toy_end.2 !! 1%nat = Some th /\ op th = Some Pop /\
     ((exists cv, stat th = Waiting cv) \/ blocked body toy_end.2 1 th \/ moves body (fun _ => None) toy_end.2 1 th).
Proof.
  destruct (threads toy_end.2 !! 1%nat) as [th|] eqn:Hi; [|by vm_compute in Hi].
  assert (Hop : op th = Some Pop) by (vm_compute in Hi; by injection Hi as <-).
  exists th. split; [done|]. split; [exact Hop|].
  exact (proj1 (queue_safe [Item 0 (0, 0)] 1 toy_start ltac:(lia) eq_refl toy_initial toy_end.1 toy_end.2 toy_run)
           1%nat th Pop Hi Hop).
Defined.

(** One item is queued; thread 1 was woken for it, thread 2 still sleeps. *)
Lemma queue_no_lost_wakeup_witness :
  count (shared toy_end.2) = 1 /\ resource not_empty (shared toy_end.2) <= tally (woken_for not_empty) (threads toy_end.2).
Proof.
  split; [by vm_compute|].
  apply (queue_no_lost_wakeup [Item 0 (0, 0)] 1 toy_start ltac:(lia) eq_refl toy_initial toy_end.1 toy_end.2 2%nat
    (Thread (Some Pop) 1 None (Waiting not_empty)) not_empty toy_run); by vm_compute.
Defined.

(** Every thread is asleep in [queue_pop]. *)
Definition asleep_schedule : list (choice (Op := call)) :=
  [Start 0 Pop; Go 0; Go 0; Start 1 Pop; Go 1; Go 1; Start 2 Pop; Go 2; Go 2].

Definition asleep : config :=
  let th := Thread (Some Pop) 1 None (Waiting not_empty) in
  Config (queue_init [Item 0 (0, 0)] 1) None [th; th; th].

Lemma asleep_run : run toy_start [] asleep.
Proof.
  apply (exec_all_run _ _ asleep_schedule toy_start [] toy_start); [constructor|]. vm_compute. reflexivity.
Qed.

Lemma queue_no_deadlock_witness :
  exists cv, forall th o, th ∈ threads asleep -> op th = Some o ->
    waits_on o = cv /\ stat th = Waiting cv /\ resource cv (shared asleep) = 0.
Proof.
  apply (queue_no_deadlock [Item 0 (0, 0)] 1 toy_start ltac:(lia) eq_refl toy_initial [] asleep asleep_run).
  intros i th o Hi%list_elem_of_lookup_2 _. left. exists not_empty. revert Hi. cbn [asleep threads].
  rewrite !elem_of_cons, elem_of_nil. naive_solver.
Defined.
