(* ===== verification/ServerLog.v ===== *)
(** * [multithreaded-web-server/log.c]: the server log

    The writer-priority readers-writer lock and the log it protects, as
    programs of the monitor semantics: one statement of the source per
    instruction, the statements of the critical sections, which run without
    the mutex, included; and the invariant of the lock.  The time stamps,
    which touch no state of the log, are added to the calls in [LogService];
    the debugging sleep is left out. *)

From Stdlib Require Import Ascii.
From S2P Require Import Prelude Monitor.

(** ** State *)

(** [data] holds [capacity] bytes. *)
Record server_log := Log {
  data : list ascii;
  len : Z;
  capacity : Z;
  readers_active : Z;
  writers_active : Z;
  writers_waiting : Z;
}.

Inductive cond := can_read | can_write.

#[export] Instance cond_eq_dec : EqDecision cond.
Proof. solve_decision. Defined.

(** The calls; a string is the bytes before its terminating NUL. *)
Inductive call := Write (entry : list ascii) | Read.

(** The local variables of [log_read]: [len] and the buffer [*out_buf]. *)
Record locals := Locals { rlen : Z; out_buf : list ascii }.

(** Where the calls take effect: an entry is part of the log; a reader has
    copied the bytes it will return. *)
Inductive event := Appended (entry : list ascii) | Copied (bytes : list ascii).

Section code.
(** The contents of fresh memory from [Malloc] and [Realloc]. *)
Context (junk : Z -> list ascii).

Notation act := (locals -> server_log -> option (locals * server_log * option event)).
Notation instr := (Monitor.instr server_log locals cond event).

Definition LOG_INIT_CAP : Z := 4096.

Definition NUL : ascii := Ascii.zero.

(** [memcpy] into a buffer: out of bounds is undefined. *)
Definition splice (d : list ascii) (at_ : Z) (src : list ascii) : option (list ascii) :=
  if (0 <=? at_) && (at_ + Z.of_nat (length src) <=? Z.of_nat (length d))
  then Some (take (Z.to_nat at_) d ++ src ++ drop (Z.to_nat at_ + length src) d) else None.

Definition log_init : option server_log :=
  d ← splice (junk LOG_INIT_CAP) 0 [NUL]; Some (Log d 0 LOG_INIT_CAP 0 0 0).

(** The counters of the lock. *)
Definition set_readers (f : Z -> Z) : act := fun l s =>
  n ← int_ok (f (readers_active s));
  Some (l, Log (data s) (len s) (capacity s) n (writers_active s) (writers_waiting s), None).
Definition set_active (n : Z) : act := fun l s =>
  Some (l, Log (data s) (len s) (capacity s) (readers_active s) n (writers_waiting s), None).
Definition set_waiting (f : Z -> Z) : act := fun l s =>
  n ← int_ok (f (writers_waiting s));
  Some (l, Log (data s) (len s) (capacity s) (readers_active s) (writers_active s) n, None).

Definition rw_write_lock : list instr :=
  [ Lock;
    Act (set_waiting (fun n => n + 1));
    WaitWhile (fun s => (0 <? readers_active s) || (0 <? writers_active s)) can_write;
    Act (set_waiting (fun n => n - 1));
    Act (set_active 1);
    Unlock ].

Definition rw_write_unlock : list instr :=
  [ Lock;
    Act (set_active 0);
    Notify (fun s => if 0 <? writers_waiting s then One can_write else All can_read);
    Unlock ].

Definition rw_read_lock : list instr :=
  [ Lock;
    WaitWhile (fun s => (0 <? writers_active s) || (0 <? writers_waiting s)) can_read;
    Act (set_readers (fun n => n + 1));
    Unlock ].

Definition rw_read_unlock : list instr :=
  [ Lock;
    Act (set_readers (fun n => n - 1));
    Notify (fun s => if readers_active s =? 0 then One can_write else Nobody);
    Unlock ].

(** [(int)strlen(entry)]. *)
Definition elen (entry : list ascii) : Z := int32 (Z.of_nat (length entry)).

(** The loop that doubles the capacity. *)
Fixpoint grow (fuel : nat) (entry : list ascii) (s : server_log) : option server_log :=
  match fuel with
  | O => None
  | S fuel' =>
      need ← int_ok (len s + elen entry + 1);
      if capacity s <? need then
        c ← int_ok (capacity s * 2);
        grow fuel' entry (Log (data s ++ junk (c - capacity s)) (len s) c
                              (readers_active s) (writers_active s) (writers_waiting s))
      else Some s
  end.

#[global] Arguments grow : simpl never.

Definition ensure (entry : list ascii) : act := fun l s => s' ← grow 32 entry s; Some (l, s', None).

Definition with_data (s : server_log) (d : list ascii) : server_log :=
  Log d (len s) (capacity s) (readers_active s) (writers_active s) (writers_waiting s).
Definition with_len (s : server_log) (n : Z) : server_log :=
  Log (data s) n (capacity s) (readers_active s) (writers_active s) (writers_waiting s).

(** The [elen] bytes of the entry that are copied. *)
Definition stored (entry : list ascii) : list ascii := take (Z.to_nat (elen entry)) entry.

Definition copy_entry (entry : list ascii) : act := fun l s =>
  if 0 <=? elen entry then
    d ← splice (data s) (len s) (stored entry); Some (l, with_data s d, None)
  else None.
Definition add_len (entry : list ascii) : act := fun l s =>
  n ← int_ok (len s + elen entry); Some (l, with_len s n, None).
Definition terminate (entry : list ascii) : act := fun l s =>
  d ← splice (data s) (len s) [NUL]; Some (l, with_data s d, Some (Appended (stored entry))).

Definition load_len : act := fun l s => Some (Locals (len s) (out_buf l), s, None).
(** [Malloc(len + 1)] and [memcpy] of [len + 1] bytes of the log. *)
Definition copy_out : act := fun l s =>
  n ← int_ok (rlen l + 1);
  if (0 <=? n) && (n <=? Z.of_nat (length (data s))) then
    let bytes := take (Z.to_nat n) (data s) in Some (Locals (rlen l) bytes, s, Some (Copied bytes))
  else None.

Definition log_write (entry : list ascii) : list instr :=
  rw_write_lock ++
  [ Act (ensure entry);
    Act (copy_entry entry);
    Act (add_len entry);
    Act (terminate entry) ] ++
  rw_write_unlock.

Definition log_read : list instr :=
  rw_read_lock ++
  [ Act load_len;
    Act copy_out ] ++
  rw_read_unlock.

Definition body (o : call) : list instr :=
  match o with Write entry => log_write entry | Read => log_read end.

Definition no_locals (o : call) : locals := Locals 0 [].

End code.

Notation thread := (Monitor.thread locals cond call).
Notation config := (Monitor.config server_log locals cond call).

(** ** The lock's counters count threads *)

(** Between the two updates of [writers_waiting], of [writers_active], of
    [readers_active]. *)
Definition in_waiting (th : thread) : Z :=
  match op th, pc th with Some (Write _), (2 | 3)%nat => 1 | _, _ => 0 end.
Definition in_writing (th : thread) : Z :=
  match op th, pc th with Some (Write _), (5 | 6 | 7 | 8 | 9 | 10 | 11)%nat => 1 | _, _ => 0 end.
Definition in_reading (th : thread) : Z :=
  match op th, pc th with Some Read, (3 | 4 | 5 | 6 | 7)%nat => 1 | _, _ => 0 end.

(** The critical sections of the lock. *)
Definition writer (th : thread) : bool :=
  match op th, pc th with Some (Write _), (6 | 7 | 8 | 9)%nat => true | _, _ => false end.
Definition reader (th : thread) : bool :=
  match op th, pc th with Some Read, (4 | 5)%nat => true | _, _ => false end.

(** What a thread that has passed its wait knows. *)
Definition passed (th : thread) (s : server_log) : Prop :=
  match op th, pc th with
  | Some (Write _), (3 | 4)%nat => readers_active s = 0 /\ writers_active s = 0
  | Some Read, 2%nat => writers_active s = 0 /\ writers_waiting s = 0
  | _, _ => True
  end.

Record lock_inv (c : config) : Prop := {
  li_waiting : writers_waiting (shared c) = tally in_waiting (threads c);
  li_writing : writers_active (shared c) = tally in_writing (threads c);
  li_reading : readers_active (shared c) = tally in_reading (threads c);
  li_exclusion : writers_active (shared c) = 0 \/ (writers_active (shared c) = 1 /\ readers_active (shared c) = 0);
  li_passed : forall i th, threads c !! i = Some th -> passed th (shared c);
}.

(** Case analysis on a statement of a call. *)
Ltac statement o Hb :=
  destruct o; cbn in Hb;
  repeat (match type of Hb with _ !! ?m = _ => is_var m; destruct m end; cbn in Hb);
  try discriminate Hb.

(** Fresh memory has the size asked for. *)
Class FreshMemory (junk : Z -> list ascii) : Prop := fresh_length : forall n, 0 <= n -> length (junk n) = Z.to_nat n.

Section proofs.
Context {junk : Z -> list ascii}.

Notation body := (body junk).
Notation step := (Monitor.step body no_locals).
Notation run := (Monitor.run body no_locals).


Lemma log_body_locked o : well_locked (body o) false = true.
Proof. by destruct o. Qed.

(** The counters of the lock, as one value. *)
Definition counters (s : server_log) : Z * Z * Z := (readers_active s, writers_active s, writers_waiting s).

Lemma grow_counters fuel entry s s' : grow junk fuel entry s = Some s' -> counters s' = counters s /\ len s' = len s.
Proof.
  revert s. induction fuel as [|fuel IH]; intros s Hg; [done|]. cbn [grow] in Hg.
  apply bind_Some in Hg as (n & _ & Hg). case_match; [|by simplify_eq].
  apply bind_Some in Hg as (c & _ & Hg). by apply IH in Hg.
Qed.

Lemma passed_counters th s s' : counters s' = counters s -> passed th s -> passed th s'.
Proof. unfold counters. intros [= H1 H2 H3]. unfold passed. by rewrite H1, H2, H3. Qed.

(** Only a thread that holds the mutex knows anything of the counters. *)
Lemma passed_or_holding c i th s :
  exclusive body c -> threads c !! i = Some th -> holding body th = true \/ passed th s.
Proof.
  intros Hex Hi. pose proof (excl_waits _ _ Hex _ _ Hi) as Hw. unfold passed, holding, waits_well, at_instr in *.
  destruct (op th) as [[e|]|]; [..|by right];
    destruct (pc th) as [|[|[|[|[|n]]]]]; try (by right); left;
    (destruct (stat th) as [|cv|]; [done|by destruct Hw as [? [=]]|by destruct Hw as (? & ? & [=])]).
Qed.

Lemma lock_inv_notified s w n ths ths' :
  lock_inv (Config s w ths) -> notified n ths ths' -> lock_inv (Config s w ths').
Proof.
  intros [H1 H2 H3 H4 H5] Hn. split; cbn in *; try done; [by rewrite (tally_notified _ n ths ths')..|].
  intros i th' Hi. destruct (notified_lookup _ _ _ _ _ Hn Hi) as (th & Hth & [->|[_ ->]]); by apply (H5 _ _ Hth).
Qed.

Lemma lock_inv_insert s s' w w' ths i th th' :
  lock_inv (Config s w ths) -> ths !! i = Some th ->
  writers_waiting s' - in_waiting th' = writers_waiting s - in_waiting th ->
  writers_active s' - in_writing th' = writers_active s - in_writing th ->
  readers_active s' - in_reading th' = readers_active s - in_reading th ->
  (writers_active s' = 0 \/ (writers_active s' = 1 /\ readers_active s' = 0)) ->
  passed th' s' -> (forall j tj, j <> i -> ths !! j = Some tj -> passed tj s') ->
  lock_inv (Config s' w' (<[i := th']> ths)).
Proof.
  intros [H1 H2 H3 H4 H5] Hi Hw Ha Hr Hx Hp Hj. cbn in *.
  split; cbn [shared threads]; rewrite ?(tally_insert _ _ _ _ _ Hi); try lia; try done.
  intros j tj Htj. destruct (decide (j = i)) as [->|Hne].
  - rewrite list_lookup_insert_eq in Htj by by eapply lookup_lt_Some. by simplify_eq.
  - rewrite list_lookup_insert_ne in Htj by done. by eapply Hj.
Qed.

(** A thread moves and the counters stay. *)
Lemma lock_inv_frame s s' w w' ths i th th' :
  lock_inv (Config s w ths) -> ths !! i = Some th -> counters s' = counters s ->
  in_waiting th' = in_waiting th -> in_writing th' = in_writing th -> in_reading th' = in_reading th ->
  passed th' s -> lock_inv (Config s' w' (<[i := th']> ths)).
Proof.
  intros Hl Hi Hc H1 H2 H3 Hp. pose proof Hc as [= Hra Hwa Hww].
  eapply lock_inv_insert; [done..| | | | | |]; rewrite ?Hra, ?Hwa, ?Hww, ?H1, ?H2, ?H3; try done.
  - apply (li_exclusion _ Hl).
  - by eapply passed_counters.
  - intros j tj _ Hj. eapply passed_counters; [done|]. by apply (li_passed _ Hl _ _ Hj).
Qed.

(** The statements other than actions leave the counts, and a thread that
    passes its wait has read the counters. *)
Lemma frame_statement o n ins th :
  op th = Some o -> pc th = n -> body o !! n = Some ins -> match ins with Act _ => False | _ => True end ->
  in_waiting (next th) = in_waiting th /\ in_writing (next th) = in_writing th /\ in_reading (next th) = in_reading th.
Proof.
  intros Hop Hpc Hb Hact. unfold in_waiting, in_writing, in_reading. cbn. rewrite Hop, Hpc.
  statement o Hb; injection Hb as <-; done.
Qed.

Lemma frame_passed o n ins th s :
  op th = Some o -> pc th = n -> body o !! n = Some ins ->
  match ins with Act _ => False | WaitWhile c _ => c s = false | _ => True end ->
  0 <= readers_active s -> 0 <= writers_active s -> 0 <= writers_waiting s -> passed (next th) s.
Proof.
  intros Hop Hpc Hb Hact Hr Ha Hw. unfold passed. cbn. rewrite Hop, Hpc.
  statement o Hb; injection Hb as <-; try done; lia.
Qed.

Lemma lock_inv_nonneg c :
  lock_inv c -> 0 <= readers_active (shared c) /\ 0 <= writers_active (shared c) /\ 0 <= writers_waiting (shared c).
Proof.
  intros [-> -> -> _ _]. split_and!; apply tally_nonneg; intros th;
    unfold in_waiting, in_writing, in_reading; repeat case_match; lia.
Qed.

Lemma lock_inv_member c i th :
  lock_inv c -> threads c !! i = Some th ->
  in_writing th <= writers_active (shared c) /\ in_reading th <= readers_active (shared c).
Proof.
  intros [_ -> -> _ _] Hi%list_elem_of_lookup_2. split; (apply tally_le; [|done]); intros y;
    unfold in_writing, in_reading; repeat case_match; lia.
Qed.

Lemma holding_others s i ths j tj :
  exclusive body (Config s (Some i) ths) -> j <> i -> ths !! j = Some tj -> passed tj s.
Proof.
  intros Hex Hne Hj. destruct (passed_or_holding _ _ _ s Hex Hj) as [Hh|]; [|done].
  apply (excl_owner _ _ Hex _ _ Hj) in Hh. cbn in Hh. congruence.
Qed.

#[local] Opaque grow.

(** What an action does to the counters and the counts. *)
Lemma act_lock_inv s w ths i th f o l' s' e :
  exclusive body (Config s w ths) -> lock_inv (Config s w ths) -> ths !! i = Some th -> stat th = Running ->
  op th = Some o -> body o !! pc th = Some (Act f) -> f (local th) s = Some (l', s', e) ->
  lock_inv (Config s' w (<[i := Thread (op th) (S (pc th)) l' Running]> ths)).
Proof.
  intros Hex Hl Hi Hst Hop Hb Hf. pose proof (li_passed _ Hl _ _ Hi) as Hp. pose proof (li_exclusion _ Hl) as Hx.
  pose proof (lock_inv_nonneg _ Hl) as (Hr0 & Ha0 & Hw0). cbn in Hp, Hx, Hr0, Ha0, Hw0.
  assert (Hown : held (body o) (pc th) false = true -> forall j tj s'', j <> i -> ths !! j = Some tj -> passed tj s'').
  { intros Hh j tj s'' Hne Hj. destruct (passed_or_holding _ _ _ s'' Hex Hj) as [Htj|]; [|done].
    exfalso. apply Hne. eapply (exclusive_unique _ _ _ _ _ _ Hex Hj Hi Htj). unfold holding. by rewrite Hop, Hst. }
  pose proof (lock_inv_member _ _ _ Hl Hi) as [Hwr Hrd]. cbn in Hwr, Hrd.
  remember (pc th) as n eqn:Hn. symmetry in Hn. rewrite Hop. unfold passed in Hp. rewrite Hop, Hn in Hp.
  statement o Hb; injection Hb as <-;
    unfold set_waiting, set_active, set_readers, ensure, copy_entry, add_len, terminate, load_len, copy_out in Hf;
    repeat (case_match; try done);
    repeat match type of Hf with (_ ≫= _) = _ => apply bind_Some in Hf as (? & ?Hx0 & Hf) end;
    repeat match type of Hf with (if ?b then _ else _) = _ => destruct b; [|done] end;
    simplify_eq/=;
    repeat match goal with H : int_ok _ = Some _ |- _ => apply int_ok_Some in H as [-> _] end;
    try (eapply lock_inv_frame; [exact Hl|exact Hi|first [done|by eapply grow_counters]|..];
         unfold in_waiting, in_writing, in_reading; cbn; rewrite ?Hop, ?Hn; done).
  all: eapply lock_inv_insert; [exact Hl|exact Hi|..|intros j tj; by apply Hown];
    unfold passed; cbn; try (done || lia); unfold in_waiting, in_writing, in_reading; cbn; rewrite ?Hop, ?Hn; try lia.
  all: unfold in_writing, in_reading in Hwr, Hrd; rewrite Hop in Hwr, Hrd; rewrite ?Hn in Hwr; rewrite ?Hn in Hrd; lia.
Qed.
(** At the first and the last statement a call has no part in the lock. *)
Lemma outside th s :
  (forall o, op th = Some o -> pc th = 0%nat \/ pc th = length (body o)) ->
  in_waiting th = 0 /\ in_writing th = 0 /\ in_reading th = 0 /\ passed th s.
Proof.
  unfold in_waiting, in_writing, in_reading, passed. intros Hpc.
  destruct (op th) as [[e|]|]; [..|done]; (destruct (Hpc _ eq_refl) as [->| ->]; done).
Qed.

Lemma step_lock_inv c e c' : exclusive body c -> lock_inv c -> step c e c' -> lock_inv c'.
Proof.
  intros Hex Hl Hstep. destruct Hstep as
    [s w ths i o th Hi Hop|s w ths i o th Hi Hop Hst Hpc|s ths i th Hi Hst Hat|s ths i th Hi Hst Hat
    |s ths i th c cv Hi Hst Hat Hcond|s ths i th c cv Hi Hst Hat Hcond|s w ths i th cv Hi Hst
    |s ths i th Hi Hst|s w ths i th f l' s' e Hi Hst Hat Hf|s w ths i th f ths' Hi Hst Hat Hn];
    pose proof (lock_inv_nonneg _ Hl) as (Hr0 & Ha0 & Hw0); cbn in Hr0, Ha0, Hw0;
    try (instr_op Hat o Hop).
  - destruct (outside th s) as (H1 & H2 & H3 & _); [congruence|].
    destruct (outside (Thread (Some o) 0 (no_locals o) Running) s) as (H1' & H2' & H3' & Hp'); [by left|].
    eapply lock_inv_frame; [exact Hl|exact Hi|done|congruence..|done].
  - destruct (outside th s) as (H1 & H2 & H3 & _); [intros o' Ho'; right; congruence|].
    destruct (outside (Thread None 0 (local th) Running) s) as (H1' & H2' & H3' & Hp'); [done|].
    eapply lock_inv_frame; [exact Hl|exact Hi|done|congruence..|done].
  - destruct (frame_statement _ _ _ _ Hop eq_refl Hat I) as (H1 & H2 & H3).
    eapply lock_inv_frame; [exact Hl|exact Hi|done|done..|]. by eapply frame_passed.
  - destruct (frame_statement _ _ _ _ Hop eq_refl Hat I) as (H1 & H2 & H3).
    eapply lock_inv_frame; [exact Hl|exact Hi|done|done..|]. by eapply frame_passed.
  - destruct (frame_statement _ _ _ _ Hop eq_refl Hat I) as (H1 & H2 & H3).
    eapply lock_inv_frame; [exact Hl|exact Hi|done|done..|]. by eapply frame_passed.
  - eapply lock_inv_frame; [exact Hl|exact Hi|done..|]. apply (li_passed _ Hl _ _ Hi).
  - eapply lock_inv_frame; [exact Hl|exact Hi|done..|]. apply (li_passed _ Hl _ _ Hi).
  - eapply lock_inv_frame; [exact Hl|exact Hi|done..|]. apply (li_passed _ Hl _ _ Hi).
  - rewrite <- Hop. by eapply act_lock_inv.
  - destruct (frame_statement _ _ _ _ Hop eq_refl Hat I) as (H1 & H2 & H3).
    eapply lock_inv_frame; [by eapply lock_inv_notified|by eapply notified_running|done|done..|]. by eapply frame_passed.
Qed.

End proofs.
