(* ===== verification/LogBuffer.v ===== *)
(** * [log.c]: the bytes of the log

    The buffer holds the bytes logged and a NUL behind them whenever no
    writer is at work on it; what the statements of the critical sections do
    to it. *)

From Stdlib Require Import Ascii.
From S2P Require Import Prelude Monitor ServerLog.

Section proofs.
Context {junk : Z -> list ascii} `{!FreshMemory junk}.

Notation body := (body junk).
Notation step := (Monitor.step body no_locals).
Notation run := (Monitor.run body no_locals).

#[local] Opaque grow.

(** ** The bytes of the log *)

(** The buffer holds the bytes [log] and a NUL behind them. *)
Record holds (s : server_log) (log : list ascii) : Prop := {
  h_capacity : Z.of_nat (length (data s)) = capacity s;
  h_len : len s = Z.of_nat (length log);
  h_data : exists rest, data s = log ++ NUL :: rest;
}.

(** What a thread inside a critical section knows of the buffer. *)
Definition buffer_at (th : thread) (s : server_log) (log : list ascii) : Prop :=
  let half entry := Z.of_nat (length (data s)) = capacity s /\ 0 <= elen entry /\
                    exists b rest, data s = log ++ stored entry ++ b :: rest in
  match op th, pc th with
  | Some (Write entry), 7%nat => holds s log /\ len s + elen entry + 1 <= capacity s
  | Some (Write entry), 8%nat => half entry /\ len s = Z.of_nat (length log)
  | Some (Write entry), 9%nat => half entry /\ len s = Z.of_nat (length log) + elen entry
  | Some Read, 5%nat => rlen (local th) = len s
  | _, _ => True
  end.

(** A writer that has overwritten the NUL. *)
Definition midway (th : thread) : bool :=
  match op th, pc th with Some (Write _), (8 | 9)%nat => true | _, _ => false end.

Record buffer_inv (c : config) (log : list ascii) : Prop := {
  bi_threads : forall i th, threads c !! i = Some th -> buffer_at th (shared c) log;
  bi_rest : (forall i th, threads c !! i = Some th -> midway th = false) -> holds (shared c) log;
}.

Lemma writing_alone c i j th tj :
  lock_inv c -> threads c !! i = Some th -> threads c !! j = Some tj -> j <> i ->
  in_writing th = 1 -> in_writing tj = 0 /\ in_reading tj = 0.
Proof.
  intros Hl Hi Hj Hne Hw. pose proof (lock_inv_member _ _ _ Hl Hi) as [Hwi _].
  pose proof (lock_inv_member _ _ _ Hl Hj) as [_ Hrj]. pose proof (li_writing _ Hl) as Hsum.
  pose proof (tally_two in_writing _ i j _ _ ltac:(intros y; unfold in_writing; repeat case_match; lia) (not_eq_sym Hne) Hi Hj).
  assert (0 <= in_writing tj /\ 0 <= in_reading tj) by (unfold in_writing, in_reading; repeat case_match; lia).
  destruct (li_exclusion _ Hl); lia.
Qed.

Lemma reading_no_writer c i j th tj :
  lock_inv c -> threads c !! i = Some th -> threads c !! j = Some tj -> in_reading th = 1 -> in_writing tj = 0.
Proof.
  intros Hl Hi Hj Hr. pose proof (lock_inv_member _ _ _ Hl Hi) as [_ Hri].
  pose proof (lock_inv_member _ _ _ Hl Hj) as [Hwj _].
  assert (0 <= in_writing tj) by (unfold in_writing; repeat case_match; lia).
  destruct (li_exclusion _ Hl); lia.
Qed.

Lemma not_writing_idle th s log : in_writing th = 0 -> in_reading th = 0 -> buffer_at th s log /\ midway th = false.
Proof. unfold in_writing, in_reading, buffer_at, midway. repeat case_match; done. Qed.

Lemma not_writing_midway th : in_writing th = 0 -> midway th = false.
Proof. unfold in_writing, midway. repeat case_match; done. Qed.

Definition same_buffer (s s' : server_log) : Prop :=
  data s' = data s /\ len s' = len s /\ capacity s' = capacity s.

Lemma holds_same s s' log : same_buffer s s' -> holds s log -> holds s' log.
Proof. intros (Hd & Hn & Hc) [H1 H2 H3]. split; rewrite ?Hd, ?Hn, ?Hc; done. Qed.

Lemma buffer_at_same th s s' log : same_buffer s s' -> buffer_at th s log -> buffer_at th s' log.
Proof.
  intros Hs. pose proof Hs as (Hd & Hn & Hc). unfold buffer_at. rewrite Hd, Hn, Hc.
  repeat case_match; try done. intros [Hh Hle]. split; [by eapply holds_same|done].
Qed.

(** A thread that is not at work on the buffer moves. *)
Lemma buffer_frame s s' w w' ths i th th' log :
  buffer_inv (Config s w ths) log -> ths !! i = Some th -> same_buffer s s' ->
  buffer_at th' s log -> midway th = false -> buffer_inv (Config s' w' (<[i := th']> ths)) log.
Proof.
  intros [Ht Hr] Hi Hs Hb Hm. cbn in *. pose proof (lookup_lt_Some _ _ _ Hi). split; cbn.
  - intros j tj Hj. eapply buffer_at_same; [done|]. destruct (decide (j = i)) as [->|Hne].
    + rewrite list_lookup_insert_eq in Hj by done. by simplify_eq.
    + rewrite list_lookup_insert_ne in Hj by done. by eapply Ht.
  - intros Hall. eapply holds_same; [done|]. apply Hr. intros j tj Hj. destruct (decide (j = i)) as [->|Hne].
    + by simplify_eq.
    + apply (Hall j). by rewrite list_lookup_insert_ne.
Qed.

Lemma buffer_notified s w n ths ths' log :
  buffer_inv (Config s w ths) log -> notified n ths ths' -> buffer_inv (Config s w ths') log.
Proof.
  intros [Ht Hr] Hn. split; cbn in *.
  - intros i th' Hi. destruct (notified_lookup _ _ _ _ _ Hn Hi) as (th & Hth & [->|[_ ->]]); by apply (Ht _ _ Hth).
  - intros Hall. apply Hr. intros i th Hi.
    destruct (lookup_lt_is_Some_2 ths' i) as [th' Hi'].
    { rewrite (notified_length _ _ _ Hn). by eapply lookup_lt_Some. }
    destruct (notified_lookup _ _ _ _ _ Hn Hi') as (th0 & Hth0 & Hcase). simplify_eq.
    specialize (Hall _ _ Hi'). by destruct Hcase as [->|[_ ->]].
Qed.

(** A statement other than an action does not concern the buffer. *)
Lemma buffer_statement o ins th s log :
  op th = Some o -> body o !! pc th = Some ins -> match ins with Act _ => False | _ => True end ->
  buffer_at (next th) s log /\ midway th = false.
Proof.
  intros Hop Hb Hact. unfold buffer_at, midway. cbn. rewrite Hop. remember (pc th) as n eqn:Hn. clear Hn.
  statement o Hb; injection Hb as <-; done.
Qed.

Lemma splice_app a b b' c :
  length b' = length b -> splice (a ++ b ++ c) (Z.of_nat (length a)) b' = Some (a ++ b' ++ c).
Proof.
  intros Hb. unfold splice. rewrite !length_app.
  rewrite (proj2 (Z.leb_le _ _)), (proj2 (Z.leb_le _ _)) by lia. cbn [andb]. rewrite Nat2Z.id.
  rewrite take_app_length, <- drop_drop, drop_app_length, Hb, drop_app_length. done.
Qed.

Lemma int32_le x : 0 <= x -> int32 x <= x.
Proof.
  intros Hx. unfold int32, sign_wrap. cbn zeta. pose proof (Z.mod_le x (2 ^ 32) Hx ltac:(lia)). destruct (_ <? _); lia.
Qed.

Lemma stored_length entry : 0 <= elen entry -> Z.of_nat (length (stored entry)) = elen entry.
Proof.
  intros He. unfold stored. rewrite length_take. pose proof (int32_le (Z.of_nat (length entry))).
  unfold elen in *. lia.
Qed.

(** An entry shorter than 2^31 bytes is stored whole. *)
Lemma stored_small entry : Z.of_nat (length entry) < 2 ^ 31 -> stored entry = entry.
Proof.
  intros He. unfold stored, elen. rewrite int32_small by lia. rewrite Nat2Z.id. by apply take_ge.
Qed.

#[local] Transparent grow.

Lemma grow_step fuel entry s : grow junk (S fuel) entry s =
  (need ← int_ok (len s + elen entry + 1);
   if capacity s <? need then
     c ← int_ok (capacity s * 2);
     grow junk fuel entry (Log (data s ++ junk (c - capacity s)) (len s) c
                               (readers_active s) (writers_active s) (writers_waiting s))
   else Some s).
Proof. done. Qed.

#[local] Opaque grow.

Lemma holds_doubled s log : holds s log ->
  holds (Log (data s ++ junk (capacity s * 2 - capacity s)) (len s) (capacity s * 2)
             (readers_active s) (writers_active s) (writers_waiting s)) log.
Proof.
  intros [Hc Hn (rest & Hd)]. split; cbn; [|done|].
  - rewrite length_app, fresh_length by lia. lia.
  - eexists. rewrite Hd, <- app_assoc. done.
Qed.

Lemma grow_holds fuel entry s s' log :
  grow junk fuel entry s = Some s' -> holds s log -> holds s' log /\ len s' + elen entry + 1 <= capacity s'.
Proof.
  revert s. induction fuel as [|fuel IH]; intros s Hg Hh; [done|]. rewrite grow_step in Hg.
  apply bind_Some in Hg as (n & [-> _]%int_ok_Some & Hg). destruct (Z.ltb_spec (capacity s) (len s + elen entry + 1)).
  - apply bind_Some in Hg as (c & [-> _]%int_ok_Some & Hg). eapply IH; [done|]. by apply holds_doubled.
  - simplify_eq. split; [done|lia].
Qed.

(** The loop ends: the capacity reaches the need before it overflows. *)
Lemma grow_total fuel entry s log :
  holds s log -> 0 <= elen entry -> len s + elen entry + 1 <= 2 ^ 30 ->
  len s + elen entry + 1 <= capacity s * 2 ^ Z.of_nat fuel ->
  exists s', grow junk (S fuel) entry s = Some s'.
Proof.
  revert s. induction fuel as [|fuel IH]; intros s Hh He Hneed Hpow; rewrite grow_step;
    pose proof (h_len _ _ Hh); rewrite (int_ok_in (len s + elen entry + 1)) by lia; cbn [mbind option_bind];
    destruct (Z.ltb_spec (capacity s) (len s + elen entry + 1)); try by eexists.
  - cbn in Hpow. lia.
  - rewrite int_ok_in by (pose proof (h_capacity _ _ Hh); lia). cbn [mbind option_bind].
    apply IH; [by apply holds_doubled|done|done|]. cbn [len capacity].
    rewrite Nat2Z.inj_succ, Z.pow_succ_r in Hpow by lia. nia.
Qed.

(** The trace: what has been logged. *)
Definition logged (tr : list event) : list ascii :=
  concat (omap (fun e => match e with Appended b => Some b | Copied _ => None end) tr).

Definition logs (e : option event) (log log' : list ascii) : Prop :=
  match e with
  | None => log' = log
  | Some (Appended b) => log' = log ++ b
  | Some (Copied b) => log' = log /\ b = log ++ [NUL]
  end.

(** The statements of a writer's critical section. *)
Lemma writer_act entry n f l s l' s' e log :
  body (Write entry) !! n = Some (Act f) -> (6 <= n <= 9)%nat -> f l s = Some (l', s', e) ->
  (n = 6%nat -> holds s log) ->
  buffer_at (Thread (Some (Write entry)) n l Running) s log ->
  exists log', logs e log log' /\ buffer_at (Thread (Some (Write entry)) (S n) l' Running) s' log' /\
    (n = 6%nat \/ n = 9%nat -> holds s' log').
Proof.
  intros Hb Hn Hf H6 Hat. assert (n = 6 \/ n = 7 \/ n = 8 \/ n = 9)%nat as [->|[->|[->| ->]]] by lia;
    cbn in Hb; injection Hb as <-; cbn in Hat.
  - unfold ensure in Hf. apply bind_Some in Hf as (s1 & Hg & Hf). simplify_eq.
    destruct (grow_holds _ _ _ _ _ Hg (H6 eq_refl)) as [Hh Hle]. exists log. split; [done|]. by split.
  - destruct Hat as [[Hc Hl (rest & Hd)] Hle]. unfold copy_entry in Hf.
    destruct (Z.leb_spec 0 (elen entry)) as [He|]; [|done]. apply bind_Some in Hf as (d & Hs & Hf). simplify_eq.
    pose proof (stored_length entry He) as Hst. rewrite Hl, Hd in Hs.
    rewrite Hd, length_app in Hc. cbn [length] in Hc.
    rewrite <- (take_drop (length (stored entry)) (NUL :: rest)) in Hs.
    rewrite splice_app in Hs by (rewrite length_take; cbn [length]; lia). simplify_eq.
    destruct (drop (length (stored entry)) (NUL :: rest)) as [|b rest'] eqn:Hdrop.
    { apply (f_equal length) in Hdrop. rewrite length_drop in Hdrop. cbn [length] in Hdrop. lia. }
    apply (f_equal length) in Hdrop. rewrite length_drop in Hdrop. cbn [length] in Hdrop.
    exists log. split; [done|]. split; [|lia]. cbn. split; [|done]. split; [|split; [done|by exists b, rest']].
    rewrite !length_app. cbn [length]. lia.
  - destruct Hat as [(Hc & He & Hd) Hl]. unfold add_len in Hf.
    apply bind_Some in Hf as (x & [-> _]%int_ok_Some & Hf). simplify_eq.
    exists log. split; [done|]. split; [|lia]. cbn. split; [done|]. lia.
  - destruct Hat as [(Hc & He & b & rest & Hd) Hl]. unfold terminate in Hf.
    apply bind_Some in Hf as (d & Hs & Hf). simplify_eq.
    pose proof (stored_length entry He) as Hst.
    replace (data s) with ((log ++ stored entry) ++ [b] ++ rest) in Hs, Hc by (rewrite Hd, <- app_assoc; done).
    replace (len s) with (Z.of_nat (length (log ++ stored entry))) in Hs by (rewrite length_app; lia).
    rewrite splice_app in Hs by done. simplify_eq.
    exists (log ++ stored entry). split; [done|]. split; [done|]. intros _. split; cbn.
    + rewrite <- Hc, !length_app. cbn [length]. lia.
    + rewrite length_app. lia.
    + by exists rest.
Qed.

(** The statements of a reader's. *)
Lemma reader_act n f l s l' s' e log :
  body Read !! n = Some (Act f) -> (4 <= n <= 5)%nat -> f l s = Some (l', s', e) ->
  holds s log -> buffer_at (Thread (Some Read) n l Running) s log ->
  s' = s /\ logs e log log /\ buffer_at (Thread (Some Read) (S n) l' Running) s log.
Proof.
  intros Hb Hn Hf [Hc Hl (rest & Hd)] Hat. assert (n = 4 \/ n = 5)%nat as [->| ->] by lia; cbn in Hb; injection Hb as <-.
  - unfold load_len in Hf. by simplify_eq.
  - cbn in Hat. unfold copy_out in Hf. apply bind_Some in Hf as (x & [-> _]%int_ok_Some & Hf).
    case_match; [|done]. simplify_eq. split; [done|]. split; [|done]. split; [done|].
    rewrite Hat, Hl, Hd. replace (Z.to_nat (Z.of_nat (length log) + 1)) with (length log + 1)%nat by lia.
    rewrite take_app_add. done.
Qed.

(** The other actions move the counters of the lock. *)
Lemma lock_act o n f l s l' s' e st log :
  body o !! n = Some (Act f) -> f l s = Some (l', s', e) ->
  (match o with Write _ => ~ (6 <= n <= 9) | Read => ~ (4 <= n <= 5) end)%nat ->
  same_buffer s s' /\ e = None /\ buffer_at (Thread (Some o) (S n) l' st) s log /\ midway (Thread (Some o) n l st) = false.
Proof.
  intros Hb Hf Hn.
  statement o Hb; try lia; injection Hb as <-; unfold set_waiting, set_active, set_readers in Hf;
    repeat match type of Hf with (_ ≫= _) = _ => apply bind_Some in Hf as (? & _ & Hf) end; simplify_eq; done.
Qed.

(** Replacing thread [i] when the others have no part in the buffer. *)
Lemma buffer_insert s s' w w' ths i th th' log log' :
  buffer_inv (Config s w ths) log -> ths !! i = Some th ->
  (forall j tj, j <> i -> ths !! j = Some tj -> in_writing tj = 0 /\ in_reading tj = 0) ->
  buffer_at th' s' log' -> (midway th' = false -> holds s' log') ->
  buffer_inv (Config s' w' (<[i := th']> ths)) log'.
Proof.
  intros _ Hi Hothers Hat Hmid. pose proof (lookup_lt_Some _ _ _ Hi). split; cbn [shared threads].
  - intros j tj Hj. destruct (decide (j = i)) as [->|Hne].
    + rewrite list_lookup_insert_eq in Hj by done. by simplify_eq.
    + rewrite list_lookup_insert_ne in Hj by done. destruct (Hothers _ _ Hne Hj). by apply not_writing_idle.
  - intros Hall. apply Hmid, (Hall i). by apply list_lookup_insert_eq.
Qed.

Lemma holds_unless_writing c log :
  buffer_inv c log -> (forall i th, threads c !! i = Some th -> in_writing th = 0) -> holds (shared c) log.
Proof. intros Hb Hall. apply (bi_rest _ _ Hb). intros i th Hi. by apply not_writing_midway, (Hall i). Qed.

Lemma act_buffer s w ths i th o f l' s' e log :
  lock_inv (Config s w ths) -> buffer_inv (Config s w ths) log -> ths !! i = Some th -> stat th = Running ->
  op th = Some o -> body o !! pc th = Some (Act f) -> f (local th) s = Some (l', s', e) ->
  exists log', logs e log log' /\ buffer_inv (Config s' w (<[i := Thread (op th) (S (pc th)) l' Running]> ths)) log'.
Proof.
  intros Hl Hb Hi Hst Hop Hins Hf. pose proof (bi_threads _ _ Hb _ _ Hi) as Hat. cbn in Hat.
  destruct th as [op0 n l st]. cbn in Hop, Hst, Hins, Hf. subst op0 st. cbn [op pc local].
  assert (Hlock : (match o with Write _ => ~ (6 <= n <= 9) | Read => ~ (4 <= n <= 5) end)%nat ->
    exists log', logs e log log' /\ buffer_inv (Config s' w (<[i := Thread (Some o) (S n) l' Running]> ths)) log').
  { intros Hn. destruct (lock_act _ _ _ _ _ _ _ _ Running log Hins Hf Hn) as (Hs & -> & Hat' & Hm).
    exists log. split; [done|]. by eapply buffer_frame. }
  destruct o as [entry|].
  - destruct (decide (6 <= n <= 9)%nat) as [Hn|]; [|by apply Hlock].
    assert (Hw : in_writing (Thread (Some (Write entry)) n l Running) = 1).
    { assert (n = 6 \/ n = 7 \/ n = 8 \/ n = 9)%nat as [->|[->|[->| ->]]] by lia; done. }
    destruct (writer_act _ _ _ _ _ _ _ _ log Hins Hn Hf) as (log' & Hlogs & Hat' & Hmid).
    + intros ->. apply (bi_rest _ _ Hb). intros j tj Hj. destruct (decide (j = i)) as [->|Hne].
      * cbn in Hj. rewrite Hi in Hj. injection Hj as <-. done.
      * apply not_writing_midway. by eapply (writing_alone _ i j).
    + exact Hat.
    + exists log'. split; [done|]. eapply buffer_insert; [done|done| |done|].
      * intros j tj Hne Hj. by eapply (writing_alone _ i j).
      * intros Hm. apply Hmid. assert (n = 6 \/ n = 7 \/ n = 8 \/ n = 9)%nat as [->|[->|[->| ->]]] by lia; auto; done.
  - destruct (decide (4 <= n <= 5)%nat) as [Hn|]; [|by apply Hlock].
    assert (Hr : in_reading (Thread (Some Read) n l Running) = 1).
    { assert (n = 4 \/ n = 5)%nat as [->| ->] by lia; done. }
    assert (Hh : holds s log).
    { apply (holds_unless_writing _ _ Hb). intros j tj Hj. by eapply (reading_no_writer _ i j). }
    destruct (reader_act _ _ _ _ _ _ _ log Hins Hn Hf Hh Hat) as (-> & Hlogs & Hat').
    exists log. split; [done|]. eapply buffer_frame; [done|done|done|done|].
    assert (n = 4 \/ n = 5)%nat as [->| ->] by lia; done.
Qed.

Lemma waits_not_midway c i th :
  exclusive body c -> threads c !! i = Some th -> stat th <> Running -> midway th = false.
Proof.
  intros Hex Hi Hst. pose proof (excl_waits _ _ Hex _ _ Hi) as Hw. unfold waits_well, at_instr, midway in *.
  destruct (op th) as [[e|]|]; [|done..].
  destruct (pc th) as [|[|[|[|[|[|[|[|[|[|n]]]]]]]]]]; try done;
    (destruct (stat th) as [|cv|]; [done|by destruct Hw as [? [=]]|by destruct Hw as (? & ? & [=])]).
Qed.

Lemma step_buffer c e c' log :
  exclusive body c -> lock_inv c -> buffer_inv c log -> step c e c' ->
  exists log', logs e log log' /\ buffer_inv c' log'.
Proof.
  intros Hex Hl Hb Hstep. destruct Hstep as
    [s w ths i o th Hi Hop|s w ths i o th Hi Hop Hst Hpc|s ths i th Hi Hst Hat|s ths i th Hi Hst Hat
    |s ths i th c cv Hi Hst Hat Hcond|s ths i th c cv Hi Hst Hat Hcond|s w ths i th cv Hi Hst
    |s ths i th Hi Hst|s w ths i th f l' s' e Hi Hst Hat Hf|s w ths i th f ths' Hi Hst Hat Hn];
    try (instr_op Hat o Hop).
  9: { rewrite <- Hop. by eapply act_buffer. }
  all: exists log; split; [done|].
  - eapply buffer_frame; [done|done|done|by destruct o|]. unfold midway. by rewrite Hop.
  - eapply buffer_frame; [done|done|done|done|]. apply not_writing_midway, (outside (junk := junk) th s). intros o' Ho'. right. congruence.
  - destruct (buffer_statement _ _ _ s log Hop Hat I). by eapply buffer_frame.
  - destruct (buffer_statement _ _ _ s log Hop Hat I). by eapply buffer_frame.
  - destruct (buffer_statement _ _ _ s log Hop Hat I). by eapply buffer_frame.
  - destruct (buffer_statement _ _ _ s log Hop Hat I). eapply buffer_frame; [done|done|done| |done].
    apply (bi_threads _ _ Hb _ _ Hi).
  - eapply buffer_frame; [done|done|done|apply (bi_threads _ _ Hb _ _ Hi)|]. eapply (waits_not_midway _ _ _ Hex Hi). congruence.
  - eapply buffer_frame; [done|done|done|apply (bi_threads _ _ Hb _ _ Hi)|]. eapply (waits_not_midway _ _ _ Hex Hi). congruence.
  - destruct (buffer_statement _ _ _ s log Hop Hat I).
    eapply buffer_frame; [by eapply buffer_notified|by eapply notified_running|done|done|done].
Qed.

End proofs.
