(* ===== verification/LogWakeup.v ===== *)
(** * [log.c]: sleeping and waking

    While a thread sleeps on a condition variable of the lock, another one is
    on its way to wake it. *)

From Stdlib Require Import Ascii.
From S2P Require Import Prelude Monitor ServerLog LogBuffer.

Section proofs.
Context {junk : Z -> list ascii}.

Notation body := (body junk).
Notation step := (Monitor.step body no_locals).
Notation run := (Monitor.run body no_locals).

#[local] Opaque grow.

(** ** Threads that wait, and threads that will wake them *)

(** While a reader sleeps some writer is on its way out; while a writer
    sleeps somebody is on its way out of the lock, or awake and about to
    look at it again. *)
Definition ahead (cv : cond) (th : thread) : Z :=
  match cv, op th, pc th with
  | can_read, Some (Write _), (2 | 3 | 4 | 5 | 6 | 7 | 8 | 9 | 10 | 11 | 12)%nat => 1
  | can_write, Some (Write _), 2%nat => 1 - waiting can_write th
  | can_write, Some (Write _), (3 | 4 | 5 | 6 | 7 | 8 | 9 | 10 | 11 | 12)%nat => 1
  | can_write, Some Read, (3 | 4 | 5 | 6 | 7 | 8)%nat => 1
  | _, _, _ => 0
  end.

Definition attended (cv : cond) (c : config) : Prop :=
  0 < tally (waiting cv) (threads c) -> 0 < tally (ahead cv) (threads c).

Lemma ahead_nonneg cv th : 0 <= ahead cv th.
Proof. unfold ahead, waiting. repeat case_match; lia. Qed.

Lemma tally_mono (w1 w2 : thread -> Z) l : (forall th, w1 th <= w2 th) -> tally w1 l <= tally w2 l.
Proof. intros Hw. unfold tally. induction l as [|th l IH]; cbn; [lia|]. specialize (Hw th). lia. Qed.

Lemma ahead_counters cv th :
  match cv with can_read => Z.max (in_writing th) (in_waiting th) | can_write => Z.max (in_writing th) (in_reading th) end
  <= ahead cv th.
Proof.
  unfold ahead, in_writing, in_waiting, in_reading. destruct cv, (op th) as [[e|]|];
    (destruct (pc th) as [|[|[|[|[|[|[|[|[|[|[|[|[|n]]]]]]]]]]]]]; unfold waiting; try case_decide; lia).
Qed.

Lemma attended_by_counters cv c :
  lock_inv c ->
  match cv with
  | can_read => 0 < writers_active (shared c) \/ 0 < writers_waiting (shared c)
  | can_write => 0 < writers_active (shared c) \/ 0 < readers_active (shared c)
  end -> 0 < tally (ahead cv) (threads c).
Proof.
  intros [-> -> -> _ _] Hpos. pose proof (ahead_counters cv) as Hle.
  pose proof (tally_mono in_writing (ahead cv) (threads c)) as H1.
  pose proof (tally_mono in_waiting (ahead cv) (threads c)) as H2.
  pose proof (tally_mono in_reading (ahead cv) (threads c)) as H3.
  destruct cv.
  - assert (tally in_writing (threads c) <= tally (ahead can_read) (threads c)) by (apply H1; intros th; specialize (Hle th); lia).
    assert (tally in_waiting (threads c) <= tally (ahead can_read) (threads c)) by (apply H2; intros th; specialize (Hle th); lia).
    lia.
  - assert (tally in_writing (threads c) <= tally (ahead can_write) (threads c)) by (apply H1; intros th; specialize (Hle th); lia).
    assert (tally in_reading (threads c) <= tally (ahead can_write) (threads c)) by (apply H3; intros th; specialize (Hle th); lia).
    lia.
Qed.

Lemma log_attended_insert cv s s' w w' ths i th th' :
  attended cv (Config s w ths) -> ths !! i = Some th ->
  waiting cv th' <= waiting cv th -> ahead cv th <= ahead cv th' -> attended cv (Config s' w' (<[i := th']> ths)).
Proof. unfold attended. cbn [threads]. intros Ha Hi Hw Hh. rewrite !(tally_insert _ _ _ _ _ Hi). lia. Qed.

(** Statements other than notifications do not leave. *)
Lemma ahead_next cv o n ins th l :
  op th = Some o -> pc th = n -> stat th = Running -> body o !! n = Some ins ->
  match ins with Notify _ => False | _ => True end -> ahead cv th <= ahead cv (Thread (Some o) (S n) l Running).
Proof.
  intros Hop Hpc Hst Hb Hi. unfold ahead, waiting. cbn. rewrite Hop, Hpc, Hst.
  statement o Hb; injection Hb as <-; destruct cv; cbn; (done || lia).
Qed.

Lemma waiting_statement c i th cv :
  exclusive body c -> threads c !! i = Some th -> stat th = Waiting cv ->
  match cv with can_read => op th = Some Read /\ pc th = 1%nat | can_write => (exists e, op th = Some (Write e)) /\ pc th = 2%nat end.
Proof.
  intros Hex Hi Hst. pose proof (excl_waits _ _ Hex _ _ Hi) as Hw. unfold waits_well in Hw. rewrite Hst in Hw.
  destruct Hw as [cnd Hat]. unfold at_instr in Hat. destruct (op th) as [o|]; [|done].
  remember (pc th) as n eqn:Hn. clear Hn. statement o Hat; injection Hat as _ <-; eauto.
Qed.

Lemma woken_statement c i th :
  exclusive body c -> threads c !! i = Some th -> stat th = Woken ->
  (op th = Some Read /\ pc th = 1%nat) \/ ((exists e, op th = Some (Write e)) /\ pc th = 2%nat).
Proof.
  intros Hex Hi Hst. pose proof (excl_waits _ _ Hex _ _ Hi) as Hw. unfold waits_well in Hw. rewrite Hst in Hw.
  destruct Hw as (cnd & cv & Hat). unfold at_instr in Hat. destruct (op th) as [o|]; [|done].
  remember (pc th) as n eqn:Hn. clear Hn. statement o Hat; injection Hat as _ <-; eauto.
Qed.

(** Nobody sleeps on [cv] any more, or one that slept is awake. *)
Lemma attended_one s w ths ths' :
  exclusive body (Config s w ths) -> notified (One can_write) ths ths' ->
  tally (waiting can_write) ths' = 0 \/ exists j th, ths' !! j = Some th /\ stat th = Woken /\ 0 < ahead can_write th.
Proof.
  intros Hex Hn. inversion Hn as [|cv0 ths0 Hnone|cv0 ths0 j th Hj Hst|]; subst.
  - left. apply tally_zero. intros th Hth. unfold waiting. by rewrite decide_False by by apply Hnone.
  - right. exists j, (with_stat Woken th). rewrite list_lookup_insert_eq by by eapply lookup_lt_Some.
    split; [done|]. split; [done|]. destruct (waiting_statement _ _ _ _ Hex Hj Hst) as [[e Hop] Hpc].
    unfold ahead, waiting. cbn. rewrite Hop, Hpc. done.
Qed.

Lemma attended_all s w ths ths' cv :
  exclusive body (Config s w ths) -> notified (All cv) ths ths' -> tally (waiting cv) ths' = 0.
Proof.
  intros _ Hn. inversion Hn; subst. apply tally_zero. intros th [th0 [-> _]]%list_elem_of_fmap.
  unfold waiting. rewrite decide_False; [done|]. unfold wake. by case_decide.
Qed.

Lemma ahead_notified cv n ths ths' : notified n ths ths' -> tally (ahead cv) ths <= tally (ahead cv) ths'.
Proof.
  assert (Hwake : forall th, ahead cv th <= ahead cv (with_stat Woken th)).
  { intros th. unfold ahead, waiting. cbn. destruct cv, (op th) as [[e|]|]; repeat case_match; done || lia. }
  intros Hn. destruct Hn as [ths0|cv0 ths0 H|cv0 ths0 j th Hj Hst|cv0 ths0]; [done|done|..].
  - rewrite (tally_insert _ _ _ _ _ Hj). specialize (Hwake th). lia.
  - unfold tally. rewrite map_map. induction ths0 as [|th ths0 IH]; cbn; [lia|].
    assert (ahead cv th <= ahead cv (wake cv0 th)) by (unfold wake; case_decide; [apply Hwake|lia]). lia.
Qed.

(** The two notifications of the code. *)
Lemma notify_statement o n f : body o !! n = Some (Notify f) ->
  (exists e, o = Write e /\ n = 12%nat /\ f = fun s => if 0 <? writers_waiting s then One can_write else All can_read) \/
  (o = Read /\ n = 8%nat /\ f = fun s => if readers_active s =? 0 then One can_write else Nobody).
Proof. intros Hb. statement o Hb; injection Hb as <-; eauto. Qed.

Lemma attended_signal s w ths ths' i th th' :
  exclusive body (Config s w ths) -> notified (One can_write) ths ths' ->
  ths' !! i = Some th -> stat th = Running -> waiting can_write th' = 0 ->
  attended can_write (Config s w (<[i := th']> ths')).
Proof.
  intros Hex Hn Hi Hst Hw. unfold attended. cbn [threads]. rewrite (tally_insert (waiting _) _ _ _ _ Hi), Hw.
  pose proof (waiting_nonneg can_write th).
  destruct (attended_one _ _ _ _ Hex Hn) as [->|(j & tj & Hj & Hstj & Hpos)]; [lia|]. intros _.
  eapply Z.lt_le_trans; [exact Hpos|]. apply tally_le; [apply ahead_nonneg|].
  apply (list_elem_of_lookup_2 _ j). rewrite list_lookup_insert_ne; [done|congruence].
Qed.

Lemma notify_attended cv s w ths ths' i th o f :
  exclusive body (Config s w ths) -> lock_inv (Config s w ths) -> attended cv (Config s w ths) ->
  lock_inv (Config s w (<[i := next th]> ths')) ->
  ths !! i = Some th -> stat th = Running -> op th = Some o -> body o !! pc th = Some (Notify f) ->
  notified (f s) ths ths' -> attended cv (Config s w (<[i := next th]> ths')).
Proof.
  intros Hex Hl Ha Hl' Hi Hst Hop Hb Hn. pose proof (notified_running _ _ _ _ _ Hn Hi Hst) as Hi'.
  assert (Hnw : waiting cv (next th) = 0 /\ waiting cv th = 0) by (unfold waiting; cbn; by rewrite Hst).
  assert (Hw2 : waiting can_write (next th) = 0) by (unfold waiting; cbn; by rewrite Hst).
  destruct (notify_statement _ _ _ Hb) as [(e & -> & Hpc & ->)|(-> & Hpc & ->)].
  - destruct (Z.ltb_spec 0 (writers_waiting s)) as [Hww|Hww].
    + destruct cv; [|by eapply attended_signal]. intros _. apply (attended_by_counters can_read _ Hl'). cbn. lia.
    + unfold attended. cbn [threads]. rewrite (tally_insert (waiting _) _ _ _ _ Hi').
      destruct cv; [rewrite (attended_all _ _ _ _ _ Hex Hn); lia|]. intros Hpos. exfalso.
      pose proof (waiting_notified can_write _ _ _ Hn) as Hle.
      destruct (tally_pos (waiting can_write) ths (waiting_nonneg _)) as (tj & Htj & Hp); [lia|].
      unfold waiting in Hp. case_decide as Hsj; [|lia]. pose proof Htj as [j Hj]%list_elem_of_lookup.
      destruct (waiting_statement _ _ _ _ Hex Hj Hsj) as [[e' Hopj] Hpcj].
      pose proof (li_waiting _ Hl) as Hsum. cbn in Hsum.
      pose proof (tally_le in_waiting ths tj ltac:(intros y; unfold in_waiting; repeat case_match; lia) Htj) as Hge.
      unfold in_waiting in Hge at 1. rewrite Hopj, Hpcj in Hge. lia.
  - destruct cv.
    + unfold attended in *. cbn [threads] in *. rewrite !(tally_insert _ _ _ _ _ Hi').
      destruct Hnw as [-> ->]. pose proof (waiting_notified can_read _ _ _ Hn). pose proof (ahead_notified can_read _ _ _ Hn).
      unfold ahead at 2 3. cbn. rewrite Hop. lia.
    + destruct (Z.eqb_spec (readers_active s) 0) as [Hra|Hra]; [by eapply attended_signal|].
      intros _. apply (attended_by_counters can_write _ Hl'). cbn.
      pose proof (lock_inv_nonneg _ Hl). cbn in *. lia.
Qed.

Lemma log_step_attended cv c e c' :
  exclusive body c -> lock_inv c -> attended cv c -> step c e c' -> attended cv c'.
Proof.
  intros Hex Hl Ha Hstep. pose proof (step_lock_inv _ _ _ Hex Hl Hstep) as Hl'. destruct Hstep as
    [s w ths i o th Hi Hop|s w ths i o th Hi Hop Hst Hpc|s ths i th Hi Hst Hat|s ths i th Hi Hst Hat
    |s ths i th c cv' Hi Hst Hat Hcond|s ths i th c cv' Hi Hst Hat Hcond|s w ths i th cv' Hi Hst
    |s ths i th Hi Hst|s w ths i th f l' s' e Hi Hst Hat Hf|s w ths i th f ths' Hi Hst Hat Hn];
    try (instr_op Hat o Hop);
    assert (Hw0 : forall th' : thread, stat th' <> Waiting cv -> waiting cv th' <= waiting cv th)
      by (intros th' Hne; unfold waiting at 1; rewrite decide_False by done; apply waiting_nonneg);
    rewrite ?(next_running th) in * by done; rewrite ?Hop in *.
  - eapply log_attended_insert; [done|done|by apply Hw0|]. unfold ahead. rewrite Hop. by destruct cv, o.
  - eapply log_attended_insert; [done|done|by apply Hw0|]. unfold ahead. rewrite Hop, Hpc. by destruct cv, o.
  - eapply log_attended_insert; [done|done|by apply Hw0|]. by eapply ahead_next.
  - eapply log_attended_insert; [done|done|by apply Hw0|]. by eapply ahead_next.
  - eapply log_attended_insert; [done|done|by apply Hw0|]. by eapply ahead_next.
  - destruct (decide (cv = cv')) as [<-|Hne].
    + intros _. apply (attended_by_counters cv _ Hl'). cbn. revert Hat Hcond. clear.
      remember (pc th) as n eqn:Hn. clear Hn. intros Hat Hc. statement o Hat; injection Hat as <- <-; lia.
    + eapply log_attended_insert; [done|done| |].
      * unfold waiting. cbn. rewrite Hst. rewrite !decide_False by congruence. lia.
      * unfold ahead, waiting. cbn. rewrite Hst, Hop. destruct cv; rewrite ?decide_False by congruence; done.
  - eapply log_attended_insert; [done|done|by apply Hw0|]. unfold ahead, waiting. cbn. rewrite Hst.
    destruct cv, (op th) as [[?|]|]; repeat case_match; try done; case_decide; lia.
  - eapply log_attended_insert; [done|done|by apply Hw0|]. unfold ahead, waiting. cbn. by rewrite Hst.
  - eapply log_attended_insert; [done|done|by apply Hw0|]. by eapply ahead_next.
  - rewrite <- Hop, <- next_running in * by done. by eapply notify_attended.
Qed.

End proofs.
