(* ===== verification/LogProps.v ===== *)
(** * [log.c]: what every run of the log satisfies

    The invariants of [ServerLog], [LogBuffer] and [LogWakeup] together, over
    runs of any number of threads that write and read, and the properties
    they imply. *)

From Stdlib Require Import Ascii.
From S2P Require Import Prelude Monitor ServerLog LogBuffer LogWakeup.

Section proofs.
Context {junk : Z -> list ascii} `{!FreshMemory junk}.

Notation body := (body junk).
Notation step := (Monitor.step body no_locals).
Notation run := (Monitor.run body no_locals).

#[local] Opaque grow.

(** ** Runs *)

Record invariant (tr : list event) (c : config) : Prop := {
  inv_mutex : exclusive body c;
  inv_lock : lock_inv c;
  inv_buffer : buffer_inv c (logged tr);
  inv_attended : forall cv, attended cv c;
  inv_copies : forall tr1 b tr2, tr = tr1 ++ Copied b :: tr2 -> b = logged tr1 ++ [NUL];
}.

Lemma logged_app tr1 tr2 : logged (tr1 ++ tr2) = logged tr1 ++ logged tr2.
Proof. unfold logged. by rewrite omap_app, concat_app. Qed.

Lemma logs_trace tr e log' : logs e (logged tr) log' -> log' = logged (tr ++ option_list e).
Proof.
  rewrite logged_app. unfold logged at 3. destruct e as [[b|b]|]; cbn; rewrite ?app_nil_r; [done|by intros [-> _]|done].
Qed.

Lemma init_inv s0 c0 : log_init junk = Some s0 -> initial s0 c0 -> invariant [] c0.
Proof.
  intros Hs0 Hi. pose proof Hi as (Hs & How & Hid). rewrite Forall_lookup in Hid.
  pose proof (fresh_length LOG_INIT_CAP ltac:(done)) as Hlen. unfold log_init in Hs0.
  destruct (junk LOG_INIT_CAP) as [|b rest] eqn:Hj; [done|]. cbn [length] in Hlen.
  replace (b :: rest) with ([] ++ [b] ++ rest) in Hs0 by done. change 0 with (Z.of_nat (length (@nil ascii))) in Hs0 at 1.
  rewrite splice_app in Hs0 by done. cbn [mbind option_bind] in Hs0. injection Hs0 as <-.
  assert (Hz : forall w : thread -> Z, (forall th, op th = None -> w th = 0) -> tally w (threads c0) = 0).
  { intros w Hw. apply tally_zero. intros th [i Hth]%list_elem_of_lookup. apply Hw. by apply (Hid i). }
  split.
  - by eapply initial_exclusive.
  - split; rewrite ?Hs, ?Hz; try done; try (intros th Hop; unfold in_waiting, in_writing, in_reading; by rewrite Hop).
    + by left.
    + intros i th Hth. unfold passed. by rewrite (proj1 (Hid _ _ Hth)).
  - split; rewrite ?Hs.
    + intros i th Hth. unfold buffer_at. by rewrite (proj1 (Hid _ _ Hth)).
    + intros _. split; cbn; [lia|done|by exists rest].
  - intros cv. unfold attended. rewrite tally_zero; [done|]. intros th [i Hth]%list_elem_of_lookup.
    unfold waiting. rewrite decide_False; [done|]. by rewrite (proj2 (Hid _ _ Hth)).
  - intros [|? ?] b' tr2 Htr; done.
Qed.

Lemma step_inv tr c e c' : invariant tr c -> step c e c' -> invariant (tr ++ option_list e) c'.
Proof.
  intros [Hm Hl Hb Ha Hc] Hstep. destruct (step_buffer _ _ _ _ Hm Hl Hb Hstep) as (log' & Hlogs & Hb').
  split.
  - eapply step_exclusive; [apply log_body_locked|done|done].
  - by eapply step_lock_inv.
  - by rewrite <- (logs_trace _ _ _ Hlogs).
  - intros cv. by eapply log_step_attended.
  - intros tr1 b tr2 Htr. destruct tr2 as [|x tr2 _] using rev_ind.
    + destruct e as [e|]; cbn in Htr; [|rewrite app_nil_r in Htr; by eapply Hc].
      apply app_inj_tail in Htr as [-> ->]. by destruct Hlogs.
    + destruct e as [e|]; cbn in Htr; [|rewrite app_nil_r in Htr; by eapply Hc].
      change (tr1 ++ Copied b :: tr2 ++ [x]) with (tr1 ++ (Copied b :: tr2) ++ [x]) in Htr.
      rewrite app_assoc in Htr. apply app_inj_tail in Htr as [Htr _]. by eapply Hc.
Qed.

Lemma run_inv s0 c0 tr c : log_init junk = Some s0 -> initial s0 c0 -> run c0 tr c -> invariant tr c.
Proof.
  intros Hs0 Hi Hrun. apply (run_invariant _ _ invariant _ _ _ Hrun); [by eapply init_inv|]. intros. by eapply step_inv.
Qed.

(** With the mutex free, whoever is ahead of a sleeping thread is in the
    lock, or a woken writer. *)
Lemma ahead_free_mutex tr c cv :
  invariant tr c -> owner c = None -> 0 < tally (ahead cv) (threads c) ->
  match cv with
  | can_read => 0 < writers_active (shared c) \/ 0 < writers_waiting (shared c)
  | can_write => 0 < writers_active (shared c) \/ 0 < readers_active (shared c) \/
                 exists th e, th ∈ threads c /\ stat th = Woken /\ op th = Some (Write e)
  end.
Proof.
  intros [Hm [Hw Ha Hr _ _] _ _ _] How Hpos.
  destruct (tally_pos (ahead cv) _ (ahead_nonneg cv) Hpos) as (th & Hth & Hp).
  pose proof (tally_le in_writing _ _ ltac:(intros y; unfold in_writing; repeat case_match; lia) Hth) as H1.
  pose proof (tally_le in_waiting _ _ ltac:(intros y; unfold in_waiting; repeat case_match; lia) Hth) as H2.
  pose proof (tally_le in_reading _ _ ltac:(intros y; unfold in_reading; repeat case_match; lia) Hth) as H3.
  rewrite <- Ha in H1. rewrite <- Hw in H2. rewrite <- Hr in H3.
  pose proof Hth as [i Hi]%list_elem_of_lookup. pose proof (excl_owner _ _ Hm _ _ Hi) as Hown. rewrite How in Hown.
  pose proof (excl_waits _ _ Hm _ _ Hi) as Hww.
  unfold ahead in Hp. unfold in_writing, in_waiting, in_reading in *. unfold holding, waits_well, at_instr in *.
  destruct (op th) as [[e|]|] eqn:Hop; [..|by destruct cv]; destruct (stat th) as [|cv'|] eqn:Hst;
    destruct (pc th) as [|[|[|[|[|[|[|[|[|[|[|[|[|n]]]]]]]]]]]]]; destruct cv; try lia;
    try (by discriminate (proj1 Hown eq_refl)); try (by destruct Hww as [? [=]]); try (by destruct Hww as (? & ? & [=]));
    try (right; right; by exists th, e).
  exfalso. destruct Hww as [? [= _ <-]]. unfold waiting in Hp. rewrite decide_True in Hp by done. lia.
Qed.

Lemma splice_some d n src : 0 <= n -> n + Z.of_nat (length src) <= Z.of_nat (length d) -> is_Some (splice d n src).
Proof. intros Hn Hle. unfold splice. rewrite (proj2 (Z.leb_le _ _) Hn), (proj2 (Z.leb_le _ _) Hle). by eexists. Qed.

Lemma counters_small c :
  lock_inv c -> Z.of_nat (length (threads c)) < 2 ^ 31 - 1 ->
  readers_active (shared c) < 2 ^ 31 - 1 /\ writers_waiting (shared c) < 2 ^ 31 - 1.
Proof.
  intros [-> _ -> _ _] Hn.
  pose proof (tally_length in_reading (threads c) ltac:(intros y; unfold in_reading; repeat case_match; lia)).
  pose proof (tally_length in_waiting (threads c) ltac:(intros y; unfold in_waiting; repeat case_match; lia)). lia.
Qed.

(** An action of the code is defined, as long as the counters and the log
    stay within [int]. *)
Lemma act_defined tr c i th o f :
  invariant tr c -> Z.of_nat (length (threads c)) < 2 ^ 31 - 1 -> threads c !! i = Some th -> stat th = Running ->
  op th = Some o -> body o !! pc th = Some (Act f) ->
  Z.of_nat (length (logged tr)) + Z.of_nat (length (match o with Write e => e | Read => [] end)) < 2 ^ 30 ->
  is_Some (f (local th) (shared c)).
Proof.
  intros [Hm Hl Hb _ _] Hn Hi Hst Hop Hins Hsize.
  destruct (counters_small _ Hl Hn) as [Hra Hww]. destruct (lock_inv_nonneg _ Hl) as (Hra0 & Hwa0 & Hww0).
  pose proof (bi_threads _ _ Hb _ _ Hi) as Hat. destruct th as [op0 n l st]. cbn in Hop, Hst, Hins, Hsize. subst op0 st.
  cbn [local]. destruct o as [entry|].
  - assert (He : elen entry = Z.of_nat (length entry)) by (unfold elen; apply int32_small; lia).
    assert (Hst : Z.of_nat (length (stored entry)) = elen entry) by (apply stored_length; lia).
    destruct n as [|[|[|[|[|[|[|[|[|[|[|[|n]]]]]]]]]]]]; try discriminate Hins; cbn in Hins; [injection Hins as <-..|].
    + unfold set_waiting. rewrite int_ok_in by lia. by eexists.
    + unfold set_waiting. rewrite int_ok_in by lia. by eexists.
    + by eexists.
    + assert (Hh : holds (shared c) (logged tr)).
      { apply (bi_rest _ _ Hb). intros j tj Hj. destruct (decide (j = i)) as [->|Hne].
        - rewrite Hi in Hj. by injection Hj as <-.
        - apply not_writing_midway. by eapply (writing_alone _ i j). }
      pose proof Hh as [Hc Hlen (rest & Hd)]. rewrite Hd, length_app in Hc. cbn [length] in Hc.
      unfold ensure. change 32%nat with (S 31).
      destruct (grow_total 31 entry (shared c) (logged tr) Hh) as [s' ->]; [lia|lia|cbn; lia|]. by eexists.
    + cbn in Hat. destruct Hat as [[Hc Hlen (rest & Hd)] Hle]. unfold copy_entry.
      rewrite (proj2 (Z.leb_le 0 (elen entry))) by lia.
      destruct (splice_some (data (shared c)) (len (shared c)) (stored entry)) as [d ->]; [lia|lia|]. by eexists.
    + cbn in Hat. destruct Hat as [_ Hlen]. unfold add_len. rewrite int_ok_in by lia. by eexists.
    + cbn in Hat. destruct Hat as [(Hc & He0 & b & rest & Hd) Hlen]. unfold terminate.
      destruct (splice_some (data (shared c)) (len (shared c)) [NUL]) as [d ->]; [lia| |by eexists].
      rewrite Hd, !length_app. cbn [length]. lia.
    + by eexists.
    + do 3 (destruct n as [|n]; [done|cbn in Hins]). done.
  - destruct n as [|[|[|[|[|[|[|[|n]]]]]]]]; try discriminate Hins; cbn in Hins; [injection Hins as <-..|].
    + unfold set_readers. rewrite int_ok_in by lia. by eexists.
    + by eexists.
    + assert (Hh : holds (shared c) (logged tr)).
      { apply (holds_unless_writing _ _ Hb). intros j tj Hj. by eapply (reading_no_writer _ i j). }
      pose proof Hh as [Hc Hlen (rest & Hd)]. cbn in Hat. unfold copy_out. rewrite Hat, int_ok_in by lia.
      cbn [mbind option_bind]. rewrite (proj2 (Z.leb_le _ _)), (proj2 (Z.leb_le _ _)); [by eexists| |lia].
      rewrite Hd, length_app. cbn [length]. lia.
    + unfold set_readers. rewrite int_ok_in by lia. by eexists.
    + do 3 (destruct n as [|n]; [done|cbn in Hins]). done.
Qed.

Lemma inv_progress tr c i th o :
  invariant tr c -> Z.of_nat (length (threads c)) < 2 ^ 31 - 1 ->
  Z.of_nat (length (logged tr)) + Z.of_nat (length (match o with Write e => e | Read => [] end)) < 2 ^ 30 ->
  threads c !! i = Some th -> op th = Some o ->
  (exists cv, stat th = Waiting cv) \/ blocked body c i th \/ moves body no_locals c i th.
Proof.
  intros Hinv Hn Hsize Hi Hop.
  destruct (progress body no_locals log_body_locked c i th o (inv_mutex _ _ Hinv) Hi Hop) as [|[|[|(Hst & f & Hf)]]]; [auto..|].
  right; right. destruct (act_defined _ _ _ _ _ _ Hinv Hn Hi Hst Hop Hf Hsize) as [[[l' s'] e] Hrun].
  destruct c as [s w ths]. cbn in *. pose proof (lookup_lt_Some _ _ _ Hi) as Hlt.
  do 3 eexists. split; [eapply step_act; [done..|unfold at_instr; by rewrite Hop|done]|]. cbn.
  split; [by apply list_lookup_insert_eq|]. intros He%(f_equal pc). cbn in He. lia.
Qed.

Lemma inv_woken tr c i th cv :
  invariant tr c -> threads c !! i = Some th -> stat th = Waiting cv -> 0 < tally (ahead cv) (threads c).
Proof.
  intros Hinv Hi Hst. apply (inv_attended _ _ Hinv). eapply Z.lt_le_trans; [|apply (tally_le _ _ th)].
  - unfold waiting. by rewrite decide_True.
  - apply waiting_nonneg.
  - by eapply list_elem_of_lookup_2.
Qed.

Lemma reader_enters o n f l s l' s' e :
  body o !! n = Some (Act f) -> f l s = Some (l', s', e) -> readers_active s < readers_active s' ->
  match o, n with
  | Write _, (3 | 4)%nat => readers_active s = 0 /\ writers_active s = 0
  | Read, 2%nat => writers_active s = 0 /\ writers_waiting s = 0
  | _, _ => True
  end -> writers_active s = 0 /\ writers_waiting s = 0.
Proof.
  intros Hb Hf Hlt Hp.
  assert (Hdec : (o = Read /\ n = 2%nat) \/ readers_active s' <= readers_active s).
  { clear Hp. statement o Hb; [injection Hb as <-..]; unfold set_waiting, set_active, set_readers, ensure, copy_entry, add_len, terminate, load_len, copy_out in Hf;
      repeat (case_match; try done);
      repeat match type of Hf with (_ ≫= _) = _ => apply bind_Some in Hf as (? & ?Hx0 & Hf) end;
      repeat match type of Hf with (if ?b then _ else _) = _ => destruct b; [|done] end; simplify_eq/=;
      repeat match goal with H : int_ok _ = Some _ |- _ => apply int_ok_Some in H as [-> _] end; auto; right; try lia.
    match goal with H : grow _ _ _ _ = Some _ |- _ => apply grow_counters in H as [[= -> _ _] _] end. lia. }
  destruct Hdec as [[-> ->]|]; [done|lia].
Qed.

(** When every thread inside a call sleeps or is blocked, the mutex is free
    and all of them sleep. *)
Lemma log_stuck_asleep tr c :
  invariant tr c ->
  (forall i th o, threads c !! i = Some th -> op th = Some o -> (exists cv, stat th = Waiting cv) \/ blocked body c i th) ->
  owner c = None /\ forall i th o, threads c !! i = Some th -> op th = Some o -> exists cv, stat th = Waiting cv.
Proof. intros Hinv. apply stuck_free, Hinv. Qed.

Lemma asleep_nobody tr c :
  invariant tr c -> owner c = None ->
  (forall i th o, threads c !! i = Some th -> op th = Some o -> exists cv, stat th = Waiting cv) ->
  forall i th, threads c !! i = Some th -> op th = None.
Proof.
  intros Hinv How Hall. pose proof Hinv as [Hm [Hww Hwa Hra _ _] _ _ _].
  assert (Hz : forall w : thread -> Z, (forall th, w th <> 0 -> exists o, op th = Some o /\ match o with Write _ => pc th <> 2%nat | Read => pc th <> 1%nat end) ->
    tally w (threads c) = 0).
  { intros w Hw. apply tally_zero. intros th [i Hi]%list_elem_of_lookup. destruct (decide (w th = 0)) as [|Hne]; [done|].
    destruct (Hw _ Hne) as (o & Hop & Hpc). destruct (Hall _ _ _ Hi Hop) as [cv Hst].
    pose proof (waiting_statement _ _ _ _ Hm Hi Hst) as Hws. destruct cv; [destruct Hws as [Hop' Hpc']|destruct Hws as [[e Hop'] Hpc']];
      rewrite Hop in Hop'; injection Hop' as ->; done. }
  assert (Hra0 : readers_active (shared c) = 0).
  { rewrite Hra. apply Hz. intros th. unfold in_reading. destruct (op th) as [[e|]|]; [done| |done].
    intros Hne. exists Read. split; [done|]. by intros Heq; rewrite Heq in Hne. }
  assert (Hwa0 : writers_active (shared c) = 0).
  { rewrite Hwa. apply Hz. intros th. unfold in_writing. destruct (op th) as [[e|]|]; [|done|done].
    intros Hne. exists (Write e). split; [done|]. by intros Heq; rewrite Heq in Hne. }
  assert (Hnw : forall i th, threads c !! i = Some th -> stat th <> Waiting can_write).
  { intros i th Hi Hst. pose proof (ahead_free_mutex _ _ can_write Hinv How (inv_woken _ _ _ _ _ Hinv Hi Hst)) as [?|[?|Hw]]; [lia|lia|].
    destruct Hw as (th' & e & [j Hj]%list_elem_of_lookup & Hst' & Hop'). destruct (Hall _ _ _ Hj Hop') as [cv Hcv]. congruence. }
  assert (Hww0 : writers_waiting (shared c) = 0).
  { rewrite Hww. apply tally_zero. intros th [i Hi]%list_elem_of_lookup. unfold in_waiting.
    destruct (op th) as [[e|]|] eqn:Hop; [|done|done]. destruct (Hall _ _ _ Hi Hop) as [[|] Hst]; [|by destruct (Hnw _ _ Hi)].
    destruct (waiting_statement _ _ _ _ Hm Hi Hst) as [Hop' _]. congruence. }
  intros i th Hi. destruct (op th) as [o|] eqn:Hop; [|done]. exfalso.
  destruct (Hall _ _ _ Hi Hop) as [[|] Hst]; [|by destruct (Hnw _ _ Hi)].
  pose proof (ahead_free_mutex _ _ can_read Hinv How (inv_woken _ _ _ _ _ Hinv Hi Hst)) as Hrd. cbn in Hrd. lia.
Qed.

(** ** Properties *)

Section properties.
Context (s0 : server_log) (c0 : config) (Hs0 : log_init junk = Some s0) (Hinit : initial s0 c0).

(** C12: The readers-writer lock excludes: in every run of any number of
    threads, while one thread is in the critical section of [log_write] no
    other thread is in that of [log_write] or of [log_read]; and the
    counters of the lock count the threads inside. *)
Theorem log_exclusion tr c i j ti tj :
  run c0 tr c -> threads c !! i = Some ti -> threads c !! j = Some tj -> i <> j ->
  (writer ti = true -> writer tj = false /\ reader tj = false) /\
  writers_active (shared c) = tally in_writing (threads c) /\
  readers_active (shared c) = tally in_reading (threads c) /\
  writers_waiting (shared c) = tally in_waiting (threads c).
Proof.
  intros Hrun Hi Hj Hne. destruct (run_inv _ _ _ _ Hs0 Hinit Hrun) as [_ Hl _ _ _].
  split; [|by destruct Hl]. intros Hw.
  assert (Hwi : in_writing ti = 1) by (revert Hw; unfold writer, in_writing; repeat case_match; done).
  destruct (writing_alone _ i j _ _ Hl Hi Hj (not_eq_sym Hne) Hwi) as [H1 H2].
  revert H1 H2. unfold writer, reader, in_writing, in_reading. repeat case_match; done.
Qed.

(** C4: The log is linearizable: at every moment the entries written so far
    lie in the buffer one after the other, each one whole, followed by a
    NUL, unless a writer is in the middle of its own; and what every
    [log_read] copies out is exactly the entries completed before it,
    followed by a NUL - never a half-written entry. *)
Theorem log_linearizable tr c :
  run c0 tr c ->
  ((forall i th, threads c !! i = Some th -> midway th = false) ->
     len (shared c) = Z.of_nat (length (logged tr)) /\ exists rest, data (shared c) = logged tr ++ NUL :: rest) /\
  forall tr1 b tr2, tr = tr1 ++ Copied b :: tr2 -> b = logged tr1 ++ [NUL].
Proof.
  intros Hrun. destruct (run_inv _ _ _ _ Hs0 Hinit Hrun) as [_ _ Hb _ Hc]. split; [|done].
  intros Hall. by destruct (bi_rest _ _ Hb Hall) as [_ ? ?].
Qed.

(** C21: No execution reaches undefined behaviour: as long as the log and the
    entry together stay below 2^30 bytes, a thread inside a call sleeps, or
    needs the mutex another thread owns, or takes its next step - the
    doubling of the capacity ends before it overflows, no copy leaves its
    buffer, no counter overflows. *)
Theorem log_safe tr c i th o :
  run c0 tr c -> Z.of_nat (length (threads c)) < 2 ^ 31 - 1 ->
  Z.of_nat (length (logged tr)) + Z.of_nat (length (match o with Write e => e | Read => [] end)) < 2 ^ 30 ->
  threads c !! i = Some th -> op th = Some o ->
  (exists cv, stat th = Waiting cv) \/ blocked body c i th \/ moves body no_locals c i th.
Proof. intros Hrun. eapply inv_progress, run_inv; eauto. Qed.

(** C20: Writers have priority: a reader enters the lock only when no writer
    is active and none waits. *)
Theorem log_writer_priority tr c e c' :
  run c0 tr c -> step c e c' -> readers_active (shared c) < readers_active (shared c') ->
  writers_active (shared c) = 0 /\ writers_waiting (shared c) = 0.
Proof.
  intros Hrun Hstep Hlt. destruct (run_inv _ _ _ _ Hs0 Hinit Hrun) as [_ Hl _ _ _].
  destruct Hstep as [| | | | | | | |s w ths i th f l' s' e Hi Hst Hat Hf|]; cbn in *; try lia.
  instr_op Hat o Hop.
  pose proof (li_passed _ Hl _ _ Hi) as Hp. unfold passed in Hp. rewrite Hop in Hp. cbn in Hp.
  eapply (reader_enters o (pc th)); eauto.
Qed.

(** C19: No wake-up is lost: whenever the mutex is free, a sleeping reader
    waits for a writer that is active or waiting, and a sleeping writer for
    a thread that is in the lock or for another writer that was woken. *)
Theorem log_no_lost_wakeup tr c i th cv :
  run c0 tr c -> owner c = None -> threads c !! i = Some th -> stat th = Waiting cv ->
  match cv with
  | can_read => 0 < writers_active (shared c) \/ 0 < writers_waiting (shared c)
  | can_write => 0 < writers_active (shared c) \/ 0 < readers_active (shared c) \/
                 exists th e, th ∈ threads c /\ stat th = Woken /\ op th = Some (Write e)
  end.
Proof.
  intros Hrun How Hi Hst. pose proof (run_inv _ _ _ _ Hs0 Hinit Hrun) as Hinv.
  apply (ahead_free_mutex tr); [done|done|]. by eapply inv_woken.
Qed.

(** C17: The lock never deadlocks: if every thread inside a call sleeps or is
    blocked on the mutex, then no thread is inside a call. *)
Theorem log_no_deadlock tr c :
  run c0 tr c ->
  (forall i th o, threads c !! i = Some th -> op th = Some o -> (exists cv, stat th = Waiting cv) \/ blocked body c i th) ->
  forall i th, threads c !! i = Some th -> op th = None.
Proof.
  intros Hrun Hstuck. pose proof (run_inv _ _ _ _ Hs0 Hinit Hrun) as Hinv.
  destruct (log_stuck_asleep _ _ Hinv Hstuck) as [How Hall]. eapply asleep_nobody; eauto.
Qed.

End properties.

End proofs.

(** ** Witnesses *)

(** Fresh memory full of [x]s, three idle threads, the initial log. *)
Definition toy_junk (n : Z) : list ascii := replicate (Z.to_nat n) "x"%char.

#[export] Instance toy_junk_fresh : FreshMemory toy_junk.
Proof. intros n _. apply length_replicate. Qed.

Definition toy_log : server_log := default (Log [] 0 0 0 0 0) (log_init toy_junk).

Lemma toy_log_init : log_init toy_junk = Some toy_log.
Proof. vm_compute. reflexivity. Qed.

Definition toy_start : config :=
  let th := Thread None 0 (Locals 0 []) Running in Config toy_log None [th; th; th].

Lemma log_toy_initial : initial toy_log toy_start.
Proof. split; [done|]. split; [done|]. repeat constructor. Qed.

Definition toy_exec (chs : list (choice (Op := call))) : list event * config :=
  default ([], toy_start) (exec_all (body toy_junk) no_locals chs [] toy_start).

Lemma toy_exec_run chs :
  bool_decide (is_Some (exec_all (body toy_junk) no_locals chs [] toy_start)) = true ->
  Monitor.run (body toy_junk) no_locals toy_start (toy_exec chs).1 (toy_exec chs).2.
Proof.
  unfold toy_exec. destruct (exec_all _ _ chs [] toy_start) as [[tr c]|] eqn:He; [|done]. intros _.
  eapply exec_all_run; [constructor|exact He].
Qed.

(** Thread 0 writes "ab", thread 1 reads it. *)
Definition write_then_read : list (choice (Op := call)) :=
  Start 0 (Write ["a"; "b"]%char) :: replicate 15 (Go 0) ++ Start 1 Read :: replicate 11 (Go 1).

(** Thread 0 is in its critical section, thread 1 sleeps. *)
Definition write_and_sleep : list (choice (Op := call)) :=
  Start 0 (Write ["a"; "b"]%char) :: replicate 6 (Go 0) ++ [Start 1 Read; Go 1; Go 1].

(** Thread 1 has passed its wait. *)
Definition about_to_read : list (choice (Op := call)) := [Start 1 Read; Go 1; Go 1].

Lemma log_exclusion_witness :
  let c := (toy_exec write_and_sleep).2 in
  exists ti tj, threads c !! 0%nat = Some ti /\ threads c !! 1%nat = Some tj /\
    writer ti = true /\ writer tj = false /\ reader tj = false.
Proof.
  destruct (threads (toy_exec write_and_sleep).2 !! 0%nat) as [ti|] eqn:Hi; [|by vm_compute in Hi].
  destruct (threads (toy_exec write_and_sleep).2 !! 1%nat) as [tj|] eqn:Hj; [|by vm_compute in Hj].
  exists ti, tj. split; [exact Hi|]. split; [exact Hj|].
  destruct (log_exclusion toy_log toy_start toy_log_init log_toy_initial _ _ 0%nat 1%nat ti tj
    (toy_exec_run write_and_sleep ltac:(by vm_compute)) Hi Hj ltac:(done)) as [Hw _].
  assert (writer ti = true) as Hti by (vm_compute in Hi; by injection Hi as <-).
  split; [exact Hti|]. exact (Hw Hti).
Defined.

Lemma log_linearizable_witness :
  (toy_exec write_then_read).1 = [Appended ["a"; "b"]%char] ++ [Copied ["a"; "b"; NUL]%char] /\
  ["a"; "b"; NUL]%char = logged [Appended ["a"; "b"]%char] ++ [NUL].
Proof.
  assert (Htr : (toy_exec write_then_read).1 = [Appended ["a"; "b"]%char] ++ [Copied ["a"; "b"; NUL]%char]) by by vm_compute.
  split; [exact Htr|].
  exact (proj2 (log_linearizable toy_log toy_start toy_log_init log_toy_initial _ _
    (toy_exec_run write_then_read ltac:(by vm_compute))) [Appended ["a"; "b"]%char] ["a"; "b"; NUL]%char [] Htr).
Defined.

Lemma log_safe_witness :
  let c := (toy_exec write_and_sleep).2 in
  exists th, threads c !! 0%nat = Some th /\
    ((exists cv, stat th = Waiting cv) \/ blocked (body toy_junk) c 0 th \/ moves (body toy_junk) no_locals c 0 th).
Proof.
  destruct (threads (toy_exec write_and_sleep).2 !! 0%nat) as [th|] eqn:Hi; [|by vm_compute in Hi].
  exists th. split; [exact Hi|].
  apply (log_safe toy_log toy_start toy_log_init log_toy_initial (toy_exec write_and_sleep).1 _ 0%nat th
    (Write ["a"; "b"]%char) (toy_exec_run write_and_sleep ltac:(by vm_compute))).
  - by vm_compute.
  - by vm_compute.
  - exact Hi.
  - vm_compute in Hi. by injection Hi as <-.
Defined.

Lemma log_writer_priority_witness :
  exists e c', exec (body toy_junk) no_locals (Go 1) (toy_exec about_to_read).2 = Some (e, c') /\
    readers_active (shared c') = 1 /\ writers_waiting (shared (toy_exec about_to_read).2) = 0.
Proof.
  destruct (exec (body toy_junk) no_locals (Go 1) (toy_exec about_to_read).2) as [[e c']|] eqn:He; [|by vm_compute in He].
  exists e, c'. split; [done|].
  assert (Hr : readers_active (shared c') = 1) by (vm_compute in He; by injection He as _ <-).
  split; [exact Hr|].
  apply (log_writer_priority toy_log toy_start toy_log_init log_toy_initial _ _ e c'
    (toy_exec_run about_to_read ltac:(by vm_compute)) (exec_step _ _ _ _ _ _ He)).
  rewrite Hr. by vm_compute.
Defined.

Lemma log_no_lost_wakeup_witness :
  let c := (toy_exec write_and_sleep).2 in
  owner c = None /\ (0 < writers_active (shared c) \/ 0 < writers_waiting (shared c)).
Proof.
  split; [by vm_compute|].
  destruct (threads (toy_exec write_and_sleep).2 !! 1%nat) as [th|] eqn:Hi; [|by vm_compute in Hi].
  apply (log_no_lost_wakeup toy_log toy_start toy_log_init log_toy_initial (toy_exec write_and_sleep).1 _ 1%nat th
    can_read (toy_exec_run write_and_sleep ltac:(by vm_compute))).
  - by vm_compute.
  - exact Hi.
  - vm_compute in Hi. by injection Hi as <-.
Defined.

Lemma log_no_deadlock_witness :
  exists th, threads (toy_exec write_then_read).2 !! 0%nat = Some th /\ op th = None.
Proof.
  destruct (threads (toy_exec write_then_read).2 !! 0%nat) as [th|] eqn:Hi; [|by vm_compute in Hi].
  exists th. split; [done|]. refine (log_no_deadlock toy_log toy_start toy_log_init log_toy_initial
    (toy_exec write_then_read).1 _ (toy_exec_run write_then_read ltac:(by vm_compute)) _ 0%nat th Hi).
  intros i th' o Hi'%list_elem_of_lookup_2 Hop. exfalso.
  assert (Hids : forall th, th ∈ threads (toy_exec write_then_read).2 -> op th = None).
  { rewrite <- Forall_forall. vm_compute. repeat constructor. }
  rewrite (Hids _ Hi') in Hop. discriminate.
Defined.
