(* ===== verification/Rio.v ===== *)
(** * [multithreaded-web-server/segel.c]: the Rio package

    Buffered and unbuffered input and output that hides short counts and
    interrupted calls.  [read] and [write] are operations of a class, with the
    laws of a descriptor whose input is a stream; the theorems say that the
    functions see the stream and not the pieces it arrives in. *)

From Stdlib Require Import Ascii.
From S2P Require Import Prelude.

Notation bytes := (list ascii).

(** [read(fd, buf, n)] yields bytes, none of them at the end of the input, or
    fails with [EINTR] or another error; [write] likewise yields a count. *)
Inductive io_result (A : Type) := Done (a : A) | Failed (eintr : bool).
Arguments Done {A}.
Arguments Failed {A}.

Class Descriptor (W : Type) := {
  sys_read : Z -> W -> io_result bytes * W;
  sys_write : bytes -> W -> io_result Z * W;
  errno_eintr : W -> bool;   (* [errno] is [EINTR]; a call that succeeds leaves it *)
}.

(** What the package relies on: [read] returns a non-empty prefix of what is
    left, and nothing only at the end; calls are interrupted finitely often. *)
Class DescriptorModel (W : Type) `{Descriptor W} := {
  input : W -> bytes;
  output : W -> bytes;
  noise : W -> nat;
  healthy : W -> Prop;
  read_spec : forall n w, healthy w -> 0 < n ->
    match sys_read n w with
    | (Done bs, w') => healthy w' /\ input w = bs ++ input w' /\ output w' = output w /\ Z.of_nat (length bs) <= n /\
                       (bs = [] -> input w = []) /\ (noise w' <= noise w)%nat
    | (Failed eintr, w') => eintr = true /\ healthy w' /\ input w' = input w /\ output w' = output w /\ (noise w' < noise w)%nat
    end;
  write_spec : forall bs w, healthy w -> bs <> [] ->
    match sys_write bs w with
    | (Done k, w') => healthy w' /\ 0 < k <= Z.of_nat (length bs) /\ output w' = output w ++ take (Z.to_nat k) bs /\
                      input w' = input w /\ (noise w' <= noise w)%nat
    | (Failed eintr, w') => eintr = true /\ healthy w' /\ output w' = output w /\ input w' = input w /\ (noise w' < noise w)%nat
    end;
}.

Definition RIO_BUFSIZE : Z := 8192.

(** [rio_bufptr] is an index of [rio_buf]. *)
Record rio_t := { rio_cnt : Z; rio_bufptr : nat; rio_buf : bytes }.

Section code.
Context {W : Type} `{Descriptor W}.

(** The loops run until the descriptor stops interrupting them, so they take
    fuel; [noise] tells how much is enough. *)
Context (fuel : nat).

Definition call {R A} (f : W -> A * W) : M (R * W) A := fun s => let '(a, w) := f (snd s) in Ok (a, (fst s, w)).

(** The buffer of the caller is the value returned: the bytes stored in it. *)
Definition rio_readn (n : Z) : M (unit * W) (option bytes) :=
  iter fuel (fun '(nleft, acc) =>
    if 0 <? nleft then
      let* r := call (sys_read nleft) in
      match r with
      | Failed eintr => if eintr then ret (inl (nleft, acc)) else ret (inr None)
      | Done [] => ret (inr (Some acc))
      | Done bs => ret (inl (nleft - Z.of_nat (length bs), acc ++ bs))
      end
    else ret (inr (Some acc))) (n, []).

Definition rio_writen (usrbuf : bytes) : M (unit * W) Z :=
  let n := Z.of_nat (length usrbuf) in
  iter fuel (fun '(nleft, bufp) =>
    if 0 <? nleft then
      let* r := call (sys_write bufp) in
      match r with
      | Failed eintr => if eintr then ret (inl (nleft, bufp)) else ret (inr (-1))
      | Done k =>
          if k <=? 0 then
            let* eintr := gets (fun s => errno_eintr (snd s)) in
            if (eintr : bool) then ret (inl (nleft, bufp)) else ret (inr (-1))
          else ret (inl (nleft - k, drop (Z.to_nat k) bufp))
      end
    else ret (inr n)) (n, usrbuf).

Definition rio_readinitb (junk : bytes) : rio_t := {| rio_cnt := 0; rio_bufptr := 0; rio_buf := junk |}.

(** [read] stores at the start of the buffer. *)
Definition fill (bs : bytes) (rp : rio_t) : rio_t :=
  {| rio_cnt := Z.of_nat (length bs); rio_bufptr := 0; rio_buf := bs ++ drop (length bs) (rio_buf rp) |}.

Definition set_cnt (n : Z) (rp : rio_t) : rio_t :=
  {| rio_cnt := n; rio_bufptr := rio_bufptr rp; rio_buf := rio_buf rp |}.

Definition set_rio {A} (f : A -> A) : M (A * W) unit := modify (fun s => (f (fst s), snd s)).

(** The loop of [rio_read]: [None] goes on to the copy, [Some r] returns. *)
Definition refill : M (rio_t * W) (option (option bytes)) :=
  iter fuel (fun _ : unit =>
    let* cnt := gets (fun s => rio_cnt (fst s)) in
    if cnt <=? 0 then
      let* r := call (sys_read RIO_BUFSIZE) in
      match r with
      | Failed eintr => set_rio (set_cnt (-1)) ;;* ret (if eintr then inl tt else inr (Some None))
      | Done [] => set_rio (set_cnt 0) ;;* ret (inr (Some (Some [])))
      | Done bs => set_rio (fill bs) ;;* ret (inl tt)
      end
    else ret (inr None)) tt.

(** [memcpy] out of the buffer. *)
Definition copy_from (cnt : Z) (rp : rio_t) : option bytes :=
  if (0 <=? cnt) && (Z.of_nat (rio_bufptr rp) + cnt <=? Z.of_nat (length (rio_buf rp)))
  then Some (take (Z.to_nat cnt) (drop (rio_bufptr rp) (rio_buf rp))) else None.

Definition advance (cnt : Z) (rp : rio_t) : rio_t :=
  {| rio_cnt := rio_cnt rp - cnt; rio_bufptr := rio_bufptr rp + Z.to_nat cnt; rio_buf := rio_buf rp |}.

(** [None] is the result -1; otherwise the bytes copied to the caller. *)
Definition rio_read (n : Z) : M (rio_t * W) (option bytes) :=
  let* r := refill in
  match r with
  | Some early => ret early
  | None =>
      let* cnt := gets (fun s => if rio_cnt (fst s) <? int32 n then rio_cnt (fst s) else int32 n) in
      let* bs := try_gets (fun s => copy_from cnt (fst s)) in
      set_rio (advance cnt) ;;* ret (Some bs)
  end.

(** [errno] after a failed [rio_read] is never [EINTR]: the call retries it. *)
Definition rio_readnb (n : Z) : M (rio_t * W) (option bytes) :=
  iter fuel (fun '(nleft, acc) =>
    if 0 <? nleft then
      let* r := rio_read nleft in
      match r with
      | None => ret (inr None)
      | Some [] => ret (inr (Some acc))
      | Some bs => ret (inl (nleft - Z.of_nat (length bs), acc ++ bs))
      end
    else ret (inr (Some acc))) (n, []).

Definition newline : ascii := "010"%char.

(** The result and the string stored, or no string when the buffer is not
    touched. *)
Definition rio_readlineb (maxlen : Z) : M (rio_t * W) (Z * option bytes) :=
  iter (S (Z.to_nat maxlen)) (fun '(n, acc) =>
    if n <? int32 maxlen then
      let* rc := rio_read 1 in
      match rc with
      | None => ret (inr (-1, None))
      | Some [c] =>
          if Ascii.eqb c newline then ret (inr (n, Some (acc ++ [c]))) else ret (inl (n + 1, acc ++ [c]))
      | Some [] => if n =? 1 then ret (inr (0, None)) else ret (inr (n, Some acc))
      | Some _ => ret (inr (-1, None))
      end
    else ret (inr (n, Some acc))) (1, []).

(** The wrappers end the whole process on a failure. *)
Inductive ended (A : Type) := Value (a : A) | Exited.
Arguments Value {A}.
Arguments Exited {A}.

Definition Rio_readn (n : Z) : M (unit * W) (ended bytes) :=
  let* r := rio_readn n in
  ret (match r with None => Exited | Some bs => Value bs end).

Definition Rio_writen (usrbuf : bytes) : M (unit * W) (ended unit) :=
  let* r := rio_writen usrbuf in
  ret (if r =? Z.of_nat (length usrbuf) then Value tt else Exited).

Definition Rio_readnb (n : Z) : M (rio_t * W) (ended bytes) :=
  let* r := rio_readnb n in
  ret (match r with None => Exited | Some bs => Value bs end).

Definition Rio_readlineb (maxlen : Z) : M (rio_t * W) (ended (Z * option bytes)) :=
  let* r := rio_readlineb maxlen in
  ret (if fst r <? 0 then Exited else Value r).

End code.

Arguments Value {A}.
Arguments Exited {A}.

(** Sequencing that stops when the process ends. *)
Definition andthen {S A B} (m : M S (ended A)) (k : A -> M S (ended B)) : M S (ended B) :=
  let* r := m in match r with Value a => k a | Exited => ret Exited end.

Definition finish {S A} (a : A) : M S (ended A) := ret (Value a).

Notation "'let!' x ':=' m 'in' k" := (andthen m (fun x => k))
  (at level 10, x name, m at level 100, k at level 200) : c_scope.
Notation "m ';;!' k" := (andthen m (fun _ => k)) (at level 199, right associativity) : c_scope.

Lemma wp_andthen {S A B} (m : M S (ended A)) (k : A -> M S (ended B)) (Q : ended B -> S -> Prop) s :
  wp m (fun r s' => match r with Value a => wp (k a) Q s' | Exited => Q Exited s' end) s -> wp (andthen m k) Q s.
Proof. intros Hm. unfold andthen. apply wp_bind. eapply wp_mono; [exact Hm|]. by intros [a|] s'. Qed.

(** ** The stream *)

Section stream.
Context {W : Type} `{DescriptorModel W}.

(** The unread part of the buffer, and all the input to come. *)
Definition pending (rp : rio_t) : bytes := take (Z.to_nat (rio_cnt rp)) (drop (rio_bufptr rp) (rio_buf rp)).

Definition upcoming (s : rio_t * W) : bytes := pending (fst s) ++ input (snd s).

Definition rio_ok (rp : rio_t) : Prop :=
  Z.of_nat (length (rio_buf rp)) = RIO_BUFSIZE /\ rio_cnt rp <= RIO_BUFSIZE - Z.of_nat (rio_bufptr rp) /\
  Z.of_nat (rio_bufptr rp) <= RIO_BUFSIZE.

(** States in which the fuel suffices. *)
Definition ready (fuel : nat) (s : rio_t * W) : Prop :=
  rio_ok (fst s) /\ healthy (snd s) /\ (noise (snd s) + 2 < fuel)%nat.

Lemma readinitb_ok junk : Z.of_nat (length junk) = RIO_BUFSIZE -> rio_ok (rio_readinitb junk) /\ pending (rio_readinitb junk) = [].
Proof. intros Hj. unfold rio_ok, RIO_BUFSIZE in *. cbn. split; [lia|done]. Qed.

Lemma pending_length rp : rio_ok rp -> 0 < rio_cnt rp -> length (pending rp) = Z.to_nat (rio_cnt rp).
Proof.
  intros (Hb & Hc & Hp) Hcnt. unfold pending, RIO_BUFSIZE in *. rewrite length_take, length_drop. lia.
Qed.

Lemma wp_call {R A} (f : W -> A * W) (Q : A -> R * W -> Prop) s :
  (let '(a, w) := f (snd s) in Q a (fst s, w)) -> wp (call f) Q s.
Proof. unfold wp, call. by destruct (f (snd s)). Qed.

(** The refill ends with bytes in the buffer, or at the end of the input. *)
Lemma wp_refill fuel (Q : option (option bytes) -> rio_t * W -> Prop) s :
  ready fuel s ->
  (forall s', ready fuel s' -> upcoming s' = upcoming s -> output (snd s') = output (snd s) ->
     (noise (snd s') <= noise (snd s))%nat -> 0 < rio_cnt (fst s') -> Q None s') ->
  (forall s', ready fuel s' -> upcoming s = [] -> upcoming s' = [] -> output (snd s') = output (snd s) ->
     (noise (snd s') <= noise (snd s))%nat -> Q (Some (Some [])) s') ->
  wp (refill fuel) Q s.
Proof.
  intros Hs Hgot Hend. unfold refill.
  apply (wp_iter (fun v (_ : unit) s' =>
    ready fuel s' /\ upcoming s' = upcoming s /\ output (snd s') = output (snd s) /\ (noise (snd s') <= noise (snd s))%nat /\
    v = (noise (snd s') + if (0 <? rio_cnt (fst s'))%Z then 0 else 1)%nat))
    with (n := (noise (snd s) + if (0 <? rio_cnt (fst s))%Z then 0 else 1)%nat).
  - intros v _ s' (Hr & Hu & Ho & Hn & ->). apply wp_bind, wp_gets.
    destruct (Z.leb_spec (rio_cnt (fst s')) 0) as [Hc|Hc]; [|by apply wp_ret, Hgot].
    rewrite (proj2 (Z.ltb_ge 0 _)) by done. destruct Hr as ((Hb & Hcn & Hp) & Hh & Hf).
    assert (Hpend : pending (fst s') = []) by (unfold pending; by replace (Z.to_nat (rio_cnt (fst s'))) with 0%nat by lia).
    apply wp_bind, wp_call. pose proof (read_spec RIO_BUFSIZE (snd s') Hh ltac:(done)) as Hread.
    destruct (sys_read RIO_BUFSIZE (snd s')) as [[bs|eintr] w'].
    + destruct Hread as (Hh' & Hin & Hout & Hlen & Hnil & Hnoise). destruct bs as [|b bs].
      * apply wp_bind, wp_modify, wp_ret. cbn [fst snd app] in *.
        assert (upcoming s = []) by (rewrite <- Hu; unfold upcoming; rewrite Hpend, Hnil by done; done).
        apply Hend; cbn [snd]; [|done| |congruence|lia].
        -- split; [|split; [done|cbn; lia]]. unfold rio_ok in *. cbn. unfold RIO_BUFSIZE in *. lia.
        -- unfold upcoming, pending. cbn. rewrite <- Hin. by apply Hnil.
      * apply wp_bind, wp_modify, wp_ret. set (c := b :: bs) in *.
        assert (Hlc : (0 < length c)%nat) by (cbn; lia). cbn [fst snd] in *.
        eexists. split; [|split; [|split; [|split; [|split; [|reflexivity]]]]]; cbn [fst snd fill rio_cnt].
        -- rewrite (proj2 (Z.ltb_lt 0 _)) by lia. lia.
        -- split; [|split; [done|cbn; lia]]. unfold rio_ok. cbn [fill rio_cnt rio_bufptr rio_buf fst].
           rewrite length_app, length_drop. unfold RIO_BUFSIZE in *. lia.
        -- rewrite <- Hu. unfold upcoming, pending at 1. cbn [fst snd fill rio_cnt rio_bufptr rio_buf].
           rewrite Nat2Z.id, drop_0, take_app_length, Hpend, Hin. done.
        -- congruence.
        -- lia.
    + destruct Hread as (-> & Hh' & Hin & Hout & Hnoise). apply wp_bind, wp_modify, wp_ret. cbn [fst snd].
      eexists. split; [|split; [|split; [|split; [|split; [|reflexivity]]]]]; cbn [fst snd set_cnt rio_cnt].
      -- cbn. lia.
      -- split; [|split; [done|cbn; lia]]. unfold rio_ok in *. cbn. unfold RIO_BUFSIZE in *. lia.
      -- rewrite <- Hu. unfold upcoming. rewrite Hpend, <- Hin. done.
      -- congruence.
      -- lia.
  - destruct s as [rp w]. split_and!; [done..|lia|done].
  - destruct Hs as (_ & _ & Hf). destruct (0 <? rio_cnt (fst s)); lia.
Qed.

Lemma take_drop_split {A} (l : list A) (i n k : nat) :
  (n <= k)%nat -> take k (drop i l) = take n (drop i l) ++ take (k - n) (drop (i + n) l).
Proof.
  intros Hn. rewrite <- drop_drop. rewrite <- (take_drop n (take k (drop i l))) at 1. f_equal.
  - rewrite take_take. f_equal. lia.
  - apply skipn_firstn_comm.
Qed.

(** [rio_read] yields a prefix of the stream, empty only at its end. *)
Lemma wp_rio_read fuel n (Q : option bytes -> rio_t * W -> Prop) s :
  ready fuel s -> 0 < n < 2 ^ 31 ->
  (forall bs s', ready fuel s' -> upcoming s = bs ++ upcoming s' -> Z.of_nat (length bs) <= n ->
     (bs = [] -> upcoming s = []) -> output (snd s') = output (snd s) -> (noise (snd s') <= noise (snd s))%nat ->
     Q (Some bs) s') ->
  wp (rio_read fuel n) Q s.
Proof.
  intros Hs Hn HQ. unfold rio_read. apply wp_bind. apply wp_refill; [done| |].
  - intros s' Hr Hu Ho Hno Hc. apply wp_bind, wp_gets. rewrite int32_small by lia.
    set (cnt := if rio_cnt (fst s') <? n then rio_cnt (fst s') else n).
    assert (Hcnt : 0 < cnt <= n /\ cnt <= rio_cnt (fst s')) by (unfold cnt; destruct (Z.ltb_spec (rio_cnt (fst s')) n); lia).
    destruct Hr as (Hok & Hh & Hf). pose proof Hok as (Hb & Hk & Hp). unfold RIO_BUFSIZE in *.
    apply wp_bind. eapply wp_try_gets.
    { unfold copy_from. rewrite (proj2 (Z.leb_le 0 cnt)), (proj2 (Z.leb_le _ _)) by lia. done. }
    set (bs := take (Z.to_nat cnt) _). assert (Hlen : Z.of_nat (length bs) = cnt).
    { unfold bs. rewrite length_take, length_drop. lia. }
    apply wp_bind, wp_modify, wp_ret. apply HQ; cbn [fst snd].
    + split; [|done]. unfold rio_ok, RIO_BUFSIZE. cbn. lia.
    + rewrite <- Hu. unfold upcoming, pending. cbn [fst snd advance rio_cnt rio_bufptr rio_buf].
      rewrite (take_drop_split _ _ (Z.to_nat cnt)) by lia. rewrite <- app_assoc. do 2 f_equal. f_equal. lia.
    + lia.
    + intros Hnil. rewrite Hnil in Hlen. cbn in Hlen. lia.
    + done.
    + done.
  - intros s' Hr Hu Hu' Ho Hno. apply wp_ret. apply HQ; [done|by rewrite Hu, Hu'|cbn; lia|done..].
Qed.

(** [rio_readnb] yields the next [n] bytes of the stream, fewer only at its
    end. *)
Lemma wp_rio_readnb fuel n s :
  ready fuel s -> 0 <= n < 2 ^ 31 -> (Z.to_nat n < fuel)%nat ->
  wp (rio_readnb fuel n) (fun r s' =>
    r = Some (take (Z.to_nat n) (upcoming s)) /\ upcoming s' = drop (Z.to_nat n) (upcoming s) /\
    ready fuel s' /\ output (snd s') = output (snd s)) s.
Proof.
  intros Hs Hn Hfuel. unfold rio_readnb.
  apply (wp_iter (fun v '(nleft, acc) s' =>
    ready fuel s' /\ output (snd s') = output (snd s) /\ upcoming s = acc ++ upcoming s' /\
    Z.of_nat (length acc) + nleft = n /\ 0 <= nleft /\ v = Z.to_nat nleft)) with (n := Z.to_nat n).
  - intros v [nleft acc] s' (Hr & Ho & Hu & Hl & Hpos & ->).
    assert (Hdone : forall rest, upcoming s = acc ++ rest -> (nleft = 0 \/ rest = []) ->
              take (Z.to_nat n) (upcoming s) = acc /\ drop (Z.to_nat n) (upcoming s) = rest).
    { intros rest -> [Hz| ->].
      - replace (Z.to_nat n) with (length acc) by lia. by rewrite take_app_length, drop_app_length.
      - rewrite app_nil_r, take_ge, drop_ge by lia. done. }
    destruct (Z.ltb_spec 0 nleft) as [Hlt|Hge].
    + apply wp_bind, wp_rio_read; [done|lia|]. intros bs s'' Hr' Hu' Hlen Hnil Ho' Hno.
      destruct bs as [|b bs].
      * apply wp_ret. assert (He : upcoming s'' = []) by (rewrite <- Hnil by done; done).
        destruct (Hdone (upcoming s'')) as [-> ->]; [by rewrite Hu, Hu'|by right|]. split_and!; [done..|congruence].
      * apply wp_ret. set (c := b :: bs) in *. assert ((0 < length c)%nat) by (cbn; lia).
        eexists. split; [|split_and!; [done|congruence| | | |reflexivity]]; [lia| |rewrite length_app; lia|lia].
        by rewrite Hu, Hu', <- app_assoc.
    + apply wp_ret. destruct (Hdone (upcoming s') Hu ltac:(left; lia)) as [-> ->]. done.
  - split_and!; [done..|cbn; lia|lia|done].
  - done.
Qed.

(** The first line of a text, cut off after [k] bytes. *)
Fixpoint line (k : nat) (s : bytes) : bytes :=
  match k, s with
  | S k', c :: s' => if Ascii.eqb c newline then [c] else c :: line k' s'
  | _, _ => []
  end.

Definition ends_line (l : bytes) : bool := bool_decide (last l = Some newline).

(** The value [rio_readlineb] returns for a line: its length, and one more
    when the line has no newline. *)
Definition line_result (l : bytes) : Z := Z.of_nat (length l) + if ends_line l then 0 else 1.

Lemma ends_line_snoc l c : ends_line (l ++ [c]) = Ascii.eqb c newline.
Proof.
  unfold ends_line. rewrite last_snoc. destruct (Ascii.eqb_spec c newline) as [->|Hc]; [by apply bool_decide_eq_true_2|].
  apply bool_decide_eq_false_2. congruence.
Qed.

Lemma wp_rio_readlineb fuel maxlen s :
  ready fuel s -> 2 <= maxlen < 2 ^ 31 ->
  wp (rio_readlineb fuel maxlen) (fun r s' =>
    (let l := line (Z.to_nat (maxlen - 1)) (upcoming s) in
     r = match upcoming s with [] => (0, None) | _ => (line_result l, Some l) end /\
     upcoming s = l ++ upcoming s') /\
    ready fuel s' /\ output (snd s') = output (snd s)) s.
Proof.
  intros Hs Hm. unfold rio_readlineb. set (l := line (Z.to_nat (maxlen - 1)) (upcoming s)).
  apply (wp_iter (fun v '(n, acc) s' =>
    ready fuel s' /\ output (snd s') = output (snd s) /\ upcoming s = acc ++ upcoming s' /\
    l = acc ++ line (Z.to_nat (maxlen - n)) (upcoming s') /\ ends_line acc = false /\
    n = 1 + Z.of_nat (length acc) /\ n <= maxlen /\ v = Z.to_nat (maxlen - n))) with (n := Z.to_nat (maxlen - 1)).
  - intros v [n acc] s' (Hr & Ho & Hu & Hl & He & Hn & Hle & ->). rewrite int32_small by lia.
    assert (Hstop : l = acc -> upcoming s <> [] ->
              (n, Some acc) = match upcoming s with [] => (0, None) | _ => (line_result l, Some l) end).
    { intros -> Hne. destruct (upcoming s); [done|]. unfold line_result. rewrite He. f_equal. lia. }
    destruct (Z.ltb_spec n maxlen) as [Hlt|Hge].
    + apply wp_bind, wp_rio_read; [done|lia|]. intros bs s'' Hr' Hu' Hlen Hnil Ho' _.
      replace (Z.to_nat (maxlen - n)) with (S (Z.to_nat (maxlen - (n + 1)))) in Hl by lia.
      destruct bs as [|c [|c' bs]]; [| |cbn in Hlen; lia].
      * rewrite Hnil in Hl, Hu by done. cbn [line] in Hl. rewrite app_nil_r in Hl, Hu.
        assert (He'' : upcoming s'' = []) by (rewrite Hnil in Hu' by done; done).
        destruct (Z.eqb_spec n 1) as [H1|H1]; apply wp_ret.
        -- assert (acc = []) as Hacc by (destruct acc; [done|cbn in Hn; lia]). rewrite Hu, Hl, Hacc, He''.
           split_and!; [done..|congruence].
        -- split; [|split; [done|congruence]]. split; [|by rewrite Hl, He'', app_nil_r].
           apply Hstop; [done|]. rewrite Hu. destruct acc; [cbn in Hn; lia|done].
      * rewrite Hu' in Hl. cbn [app line] in Hl.
        assert (Hup : upcoming s = (acc ++ [c]) ++ upcoming s'') by (rewrite Hu, Hu', <- app_assoc; done).
        destruct (Ascii.eqb c newline) eqn:Hc; apply wp_ret.
        -- split; [|split; [done|congruence]]. rewrite Hl. split; [|done]. rewrite Hup.
           destruct ((acc ++ [c]) ++ upcoming s'') eqn:Hx; [by destruct acc|].
           unfold line_result. rewrite ends_line_snoc, Hc, length_app. f_equal. cbn. lia.
        -- eexists. split; [|split_and!; [done|congruence|exact Hup| | | | |reflexivity]]; [lia|by rewrite Hl, <- app_assoc| | |lia].
           ++ by rewrite ends_line_snoc.
           ++ rewrite length_app. cbn. lia.
    + replace (Z.to_nat (maxlen - n)) with 0%nat in Hl by lia. cbn [line] in Hl. rewrite app_nil_r in Hl.
      apply wp_ret. split; [|done]. split; [|by rewrite Hl].
      apply Hstop; [done|]. rewrite Hu. destruct acc; [cbn in Hn; lia|done].
  - split_and!; try done; lia.
  - lia.
Qed.

Lemma wp_rio_writen fuel buf w (u : unit) :
  healthy w -> (noise w + length buf < fuel)%nat ->
  wp (rio_writen fuel buf) (fun r s' =>
    r = Z.of_nat (length buf) /\ healthy (snd s') /\ output (snd s') = output w ++ buf /\ input (snd s') = input w /\
    (noise (snd s') <= noise w)%nat) (u, w).
Proof.
  intros Hw Hfuel. unfold rio_writen.
  apply (wp_iter (fun v '(nleft, bufp) s' =>
    healthy (snd s') /\ nleft = Z.of_nat (length bufp) /\ output w ++ buf = output (snd s') ++ bufp /\
    input (snd s') = input w /\ (noise (snd s') <= noise w)%nat /\ v = (noise (snd s') + length bufp)%nat))
    with (n := (noise w + length buf)%nat).
  - intros v [nleft bufp] s' (Hh & -> & Ho & Hi & Hn & ->). destruct (Z.ltb_spec 0 (Z.of_nat (length bufp))) as [Hlt|Hge].
    + apply wp_bind, wp_call. assert (Hne : bufp <> []) by (intros ->; cbn in Hlt; lia).
      pose proof (write_spec bufp (snd s') Hh Hne) as Hwr. destruct (sys_write bufp (snd s')) as [[k|eintr] w'].
      * destruct Hwr as (Hh' & Hk & Ho' & Hi' & Hn'). rewrite (proj2 (Z.leb_gt k 0)) by lia. apply wp_ret.
        eexists. split; [|split_and!; [done| | | | |reflexivity]]; cbn [snd].
        -- rewrite length_drop. lia.
        -- rewrite length_drop. lia.
        -- rewrite Ho', <- app_assoc, take_drop. done.
        -- congruence.
        -- lia.
      * destruct Hwr as (-> & Hh' & Ho' & Hi' & Hn'). apply wp_ret. eexists.
        split; [|split_and!; [done|done| | | |reflexivity]]; cbn [snd]; [lia|congruence|congruence|lia].
    + apply wp_ret. assert (bufp = []) as -> by (destruct bufp; [done|cbn in Hge; lia]).
      rewrite app_nil_r in Ho. done.
  - done.
  - done.
Qed.

Lemma wp_rio_readn fuel n w (u : unit) :
  healthy w -> 0 <= n -> (noise w + Z.to_nat n + 1 < fuel)%nat ->
  wp (rio_readn fuel n) (fun r s' =>
    r = Some (take (Z.to_nat n) (input w)) /\ input (snd s') = drop (Z.to_nat n) (input w) /\
    output (snd s') = output w /\ healthy (snd s') /\ (noise (snd s') <= noise w)%nat) (u, w).
Proof.
  intros Hw Hn Hfuel. unfold rio_readn.
  apply (wp_iter (fun v '(nleft, acc) s' =>
    healthy (snd s') /\ input w = acc ++ input (snd s') /\ output (snd s') = output w /\
    Z.of_nat (length acc) + nleft = n /\ 0 <= nleft /\ (noise (snd s') <= noise w)%nat /\
    v = (noise (snd s') + Z.to_nat nleft)%nat)) with (n := (noise w + Z.to_nat n)%nat).
  - intros v [nleft acc] s' (Hh & Hi & Ho & Hl & Hpos & Hno & ->).
    assert (Hdone : forall rest, input w = acc ++ rest -> (nleft = 0 \/ rest = []) ->
              take (Z.to_nat n) (input w) = acc /\ drop (Z.to_nat n) (input w) = rest).
    { intros rest -> [Hz| ->].
      - replace (Z.to_nat n) with (length acc) by lia. by rewrite take_app_length, drop_app_length.
      - rewrite app_nil_r, take_ge, drop_ge by lia. done. }
    destruct (Z.ltb_spec 0 nleft) as [Hlt|Hge].
    + apply wp_bind, wp_call. pose proof (read_spec nleft (snd s') Hh Hlt) as Hrd.
      destruct (sys_read nleft (snd s')) as [[bs|eintr] w'].
      * destruct Hrd as (Hh' & Hi' & Ho' & Hlen & Hnil & Hn'). destruct bs as [|b bs]; apply wp_ret; cbn [snd].
        -- destruct (Hdone (input w')) as [-> ->]; [by rewrite Hi, Hi'|right; rewrite <- Hnil by done; done|].
           split_and!; [done|done|congruence|done|lia].
        -- set (c := b :: bs) in *. assert ((0 < length c)%nat) by (cbn; lia).
           eexists. split; [|split_and!; [done| |congruence| | | |reflexivity]]; cbn [snd];
             [lia|by rewrite Hi, Hi', <- app_assoc|rewrite length_app; lia|lia|lia].
      * destruct Hrd as (-> & Hh' & Hi' & Ho' & Hn'). apply wp_ret. eexists.
        split; [|split_and!; [done| | | | | |reflexivity]]; cbn [snd]; [lia|congruence|congruence|lia|lia|lia].
    + apply wp_ret. destruct (Hdone (input (snd s')) Hi ltac:(left; lia)) as [-> ->]. done.
  - split_and!; [done..|cbn; lia|lia|done|done].
  - lia.
Qed.

End stream.

(** ** A concrete descriptor *)

(** The input arrives in pieces with interrupted calls between them; a call of
    [write] takes at most [limit] bytes. *)
Record toy_fd := ToyFd { pieces : list (option (ascii * bytes)); sent : bytes; limit : nat }.

Fixpoint toy_input (ps : list (option (ascii * bytes))) : bytes :=
  match ps with
  | [] => []
  | None :: ps' => toy_input ps'
  | Some (c, bs) :: ps' => c :: bs ++ toy_input ps'
  end.

Definition toy_read (n : Z) (w : toy_fd) : io_result bytes * toy_fd :=
  match pieces w with
  | [] => (Done [], w)
  | None :: ps => (Failed true, ToyFd ps (sent w) (limit w))
  | Some (c, bs) :: ps =>
      (Done (take (Z.to_nat n) (c :: bs)),
       ToyFd (match drop (Z.to_nat n) (c :: bs) with [] => ps | d :: ds => Some (d, ds) :: ps end) (sent w) (limit w))
  end.

Definition toy_write (bs : bytes) (w : toy_fd) : io_result Z * toy_fd :=
  let k := Nat.min (S (limit w)) (length bs) in
  (Done (Z.of_nat k), ToyFd (pieces w) (sent w ++ take k bs) (limit w)).

#[export] Instance toy_descriptor : Descriptor toy_fd :=
  { sys_read := toy_read; sys_write := toy_write; errno_eintr := fun _ => false }.

Definition toy_noise (w : toy_fd) : nat := length (List.filter (fun p => match p with None => true | _ => false end) (pieces w)).

#[export, program] Instance toy_descriptor_model : DescriptorModel toy_fd := {
  input := fun w => toy_input (pieces w);
  output := sent;
  noise := toy_noise;
  healthy := fun w => True;
}.
Next Obligation.
  intros n [[|[[c bs]|] ps] o l] _ Hn; cbn.
  - split_and!; try done; lia.
  - destruct (Z.to_nat n) as [|k] eqn:Hk; [lia|]. cbn [take drop].
    split_and!; try done.
    + assert (Hbs : bs = take k bs ++ drop k bs) by by rewrite take_drop.
      destruct (drop k bs) as [|d ds]; cbn; rewrite Hbs at 1; [by rewrite app_nil_r|by rewrite <- app_assoc].
    + cbn. rewrite length_take. lia.
    + by destruct (drop k bs).
  - split_and!; try done. lia.
Qed.
Next Obligation.
  intros bs [ps o l] _ Hne. cbn. rewrite Nat2Z.id. destruct bs as [|b bs]; [done|]. split_and!; try done; cbn [length]; lia.
Qed.

(** ** What the package promises *)

Section promises.
Context {W : Type} `{DescriptorModel W}.

(** C13: [rio_readlineb] reads the next line of the stream, however the stream was
    cut into pieces, interrupted and buffered: at most [maxlen - 1] bytes, up
    to and including the newline; the rest stays for the next call. *)
Theorem readlineb_line (fuel : nat) (maxlen : Z) (s : rio_t * W) :
  ready fuel s -> 2 <= maxlen < 2 ^ 31 ->
  exists r s', rio_readlineb fuel maxlen s = Ok (r, s') /\
    let l := line (Z.to_nat (maxlen - 1)) (upcoming s) in
    r = match upcoming s with [] => (0, None) | _ => (line_result l, Some l) end /\
    upcoming s = l ++ upcoming s' /\ ready fuel s'.
Proof.
  intros Hs Hm. destruct (wp_run _ _ _ (wp_rio_readlineb fuel maxlen s Hs Hm)) as (r & s' & Hrun & (Hr & Hu) & Hr' & _).
  by exists r, s'.
Qed.

(** [rio_readnb] yields the next bytes of the same stream, so calls of the two
    functions may be mixed. *)
Theorem readnb_prefix (fuel : nat) (n : Z) (s : rio_t * W) :
  ready fuel s -> 0 <= n < 2 ^ 31 -> (Z.to_nat n < fuel)%nat ->
  exists s', rio_readnb fuel n s = Ok (Some (take (Z.to_nat n) (upcoming s)), s') /\
    upcoming s' = drop (Z.to_nat n) (upcoming s) /\ ready fuel s'.
Proof.
  intros Hs Hn Hf. destruct (wp_run _ _ _ (wp_rio_readnb fuel n s Hs Hn Hf)) as (r & s' & Hrun & -> & Hu & Hr & _).
  by exists s'.
Qed.

(** C35: [rio_writen] sends the whole buffer, in order and once, whatever the
    single calls of [write] take. *)
Theorem writen_sends_all (fuel : nat) (buf : bytes) (w : W) :
  healthy w -> (noise w + length buf < fuel)%nat ->
  exists w', rio_writen fuel buf (tt, w) = Ok (Z.of_nat (length buf), (tt, w')) /\
    output w' = output w ++ buf /\ input w' = input w /\ healthy w'.
Proof.
  intros Hw Hf. destruct (wp_run _ _ _ (wp_rio_writen fuel buf w tt Hw Hf)) as (r & [[] w'] & Hrun & -> & Hh & Ho & Hi & _).
  by exists w'.
Qed.

End promises.

(** A request line in three pieces. *)
Definition toy_request : toy_fd :=
  ToyFd [Some ("G", ["E"; "T"])%char; None; Some (" ", ["/"; newline; "x"])%char] [] 1.

Definition toy_rio : rio_t := rio_readinitb (repeat "000"%char (Z.to_nat RIO_BUFSIZE)).

Lemma toy_ready fuel w : (noise w + 2 < fuel)%nat -> ready fuel (toy_rio, w : toy_fd).
Proof. intros Hf. split; [apply readinitb_ok; vm_compute; reflexivity|done]. Qed.

Lemma readlineb_line_witness :
  exists s', rio_readlineb 10 8192 (toy_rio, toy_request) = Ok ((6, Some ["G"; "E"; "T"; " "; "/"; newline]%char), s').
Proof.
  destruct (readlineb_line 10 8192 (toy_rio, toy_request)) as (r & s' & Hrun & Hr & _).
  - apply toy_ready. vm_compute. lia.
  - lia.
  - exists s'. rewrite Hrun, Hr. vm_compute. reflexivity.
Defined.

Lemma readnb_prefix_witness :
  exists s', rio_readnb 10 4 (toy_rio, toy_request) = Ok (Some ["G"; "E"; "T"; " "]%char, s').
Proof.
  destruct (readnb_prefix 10 4 (toy_rio, toy_request)) as (s' & Hrun & _).
  - apply toy_ready. vm_compute. lia.
  - lia.
  - vm_compute. lia.
  - exists s'. rewrite Hrun. vm_compute. reflexivity.
Defined.

Lemma writen_sends_all_witness :
  exists w', rio_writen 10 ["O"; "K"; "!"]%char (tt, toy_request) = Ok (3, (tt, w')) /\ output w' = ["O"; "K"; "!"]%char.
Proof.
  destruct (writen_sends_all 10 ["O"; "K"; "!"]%char toy_request) as (w' & Hrun & Ho & _); [exact I|vm_compute; lia|].
  exists w'. split; [exact Hrun|exact Ho].
Defined.
