(* ===== verification/ShellText.v ===== *)
(** * [hw1-linux-basics/Commands.cpp]: the text helpers of the shell

    [std::string] as a list of characters, the searching members the shell
    uses, and the helpers [_trim], [_split], [_isNumber], [_isBackground] and
    [_removeBackground], each with the reference definition it computes. *)

From Stdlib Require Export Ascii.
From stdpp Require Import pretty.
From S2P Require Import Prelude.

Notation text := (list ascii).

Definition lit (s : string) : text := String.list_ascii_of_string s.

(** ** [std::string] *)

Section std_string.
Implicit Types (s cs : text) (p : ascii -> bool).

(** [npos] is [None]. *)
Fixpoint find_idx p s : option nat :=
  match s with
  | [] => None
  | c :: s' => if p c then Some 0%nat else S <$> find_idx p s'
  end.

Definition find_at p s (start : nat) : option nat := Nat.add start <$> find_idx p (drop start s).

Definition find_last p s : option nat := (fun i => length s - 1 - i)%nat <$> find_idx p (reverse s).

Definition one_of cs (c : ascii) : bool := existsb (Ascii.eqb c) cs.

Definition find_first_of cs s (start : nat) : option nat := find_at (one_of cs) s start.
Definition find_first_not_of cs s (start : nat) : option nat := find_at (fun c => negb (one_of cs c)) s start.
Definition find_last_not_of cs s : option nat := find_last (fun c => negb (one_of cs c)) s.
Definition find_char (c : ascii) s (start : nat) : option nat := find_at (Ascii.eqb c) s start.
Definition rfind_char (c : ascii) s : option nat := find_last (Ascii.eqb c) s.

Fixpoint is_prefix (pat s : text) : bool :=
  match pat, s with
  | [], _ => true
  | c :: pat', d :: s' => Ascii.eqb c d && is_prefix pat' s'
  | _ :: _, [] => false
  end.

Fixpoint find_str (pat s : text) : option nat :=
  if is_prefix pat s then Some 0%nat
  else match s with [] => None | _ :: s' => S <$> find_str pat s' end.

(** [substr(pos, n)]; the calls of the shell have [pos <= size()]. *)
Definition substr s (pos : nat) (n : option nat) : text :=
  let r := drop pos s in match n with Some n => take n r | None => r end.

Definition back s : option ascii := last s.
Definition pop_back s : text := take (length s - 1) s.

End std_string.

Definition WHITESPACE : text := [" "; "009"; "013"; "010"]%char.

(** ** The helpers *)

(** [end - start + 1] wraps to a count past the end when [end] is [npos]. *)
Definition _trim (s : text) : text :=
  match find_first_not_of WHITESPACE s 0 with
  | None => []
  | Some start =>
      match find_last_not_of WHITESPACE s with
      | Some end_ => substr s start (Some (end_ - start + 1)%nat)
      | None => substr s start None
      end
  end.

Fixpoint split_loop (fuel : nat) (s delimiters : text) (start : option nat) (tokens : list text) : option (list text) :=
  match fuel with
  | O => None
  | S fuel' =>
      match start with
      | None => Some tokens
      | Some start =>
          let end_ := find_first_of delimiters s start in
          let tokens := tokens ++ [substr s start (match end_ with Some e => Some (e - start)%nat | None => None end)] in
          split_loop fuel' s delimiters
            (match end_ with None => None | Some e => find_first_not_of delimiters s e end) tokens
      end
  end.

(** Every round but the last consumes a character. *)
Definition split_on (s delimiters : text) : list text :=
  default [] (split_loop (S (S (length s))) s delimiters (find_first_not_of delimiters s 0) []).

Definition _split (s : text) : list text := split_on s WHITESPACE.

Definition isdigit (c : ascii) : bool := ((48 <=? N_of_ascii c) && (N_of_ascii c <=? 57))%N.

Definition _isNumber (s : text) : bool :=
  match s with
  | [] => false
  | c :: s' =>
      let rest := if Ascii.eqb c "-" then s' else s in
      match rest with [] => false | _ => forallb isdigit rest end
  end.

Definition _isBackground (cmd_line : text) : bool :=
  match back (_trim cmd_line) with Some c => Ascii.eqb c "&" | None => false end.

Definition _removeBackground (cmd_line : text) : text :=
  let trimmed := _trim cmd_line in
  match back trimmed with
  | Some c => if Ascii.eqb c "&" then _trim (pop_back trimmed) else trimmed
  | None => trimmed
  end.

(** The conversions of [<string>] read an optional sign and digits, up to the
    first other character; [None] is a thrown exception
    ([std::invalid_argument] without digits, [std::out_of_range] beyond the
    type). *)
Definition digit_value (c : ascii) : Z := Z.of_N (N_of_ascii c) - 48.

Fixpoint digits_value (acc : Z) (s : text) : Z :=
  match s with
  | [] => acc
  | c :: s' => if isdigit c then digits_value (acc * 10 + digit_value c) s' else acc
  end.

(** The sign and the magnitude. *)
Definition parse_integer (s : text) : option (Z * Z) :=
  let s := match find_first_not_of (WHITESPACE ++ ["011"; "012"]%char) s 0 with Some i => drop i s | None => [] end in
  let '(sign, s) := match s with
                    | c :: s' => if Ascii.eqb c "-" then (-1, s') else if Ascii.eqb c "+" then (1, s') else (1, s)
                    | [] => (1, [])
                    end in
  match s with
  | c :: _ => if isdigit c then Some (sign, digits_value 0 s) else None
  | [] => None
  end.

Definition stoi (s : text) : option Z :=
  match parse_integer s with Some (sign, m) => int_ok (sign * m) | None => None end.

Definition stol (s : text) : option Z :=
  match parse_integer s with
  | Some (sign, m) => if (- 2 ^ 63 <=? sign * m) && (sign * m <? 2 ^ 63) then Some (sign * m) else None
  | None => None
  end.

Definition stoul (s : text) : option Z :=
  match parse_integer s with
  | Some (sign, m) => if m <? 2 ^ 64 then Some (wrap64 (sign * m)) else None
  | None => None
  end.

(** [os << n] for an integer [n]. *)
Definition show (n : Z) : text := lit (pretty n).

(** ** Reference definitions *)

(** The number a digit string with an optional minus sign denotes. *)
Definition decimal (s : text) : Z :=
  match s with
  | c :: s' => if Ascii.eqb c "-" then - digits_value 0 s' else digits_value 0 s
  | [] => 0
  end.

Fixpoint drop_while (p : ascii -> bool) (s : text) : text :=
  match s with [] => [] | c :: s' => if p c then drop_while p s' else s end.

Fixpoint take_while (p : ascii -> bool) (s : text) : text :=
  match s with [] => [] | c :: s' => if p c then c :: take_while p s' else [] end.

Definition blank (c : ascii) : bool := one_of WHITESPACE c.

#[global] Arguments one_of : simpl never.
#[global] Arguments blank : simpl never.

Definition strip (s : text) : text := reverse (drop_while blank (reverse (drop_while blank s))).

(** The maximal runs of characters outside [d]. *)
Fixpoint words (d : ascii -> bool) (s : text) : list text :=
  match s with
  | [] => []
  | c :: s' =>
      if d c then words d s'
      else match s' with
           | c' :: _ => if d c' then [c] :: words d s'
                        else match words d s' with w :: ws => (c :: w) :: ws | [] => [[c]] end
           | [] => [[c]]
           end
  end.

(** ** Searching *)

Lemma find_idx_drop_while p s :
  match find_idx p s with
  | Some i => drop i s = drop_while (negb ∘ p) s /\ take i s = take_while (negb ∘ p) s /\ (i < length s)%nat
  | None => drop_while (negb ∘ p) s = [] /\ take_while (negb ∘ p) s = s
  end.
Proof.
  induction s as [|c s IH]; cbn; [done|]. destruct (p c) eqn:Hc; cbn; [split_and!; [done..|lia]|].
  destruct (find_idx p s) as [i|]; cbn.
  - destruct IH as (H1 & H2 & H3). rewrite H1, H2. split_and!; [done..|lia].
  - destruct IH as [H1 H2]. by rewrite H1, H2.
Qed.

Lemma drop_while_app_take p s : take_while p s ++ drop_while p s = s.
Proof. induction s as [|c s IH]; cbn; [done|]. destruct (p c); cbn; [by rewrite IH|done]. Qed.

Lemma take_while_all p s : forallb p (take_while p s) = true.
Proof. induction s as [|c s IH]; cbn; [done|]. destruct (p c) eqn:Hc; cbn; [by rewrite Hc|done]. Qed.

Lemma drop_while_ext (p q : ascii -> bool) s : (forall c, p c = q c) -> drop_while p s = drop_while q s.
Proof. intros He. induction s as [|c s IH]; cbn; [done|]. rewrite He, IH. done. Qed.

Lemma take_while_ext (p q : ascii -> bool) s : (forall c, p c = q c) -> take_while p s = take_while q s.
Proof. intros He. induction s as [|c s IH]; cbn; [done|]. rewrite He, IH. done. Qed.

Lemma drop_while_head p s : match drop_while p s with c :: _ => p c = false | [] => True end.
Proof. induction s as [|c s IH]; cbn; [done|]. destruct (p c) eqn:Hc; [done|by rewrite Hc]. Qed.

Lemma drop_while_idemp p s : drop_while p (drop_while p s) = drop_while p s.
Proof. pose proof (drop_while_head p s). destruct (drop_while p s) as [|c s']; cbn; [done|]. by rewrite H. Qed.

Lemma drop_while_none p s : forallb p s = true -> drop_while p s = [].
Proof. induction s as [|c s IH]; cbn; [done|]. intros [-> Hs]%andb_true_iff. auto. Qed.

Lemma find_idx_app p a b i : find_idx p a = Some i -> find_idx p (a ++ b) = Some i.
Proof.
  revert i. induction a as [|c a IH]; intros i; cbn; [done|]. destruct (p c); [done|].
  destruct (find_idx p a) as [j|]; cbn; [|done]. by rewrite (IH j).
Qed.

Lemma find_idx_is_some p s : existsb p s = true -> is_Some (find_idx p s).
Proof.
  induction s as [|c s IH]; cbn; [done|]. destruct (p c); cbn; [by eexists|].
  intros [i ->]%IH. by eexists.
Qed.

Lemma find_idx_none p s : find_idx p s = None <-> forallb (negb ∘ p) s = true.
Proof.
  induction s as [|c s IH]; cbn; [done|]. destruct (p c); cbn; [by split|].
  destruct (find_idx p s); cbn; [|naive_solver]. split; [done|]. intros H%IH. done.
Qed.

Lemma existsb_reverse p (s : text) : existsb p (reverse s) = existsb p s.
Proof.
  induction s as [|c s IH]; [done|]. rewrite reverse_cons, existsb_app, IH. cbn. by rewrite orb_false_r, orb_comm.
Qed.

Lemma first_not_blank s : find_first_not_of WHITESPACE s 0 = find_idx (fun c => negb (blank c)) s.
Proof.
  unfold find_first_not_of, find_at. rewrite drop_0. change (fun c => negb (one_of WHITESPACE c)) with (fun c => negb (blank c)).
  by destruct (find_idx (fun c => negb (blank c)) s).
Qed.

Lemma negb_blank s : drop_while (negb ∘ (fun c => negb (blank c))) s = drop_while blank s.
Proof. apply drop_while_ext. intros c. cbn. apply negb_involutive. Qed.

(** [_trim] strips the blanks at both ends. *)
Lemma trim_strip s : _trim s = strip s.
Proof.
  unfold _trim, strip. rewrite first_not_blank. pose proof (find_idx_drop_while (fun c => negb (blank c)) s) as Hf.
  rewrite negb_blank in Hf. destruct (find_idx _ s) as [start|]; [|by destruct Hf as [-> _]].
  destruct Hf as (Hd & _ & Hlt). rewrite <- Hd. set (d := drop start s).
  assert (Hlen : length s = (start + length d)%nat) by (unfold d; rewrite length_drop; lia).
  assert (Hhead : existsb (fun c => negb (blank c)) d = true).
  { pose proof (drop_while_head blank s) as Hh. rewrite <- Hd in Hh. fold d in Hh.
    destruct d as [|c d']; [cbn in Hlen; lia|]. cbn. by rewrite Hh. }
  destruct (find_idx_is_some (fun c => negb (blank c)) (reverse d)) as [i Hi]; [by rewrite existsb_reverse|].
  unfold find_last_not_of, find_last.
  assert (Hs : reverse s = reverse d ++ reverse (take start s)).
  { rewrite <- reverse_app. f_equal. symmetry. apply take_drop. }
  change (fun c => negb (one_of WHITESPACE c)) with (fun c => negb (blank c)).
  rewrite Hs, (find_idx_app _ _ _ _ Hi). cbn [fmap option_fmap option_map].
  pose proof (find_idx_drop_while (fun c => negb (blank c)) (reverse d)) as Hf. rewrite Hi, negb_blank in Hf.
  destruct Hf as (Hd' & _ & Hi'). rewrite <- Hd'. rewrite drop_reverse, reverse_involutive.
  rewrite length_reverse in Hi'. unfold substr. fold d. f_equal. lia.
Qed.

(** Texts [_trim] leaves alone. *)
Definition trimmed (s : text) : Prop := drop_while blank s = s /\ drop_while blank (reverse s) = reverse s.

Lemma strip_id s : trimmed s -> strip s = s.
Proof. intros [H1 H2]. unfold strip. by rewrite H1, H2, reverse_involutive. Qed.

Lemma strip_trimmed s : trimmed (strip s).
Proof.
  unfold strip. set (t := drop_while blank s). set (r := drop_while blank (reverse t)). split; [|by rewrite reverse_involutive; apply drop_while_idemp].
  pose proof (drop_while_head blank s) as Hh. fold t in Hh.
  assert (Ht : t = reverse r ++ reverse (take_while blank (reverse t))).
  { rewrite <- reverse_app. unfold r. by rewrite drop_while_app_take, reverse_involutive. }
  destruct (reverse r) as [|c r']; [done|]. rewrite Ht in Hh. cbn in *. by rewrite Hh.
Qed.

Lemma trim_idemp s : _trim (_trim s) = _trim s.
Proof. rewrite !trim_strip. apply strip_id, strip_trimmed. Qed.

Lemma trimmed_ends c s d : blank c = false -> blank d = false -> trimmed (c :: s ++ [d]).
Proof.
  intros Hc Hd. split; [cbn; by rewrite Hc|]. rewrite app_comm_cons, reverse_snoc. cbn [drop_while]. by rewrite Hd.
Qed.

(** ** [_split] *)

Section split.
Context (d : ascii -> bool).
Let nd (c : ascii) : bool := negb (d c).

Lemma words_skip s : words d (drop_while d s) = words d s.
Proof. induction s as [|c s IH]; cbn; [done|]. destruct (d c) eqn:Hc; [done|]. cbn. by rewrite Hc. Qed.

Lemma words_eq c s : words d (c :: s) =
  (if d c then words d s
   else match s with
        | c' :: _ => if d c' then [c] :: words d s
                     else match words d s with w :: ws => (c :: w) :: ws | [] => [[c]] end
        | [] => [[c]]
        end).
Proof. done. Qed.

Lemma words_cons c s :
  d c = false -> words d (c :: s) = take_while nd (c :: s) :: words d (drop_while nd (c :: s)).
Proof.
  assert (Hnd : forall x, nd x = negb (d x)) by done.
  revert c. induction s as [|c' s IH]; intros c Hc; rewrite words_eq, Hc; cbn [take_while drop_while];
    rewrite !Hnd, Hc; cbn [negb]; [done|].
  destruct (d c') eqn:Hc'; cbn [negb]; [done|].
  rewrite (IH c' Hc'). cbn [take_while drop_while]. rewrite Hnd, Hc'. done.
Qed.

Lemma words_nonempty s : Forall (fun w => w <> [] /\ forallb nd w = true) (words d s).
Proof.
  induction s as [|c s IH]; [constructor|]. rewrite words_eq. destruct (d c) eqn:Hc; [done|].
  assert (H1 : [c] <> [] /\ forallb nd [c] = true) by (split; [done|cbn; unfold nd; by rewrite Hc]).
  destruct s as [|c' s]; [by apply Forall_singleton|]. destruct (d c') eqn:Hc'; [by constructor|].
  destruct (words d (c' :: s)) as [|w ws]; [by apply Forall_singleton|].
  inversion IH as [|? ? [_ Hw] Hws]; subst. constructor; [|done]. split; [done|]. cbn. rewrite Hw. unfold nd. by rewrite Hc.
Qed.

(** No character but the delimiters is lost, and the order is kept. *)
Lemma words_concat s : concat (words d s) = List.filter nd s.
Proof.
  induction s as [|c s IH]; [done|]. rewrite words_eq. cbn [List.filter]. unfold nd at 1.
  destruct (d c) eqn:Hc; cbn [negb]; [done|].
  destruct s as [|c' s]; [done|]. destruct (d c') eqn:Hc'; [cbn [concat app]; by rewrite IH|].
  destruct (words d (c' :: s)) as [|w ws] eqn:Hw; cbn [concat app] in *; by rewrite <- IH.
Qed.

(** Splitting undoes joining with a delimiter. *)
Fixpoint join (sep : ascii) (ws : list text) : text :=
  match ws with [] => [] | [w] => w | w :: ws' => w ++ sep :: join sep ws' end.

Lemma take_while_app w s :
  forallb nd w = true -> take_while nd (w ++ s) = w ++ take_while nd s /\ drop_while nd (w ++ s) = drop_while nd s.
Proof.
  induction w as [|c w IH]; cbn; [done|]. intros [Hc Hw]%andb_true_iff. destruct (IH Hw) as [H1 H2]. by rewrite Hc, H1, H2.
Qed.

Lemma words_app_sep w sep s :
  w <> [] -> forallb nd w = true -> d sep = true -> words d (w ++ sep :: s) = w :: words d s.
Proof.
  intros Hne Hw Hsep. destruct w as [|c w]; [done|]. cbn in Hw. apply andb_true_iff in Hw as [Hc Hw].
  cbn [app]. rewrite words_cons by (unfold nd in Hc; by destruct (d c)). change (c :: w ++ sep :: s) with ((c :: w) ++ sep :: s).
  destruct (take_while_app (c :: w) (sep :: s)) as [-> ->]; [cbn; by rewrite Hc, Hw|].
  cbn [take_while drop_while]. unfold nd. rewrite Hsep. cbn. rewrite app_nil_r, Hsep. done.
Qed.

Lemma words_join sep ws :
  d sep = true -> Forall (fun w => w <> [] /\ forallb nd w = true) ws -> words d (join sep ws) = ws.
Proof.
  intros Hsep. induction 1 as [|w ws [Hne Hw] Hws IH]; [done|]. destruct ws as [|w' ws].
  - cbn. destruct w as [|c w]; [done|]. pose proof Hw as Hw'. cbn in Hw'. apply andb_true_iff in Hw' as [Hc _].
    rewrite words_cons by (unfold nd in Hc; by destruct (d c)).
    destruct (take_while_app (c :: w) [] Hw) as [H1 H2]. rewrite app_nil_r in H1, H2. rewrite H1, H2. cbn. by rewrite app_nil_r.
  - change (join sep (w :: w' :: ws)) with (w ++ sep :: join sep (w' :: ws)). by rewrite words_app_sep, IH.
Qed.

Lemma words_nil s : words d s = [] <-> forallb d s = true.
Proof.
  induction s as [|c s IH]; [done|]. rewrite words_eq. cbn [forallb]. destruct (d c); cbn [andb]; [done|].
  destruct s as [|c' s]; [done|]. destruct (d c'); [done|]. by destruct (words d (c' :: s)).
Qed.

(** The delimiters at the end make no word. *)
Lemma words_app_delims s t : forallb d t = true -> words d (s ++ t) = words d s.
Proof.
  intros Ht. induction s as [|c s IH]; cbn [app]; [by apply words_nil|]. rewrite !words_eq.
  destruct (d c); [done|]. destruct s as [|c' s]; cbn [app] in *; [|by rewrite IH].
  destruct t as [|c' t]; [done|]. cbn in Ht. apply andb_true_iff in Ht as [-> Ht]. by rewrite IH.
Qed.

End split.

Lemma split_loop_words ds fuel s i tokens :
  let d := one_of ds in
  (length s - i < fuel)%nat ->
  split_loop fuel s ds (find_first_not_of ds s i) tokens = Some (tokens ++ words d (drop i s)).
Proof.
  cbn zeta. set (d := one_of ds). revert i tokens. induction fuel as [|fuel IH]; intros i tokens Hf; [lia|].
  unfold find_first_not_of at 1, find_at. change (fun c => negb (one_of ds c)) with (fun c => negb (d c)).
  pose proof (find_idx_drop_while (fun c => negb (d c)) (drop i s)) as Hj.
  rewrite (drop_while_ext _ d) in Hj by (intros c; apply negb_involutive).
  destruct (find_idx _ (drop i s)) as [j|]; cbn [fmap option_fmap option_map split_loop].
  - destruct Hj as (Hd & _ & Hlt). rewrite drop_drop in Hd. rewrite length_drop in Hlt.
    rewrite <- words_skip, <- Hd. set (k := (i + j)%nat) in *. unfold find_first_of, find_at. fold d.
    pose proof (find_idx_drop_while d (drop k s)) as Hm.
    pose proof (drop_while_head d (drop i s)) as Hh. rewrite <- Hd in Hh.
    destruct (drop k s) as [|c r] eqn:Hr; [apply (f_equal length) in Hr; rewrite length_drop in Hr; cbn in Hr; lia|].
    rewrite words_cons by done. change (fun c0 => negb (d c0)) with (negb ∘ d).
    destruct (find_idx d (c :: r)) as [m|] eqn:Em; cbn [fmap option_fmap option_map].
    + destruct Hm as (Hm1 & Hm2 & Hm3).
      assert (m <> 0%nat) by (intros ->; cbn in Em; rewrite Hh in Em; by destruct (find_idx d r)).
      rewrite IH by lia. rewrite <- app_assoc. cbn [app]. unfold substr. rewrite Hr.
      replace (k + m - k)%nat with m by lia. rewrite Hm2, <- Hm1, <- Hr, drop_drop. done.
    + destruct Hm as [Hm1 Hm2]. destruct fuel as [|fuel]; [lia|]. cbn [split_loop].
      unfold substr. rewrite Hr, Hm1, Hm2. done.
  - destruct Hj as [Hd _]. rewrite <- words_skip, Hd. cbn. by rewrite app_nil_r.
Qed.

(** [_split] computes the words between the delimiters. *)
Lemma split_words ds s : split_on s ds = words (one_of ds) s.
Proof. unfold split_on. rewrite split_loop_words by lia. by rewrite drop_0. Qed.

(** [_split] loses nothing but blanks and keeps the order, every token is a
    non-empty run without blanks, and a line of such tokens with any blank
    between them is split into the tokens again. *)
Theorem split_roundtrip (s : text) (sep : ascii) (ws : list text) :
  concat (_split s) = List.filter (fun c => negb (blank c)) s /\
  Forall (fun w => w <> [] /\ forallb (fun c => negb (blank c)) w = true) (_split s) /\
  (blank sep = true -> Forall (fun w => w <> [] /\ forallb (fun c => negb (blank c)) w = true) ws ->
   _split (join sep ws) = ws).
Proof.
  unfold _split. rewrite !split_words. change (one_of WHITESPACE) with blank.
  split_and!; [apply words_concat|apply words_nonempty|apply words_join].
Qed.

Lemma split_roundtrip_witness :
  _split (join "009" [lit "kill"; lit "-9"; lit "1"]) = [lit "kill"; lit "-9"; lit "1"].
Proof.
  apply (split_roundtrip [] "009" [lit "kill"; lit "-9"; lit "1"]); [vm_compute; reflexivity|].
  repeat (constructor; [split; [discriminate|vm_compute; reflexivity]|]). constructor.
Defined.

(** ** Numbers *)

Lemma isdigit_range c : isdigit c = true -> exists n, (n < 10)%N /\ c = ascii_of_N (48 + n).
Proof.
  intros Hc. exists (N_of_ascii c - 48)%N. unfold isdigit in Hc.
  apply andb_true_iff in Hc as [H1%N.leb_le H2%N.leb_le]. split; [lia|].
  replace (48 + (N_of_ascii c - 48))%N with (N_of_ascii c) by lia. by rewrite ascii_N_embedding.
Qed.

(** A property of the ten digits, checked one by one. *)
Lemma for_digits (Q : N -> bool) n : (n < 10)%N -> forallb (fun k => Q (N.of_nat k)) (seq 0 10) = true -> Q n = true.
Proof.
  intros Hn Hall. rewrite forallb_forall in Hall. rewrite <- (N2Nat.id n). apply Hall, in_seq. lia.
Qed.

(** A digit is neither a sign nor white space. *)
Lemma isdigit_plain c :
  isdigit c = true ->
  Ascii.eqb c "-" = false /\ Ascii.eqb c "+" = false /\ one_of (WHITESPACE ++ ["011"; "012"]%char) c = false.
Proof.
  intros (n & Hn & ->)%isdigit_range.
  pose proof (for_digits (fun n => let c := ascii_of_N (48 + n) in
    negb (Ascii.eqb c "-") && negb (Ascii.eqb c "+") && negb (one_of (WHITESPACE ++ ["011"; "012"]%char) c)) n Hn eq_refl) as Hd.
  cbn beta zeta in Hd. rewrite !andb_true_iff, !negb_true_iff in Hd. tauto.
Qed.

Lemma stoi_skip c s :
  one_of (WHITESPACE ++ ["011"; "012"]%char) c = false ->
  find_first_not_of (WHITESPACE ++ ["011"; "012"]%char) (c :: s) 0 = Some 0%nat.
Proof. intros Hc. unfold find_first_not_of, find_at. cbn [drop find_idx]. by rewrite Hc. Qed.

(** A text [_isNumber] accepts is read whole. *)
Lemma parse_number s :
  _isNumber s = true -> exists sign m, parse_integer s = Some (sign, m) /\ sign * m = decimal s.
Proof.
  destruct s as [|c s]; [done|]. unfold _isNumber, decimal, parse_integer. destruct (Ascii.eqb_spec c "-") as [->|Hc].
  - intros Hs. rewrite stoi_skip by done. cbn [drop]. destruct s as [|d s]; [done|].
    cbn [forallb] in Hs. apply andb_true_iff in Hs as [Hd _]. change (Ascii.eqb "-" "-") with true. cbn beta iota zeta.
    rewrite Hd. eexists _, _. split; [done|lia].
  - intros Hs. cbn [forallb] in Hs. apply andb_true_iff in Hs as [Hd _].
    destruct (isdigit_plain c Hd) as (Hm & Hp & Hw). rewrite stoi_skip by done. cbn [drop]. rewrite Hm, Hp, Hd.
    eexists _, _. split; [done|lia].
Qed.

(** On a text [_isNumber] accepts, [std::stoi] is the number it denotes, and
    throws exactly when that is no [int]. *)
Lemma stoi_number s : _isNumber s = true -> stoi s = int_ok (decimal s).
Proof. intros (sign & m & Hp & <-)%parse_number. unfold stoi. by rewrite Hp. Qed.

Lemma digits_value_app acc s c :
  forallb isdigit s = true -> isdigit c = true -> digits_value acc (s ++ [c]) = digits_value acc s * 10 + digit_value c.
Proof.
  revert acc. induction s as [|d s IH]; intros acc; cbn; [by intros _ ->|].
  intros [-> Hs]%andb_true_iff Hc. by apply IH.
Qed.

Lemma digit_char n :
  (n < 10)%N -> isdigit (pretty_N_char n) = true /\ digit_value (pretty_N_char n) = Z.of_N n.
Proof.
  intros Hn. pose proof (for_digits (fun n => isdigit (pretty_N_char n) && (digit_value (pretty_N_char n) =? Z.of_N n)) n Hn eq_refl) as Hd.
  cbn beta in Hd. by rewrite andb_true_iff, Z.eqb_eq in Hd.
Qed.

(** The digits [pretty_N_go] puts in front of its accumulator. *)
Lemma pretty_go_digits n :
  exists ds, (forall t, lit (pretty_N_go n t) = ds ++ lit t) /\ forallb isdigit ds = true /\
             digits_value 0 ds = Z.of_N n /\ ((0 < n)%N -> ds <> []) /\
             (forall k, Z.of_N n < 10 ^ Z.of_nat k -> (length ds <= k)%nat).
Proof.
  induction (N.lt_wf_0 n) as [n _ IH]. destruct (decide (n = 0)%N) as [->|Hn].
  - exists []. split_and!; [intros t; by rewrite pretty_N_go_0|done|done|lia|cbn; lia].
  - destruct (IH (n / 10)%N) as (ds & Hds & Hall & Hval & _ & Hlen); [by apply N.div_lt; lia|].
    destruct (digit_char (n mod 10)%N) as [Hd Hv]; [by apply N.mod_lt|].
    exists (ds ++ [pretty_N_char (n mod 10)]). split_and!.
    + intros t. rewrite pretty_N_go_step by lia. rewrite Hds. rewrite <- app_assoc. done.
    + rewrite forallb_app, Hall. cbn. by rewrite Hd.
    + rewrite digits_value_app by done. rewrite Hval, Hv. pose proof (N.div_mod n 10). lia.
    + by destruct ds.
    + intros k Hk. destruct k as [|k]; [cbn in Hk; lia|]. rewrite length_app. cbn [length].
      assert (length ds <= k)%nat; [|lia]. apply Hlen. rewrite N2Z.inj_div. apply Z.div_lt_upper_bound; [lia|].
      rewrite Nat2Z.inj_succ, Z.pow_succ_r in Hk by lia. lia.
Qed.

Lemma show_N_digits n :
  exists ds, lit (pretty n) = ds /\ forallb isdigit ds = true /\ digits_value 0 ds = Z.of_N n /\ ds <> [] /\
             (forall k, (0 < k)%nat -> Z.of_N n < 10 ^ Z.of_nat k -> (length ds <= k)%nat).
Proof.
  unfold pretty, pretty_N. destruct (decide (n = 0)%N) as [->|Hn].
  { eexists. split_and!; [done..|]. intros k Hk _. cbn. lia. }
  destruct (pretty_go_digits n) as (ds & Hds & Hall & Hval & Hne & Hlen). exists ds.
  split_and!; [rewrite Hds; apply app_nil_r|done|done|apply Hne; lia|auto].
Qed.

(** A number below [10^k] prints in at most [k] digits. *)
Lemma show_length n k : 0 <= n < 10 ^ Z.of_nat k -> (0 < k)%nat -> (length (show n) <= k)%nat.
Proof.
  intros Hn Hk. assert (Hs : exists m, show n = lit (pretty m) /\ n = Z.of_N m).
  { destruct n as [|q|q]; [by exists 0%N|by exists (Npos q)|lia]. }
  destruct Hs as (m & -> & ->). destruct (show_N_digits m) as (ds & -> & _ & _ & _ & Hlen). apply Hlen; lia.
Qed.

(** What the shell prints for an integer is a number, and reads back. *)
Lemma show_decimal z : _isNumber (show z) = true /\ decimal (show z) = z.
Proof.
  assert (Hpos : forall p, exists c ds, lit (pretty (Npos p)) = c :: ds /\ forallb isdigit (c :: ds) = true /\
                                        digits_value 0 (c :: ds) = Zpos p /\ Ascii.eqb c "-" = false).
  { intros p. destruct (show_N_digits (Npos p)) as (ds & <- & Hall & Hval & Hne & _).
    destruct (lit (pretty (Npos p))) as [|c ds]; [done|]. exists c, ds. split_and!; [done..|].
    cbn in Hall. apply andb_true_iff in Hall as [Hc _]. apply (isdigit_plain c Hc). }
  destruct z as [|p|p]; [done|..]; destruct (Hpos p) as (c & ds & Hp & Hall & Hval & Hc).
  - change (show (Zpos p)) with (lit (pretty (Npos p))). rewrite Hp. unfold _isNumber, decimal. by rewrite Hc.
  - change (show (Zneg p)) with ("-"%char :: lit (pretty (Npos p))). rewrite Hp. unfold _isNumber, decimal.
    change (Ascii.eqb "-" "-") with true. cbn iota. split; [done|lia].
Qed.

Lemma stoi_show z : stoi (show z) = int_ok z.
Proof. destruct (show_decimal z) as [H1 H2]. by rewrite stoi_number, H2. Qed.
