(* ===== verification/Segel.v ===== *)
(** * [multithreaded-web-server/segel.c]: the wrappers that end the process

    Every wrapper makes one call and, when it fails, prints the reason on the
    standard error and exits.  The calls are operations of classes; the
    sockets have a model, against which [Open_listenfd] of [request.c] is
    proved. *)

From S2P Require Import Prelude ShellText Rio.

(** [atoi]: no digits are 0, a number no [int] holds is undefined. *)
Definition atoi (s : text) : option Z :=
  match parse_integer s with Some (sign, m) => int_ok (sign * m) | None => Some 0 end.

(** ** The calls *)

(** Messages and error numbers. *)
Class Errors (W : Type) := {
  strerror : Z -> text;
  errno : W -> Z;
  put_err : text -> W -> W;
}.

(** Thread calls yield 0 or an error number; [T] is what a thread runs, a
    routine and its argument. *)
Class Threads (W T : Type) := {
  pthread_create : T -> W -> (Z * Z) * W;   (* the result and [*tidp] *)
  pthread_join : Z -> W -> Z * W;
  pthread_detach : Z -> W -> Z * W;
  pthread_self : W -> Z;
}.

(** Mutexes and condition variables, by their addresses. *)
Class Monitors (W : Type) := {
  pthread_mutex_init : Z -> W -> Z * W;
  pthread_mutex_lock : Z -> W -> Z * W;
  pthread_mutex_unlock : Z -> W -> Z * W;
  pthread_cond_init : Z -> W -> Z * W;
  pthread_cond_signal : Z -> W -> Z * W;
  pthread_cond_broadcast : Z -> W -> Z * W;
  pthread_cond_wait : Z -> Z -> W -> Z * W;
}.

(** Addresses; 0 is the null pointer. *)
Class Memory (W : Type) := {
  sys_malloc : Z -> W -> Z * W;
  sys_realloc : Z -> Z -> W -> Z * W;
  sys_calloc : Z -> Z -> W -> Z * W;
  sys_free : Z -> W -> W;
}.

Class Processes (W : Type) := {
  sys_fork : W -> Z * W;
  sys_execve : text -> list text -> list text -> W -> Z * W;
  sys_wait : W -> (Z * Z) * W;              (* the result and [*status] *)
  sys_waitpid : Z -> Z -> W -> (Z * Z) * W;
  sys_kill : Z -> Z -> W -> Z * W;
}.

Class FileCalls (W : Type) := {
  sys_open : text -> Z -> Z -> W -> Z * W;
  sys_readfd : Z -> Z -> W -> (Z * bytes) * W;   (* the result and the bytes stored *)
  sys_writefd : Z -> bytes -> W -> Z * W;
  sys_lseek : Z -> Z -> Z -> W -> Z * W;
  sys_close : Z -> W -> Z * W;
  sys_dup2 : Z -> Z -> W -> Z * W;
}.

(** [St] is [struct stat]. *)
Class StatCalls (W St : Type) := {
  sys_stat : text -> W -> (Z * St) * W;
  sys_fstat : Z -> W -> (Z * St) * W;
}.

(** [sin_port] as it lies in memory, read as a 16-bit number. *)
Record sockaddr_in := { sin_family : Z; sin_port : Z; s_addr : Z }.

Class Sockets (W : Type) := {
  sys_socket : W -> Z * W;
  sys_setsockopt : Z -> W -> Z * W;         (* [SO_REUSEADDR], 1 *)
  sys_bind : Z -> sockaddr_in -> W -> Z * W;
  sys_listen : Z -> Z -> W -> Z * W;
  sys_accept : Z -> W -> Z * W;
  sys_connect : Z -> sockaddr_in -> W -> Z * W;
  sys_gethostbyname : text -> W -> option Z * W;
}.

(** ** The wrappers *)

Section wrappers.
Context {W : Type} `{Errors W}.

Definition sys {A} (f : W -> A * W) : M W A := fun w => let '(a, w') := f w in Ok (a, w').

Definition unix_error {A} (msg : text) : M W (ended A) :=
  modify (fun w => put_err (msg ++ lit ": " ++ strerror (errno w) ++ ["010"%char]) w) ;;* ret Exited.

Definition posix_error {A} (code : Z) (msg : text) : M W (ended A) :=
  modify (put_err (msg ++ lit ": " ++ strerror code ++ ["010"%char])) ;;* ret Exited.

Definition app_error {A} (msg : text) : M W (ended A) :=
  modify (put_err (msg ++ ["010"%char])) ;;* ret Exited.

(** [if ((rc = call) < 0) unix_error(msg); return rc;] *)
Definition checked (msg : text) (f : W -> Z * W) : M W (ended Z) :=
  let* rc := sys f in if rc <? 0 then unix_error msg else finish rc.

(** The same for a call that stores something as well. *)
Definition checked_out {A} (msg : text) (f : W -> (Z * A) * W) : M W (ended (Z * A)) :=
  let* r := sys f in if fst r <? 0 then unix_error msg else finish r.

(** [if ((rc = call) != 0) posix_error(rc, msg);] *)
Definition posix_checked (msg : text) (f : W -> Z * W) : M W (ended unit) :=
  let* rc := sys f in if negb (rc =? 0) then posix_error rc msg else finish tt.

(** [if ((p = call) == NULL) unix_error(msg); return p;] *)
Definition non_null (msg : text) (f : W -> Z * W) : M W (ended Z) :=
  let* p := sys f in if p =? 0 then unix_error msg else finish p.

Section threads.
Context {T : Type} `{Threads W T} `{Monitors W}.

Definition Pthread_create (routine : T) : M W (ended Z) :=
  let* r := sys (pthread_create routine) in
  if negb (fst r =? 0) then posix_error (fst r) (lit "Pthread_create error") else finish (snd r).
Definition Pthread_join (tid : Z) := posix_checked (lit "Pthread_join error") (pthread_join (T := T) tid).
Definition Pthread_detach (tid : Z) := posix_checked (lit "Pthread_detach error") (pthread_detach (T := T) tid).
Definition Pthread_self : M W Z := gets (pthread_self (T := T)).
Definition Pthread_mutex_init (m : Z) := posix_checked (lit "Pthread_mutex_init error") (pthread_mutex_init m).
Definition Pthread_mutex_lock (m : Z) := posix_checked (lit "Pthread_mutex_lock error") (pthread_mutex_lock m).
Definition Pthread_mutex_unlock (m : Z) := posix_checked (lit "Pthread_mutex_unlock error") (pthread_mutex_unlock m).
Definition Pthread_cond_init (cv : Z) := posix_checked (lit "Pthread_cond_init error") (pthread_cond_init cv).
Definition Pthread_cond_signal (cv : Z) := posix_checked (lit "Pthread_cond_signal error") (pthread_cond_signal cv).
Definition Pthread_cond_broadcast (cv : Z) := posix_checked (lit "Pthread_cond_broadcast error") (pthread_cond_broadcast cv).
Definition Pthread_cond_wait (cv m : Z) := posix_checked (lit "Pthread_cond_wait error") (pthread_cond_wait cv m).
End threads.

Definition Malloc `{Memory W} (size : Z) := non_null (lit "Malloc error") (sys_malloc size).
Definition Realloc `{Memory W} (ptr size : Z) := non_null (lit "Realloc error") (sys_realloc ptr size).
Definition Calloc `{Memory W} (nmemb size : Z) := non_null (lit "Calloc error") (sys_calloc nmemb size).
Definition Free `{Memory W} (ptr : Z) : M W unit := modify (sys_free ptr).

Definition Fork `{Processes W} := checked (lit "Fork error") sys_fork.
(** A successful [execve] does not return. *)
Definition Execve `{Processes W} (filename : text) (argv envp : list text) : M W (ended unit) :=
  let* rc := sys (sys_execve filename argv envp) in
  if rc <? 0 then unix_error (lit "Execve error") else finish tt.
Definition Wait `{Processes W} := checked_out (lit "Wait error") sys_wait.
Definition Waitpid `{Processes W} (pid options : Z) := checked_out (lit "Waitpid error") (sys_waitpid pid options).
Definition Kill `{Processes W} (pid signum : Z) := checked (lit "Kill error") (sys_kill pid signum).

Definition Open `{FileCalls W} (pathname : text) (flags mode : Z) := checked (lit "Open error") (sys_open pathname flags mode).
Definition Read `{FileCalls W} (fd count : Z) := checked_out (lit "Read error") (sys_readfd fd count).
Definition Write `{FileCalls W} (fd : Z) (buf : bytes) := checked (lit "Write error") (sys_writefd fd buf).
Definition Lseek `{FileCalls W} (fildes offset whence : Z) := checked (lit "Lseek error") (sys_lseek fildes offset whence).
Definition Close `{FileCalls W} (fd : Z) := checked (lit "Close error") (sys_close fd).
Definition Dup2 `{FileCalls W} (fd1 fd2 : Z) := checked (lit "Dup2 error") (sys_dup2 fd1 fd2).
Definition Stat {St} `{StatCalls W St} (filename : text) : M W (ended (Z * St)) :=
  checked_out (lit "Stat error") (sys_stat filename).
Definition Fstat {St} `{StatCalls W St} (fd : Z) : M W (ended (Z * St)) :=
  checked_out (lit "Fstat error") (sys_fstat fd).

Section sockets.
Context `{Sockets W}.

Definition Socket := checked (lit "Socket error") sys_socket.
Definition Setsockopt (s : Z) := checked (lit "Setsockopt error") (sys_setsockopt s).
Definition Bind (sockfd : Z) (my_addr : sockaddr_in) := checked (lit "Bind error") (sys_bind sockfd my_addr).
Definition Listen (s backlog : Z) := checked (lit "Listen error") (sys_listen s backlog).
Definition Accept (s : Z) := checked (lit "Accept error") (sys_accept s).
Definition Connect (sockfd : Z) (serv_addr : sockaddr_in) := checked (lit "Connect error") (sys_connect sockfd serv_addr).

Definition Gethostbyname (name : text) : M W (ended Z) :=
  let* p := sys (sys_gethostbyname name) in
  match p with None => app_error (lit "Gethostbyname error") | Some h => finish h end.

(** ** [Open_listenfd] *)

Definition AF_INET : Z := 2.
Definition INADDR_ANY : Z := 0.
Definition LISTENQ : Z := 1024.

(** The bytes of a 16-bit number, swapped: the targets are little-endian. *)
Definition htons (x : Z) : Z := Z.lor (Z.shiftl (Z.land x 255) 8) (Z.shiftr x 8).

(** [(unsigned short)port] *)
Definition ushort (x : Z) : Z := x mod 2 ^ 16.

Definition Open_listenfd (port : Z) : M W (ended Z) :=
  let! listenfd := Socket in
  Setsockopt listenfd ;;!
  let sa := {| sin_family := AF_INET; sin_port := htons (ushort port); s_addr := INADDR_ANY |} in
  Bind listenfd sa ;;!
  Listen listenfd LISTENQ ;;!
  finish listenfd.

End sockets.
End wrappers.

(** ** What the wrappers promise *)

(** The port a socket address names. *)
Definition ntohs : Z -> Z := htons.

Lemma htons_bytes h l : 0 <= h < 256 -> 0 <= l < 256 -> htons (h * 256 + l) = l * 256 + h.
Proof.
  intros Hh Hl. unfold htons. change 255 with (Z.ones 8). rewrite Z.land_ones by lia.
  rewrite Z.shiftl_mul_pow2, Z.shiftr_div_pow2 by lia. change (2 ^ 8) with 256.
  rewrite (Z.add_comm (h * 256)), Z.mod_add, Z.mod_small, Z.div_add, Z.div_small by lia. cbn [Z.add].
  apply Z.bits_inj'. intros n Hn.
  assert (Hdis : Z.land (l * 256) h = 0).
  { apply Z.bits_inj'. intros k Hk. rewrite Z.land_spec, Z.bits_0. change 256 with (2 ^ 8).
    destruct (Z.ltb_spec k 8); [by rewrite Z.mul_pow2_bits_low|].
    rewrite <- (Z.mod_small h (2 ^ 8)) by lia. rewrite Z.mod_pow2_bits_high by lia. apply andb_false_r. }
  by rewrite <- (Z.add_lor_land (l * 256) h), Hdis, Z.add_0_r.
Qed.

Lemma ntohs_htons x : 0 <= x < 2 ^ 16 -> ntohs (htons x) = x.
Proof.
  intros Hx. unfold ntohs. pose proof (Z.div_mod x 256 ltac:(lia)) as Hdm.
  pose proof (Z.mod_pos_bound x 256 ltac:(lia)).
  assert (0 <= x / 256 < 256) by (split; [by apply Z.div_pos; lia|apply Z.div_lt_upper_bound; lia]).
  rewrite Hdm at 1. rewrite Z.mul_comm, !htons_bytes by lia. lia.
Qed.

(** What a socket was made to do. *)
Inductive sock_status := Fresh | Bound (sa : sockaddr_in) | Listening (sa : sockaddr_in) (backlog : Z).

Class SocketsModel (W : Type) `{Sockets W} := {
  sock_status_of : Z -> W -> option sock_status;
  socket_spec : forall w, let '(fd, w') := sys_socket w in 0 <= fd -> sock_status_of fd w' = Some Fresh;
  setsockopt_spec : forall fd w s, sock_status_of fd w = Some s ->
    let '(rc, w') := sys_setsockopt fd w in sock_status_of fd w' = Some s;
  bind_spec : forall fd sa w, sock_status_of fd w = Some Fresh ->
    let '(rc, w') := sys_bind fd sa w in 0 <= rc -> sock_status_of fd w' = Some (Bound sa);
  listen_spec : forall fd n w sa, sock_status_of fd w = Some (Bound sa) ->
    let '(rc, w') := sys_listen fd n w in 0 <= rc -> sock_status_of fd w' = Some (Listening sa n);
}.

(** *** Sequences of calls *)

(** The test a wrapper makes of the result of its call; [Is r]: it is not
    negative, and [r]. *)
Inductive check := NonNull | Zero | NonNegative | Is (r : Z).

(** A call with what its wrapper says when it fails. *)
Record syscall (W : Type) := Call { named : text; does : W -> Z * W; expects : check }.
Arguments Call {W}.
Arguments named {W}.
Arguments does {W}.
Arguments expects {W}.

Definition succeeded (k : check) (rc : Z) : Prop :=
  match k with NonNull => rc <> 0 | Zero => rc = 0 | NonNegative => 0 <= rc | Is r => 0 <= rc /\ rc = r end.

Definition failed (k : check) (rc : Z) : Prop :=
  match k with NonNull => rc = 0 | Zero => rc <> 0 | NonNegative | Is _ => rc < 0 end.

Section promises.
Context {W : Type} `{Errors W}.

(** What is printed of a call that failed with [rc]: the thread calls yield
    the error number, the others leave it in [errno]. *)
Definition complaint (c : syscall W) (rc : Z) (w : W) : text :=
  named c ++ lit ": " ++ strerror (match expects c with Zero => rc | _ => errno w end) ++ ["010"%char].

(** All calls are made, in this order, and succeed. *)
Fixpoint all_done (cs : list (syscall W)) (w w' : W) : Prop :=
  match cs with
  | [] => w' = w
  | c :: cs' => let '(rc, w1) := does c w in succeeded (expects c) rc /\ all_done cs' w1 w'
  end.

(** One of the calls fails after those before it succeeded; it is complained
    of, and none of those after it is made. *)
Fixpoint stopped_at (cs : list (syscall W)) (w w' : W) : Prop :=
  match cs with
  | [] => False
  | c :: cs' => let '(rc, w1) := does c w in
      (failed (expects c) rc /\ w' = put_err (complaint c rc w1) w1) \/ (succeeded (expects c) rc /\ stopped_at cs' w1 w')
  end.

Lemma all_done_app cs1 cs2 w w1 w2 : all_done cs1 w w1 -> all_done cs2 w1 w2 -> all_done (cs1 ++ cs2) w w2.
Proof.
  revert w. induction cs1 as [|c cs1 IH]; intros w; cbn; [by intros ->|]. destruct (does c w) as [rc w']. intros [Hs Hr] H2.
  split; [done|]. by apply IH.
Qed.

Lemma stopped_at_app_l cs1 cs2 w w' : stopped_at cs1 w w' -> stopped_at (cs1 ++ cs2) w w'.
Proof.
  revert w. induction cs1 as [|c cs1 IH]; intros w; cbn; [done|]. destruct (does c w) as [rc w1].
  intros [Hf|[Hs Hr]]; [by left|right]. split; [done|]. by apply IH.
Qed.

Lemma stopped_at_app_r cs1 cs2 w w1 w' : all_done cs1 w w1 -> stopped_at cs2 w1 w' -> stopped_at (cs1 ++ cs2) w w'.
Proof.
  revert w. induction cs1 as [|c cs1 IH]; intros w; cbn; [by intros ->|]. destruct (does c w) as [rc w2]. intros [Hs Hr] H2.
  right. split; [done|]. by apply IH.
Qed.

(** Code that makes the calls [cs] and yields a value that satisfies [V], or
    ends the process at the first call that fails. *)
Definition performs {A} (m : M W (ended A)) (cs : list (syscall W)) (V : A -> Prop) : Prop :=
  forall w, wp m (fun r w' => match r with Value a => V a /\ all_done cs w w' | Exited => stopped_at cs w w' end) w.

Lemma performs_finish {A} (a : A) (V : A -> Prop) : V a -> performs (finish a) [] V.
Proof. intros Ha w. by apply wp_ret. Qed.

Lemma performs_andthen {A B} (m : M W (ended A)) (f : A -> M W (ended B)) cs1 cs2 V1 V2 :
  performs m cs1 V1 -> (forall a, V1 a -> performs (f a) cs2 V2) -> performs (let! a := m in f a) (cs1 ++ cs2) V2.
Proof.
  intros Hm Hf w. apply wp_andthen. eapply wp_mono; [apply Hm|]. cbn. intros [a|] w1.
  - intros [Ha H1]. eapply wp_mono; [by apply Hf|]. cbn. intros [b|] w2.
    + intros [Hb H2]. split; [done|]. by eapply all_done_app.
    + intros H2. by eapply stopped_at_app_r.
  - intros H1. apply wp_ret. by apply stopped_at_app_l.
Qed.

Lemma performs_cons {A B} (m : M W (ended A)) (f : A -> M W (ended B)) c cs V1 V2 :
  performs m [c] V1 -> (forall a, V1 a -> performs (f a) cs V2) -> performs (let! a := m in f a) (c :: cs) V2.
Proof. apply (performs_andthen m f [c]). Qed.

Lemma performs_checked name f : performs (checked name f) [Call name f NonNegative] (fun rc => 0 <= rc).
Proof.
  intros w. unfold wp, checked, sys, bind. cbn. destruct (f w) as [rc w']. destruct (Z.ltb_spec rc 0); [by left|done].
Qed.

Lemma performs_posix name f : performs (posix_checked name f) [Call name f Zero] (fun _ => True).
Proof.
  intros w. unfold wp, posix_checked, sys, bind. cbn. destruct (f w) as [rc w']. destruct (Z.eqb_spec rc 0); cbn; [done|by left].
Qed.

Lemma performs_non_null name f : performs (non_null name f) [Call name f NonNull] (fun p => p <> 0).
Proof.
  intros w. unfold wp, non_null, sys, bind. cbn. destruct (f w) as [p w']. destruct (Z.eqb_spec p 0); [by left|done].
Qed.

(** A wrapper either ends the process, after the message, or the call it
    wraps succeeded. *)
Lemma wp_checked msg f (Q : ended Z -> W -> Prop) w :
  (let '(rc, w') := f w in
   if rc <? 0 then Q Exited (put_err (msg ++ lit ": " ++ strerror (errno w') ++ ["010"%char]) w')
   else Q (Value rc) w') -> wp (checked msg f) Q w.
Proof.
  intros HQ. unfold checked, sys. apply wp_bind. unfold wp at 1. destruct (f w) as [rc w'].
  destruct (rc <? 0); [|by apply wp_ret]. unfold unix_error. by apply wp_bind, wp_modify, wp_ret.
Qed.

Lemma wp_checked_value msg f (Q : ended Z -> W -> Prop) w :
  (forall rc w', f w = (rc, w') -> 0 <= rc -> Q (Value rc) w') -> (forall w', Q Exited w') -> wp (checked msg f) Q w.
Proof.
  intros HQ He. apply wp_checked. destruct (f w) as [rc w']. destruct (Z.ltb_spec rc 0); [done|by apply HQ].
Qed.

(** The result of [pthread_create], without the thread it names. *)
Definition creating {T} `{Threads W T} (routine : T) (w : W) : Z * W :=
  let '((rc, _), w') := pthread_create routine w in (rc, w').

Lemma performs_create {T} `{Threads W T} (routine : T) :
  performs (Pthread_create routine) [Call (lit "Pthread_create error") (creating routine) Zero] (fun _ => True).
Proof.
  intros w. unfold wp, Pthread_create, sys, bind, creating. cbn. destruct (pthread_create routine w) as [[rc tid] w'].
  cbn. destruct (Z.eqb_spec rc 0); cbn; [done|by left].
Qed.

(** *** [Open_listenfd] *)

Section listening.
Context `{Sockets W}.

(** The calls that make the socket [fd] listen. *)
Definition listen_calls (port fd : Z) : list (syscall W) :=
  let sa := {| sin_family := AF_INET; sin_port := htons (ushort port); s_addr := INADDR_ANY |} in
  [Call (lit "Socket error") sys_socket (Is fd); Call (lit "Setsockopt error") (sys_setsockopt fd) NonNegative;
   Call (lit "Bind error") (sys_bind fd sa) NonNegative; Call (lit "Listen error") (sys_listen fd LISTENQ) NonNegative].

Lemma wp_Open_listenfd port w :
  wp (Open_listenfd port)
    (fun r w' => exists fd, match r with
       | Value fd' => fd' = fd /\ 0 <= fd /\ all_done (listen_calls port fd) w w'
       | Exited => stopped_at (listen_calls port fd) w w'
       end) w.
Proof.
  unfold Open_listenfd. apply wp_andthen, wp_checked. destruct (sys_socket w) as [fd w1] eqn:Hsock.
  destruct (Z.ltb_spec fd 0) as [Hf|Hfd]; [exists 0; cbn; rewrite Hsock; by left|].
  eapply wp_mono with (P := fun r w' => match r with
      | Value a => a = fd /\ all_done (List.tl (listen_calls port fd)) w1 w'
      | Exited => stopped_at (List.tl (listen_calls port fd)) w1 w' end).
  - cbn [List.tl listen_calls]. do 2 (eapply performs_cons; [apply performs_checked|intros _ _]).
    eapply performs_cons; [apply performs_checked|intros _ _]. by apply performs_finish.
  - intros [a|] w'; exists fd; cbn [listen_calls all_done stopped_at] in *; cbn; rewrite Hsock.
    + destruct H1 as [-> H1]. done.
    + by right.
Qed.

Context `{!SocketsModel W}.

Lemma listen_calls_listen port fd w w' :
  all_done (listen_calls port fd) w w' ->
  exists sa, sock_status_of fd w' = Some (Listening sa 1024) /\
    sin_family sa = AF_INET /\ s_addr sa = INADDR_ANY /\ ntohs (sin_port sa) = port mod 65536.
Proof.
  unfold listen_calls. set (sa := {| sin_family := _ |}). cbn. destruct (sys_socket w) as [fd' w1] eqn:E1. intros [[Hfd ->] Hr].
  pose proof (socket_spec w) as Hst1. rewrite E1 in Hst1. specialize (Hst1 Hfd).
  destruct (sys_setsockopt fd w1) as [rc2 w2] eqn:E2. destruct Hr as [_ Hr].
  pose proof (setsockopt_spec fd w1 _ Hst1) as Hst2. rewrite E2 in Hst2.
  destruct (sys_bind fd sa w2) as [rc3 w3] eqn:E3. destruct Hr as [Hrc3 Hr].
  pose proof (bind_spec fd sa w2 Hst2) as Hst3. rewrite E3 in Hst3. specialize (Hst3 Hrc3).
  destruct (sys_listen fd LISTENQ w3) as [rc4 w4] eqn:E4. destruct Hr as [Hrc4 ->].
  pose proof (listen_spec fd LISTENQ w3 sa Hst3) as Hst4. rewrite E4 in Hst4. specialize (Hst4 Hrc4).
  exists sa. split_and!; [done..|]. apply ntohs_htons. unfold ushort. by apply Z.mod_pos_bound.
Qed.

(** C36: [Open_listenfd] always comes to an end.  It returns a descriptor
    exactly when making the socket, setting its option, binding and listening
    succeed, in this order, and then it has made these calls and no others; the
    descriptor listens on every address, on the port modulo [2^16].  When one
    of the calls fails, it is complained of, none of those after it is made,
    and the process ends. *)
Theorem Open_listenfd_listens (port : Z) (w : W) :
  exists r w' fd, Open_listenfd port w = Ok (r, w') /\
    match r with
    | Value fd' => fd' = fd /\ 0 <= fd /\ all_done (listen_calls port fd) w w' /\
        exists sa, sock_status_of fd w' = Some (Listening sa 1024) /\
          sin_family sa = AF_INET /\ s_addr sa = INADDR_ANY /\ ntohs (sin_port sa) = port mod 65536
    | Exited => stopped_at (listen_calls port fd) w w'
    end.
Proof.
  destruct (wp_run _ _ _ (wp_Open_listenfd port w)) as (r & w' & Hrun & fd & Hr). exists r, w', fd. split; [done|].
  destruct r as [fd'|]; [|done]. destruct Hr as (-> & Hfd & Hall). split_and!; [done..|]. by eapply listen_calls_listen.
Qed.

End listening.
End promises.

(** ** Sockets in a table *)

Module SocketTable.

(** Descriptor [i] is the [i]-th entry; two are the most there can be. *)
Definition table : Type := list sock_status * text.

Definition status_of (fd : Z) (w : table) : option sock_status := if fd <? 0 then None else w.1 !! Z.to_nat fd.

#[export] Instance table_errors : Errors table := {
  strerror := fun _ => lit "failed"; errno := fun _ => 24; put_err := fun t w => (w.1, w.2 ++ t) }.

Definition change (fd : Z) (f : sock_status -> option sock_status) (w : table) : Z * table :=
  match status_of fd w with
  | Some s => match f s with Some s' => (0, (<[Z.to_nat fd := s']> w.1, w.2)) | None => (-1, w) end
  | None => (-1, w)
  end.

#[export] Instance table_sockets : Sockets table := {
  sys_socket := fun w => if (length w.1 <? 2)%nat then (Z.of_nat (length w.1), (w.1 ++ [Fresh], w.2)) else (-1, w);
  sys_setsockopt := fun fd => change fd Some;
  sys_bind := fun fd sa => change fd (fun s => match s with Fresh => Some (Bound sa) | _ => None end);
  sys_listen := fun fd n => change fd (fun s => match s with Bound sa => Some (Listening sa n) | _ => None end);
  sys_accept := fun _ w => (-1, w); sys_connect := fun _ _ w => (-1, w); sys_gethostbyname := fun _ w => (None, w) }.

Lemma change_spec fd f w s s' :
  status_of fd w = Some s -> f s = Some s' -> status_of fd (change fd f w).2 = Some s'.
Proof.
  intros Hs Hf. unfold change. rewrite Hs, Hf. unfold status_of in *. cbn. destruct (fd <? 0); [done|].
  apply list_lookup_insert_eq. by eapply lookup_lt_Some.
Qed.

#[local] Ltac by_change Hs :=
  match goal with |- context [change ?fd ?f ?w] => pose proof (change_spec fd f w _ _ Hs eq_refl); by destruct (change fd f w) end.

#[export, program] Instance table_model : SocketsModel table := { sock_status_of := status_of }.
Next Obligation.
  intros [socks out]. cbn. destruct (length socks <=? 1)%nat; [|lia]. intros _. unfold status_of. cbn.
  destruct (Z.ltb_spec (Z.of_nat (length socks)) 0); [lia|]. rewrite Nat2Z.id, lookup_app_r, Nat.sub_diag by lia. done.
Qed.
Next Obligation.
  intros fd w s Hs. cbn. by_change Hs.
Qed.
Next Obligation.
  intros fd sa w Hs. cbn. by_change Hs.
Qed.
Next Obligation.
  intros fd n w sa Hs. cbn. by_change Hs.
Qed.

(** A first socket listens; a third one cannot be made. *)
Lemma Open_listenfd_listens_witness :
  (exists w', Open_listenfd (W := table) 73616 ([], []) = Ok (Value 0, w') /\
     exists sa, sock_status_of 0 w' = Some (Listening sa 1024) /\ ntohs (sin_port sa) = 8080) /\
  exists w', Open_listenfd (W := table) 8080 ([Fresh; Fresh], []) = Ok (Exited, w') /\
    stopped_at (W := table) (listen_calls 8080 2) ([Fresh; Fresh], []) w'.
Proof.
  split.
  - destruct (Open_listenfd_listens (W := table) 73616 ([], [])) as (r & w' & fd & Hrun & Hr).
    assert (Hv : exists w1, Open_listenfd (W := table) 73616 ([], []) = Ok (Value 0, w1)) by (eexists; vm_compute; reflexivity).
    destruct Hv as [w1 Hv]. rewrite Hv in Hrun. injection Hrun as <- <-. exists w1. split; [exact Hv|].
    destruct Hr as (<- & _ & _ & sa & Hst & _ & _ & Hp). exists sa. split; [exact Hst|]. exact Hp.
  - destruct (Open_listenfd_listens (W := table) 8080 ([Fresh; Fresh], [])) as (r & w' & fd & Hrun & Hr).
    assert (Hv : exists w1, Open_listenfd (W := table) 8080 ([Fresh; Fresh], []) = Ok (Exited, w1)) by (eexists; vm_compute; reflexivity).
    destruct Hv as [w1 Hv]. rewrite Hv in Hrun. injection Hrun as <- <-. exists w1. split; [exact Hv|].
    destruct Hr as [[_ Hw]|[[Hfd _] _]]; [left; split; [reflexivity|exact Hw]|exfalso; apply Hfd; reflexivity].
Defined.

End SocketTable.
