(* ===== verification/Request.v ===== *)
(** * [multithreaded-web-server/request.c]: handling one request

    [handle_request] and the responses it sends, over the Rio package.  What
    the server asks of the system and of the log (file attributes and
    contents, the log, the process that runs a CGI program) is a class of
    operations. *)

From stdpp Require Import pretty.
From S2P Require Import Prelude ShellText Rio.

(** ** Data *)

Record timeval := { tv_sec : Z; tv_usec : Z }.

Record time_stats := {
  task_arrival : timeval;
  task_dispatch : timeval;
  log_enter : timeval;
  log_exit : timeval;
}.

Record threads_stats := { id : Z; total_req : Z; stat_req : Z; dynm_req : Z; post_req : Z }.

Definition MAXLINE : Z := 8192.

(** The attributes [handle_request] looks at. *)
Record file_stat := { st_reg : bool; st_rusr : bool; st_xusr : bool; st_size : Z }.

(** What the forked child runs on the connection. *)
Record cgi := { cgi_file : text; cgi_query : text }.

(** [open] yields a descriptor of its own for the file, and the file tells
    what closing it returns. *)
Class Files (W F : Type) := {
  open_file : text -> W -> option F;
  close_file : F -> Z;
}.

Class Service (W : Type) := {
  stat : text -> W -> option file_stat;
  malloc : Z -> option bytes;
  fork_cgi : cgi -> W -> Z * W;
  wait_child : Z -> W -> Z * W;
}.

(** The operations of the log return the times they entered and left the
    critical section. *)
Class LogCalls (W : Type) := {
  write_log : text -> W -> (timeval * timeval) * W;
  read_log : W -> (bytes * (timeval * timeval)) * W;
}.

(** ** The texts *)

Definition crlf : text := ["013"; "010"]%char.

(** [%06ld]: the sign, then digits padded with zeros. *)
Definition pad6 (n : Z) : text :=
  let digits := show (Z.abs n) in
  let sign := if n <? 0 then lit "-" else [] in
  sign ++ repeat "0"%char (6 - length (sign ++ digits)) ++ digits.

Definition print_time (t : timeval) : text := show (tv_sec t) ++ lit "." ++ pad6 (tv_usec t).

(** Appends to the string in the buffer; the value returned is its length. *)
Definition append_stats (buf : text) (ts : threads_stats) (tm : time_stats) : text :=
  buf ++
  lit "Stat-Req-Arrival:: " ++ print_time (task_arrival tm) ++ crlf ++
  lit "Stat-Req-Dispatch:: " ++ print_time (task_dispatch tm) ++ crlf ++
  lit "Stat-Log-Arrival:: " ++ print_time (log_enter tm) ++ crlf ++
  lit "Stat-Log-Dispatch:: " ++ print_time (log_exit tm) ++ crlf ++
  lit "Stat-Thread-Id:: " ++ show (id ts) ++ crlf ++
  lit "Stat-Thread-Count:: " ++ show (total_req ts) ++ crlf ++
  lit "Stat-Thread-Static:: " ++ show (stat_req ts) ++ crlf ++
  lit "Stat-Thread-Dynamic:: " ++ show (dynm_req ts) ++ crlf ++
  lit "Stat-Thread-Post:: " ++ show (post_req ts) ++ crlf ++ crlf.

Definition has_str (pat s : text) : bool := bool_decide (is_Some (find_str pat s)).

Definition get_filetype (filename : text) : text :=
  if has_str (lit ".html") filename then lit "text/html"
  else if has_str (lit ".gif") filename then lit "image/gif"
  else if has_str (lit ".jpg") filename then lit "image/jpeg"
  else if has_str (lit ".png") filename then lit "image/png"
  else lit "text/plain".

(** [snprintf(buf, size, ...)] keeps [size - 1] characters. *)
Definition snprintf (size : Z) (s : text) : text := take (Z.to_nat (size - 1)) s.

Definition error_body (cause errnum shortmsg longmsg : text) : text :=
  snprintf MAXLINE
    (lit "<html><title>OS-HW3 Error</title><body bgcolor=" ++ ["034"%char] ++ lit "ffffff" ++ ["034"%char] ++ lit ">" ++ crlf ++
     errnum ++ lit ": " ++ shortmsg ++ crlf ++
     lit "<p>" ++ longmsg ++ lit ": " ++ cause ++ crlf ++
     lit "<hr>OS-HW3 Web Server" ++ crlf).

Definition length_header (n : Z) : text := lit "Content-Length: " ++ show n ++ crlf.

Definition error_header (errnum shortmsg body : text) : text :=
  snprintf MAXLINE
    (lit "HTTP/1.0 " ++ errnum ++ lit " " ++ shortmsg ++ crlf ++
     lit "Content-Type: text/html" ++ crlf ++ length_header (Z.of_nat (length body))).

Definition ok_header : text := lit "HTTP/1.0 200 OK" ++ crlf ++ lit "Server: OS-HW3 Web Server" ++ crlf.

Definition content_header (size : Z) (filetype : text) : text :=
  snprintf MAXLINE (ok_header ++ length_header size ++ lit "Content-Type: " ++ filetype ++ crlf).

Definition fallback : text := lit "Log is not implemented." ++ ["010"%char].

(** ** C strings and [sscanf] *)

Definition NUL : ascii := "000"%char.

Definition c_str (s : text) : text := take_while (fun c => negb (Ascii.eqb c NUL)) s.

Definition isspace : ascii -> bool := one_of [" "; "009"; "010"; "011"; "012"; "013"]%char.

Definition lower (c : ascii) : ascii :=
  let n := N_of_ascii c in if ((65 <=? n) && (n <=? 90))%N then ascii_of_N (n + 32) else c.

Definition strcasecmp_eq (a b : text) : bool := bool_decide (lower <$> a = lower <$> b).

(** What a GET asks for: [None] stands for no [?] in the address. *)
Definition cgi_target (uri : text) : text * text :=
  match find_char "?" uri 0 with
  | Some q => (snprintf MAXLINE (lit "." ++ take q uri), take (Z.to_nat (MAXLINE - 1)) (drop (q + 1) uri))
  | None => (snprintf MAXLINE (lit "." ++ uri), [])
  end.

Definition static_target (uri : text) : text :=
  let filename := snprintf MAXLINE (lit "./public" ++ uri) in
  if bool_decide (last uri = Some "/"%char)
  then filename ++ take (Z.to_nat (MAXLINE - Z.of_nat (length filename) - 1)) (lit "home.html")
  else filename.

(** ** The request *)

Section code.
Context {W F : Type} `{Descriptor W} `{Descriptor F} `{Service W} `{LogCalls W} `{Files W F}.
Context (fuel : nat).

(** The bytes [rio_buf] holds on the stack before it is filled. *)
Context (junk : bytes).

(** A connection while its request is handled. *)
Record conn := Conn { rio : rio_t; ts : threads_stats; tm : time_stats; world : W }.

Definition R (A : Type) : Type := M conn (ended A).

(** Running code on a part of the connection. *)
Definition on_rio {A} (m : M (rio_t * W) A) : M conn A := fun c =>
  match m (rio c, world c) with
  | Ok (a, (rp, w)) => Ok (a, Conn rp (ts c) (tm c) w)
  | Err e => Err e
  end.

Definition on_world {A} (m : M (unit * W) A) : M conn A := fun c =>
  match m (tt, world c) with
  | Ok (a, (_, w)) => Ok (a, Conn (rio c) (ts c) (tm c) w)
  | Err e => Err e
  end.

Definition on_file {A} (m : M (unit * F) A) (f : F) : M conn A := fun c =>
  match m (tt, f) with
  | Ok (a, _) => Ok (a, c)
  | Err e => Err e
  end.

Definition ask {A} (f : W -> A) : M conn A := gets (fun c => f (world c)).
Definition service {A} (f : W -> A * W) : M conn A := on_world (call f).

Definition write (s : bytes) : R unit := on_world (Rio_writen fuel s).

Definition set_ts (f : threads_stats -> threads_stats) : M conn unit :=
  modify (fun c => Conn (rio c) (f (ts c)) (tm c) (world c)).
Definition set_log_times (t : timeval * timeval) : M conn unit :=
  modify (fun c => Conn (rio c) (ts c)
    {| task_arrival := task_arrival (tm c); task_dispatch := task_dispatch (tm c);
       log_enter := fst t; log_exit := snd t |} (world c)).

Definition stats_text : M conn text := gets (fun c => append_stats [] (ts c) (tm c)).

Definition write_stats : R unit := let* stats := stats_text in write stats.

Definition send_error (cause errnum shortmsg longmsg : text) : R unit :=
  let body := error_body cause errnum shortmsg longmsg in
  write (error_header errnum shortmsg body) ;;!
  write_stats ;;!
  write body.

Definition serve_static (filename : text) (filesize : Z) : R unit :=
  write (content_header filesize (get_filetype filename)) ;;!
  write_stats ;;!
  let* src := ask (open_file filename) in
  match src with
  | None => ret Exited
  | Some srcfd =>
      match malloc filesize with
      | None => ret Exited
      | Some srcp =>
          let! bs := on_file (Rio_readn fuel filesize) srcfd in
          if close_file (W := W) srcfd <? 0 then ret Exited
          else write (bs ++ drop (length bs) srcp)
      end
  end.

Definition serve_dynamic (filename cgiargs : text) : R unit :=
  write ok_header ;;!
  write_stats ;;!
  let* pid := service (fork_cgi {| cgi_file := filename; cgi_query := cgiargs |}) in
  if pid <? 0 then ret Exited
  else
    let* r := service (wait_child pid) in
    if r <? 0 then ret Exited else finish tt.

(** The log, as [log_read] left it in [log_buf], is sent. *)
Definition send_log (log_buf : bytes) : R unit :=
  let body := match log_buf with [] => fallback | _ => log_buf end in
  write (content_header (Z.of_nat (length body)) (lit "text/plain")) ;;!
  write_stats ;;!
  write body.

Definition serve_post : R unit :=
  let* r := service read_log in
  let '(log_buf, times) := r in
  set_log_times times ;;*
  send_log log_buf.

(** The rest of the header lines; the buffer keeps its line at the end of
    the input. *)
Definition drain (buf : text) : R unit :=
  iter fuel (fun buf =>
    if negb (bool_decide (c_str buf = crlf)) && (0 <? Z.of_nat (length (c_str buf))) then
      let* r := on_rio (Rio_readlineb fuel MAXLINE) in
      match r with
      | Exited => ret (inr Exited)
      | Value (rc, line) => if rc <=? 0 then ret (inr (Value tt)) else ret (inl (default buf line))
      end
    else ret (inr (Value tt))) buf.

Definition bump_total (s : threads_stats) : option threads_stats :=
  match int_ok (total_req s + 1) with
  | Some n => Some {| id := id s; total_req := n; stat_req := stat_req s; dynm_req := dynm_req s; post_req := post_req s |}
  | None => None
  end.
Definition bump_static (s : threads_stats) : option threads_stats :=
  match int_ok (stat_req s + 1) with
  | Some n => Some {| id := id s; total_req := total_req s; stat_req := n; dynm_req := dynm_req s; post_req := post_req s |}
  | None => None
  end.
Definition bump_dynamic (s : threads_stats) : option threads_stats :=
  match int_ok (dynm_req s + 1) with
  | Some n => Some {| id := id s; total_req := total_req s; stat_req := stat_req s; dynm_req := n; post_req := post_req s |}
  | None => None
  end.
Definition bump_post (s : threads_stats) : option threads_stats :=
  match int_ok (post_req s + 1) with
  | Some n => Some {| id := id s; total_req := total_req s; stat_req := stat_req s; dynm_req := dynm_req s; post_req := n |}
  | None => None
  end.

Definition bump (f : threads_stats -> option threads_stats) : M conn unit :=
  try_modify (fun c => match f (ts c) with
                       | Some t => Some (Conn (rio c) t (tm c) (world c))
                       | None => None
                       end).

(** The entry is written with the times of the dispatch; the log sets the
    times of the response. *)
Definition log_entry : M conn unit :=
  let* entry := stats_text in
  let* times := service (write_log entry) in
  set_log_times times.

Definition handle_get (uri : text) : R unit :=
  let is_dynamic := has_str (lit ".cgi") uri in
  let '(filename, cgiargs) := if is_dynamic then cgi_target uri else (static_target uri, []) in
  let* sbuf := ask (stat filename) in
  match sbuf with
  | None => send_error filename (lit "404") (lit "Not found") (lit "OS-HW3 Server could not find this file")
  | Some sbuf =>
      if is_dynamic then
        if negb (st_reg sbuf) || negb (st_xusr sbuf) then
          send_error filename (lit "403") (lit "Forbidden") (lit "OS-HW3 Server could not run the CGI program")
        else
          bump bump_dynamic ;;*
          log_entry ;;*
          serve_dynamic filename cgiargs
      else
        if negb (st_reg sbuf) || negb (st_rusr sbuf) then
          send_error filename (lit "403") (lit "Forbidden") (lit "OS-HW3 Server could not read the file")
        else
          bump bump_static ;;*
          log_entry ;;*
          serve_static filename (int32 (st_size sbuf))
  end.

(** What follows the reading, on the fields of the first line.  An array
    [sscanf] did not fill is not initialised: comparing it is undefined. *)
Definition respond (fields : list text) : R unit :=
  let* method := try_gets (fun _ => fields !! 0%nat) in
  if negb (strcasecmp_eq method (lit "GET")) && negb (strcasecmp_eq method (lit "POST")) then
    send_error method (lit "501") (lit "Not Implemented") (lit "OS-HW3 Server does not implement this method")
  else if strcasecmp_eq method (lit "POST") then
    bump bump_post ;;* serve_post
  else
    let* uri := try_gets (fun _ => fields !! 1%nat) in
    handle_get uri.

(** The request is read and counted: the fields of its first line, unless
    nothing was sent. *)
Definition read_request : R (option (list text)) :=
  let* dispatch := gets (fun c => task_dispatch (tm c)) in
  set_log_times (dispatch, dispatch) ;;*
  modify (fun c => Conn (rio_readinitb junk) (ts c) (tm c) (world c)) ;;*
  let! first := on_rio (Rio_readlineb fuel MAXLINE) in
  match first with
  | (rc, line) =>
      if rc <=? 0 then finish None
      else
        let* buf := try_gets (fun _ => line) in
        let fields := words isspace (c_str buf) in
        drain buf ;;!
        bump bump_total ;;*
        finish (Some fields)
  end.

Definition handle_request : R unit :=
  let! request := read_request in
  match request with
  | None => finish tt
  | Some fields => respond fields
  end.

(** One round of a worker: the times of the request, then its handling. *)
Definition worker_round (arrival dispatch : timeval) : R unit :=
  modify (fun c => Conn (rio c) (ts c)
    {| task_arrival := arrival; task_dispatch := dispatch; log_enter := dispatch; log_exit := dispatch |} (world c)) ;;*
  handle_request.

End code.

(** The counters of the workers, numbered from 1. *)
Definition init_stats (num_threads : nat) : list threads_stats :=
  (fun i => {| id := Z.of_nat i + 1; total_req := 0; stat_req := 0; dynm_req := 0; post_req := 0 |}) <$> seq 0 num_threads.

(** ** The specification *)

(** What a request asks the server to do, decided from the fields of its
    first line and the attributes of the file it names. *)
Inductive action :=
| NotImplemented (method : text)
| PostLog
| NotFound (filename : text)
| CannotRun (filename : text)
| CannotRead (filename : text)
| RunCgi (filename cgiargs : text)
| SendFile (filename : text) (size : Z).

Definition decide_get (uri : text) (stat : text -> option file_stat) : action :=
  if has_str (lit ".cgi") uri then
    let '(filename, cgiargs) := cgi_target uri in
    match stat filename with
    | None => NotFound filename
    | Some a => if st_reg a && st_xusr a then RunCgi filename cgiargs else CannotRun filename
    end
  else
    let filename := static_target uri in
    match stat filename with
    | None => NotFound filename
    | Some a => if st_reg a && st_rusr a then SendFile filename (int32 (st_size a)) else CannotRead filename
    end.

(** [None]: a field the request does not have is needed. *)
Definition decide_request (fields : list text) (stat : text -> option file_stat) : option action :=
  match fields with
  | [] => None
  | method :: rest =>
      if strcasecmp_eq method (lit "GET") then
        match rest with [] => None | uri :: _ => Some (decide_get uri stat) end
      else if strcasecmp_eq method (lit "POST") then Some PostLog
      else Some (NotImplemented method)
  end.

(** The counter of what was served. *)
Definition served (a : action) (s : threads_stats) : threads_stats :=
  let d (b : bool) : Z := if b then 1 else 0 in
  {| id := id s; total_req := total_req s;
     stat_req := stat_req s + d (match a with SendFile _ _ => true | _ => false end);
     dynm_req := dynm_req s + d (match a with RunCgi _ _ => true | _ => false end);
     post_req := post_req s + d (match a with PostLog => true | _ => false end) |}.

(** Every request counts, and once more for what it was served. *)
Definition counted (a : action) (s : threads_stats) : threads_stats :=
  served a {| id := id s; total_req := total_req s + 1; stat_req := stat_req s; dynm_req := dynm_req s; post_req := post_req s |}.

Definition logs (a : action) : bool := match a with RunCgi _ _ | SendFile _ _ => true | _ => false end.

Definition error_text (cause errnum shortmsg longmsg stats : text) : text :=
  let body := error_body cause errnum shortmsg longmsg in error_header errnum shortmsg body ++ stats ++ body.

Definition is_cgi (a : action) : bool := match a with RunCgi _ _ => true | _ => false end.

(** The response, given the statistics in it, the log, and the contents of
    the file. *)
Definition response (a : action) (stats : text) (log file : bytes) : bytes :=
  match a with
  | NotImplemented m =>
      error_text m (lit "501") (lit "Not Implemented") (lit "OS-HW3 Server does not implement this method") stats
  | NotFound f => error_text f (lit "404") (lit "Not found") (lit "OS-HW3 Server could not find this file") stats
  | CannotRun f => error_text f (lit "403") (lit "Forbidden") (lit "OS-HW3 Server could not run the CGI program") stats
  | CannotRead f => error_text f (lit "403") (lit "Forbidden") (lit "OS-HW3 Server could not read the file") stats
  | PostLog =>
      let body := match log with [] => fallback | _ => log end in
      content_header (Z.of_nat (length body)) (lit "text/plain") ++ stats ++ body
  | SendFile f size => content_header size (get_filetype f) ++ stats ++ take (Z.to_nat size) file
  | RunCgi _ _ => ok_header ++ stats
  end.
