(* ===== verification/RequestProps.v ===== *)
(** * [request.c]: what the server answers

    The bounds of the texts, the laws of the services, and the refinement:
    [handle_request] reads one request, counts it, logs it and answers it as
    [decide_request] and [response] say, whatever pieces the connection
    delivers and takes. *)

From stdpp Require Import pretty.
From S2P Require Import Prelude ShellText Rio Request.

(** ** Bounds *)

Definition time_ok (t : timeval) : Prop := 0 <= tv_sec t < 2 ^ 63 /\ 0 <= tv_usec t < 10 ^ 6.

Definition times_ok (tm : time_stats) : Prop :=
  time_ok (task_arrival tm) /\ time_ok (task_dispatch tm) /\ time_ok (log_enter tm) /\ time_ok (log_exit tm).

Definition stats_below (b : Z) (s : threads_stats) : Prop :=
  0 <= id s < 2 ^ 31 /\ 0 <= total_req s < b /\ 0 <= stat_req s < b /\ 0 <= dynm_req s < b /\ 0 <= post_req s < b.

(** Counters an [int] holds, and counters that can count one more request. *)
Definition stats_fit : threads_stats -> Prop := stats_below (2 ^ 31).
Definition stats_ok : threads_stats -> Prop := stats_below (2 ^ 31 - 1).

Lemma int_show_length n : 0 <= n < 2 ^ 31 -> (length (show n) <= 10)%nat.
Proof. intros Hn. apply show_length; lia. Qed.

Lemma print_time_length t : time_ok t -> (length (print_time t) <= 26)%nat.
Proof.
  intros [Hs Hu]. unfold print_time, pad6. rewrite (proj2 (Z.ltb_ge _ _)) by lia. rewrite Z.abs_eq by lia.
  cbn [app]. rewrite !length_app, repeat_length.
  pose proof (show_length (tv_sec t) 19 ltac:(lia) ltac:(lia)). pose proof (show_length (tv_usec t) 6 ltac:(lia) ltac:(lia)).
  cbn. lia.
Qed.

Lemma append_stats_length buf s tm :
  stats_fit s -> times_ok tm -> (length (append_stats buf s tm) <= length buf + 400)%nat.
Proof.
  intros (Hi & Ht & Hs & Hd & Hp) (H1 & H2 & H3 & H4). unfold append_stats. rewrite !length_app.
  pose proof (print_time_length _ H1). pose proof (print_time_length _ H2).
  pose proof (print_time_length _ H3). pose proof (print_time_length _ H4).
  pose proof (int_show_length (id s) ltac:(lia)). pose proof (int_show_length (total_req s) ltac:(lia)).
  pose proof (int_show_length (stat_req s) ltac:(lia)). pose proof (int_show_length (dynm_req s) ltac:(lia)).
  pose proof (int_show_length (post_req s) ltac:(lia)).
  repeat match goal with |- context [length (lit ?x)] => let n := eval vm_compute in (length (lit x)) in change (length (lit x)) with n end.
  change (length crlf) with 2%nat. lia.
Qed.

Lemma snprintf_short s : (length s < Z.to_nat MAXLINE)%nat -> snprintf MAXLINE s = s.
Proof. intros Hs. unfold snprintf, MAXLINE in *. apply take_ge. lia. Qed.

Lemma snprintf_length s : (length (snprintf MAXLINE s) <= Z.to_nat MAXLINE)%nat.
Proof. unfold snprintf, MAXLINE. rewrite length_take. lia. Qed.

Lemma counted_fit a s : stats_ok s -> stats_fit (counted a s).
Proof. unfold stats_ok, stats_fit, stats_below. intros Hs. destruct a; cbn; lia. Qed.

(** ** Laws of the services *)

(** The length below which the log is known to work. *)
Definition log_limit : Z := 2 ^ 30.

Section laws.
Context {W F : Type} `{DescriptorModel W} `{DescriptorModel F} `{Service W} `{Files W F}.

(** The log and the files as the server sees them. *)
Class ServiceModel := {
  logged : W -> bytes;
  same_view (w w' : W) : Prop :=
    logged w' = logged w /\ (forall f, stat f w' = stat f w) /\ (forall f, open_file f w' = open_file f w);
  same_io (w w' : W) : Prop :=
    input w' = input w /\ output w' = output w /\ (noise w' <= noise w)%nat /\ healthy w';
  read_frame : forall n w, same_view w (snd (sys_read n w));
  write_frame : forall bs w, same_view w (snd (sys_write bs w));
  malloc_spec : forall n bs, malloc n = Some bs -> Z.of_nat (length bs) = n;
  fork_cgi_spec : forall ch w, healthy w ->
    let '(pid, w') := fork_cgi ch w in
    healthy w' /\ same_view w w' /\ exists o, output w' = output w ++ o;
  wait_child_spec : forall pid w, healthy w ->
    let '(r, w') := wait_child pid w in healthy w' /\ same_view w w' /\ exists o, output w' = output w ++ o;
}.

(** The log keeps its length in an [int]: a write needs room for the entry. *)
Class LogModel `{!ServiceModel} `{!LogCalls W} := {
  write_log_spec : forall t w, healthy w -> Z.of_nat (length (logged w) + length t) < log_limit ->
    let '(times, w') := write_log t w in
    same_io w w' /\ logged w' = logged w ++ t /\ time_ok (fst times) /\ time_ok (snd times) /\
    (forall f, stat f w' = stat f w) /\ (forall f, open_file f w' = open_file f w);
  read_log_spec : forall w, healthy w ->
    let '((bs, times), w') := read_log w in
    same_io w w' /\ same_view w w' /\ bs = logged w /\ time_ok (fst times) /\ time_ok (snd times);
}.

Context `{!ServiceModel}.

Lemma same_view_refl w : same_view w w.
Proof. by repeat split. Qed.

Lemma same_view_trans w1 w2 w3 : same_view w1 w2 -> same_view w2 w3 -> same_view w1 w3.
Proof. intros (E1 & E2 & E3) (E4 & E5 & E6). split_and!; [congruence|intros f; by rewrite E5|intros f; by rewrite E6]. Qed.

(** The descriptor with its input and output seen apart from the rest: no
    call on it touches the log or the files. *)
#[local, program] Instance framed (w0 : W) (N : nat) : DescriptorModel W := {
  input := input; output := output; noise := noise;
  healthy := fun w => healthy w /\ same_view w0 w /\ (noise w <= N)%nat;
}.
Next Obligation.
  intros w0 N n w (Hh & Hv & HN) Hn. pose proof (read_spec n w Hh Hn) as Hr. pose proof (read_frame n w) as Hf.
  destruct (sys_read n w) as [[bs|e] w']; cbn [snd] in Hf; pose proof (same_view_trans _ _ _ Hv Hf);
    destruct_and? Hr; split_and!; (done || lia).
Qed.
Next Obligation.
  intros w0 N bs w (Hh & Hv & HN) Hn. pose proof (write_spec bs w Hh Hn) as Hr. pose proof (write_frame bs w) as Hf.
  destruct (sys_write bs w) as [[k|e] w']; cbn [snd] in Hf; pose proof (same_view_trans _ _ _ Hv Hf);
    destruct_and? Hr; split_and!; (done || lia).
Qed.

(** ** Rules for the code of a connection *)

Context (fuel : nat).

Notation conn := (conn (W := W)).

Lemma wp_on_rio {A} (m : M (rio_t * W) A) (Q : A -> conn -> Prop) c :
  wp m (fun a s => Q a (Conn (fst s) (ts c) (tm c) (snd s))) (rio c, world c) -> wp (on_rio m) Q c.
Proof. unfold wp, on_rio. by destruct (m _) as [[a [rp w]]|]. Qed.

Lemma wp_on_world {A} (m : M (unit * W) A) (Q : A -> conn -> Prop) c :
  wp m (fun a s => Q a (Conn (rio c) (ts c) (tm c) (snd s))) (tt, world c) -> wp (on_world m) Q c.
Proof. unfold wp, on_world. by destruct (m _) as [[a [u w]]|]. Qed.

Lemma wp_on_file {A} (m : M (unit * F) A) f (Q : A -> conn -> Prop) c :
  wp m (fun a _ => Q a c) (tt, f) -> wp (on_file m f) Q c.
Proof. unfold wp, on_file. by destruct (m _) as [[a s]|]. Qed.

Lemma wp_service {A} (f : W -> A * W) (Q : A -> conn -> Prop) c :
  (let '(a, w) := f (world c) in Q a (Conn (rio c) (ts c) (tm c) w)) -> wp (service f) Q c.
Proof. intros Hq. apply wp_on_world, wp_call. cbn [snd]. by destruct (f (world c)). Qed.

(** The connection is alive: [n] more bytes can be sent, and the log and files
    are those of [w0]. *)
Definition live (w0 : W) (n : nat) (c : conn) : Prop :=
  healthy (world c) /\ same_view w0 (world c) /\ (noise (world c) + n < fuel)%nat.

(** The connection after [s] was sent. *)
Definition sent_on (s : bytes) (c c' : conn) : Prop :=
  ts c' = ts c /\ tm c' = tm c /\ output (world c') = output (world c) ++ s.

Lemma wp_write w0 n buf (Q : ended unit -> conn -> Prop) c :
  live w0 n c -> (length buf <= n)%nat ->
  (forall c', live w0 n c' -> sent_on buf c c' -> Q (Value tt) c') ->
  wp (write fuel buf) Q c.
Proof.
  intros (Hh & Hv & Hn) Hb HQ. unfold write. apply wp_on_world. unfold Rio_writen. apply wp_bind.
  eapply wp_mono; [apply (wp_rio_writen (H0 := framed w0 (noise (world c))) fuel buf (world c) tt); [done|cbn; lia]|].
  intros r s (-> & (Hh' & Hv' & _) & Ho & _ & Hno). cbn in Ho, Hno. apply wp_ret. rewrite Z.eqb_refl.
  apply HQ; [split_and!; [done..|cbn; lia]|done].
Qed.

Lemma wp_write_stats w0 n (Q : ended unit -> conn -> Prop) c :
  live w0 n c -> stats_fit (ts c) -> times_ok (tm c) -> (400 <= n)%nat ->
  (forall c', live w0 n c' -> sent_on (append_stats [] (ts c) (tm c)) c c' -> Q (Value tt) c') ->
  wp (write_stats fuel) Q c.
Proof.
  intros Hl Hs Ht Hn HQ. unfold write_stats, stats_text. apply wp_bind, wp_gets. apply (wp_write w0 n); [done| |done].
  pose proof (append_stats_length [] (ts c) (tm c) Hs Ht). cbn in *. lia.
Qed.

Lemma sent_on_trans s1 s2 c1 c2 c3 : sent_on s1 c1 c2 -> sent_on s2 c2 c3 -> sent_on (s1 ++ s2) c1 c3.
Proof. intros (E1 & E2 & E3) (E4 & E5 & E6). split_and!; [congruence..|]. by rewrite E6, E3, app_assoc. Qed.

(** The three writes every response consists of. *)
Lemma wp_three w0 n h b (Q : ended unit -> conn -> Prop) c :
  live w0 n c -> stats_fit (ts c) -> times_ok (tm c) -> (400 <= n)%nat -> (length h <= n)%nat -> (length b <= n)%nat ->
  (forall c', live w0 n c' -> sent_on (h ++ append_stats [] (ts c) (tm c) ++ b) c c' -> Q (Value tt) c') ->
  wp (andthen (write fuel h) (fun _ => andthen (write_stats fuel) (fun _ => write fuel b))) Q c.
Proof.
  intros Hl Hs Ht Hn Hh Hb HQ. apply wp_andthen. apply (wp_write w0 n); [done..|]. intros c1 Hl1 Hs1.
  pose proof Hs1 as (E1 & E2 & _). apply wp_andthen. apply (wp_write_stats w0 n); rewrite ?E1, ?E2; [done..|]. intros c2 Hl2 Hs2.
  apply (wp_write w0 n); [done..|]. intros c3 Hl3 Hs3. apply HQ; [done|].
  eapply sent_on_trans; [exact Hs1|]. eapply sent_on_trans; [exact Hs2|exact Hs3].
Qed.

Definition room : nat := 2 * Z.to_nat MAXLINE.

Lemma wp_send_error w0 n cause e sm lm (Q : ended unit -> conn -> Prop) c :
  live w0 n c -> stats_fit (ts c) -> times_ok (tm c) -> (room <= n)%nat ->
  (forall c', live w0 n c' -> sent_on (error_text cause e sm lm (append_stats [] (ts c) (tm c))) c c' -> Q (Value tt) c') ->
  wp (send_error fuel cause e sm lm) Q c.
Proof.
  intros Hl Hs Ht Hn HQ. unfold send_error. unfold room, MAXLINE in Hn. apply (wp_three w0 n); [done..|lia| | |done].
  - unfold error_header. etrans; [apply snprintf_length|]. unfold MAXLINE. lia.
  - unfold error_body. etrans; [apply snprintf_length|]. unfold MAXLINE. lia.
Qed.

(** ** The handlers *)

Lemma wp_serve_static w0 n f size fd mem (Q : ended unit -> conn -> Prop) c :
  live w0 n c -> stats_fit (ts c) -> times_ok (tm c) -> (room <= n)%nat ->
  open_file f w0 = Some fd -> malloc size = Some mem -> 0 <= close_file (W := W) fd -> healthy fd -> 0 <= size <= Z.of_nat (length (input fd)) ->
  (Z.to_nat size <= n)%nat -> (noise fd + Z.to_nat size + 1 < fuel)%nat ->
  (forall c', live w0 n c' -> sent_on (response (SendFile f size) (append_stats [] (ts c) (tm c)) [] (input fd)) c c' ->
     Q (Value tt) c') ->
  wp (serve_static fuel f size) Q c.
Proof.
  intros Hl Hs Ht Hn Hop Hmem Hcl Hfd Hsize Hsn Hfuel HQ. unfold serve_static. unfold room, MAXLINE in Hn.
  apply wp_andthen. apply (wp_write w0 n); [done|etrans; [apply snprintf_length|unfold MAXLINE; lia]|].
  intros c1 Hl1 Hs1. pose proof Hs1 as (E1 & E2 & _). apply wp_andthen.
  apply (wp_write_stats w0 n); rewrite ?E1, ?E2; [done..|lia|]. intros c2 Hl2 Hs2. apply wp_bind, wp_gets.
  destruct Hl2 as (Hh2 & Hv2 & Hn2). rewrite (proj2 (proj2 Hv2)), Hop, Hmem. apply wp_andthen, wp_on_file.
  unfold Rio_readn. apply wp_bind. eapply wp_mono; [apply (wp_rio_readn fuel size fd tt); [done|lia|lia]|].
  intros r s' (-> & _). apply wp_ret.
  assert (Hlen : length (take (Z.to_nat size) (input fd)) = Z.to_nat size) by (rewrite length_take; lia).
  assert (Hml : length mem = Z.to_nat size) by (pose proof (malloc_spec size mem Hmem); lia).
  rewrite (proj2 (Z.ltb_ge _ 0) Hcl), Hlen, drop_ge by lia. rewrite app_nil_r. apply (wp_write w0 n); [done|lia|]. intros c3 Hl3 Hs3. apply HQ; [done|].
  eapply sent_on_trans; [exact Hs1|]. eapply sent_on_trans; [exact Hs2|exact Hs3].
Qed.

Lemma set_log_times_ok t tm0 :
  times_ok tm0 -> time_ok (fst t) -> time_ok (snd t) ->
  times_ok {| task_arrival := task_arrival tm0; task_dispatch := task_dispatch tm0; log_enter := fst t; log_exit := snd t |}.
Proof. by intros (? & ? & _). Qed.

(** The same request with other log times. *)
Definition retimed (tm0 tm1 : time_stats) : Prop :=
  task_arrival tm1 = task_arrival tm0 /\ task_dispatch tm1 = task_dispatch tm0 /\ times_ok tm1.

Lemma wp_send_log w0 n bs (Q : ended unit -> conn -> Prop) c :
  live w0 n c -> stats_fit (ts c) -> times_ok (tm c) -> (room + length bs <= n)%nat ->
  (forall c', live w0 n c' -> sent_on (response PostLog (append_stats [] (ts c) (tm c)) bs []) c c' -> Q (Value tt) c') ->
  wp (send_log fuel bs) Q c.
Proof.
  intros Hl Hs Ht Hn HQ. unfold send_log. unfold room, MAXLINE in Hn.
  set (body := match bs with [] => fallback | _ => bs end).
  assert (Hb : (length body <= n)%nat) by (unfold body; destruct bs; cbn in *; lia).
  apply (wp_three w0 n); [done|done|done|lia| |done|done].
  etrans; [apply snprintf_length|unfold MAXLINE; lia].
Qed.

Definition same_files (w w' : W) : Prop := (forall f, stat f w' = stat f w) /\ (forall f, open_file f w' = open_file f w).

(** The child writes to the connection itself; the server waits for it. *)
Lemma wp_serve_dynamic w0 n f q (Q : ended unit -> conn -> Prop) c :
  live w0 n c -> stats_fit (ts c) -> times_ok (tm c) -> (room <= n)%nat ->
  (forall r c' o, healthy (world c') -> ts c' = ts c -> tm c' = tm c -> same_view w0 (world c') ->
     output (world c') = output (world c) ++ response (RunCgi f q) (append_stats [] (ts c) (tm c)) [] [] ++ o -> Q r c') ->
  wp (serve_dynamic fuel f q) Q c.
Proof.
  intros Hl Hs Ht Hn HQ. unfold serve_dynamic. unfold room, MAXLINE in Hn.
  apply wp_andthen. apply (wp_write w0 n); [done|cbn; lia|].
  intros c1 Hl1 Hs1. pose proof Hs1 as (E1 & E2 & _). apply wp_andthen.
  apply (wp_write_stats w0 n); rewrite ?E1, ?E2; [done..|lia|]. intros c2 Hl2 Hs2.
  pose proof (sent_on_trans _ _ _ _ _ Hs1 Hs2) as (F1 & F2 & F3). destruct Hl2 as (Hh2 & Hv2 & Hn2).
  apply wp_bind, wp_service. pose proof (fork_cgi_spec {| cgi_file := f; cgi_query := q |} (world c2) Hh2) as Hfk.
  destruct (fork_cgi _ (world c2)) as [pid w3]. destruct Hfk as (Hh3 & Hv3 & o & Ho).
  assert (Hall : forall r, Q r (Conn (rio c2) (ts c2) (tm c2) w3)).
  { intros r. apply (HQ r _ o); cbn [ts tm world]; [done|congruence|congruence|by eapply same_view_trans|].
    by rewrite Ho, F3, <- app_assoc. }
  destruct (pid <? 0); [by apply wp_ret|]. apply wp_bind, wp_service. cbn [world].
  pose proof (wait_child_spec pid w3 Hh3) as Hwt. destruct (wait_child pid w3) as [r w4]. destruct Hwt as (Hh4 & Hv4 & o' & Ho').
  assert (Hall' : forall r', Q r' (Conn (rio c2) (ts c2) (tm c2) w4)).
  { intros r'. apply (HQ r' _ (o ++ o')); cbn [ts tm world]; [done|congruence|congruence| |].
    - eapply same_view_trans; [|exact Hv4]. by eapply same_view_trans.
    - by rewrite Ho', Ho, F3, <- !app_assoc. }
  cbn [rio ts tm]. destruct (r <? 0); by apply wp_ret.
Qed.

(** ** Reading the request *)

Lemma line_result_pos l : 0 <= line_result l.
Proof. unfold line_result. destruct (ends_line l); lia. Qed.

Lemma line_nonempty k s : s <> [] -> line (S k) s <> [].
Proof. destruct s as [|c s]; [done|]. intros _. cbn. by destruct (Ascii.eqb c newline). Qed.

Definition ready_at (w0 : W) (c : conn) : Prop := ready (H0 := framed w0 (noise w0)) fuel (rio c, world c).

Lemma wp_read_line w0 (Q : ended (Z * option bytes) -> conn -> Prop) c :
  ready_at w0 c ->
  (forall c', ready_at w0 c' -> ts c' = ts c -> tm c' = tm c -> output (world c') = output (world c) ->
     let up := upcoming (H0 := framed w0 (noise w0)) (rio c, world c) in
     let l := line (Z.to_nat (MAXLINE - 1)) up in
     up = l ++ upcoming (H0 := framed w0 (noise w0)) (rio c', world c') ->
     Q (Value (match up with [] => (0, None) | _ => (line_result l, Some l) end)) c') ->
  wp (on_rio (Rio_readlineb fuel MAXLINE)) Q c.
Proof.
  intros Hr HQ. apply wp_on_rio. unfold Rio_readlineb. apply wp_bind.
  eapply wp_mono; [apply (wp_rio_readlineb (H0 := framed w0 (noise w0)) fuel MAXLINE); [exact Hr|unfold MAXLINE; lia]|].
  intros r [rp w] ((-> & Hu) & Hr' & Ho). apply wp_ret. cbn [fst snd] in *.
  set (up := upcoming _) in *. set (l := line _ up) in *.
  assert (Hpos : fst (match up with [] => (0, None) | _ => (line_result l, Some l) end) <? 0 = false).
  { apply Z.ltb_ge. destruct up; cbn [fst]; [lia|apply line_result_pos]. }
  rewrite Hpos. by apply (HQ (Conn rp (ts c) (tm c) w)).
Qed.

Lemma wp_drain w0 buf (Q : ended unit -> conn -> Prop) c :
  ready_at w0 c -> (length (upcoming (H0 := framed w0 (noise w0)) (rio c, world c)) < fuel)%nat ->
  (forall c', ready_at w0 c' -> ts c' = ts c -> tm c' = tm c -> output (world c') = output (world c) -> Q (Value tt) c') ->
  wp (drain fuel buf) Q c.
Proof.
  intros Hr Hf HQ. unfold drain.
  apply (wp_iter (fun v (_ : text) c' =>
    ready_at w0 c' /\ ts c' = ts c /\ tm c' = tm c /\ output (world c') = output (world c) /\
    v = length (upcoming (H0 := framed w0 (noise w0)) (rio c', world c'))))
    with (n := length (upcoming (H0 := framed w0 (noise w0)) (rio c, world c))); [|done|done].
  intros v b c1 (Hr1 & E1 & E2 & E3 & ->). destruct (_ && _); [|apply wp_ret; by apply HQ].
  apply wp_bind, (wp_read_line w0); [done|]. intros c2 Hr2 F1 F2 F3 up l Hu. fold up.
  destruct up as [|x up'] eqn:Hup.
  - cbn [Z.leb]. apply wp_ret. apply HQ; congruence || done.
  - destruct (Z.leb_spec (line_result l) 0); apply wp_ret; [apply HQ; congruence || done|].
    eexists. split; [|split_and!; [done|congruence|congruence|congruence|reflexivity]].
    assert (Hne : l <> []) by (unfold l, MAXLINE; rewrite <- Hup; apply line_nonempty; by rewrite Hup).
    rewrite Hu, length_app. destruct l; [done|]. cbn. lia.
Qed.

(** ** The whole request *)

(** The file of a static request can be read whole. *)
Definition servable (a : action) (w : W) (n : nat) : Prop :=
  match a with
  | SendFile f size => exists fd mem, open_file f w = Some fd /\ malloc size = Some mem /\ 0 <= close_file (W := W) fd /\ healthy fd /\
      0 <= size <= Z.of_nat (length (input fd)) /\ (Z.to_nat size <= n)%nat /\ (noise fd + Z.to_nat size + 1 < fuel)%nat
  | _ => True
  end.

Definition contents (a : action) (w : W) : bytes :=
  match a with
  | SendFile f _ => match open_file f w with Some fd => input fd | None => [] end
  | _ => []
  end.

(** What is true of the connection [c'] when the action [a] was carried out
    for [c], its total already counted. *)
Definition answered (a : action) (w0 : W) (c : conn) (r : ended unit) (c' : conn) : Prop :=
  healthy (world c') /\ same_files w0 (world c') /\ ts c' = served a (ts c) /\ retimed (tm c) (tm c') /\
  logged (world c') = logged w0 ++ (if logs a then append_stats [] (ts c') (tm c) else []) /\
  exists o, output (world c') =
              output (world c) ++ response a (append_stats [] (ts c') (tm c')) (logged w0) (contents a w0) ++ o /\
            (is_cgi a = false -> r = Value tt /\ o = []).

Definition counters_ok (s : threads_stats) : Prop := stats_fit s /\ stat_req s < 2 ^ 31 - 1 /\ dynm_req s < 2 ^ 31 - 1 /\ post_req s < 2 ^ 31 - 1.

Lemma served_fit a s : counters_ok s -> stats_fit (served a s).
Proof. unfold counters_ok, stats_fit, stats_below. intros Hs. destruct a; cbn; lia. Qed.

Lemma served_none a s :
  match a with PostLog | RunCgi _ _ | SendFile _ _ => False | _ => True end -> served a s = s.
Proof. destruct s, a; try done; intros _; unfold served; cbn; by rewrite !Z.add_0_r. Qed.

Lemma answered_error a w0 n cause e sm lm c :
  match a with PostLog | RunCgi _ _ | SendFile _ _ => False | _ => True end ->
  (forall stats log file, response a stats log file = error_text cause e sm lm stats) ->
  live w0 n c -> stats_fit (ts c) -> times_ok (tm c) -> (room <= n)%nat ->
  wp (send_error fuel cause e sm lm) (answered a w0 c) c.
Proof.
  intros Ha Hr Hl Hs Ht Hn. apply (wp_send_error w0 n); [done..|]. intros c' (Hh' & (Hlg & Hfs) & _) (E1 & E2 & E3).
  unfold answered. rewrite served_none by done. split_and!; [done|exact Hfs|done|by rewrite E2|by destruct a; rewrite ?app_nil_r|].
  exists []. rewrite app_nil_r, Hr, E1, E2. done.
Qed.

Lemma wp_bump f t (Q : unit -> conn -> Prop) c :
  f (ts c) = Some t -> Q tt (Conn (rio c) t (tm c) (world c)) -> wp (bump f) Q c.
Proof. intros Hf HQ. unfold bump. eapply wp_try_modify; [by rewrite Hf|done]. Qed.

Lemma bump_static_served f size s : counters_ok s -> bump_static s = Some (served (SendFile f size) s).
Proof.
  unfold counters_ok, stats_fit, stats_below, bump_static. intros Hs. rewrite (int_ok_in (stat_req s + 1)) by lia.
  unfold served. cbn. by rewrite !Z.add_0_r.
Qed.

Lemma bump_dynamic_served f q s : counters_ok s -> bump_dynamic s = Some (served (RunCgi f q) s).
Proof.
  unfold counters_ok, stats_fit, stats_below, bump_dynamic. intros Hs. rewrite (int_ok_in (dynm_req s + 1)) by lia.
  unfold served. cbn. by rewrite !Z.add_0_r.
Qed.

Lemma bump_post_served s : counters_ok s -> bump_post s = Some (served PostLog s).
Proof.
  unfold counters_ok, stats_fit, stats_below, bump_post. intros Hs. rewrite (int_ok_in (post_req s + 1)) by lia.
  unfold served. cbn. by rewrite !Z.add_0_r.
Qed.

Lemma same_files_trans w1 w2 w3 : same_files w1 w2 -> same_files w2 w3 -> same_files w1 w3.
Proof. intros [E1 E2] [E3 E4]. split; intros f; [by rewrite E3|by rewrite E4]. Qed.

Lemma retimed_trans a b c : retimed a b -> retimed b c -> retimed a c.
Proof. intros (E1 & E2 & _) (E3 & E4 & Hc). split_and!; [congruence..|done]. Qed.

(** ** With the log *)

Context `{!LogCalls W} `{!LogModel}.

Lemma wp_serve_post w0 n (Q : ended unit -> conn -> Prop) c :
  live w0 n c -> stats_fit (ts c) -> times_ok (tm c) -> (room + length (logged w0) <= n)%nat ->
  (forall c', live w0 n c' -> ts c' = ts c -> retimed (tm c) (tm c') ->
     output (world c') = output (world c) ++ response PostLog (append_stats [] (ts c') (tm c')) (logged w0) [] ->
     Q (Value tt) c') ->
  wp (serve_post fuel) Q c.
Proof.
  intros (Hh & Hv & Hf) Hs Ht Hn HQ. unfold serve_post. apply wp_bind, wp_service.
  pose proof (read_log_spec (world c) Hh) as Hlog. destruct (read_log (world c)) as [[bs times] w1].
  destruct Hlog as ((_ & Ho & Hno & Hh1) & Hv1 & -> & Ht1 & Ht2). rewrite (proj1 Hv).
  cbn iota. apply wp_bind, wp_modify. cbn [rio ts tm world].
  pose proof (set_log_times_ok times (tm c) Ht Ht1 Ht2) as Hok.
  apply (wp_send_log w0 n); cbn [rio ts tm world]; [|done|done|done|].
  - split_and!; [done|by eapply same_view_trans|cbn; lia].
  - intros c' Hl' (E1 & E2 & E3). cbn [ts tm world] in *. apply HQ; [done|done| |].
    + rewrite E2. split_and!; [done..|exact Hok].
    + rewrite E3, E1, E2, Ho. done.
Qed.

(** Room in the log for one more entry. *)
Definition log_fits (w : W) : Prop := Z.of_nat (length (logged w)) + 400 < log_limit.

Lemma wp_log_entry w0 n (Q : unit -> conn -> Prop) c :
  live w0 n c -> stats_fit (ts c) -> times_ok (tm c) -> log_fits w0 ->
  (forall w1 c', live w1 n c' -> logged w1 = logged w0 ++ append_stats [] (ts c) (tm c) ->
     same_files w0 w1 -> ts c' = ts c -> retimed (tm c) (tm c') ->
     output (world c') = output (world c) -> Q tt c') ->
  wp log_entry Q c.
Proof.
  intros (Hh & (Hl & Hst & Hop) & Hf) Hs Ht Hfit HQ. unfold log_entry, stats_text. apply wp_bind, wp_gets, wp_bind, wp_service.
  pose proof (append_stats_length [] (ts c) (tm c) Hs Ht) as Hlen. cbn [length] in Hlen.
  pose proof (write_log_spec (append_stats [] (ts c) (tm c)) (world c) Hh ltac:(unfold log_fits in Hfit; rewrite Hl; lia)) as Hw.
  destruct (write_log _ (world c)) as [times w1]. destruct Hw as ((_ & Ho & Hno & Hh1) & Hlg & Ht1 & Ht2 & Hst1 & Hop1).
  cbn iota. apply wp_modify. cbn [rio ts tm world]. apply (HQ w1); cbn [rio ts tm world].
  - split_and!; [done|apply same_view_refl|cbn; lia].
  - by rewrite Hlg, Hl.
  - split; intros f; [by rewrite Hst1, Hst|by rewrite Hop1, Hop].
  - done.
  - split_and!; [done..|]. by apply set_log_times_ok.
  - done.
Qed.

(** Sending a file, after it was counted. *)
Lemma answered_static w0 n f size c :
  live w0 n c -> counters_ok (ts c) -> times_ok (tm c) -> log_fits w0 -> (room <= n)%nat -> servable (SendFile f size) w0 n ->
  wp (bump bump_static ;;* log_entry ;;* serve_static fuel f size) (answered (SendFile f size) w0 c) c.
Proof.
  intros Hl Hs Ht Hlf Hn (fd & mem & Hop & Hmem & Hcl & Hfd & Hsize & Hsn & Hfl). apply wp_bind.
  apply (wp_bump _ (served (SendFile f size) (ts c))); [by apply bump_static_served|]. apply wp_bind.
  pose proof (served_fit (SendFile f size) (ts c) Hs) as Hfit.
  apply (wp_log_entry w0 n); [exact Hl|exact Hfit|exact Ht|exact Hlf|]. cbn [rio ts tm world].
  intros w1 c1 Hl1 Hlg Hfs E1 E2 E3. pose proof Hfs as [_ Hop1].
  apply (wp_serve_static w1 n f size fd mem); [done|by rewrite E1|apply E2|done|by rewrite Hop1|done..|].
  intros c2 (Hh2 & (Hlg2 & Hfs2) & _) (F1 & F2 & F3). unfold answered. rewrite F1, F2, E1.
  split_and!; [done|by eapply same_files_trans|done|done|by rewrite Hlg2, Hlg|]. exists []. rewrite app_nil_r, F3, E3, E1. cbn [contents]. by rewrite Hop.
Qed.

(** Running a program, after it was counted. *)
Lemma answered_cgi w0 n f q c :
  live w0 n c -> counters_ok (ts c) -> times_ok (tm c) -> log_fits w0 -> (room <= n)%nat ->
  wp (bump bump_dynamic ;;* log_entry ;;* serve_dynamic fuel f q) (answered (RunCgi f q) w0 c) c.
Proof.
  intros Hl Hs Ht Hlf Hn. apply wp_bind.
  apply (wp_bump _ (served (RunCgi f q) (ts c))); [by apply bump_dynamic_served|]. apply wp_bind.
  pose proof (served_fit (RunCgi f q) (ts c) Hs) as Hfit.
  apply (wp_log_entry w0 n); [exact Hl|exact Hfit|exact Ht|exact Hlf|]. cbn [rio ts tm world].
  intros w1 c1 Hl1 Hlg Hfs E1 E2 E3.
  apply (wp_serve_dynamic w1 n f q); [done|by rewrite E1|apply E2|done|].
  intros r c2 o Hh2 F1 F2 (Hlg2 & Hfs2) F3. unfold answered. rewrite F1, F2, E1.
  split_and!; [done|by eapply same_files_trans|done|done|by rewrite Hlg2, Hlg|]. exists o. split; [|done]. rewrite F3, E3, E1. done.
Qed.

Lemma wp_handle_get w0 n uri c :
  live w0 n c -> counters_ok (ts c) -> times_ok (tm c) -> log_fits w0 -> (room <= n)%nat ->
  servable (decide_get uri (fun f => stat f w0)) w0 n ->
  wp (handle_get fuel uri) (answered (decide_get uri (fun f => stat f w0)) w0 c) c.
Proof.
  intros Hl Hs Ht Hlf Hn. pose proof Hl as (_ & (_ & Hst & _) & _). pose proof (proj1 Hs) as Hfit. unfold handle_get, decide_get.
  destruct (has_str (lit ".cgi") uri); [destruct (cgi_target uri) as [f q]|set (f := static_target uri)];
    intros Hserv; apply wp_bind, wp_gets; rewrite Hst; (destruct (stat f w0) as [a|]; [|by apply (answered_error _ w0 n)]).
  - destruct (st_reg a), (st_xusr a); cbn [negb orb andb] in *; try (by apply (answered_error _ w0 n)). by apply (answered_cgi w0 n).
  - destruct (st_reg a), (st_rusr a); cbn [negb orb andb] in *; try (by apply (answered_error _ w0 n)). by apply (answered_static w0 n).
Qed.

Lemma wp_serve_action w0 n (fields : list text) a c :
  live w0 n c -> counters_ok (ts c) -> times_ok (tm c) -> log_fits w0 -> (room + length (logged w0) <= n)%nat ->
  decide_request fields (fun f => stat f w0) = Some a -> servable a w0 n ->
  wp (respond fuel fields) (answered a w0 c) c.
Proof.
  intros Hl Hs Ht Hlf Hn Hd Hserv. unfold respond. destruct fields as [|method rest]; [done|]. cbn [decide_request] in Hd.
  apply wp_bind. eapply wp_try_gets; [reflexivity|]. pose proof (proj1 Hs) as Hfit.
  destruct (strcasecmp_eq method (lit "GET")) eqn:Hg; cbn [negb andb].
  - assert (Hp : strcasecmp_eq method (lit "POST") = false).
    { unfold strcasecmp_eq in *. apply bool_decide_eq_true in Hg. apply bool_decide_eq_false. rewrite Hg. done. }
    rewrite Hp. destruct rest as [|uri rest]; [done|]. injection Hd as <-. apply wp_bind.
    eapply wp_try_gets; [reflexivity|]. apply (wp_handle_get w0 n); [done..|lia|done].
  - destruct (strcasecmp_eq method (lit "POST")) eqn:Hp; injection Hd as <-; cbn [negb].
    + apply wp_bind. apply (wp_bump _ (served PostLog (ts c))); [by apply bump_post_served|].
      apply (wp_serve_post w0 n); [done|by apply served_fit|done..|]. cbn [rio ts tm world].
      intros c' (Hh' & (Hlg & Hfs) & _) E1 E2 E3. split_and!; [done..|by rewrite app_nil_r|]. exists [].
      by rewrite app_nil_r, E3.
    + apply (answered_error _ w0 n); [done..|lia].
Qed.

(** The times [handle_request] starts from. *)
Definition dispatched (tm0 : time_stats) : time_stats :=
  {| task_arrival := task_arrival tm0; task_dispatch := task_dispatch tm0;
     log_enter := task_dispatch tm0; log_exit := task_dispatch tm0 |}.

Definition count_total (s : threads_stats) : threads_stats :=
  {| id := id s; total_req := total_req s + 1; stat_req := stat_req s; dynm_req := dynm_req s; post_req := post_req s |}.

Lemma bump_total_ok s : stats_ok s -> bump_total s = Some (count_total s) /\ counters_ok (count_total s).
Proof.
  unfold stats_ok, stats_fit, counters_ok, stats_below, bump_total. intros Hs. rewrite (int_ok_in (total_req s + 1)) by lia.
  split; [done|]. cbn. unfold stats_fit, stats_below. cbn. lia.
Qed.

Context (junk : bytes) (junk_size : Z.of_nat (length junk) = RIO_BUFSIZE).

Definition first_line (w : W) : bytes := line (Z.to_nat (MAXLINE - 1)) (input w).

Definition request_fields (w : W) : list text := words isspace (c_str (first_line w)).

(** A connection whose request can be read with the fuel. *)
Definition readable (c : conn) : Prop :=
  healthy (world c) /\ (noise (world c) + 2 < fuel)%nat /\ (length (input (world c)) < fuel)%nat.

(** The part before the decision: it depends on the first line only. *)
Lemma wp_read_request (Q : ended (option (list text)) -> conn -> Prop) c :
  readable c -> input (world c) <> [] -> stats_ok (ts c) ->
  (forall c', ready_at (world c) c' -> ts c' = count_total (ts c) -> tm c' = dispatched (tm c) ->
     output (world c') = output (world c) -> Q (Value (Some (request_fields (world c)))) c') ->
  wp (read_request fuel junk) Q c.
Proof.
  intros (Hh & Hf & Hlen) Hne Hs Hk. unfold read_request. apply wp_bind, wp_gets, wp_bind, wp_modify, wp_bind, wp_modify. cbn [rio ts tm world].
  destruct (readinitb_ok junk junk_size) as [Hok Hpend]. set (c1 := Conn (rio_readinitb junk) _ _ _).
  assert (Hr1 : ready_at (world c) c1).
  { split; [done|]. split; [|done]. split_and!; [done|apply same_view_refl|cbn; lia]. }
  assert (Hup : upcoming (H0 := framed (world c) (noise (world c))) (rio c1, world c1) = input (world c)).
  { unfold upcoming. cbn [fst snd c1 rio world]. by rewrite Hpend. }
  apply wp_andthen, (wp_read_line (world c)); [done|]. intros c2 Hr2 E1 E2 E3 up l Hu.
  assert (Hl : l = first_line (world c)) by (unfold l, up; by rewrite Hup).
  assert (Hln : l <> []) by (rewrite Hl; unfold first_line, MAXLINE; by apply line_nonempty).
  assert (Hmatch : match up with [] => (0, None) | _ => (line_result l, Some l) end = (line_result l, Some l)).
  { assert (Hup' : up = input (world c)) by done. rewrite Hup'. by destruct (input (world c)). }
  rewrite Hmatch. cbn iota.
  rewrite (proj2 (Z.leb_gt (line_result l) 0)).
  2:{ unfold line_result. destruct l; [done|]. destruct (ends_line _); cbn; lia. }
  apply wp_bind. eapply wp_try_gets; [reflexivity|]. apply wp_andthen.
  apply (wp_drain (world c)); [done| |].
  { assert (Hup' : up = input (world c)) by done. rewrite Hup' in Hu.
    apply (f_equal length) in Hu. rewrite length_app in Hu. lia. }
  intros c3 Hr3 F1 F2 F3. destruct (bump_total_ok (ts c) Hs) as [Hb Hc].
  apply wp_bind, (wp_bump _ (count_total (ts c))); [by rewrite F1, E1|].
  apply wp_ret. rewrite Hl. apply Hk; [done|done|by cbn; rewrite F2, E2|by cbn; rewrite F3, E3].
Qed.

(** What handling the connection [c] comes to. *)
Definition handled (a : action) (c : conn) (r : ended unit) (c' : conn) : Prop :=
  ts c' = counted a (ts c) /\
  logged (world c') = logged (world c) ++ (if logs a then append_stats [] (ts c') (dispatched (tm c)) else []) /\
  exists o, output (world c') = output (world c) ++
              response a (append_stats [] (ts c') (tm c')) (logged (world c)) (contents a (world c)) ++ o /\
            (is_cgi a = false -> r = Value tt /\ o = []).

Lemma wp_handle_request (n : nat) (a : action) (c : conn) :
  readable c -> input (world c) <> [] -> stats_ok (ts c) -> time_ok (task_arrival (tm c)) -> time_ok (task_dispatch (tm c)) ->
  log_fits (world c) -> (room + length (logged (world c)) <= n)%nat -> (noise (world c) + n < fuel)%nat ->
  decide_request (request_fields (world c)) (fun f => stat f (world c)) = Some a -> servable a (world c) n ->
  wp (handle_request fuel junk) (fun r c' =>
    handled a c r c' /\ retimed (dispatched (tm c)) (tm c') /\ healthy (world c') /\ same_files (world c) (world c')) c.
Proof.
  intros Hr Hne Hs Hta Htd Hlf Hn Hf Hd Hserv. unfold handle_request. apply wp_andthen.
  apply wp_read_request; [done..|]. intros c1 (Hok & (Hh1 & Hv1 & Hno) & _) E1 E2 E3. cbn [fst snd] in *.
  eapply wp_mono.
  - apply (wp_serve_action (world c) n _ a); [| | |exact Hlf|done..].
    + split_and!; [done..|lia].
    + rewrite E1. by apply bump_total_ok.
    + rewrite E2. by split_and!.
  - intros r c' (Hh' & Hfs & F1 & F2 & F3 & o & F4 & F5). rewrite E1 in F1. rewrite E2 in F2, F3. rewrite E3 in F4.
    split; [|done]. split_and!; [exact F1|exact F3|]. by exists o.
Qed.

(** C5: [handle_request] carries out the action its first line asks for: the
    counters, the log and the bytes sent are those of the specification; only
    a CGI program may add bytes of its own.  This holds when the first line
    has the fields it needs, a file asked for can be opened, read whole and
    closed, and the log and the counters have room. *)
Theorem handle_request_refines (n : nat) (a : action) (c : conn) :
  readable c -> input (world c) <> [] -> stats_ok (ts c) -> time_ok (task_arrival (tm c)) -> time_ok (task_dispatch (tm c)) ->
  log_fits (world c) -> (room + length (logged (world c)) <= n)%nat -> (noise (world c) + n < fuel)%nat ->
  decide_request (request_fields (world c)) (fun f => stat f (world c)) = Some a -> servable a (world c) n ->
  exists r c', handle_request fuel junk c = Ok (r, c') /\
    ts c' = counted a (ts c) /\
    logged (world c') = logged (world c) ++ (if logs a then append_stats [] (ts c') (dispatched (tm c)) else []) /\
    exists o, output (world c') = output (world c) ++
                response a (append_stats [] (ts c') (tm c')) (logged (world c)) (contents a (world c)) ++ o /\
              (is_cgi a = false -> r = Value tt /\ o = []).
Proof.
  intros Hr Hne Hs Hta Htd Hlf Hn Hf Hd Hserv.
  destruct (wp_run _ _ _ (wp_handle_request n a c Hr Hne Hs Hta Htd Hlf Hn Hf Hd Hserv)) as (r & c' & Hrun & Hh & _).
  by exists r, c'.
Qed.

End laws.

(** The statistics fit the buffer of [MAXLINE] bytes they are printed into,
    which holds the empty string before. *)
Theorem append_stats_bounded (s : threads_stats) (tm0 : time_stats) :
  stats_fit s -> times_ok tm0 -> Z.of_nat (length (append_stats [] s tm0)) < MAXLINE.
Proof. intros Hs Ht. pose proof (append_stats_length [] s tm0 Hs Ht). unfold MAXLINE. cbn in *. lia. Qed.

(** ** A concrete service *)

Record toy_web := ToyWeb { socket : toy_fd; wlog : bytes; wfiles : list (text * (file_stat * bytes)) }.

Definition on_socket {A} (f : toy_fd -> A * toy_fd) (w : toy_web) : A * toy_web :=
  let '(a, fd) := f (socket w) in (a, ToyWeb fd (wlog w) (wfiles w)).

#[export] Instance web_descriptor : Descriptor toy_web := {
  sys_read := fun n => on_socket (sys_read n);
  sys_write := fun bs => on_socket (sys_write bs);
  errno_eintr := fun w => errno_eintr (socket w);
}.

#[export, program] Instance web_descriptor_model : DescriptorModel toy_web := {
  input := fun w => input (socket w);
  output := fun w => output (socket w);
  noise := fun w => noise (socket w);
  healthy := fun w => healthy (socket w);
}.
Next Obligation.
  intros n w Hw Hn. cbn. unfold on_socket. pose proof (read_spec n (socket w) Hw Hn) as Hr. cbn in Hr.
  by destruct (toy_read n (socket w)) as [[bs|e] fd].
Qed.
Next Obligation.
  intros bs w Hw Hn. cbn. unfold on_socket. pose proof (write_spec bs (socket w) Hw Hn) as Hr. cbn in Hr.
  by destruct (toy_write bs (socket w)) as [[k|e] fd].
Qed.

Fixpoint look_up {A} (key : text) (l : list (text * A)) : option A :=
  match l with [] => None | (k, a) :: l' => if bool_decide (k = key) then Some a else look_up key l' end.

Definition toy_now : timeval := {| tv_sec := 7; tv_usec := 5 |}.

#[export] Instance web_service : Service toy_web := {
  stat := fun f w => fst <$> look_up f (wfiles w);
  malloc := fun n => if 0 <=? n then Some (repeat "000"%char (Z.to_nat n)) else None;
  fork_cgi := fun ch w => (42, w);
  wait_child := fun pid w => (pid, w);
}.

#[export] Instance web_log : LogCalls toy_web := {
  write_log := fun t w => ((toy_now, toy_now), ToyWeb (socket w) (wlog w ++ t) (wfiles w));
  read_log := fun w => ((wlog w, (toy_now, toy_now)), w);
}.

Definition file_of (bs : bytes) : toy_fd := ToyFd (match bs with [] => [] | b :: bs => [Some (b, bs)] end) [] 0.

#[export] Instance web_files : Files toy_web toy_fd := {
  open_file := fun f w => (fun a => file_of (snd a)) <$> look_up f (wfiles w);
  close_file := fun _ => 0;
}.

Lemma toy_now_ok : time_ok toy_now.
Proof. unfold time_ok. cbn. lia. Qed.

#[export, program] Instance web_model : ServiceModel (W := toy_web) (F := toy_fd) := { logged := wlog }.
Next Obligation. intros n w. unfold same_view. cbn. unfold on_socket. by destruct (toy_read n (socket w)). Qed.
Next Obligation. intros bs w. unfold same_view. cbn. unfold on_socket. by destruct (toy_write bs (socket w)). Qed.
Next Obligation.
  intros n bs. cbn. destruct (Z.leb_spec 0 n); [|done]. intros [= <-]. rewrite repeat_length. lia.
Qed.
Next Obligation. intros ch w Hw. cbn. do 2 (split; [done|]). exists []. by rewrite app_nil_r. Qed.
Next Obligation. intros pid w Hw. cbn. do 2 (split; [done|]). exists []. by rewrite app_nil_r. Qed.

#[export, program] Instance web_log_model : LogModel (W := toy_web) (F := toy_fd).
Next Obligation. intros t w Hw _. cbn. split_and!; try done; apply toy_now_ok. Qed.
Next Obligation. intros w Hw. cbn. split_and!; try done; apply toy_now_ok. Qed.

Definition web_junk : bytes := repeat "000"%char (Z.to_nat RIO_BUFSIZE).

(** A GET of a small file, in two pieces. *)
Definition get_request : toy_web :=
  ToyWeb (ToyFd [Some ("G"%char, lit "ET /a.ht"); None; Some ("m"%char, lit "l HTTP/1.0" ++ crlf ++ crlf)] [] 100) []
    [(lit "./public/a.html", (Build_file_stat true true false 2, lit "hi"))].

Definition zero_time : timeval := {| tv_sec := 0; tv_usec := 0 |}.

Definition first_worker : threads_stats := {| id := 1; total_req := 0; stat_req := 0; dynm_req := 0; post_req := 0 |}.

Definition web_conn (w : toy_web) : conn (W := toy_web) :=
  Conn (rio_readinitb web_junk) first_worker
    {| task_arrival := zero_time; task_dispatch := zero_time; log_enter := zero_time; log_exit := zero_time |} w.

Lemma handle_request_refines_witness :
  exists r c', handle_request (Z.to_nat 20000) web_junk (web_conn get_request) = Ok (r, c') /\
    ts c' = {| id := 1; total_req := 1; stat_req := 1; dynm_req := 0; post_req := 0 |}.
Proof.
  destruct (handle_request_refines (W := toy_web) (F := toy_fd) (Z.to_nat 20000) web_junk
    ltac:(vm_compute; reflexivity) (Z.to_nat 17000) (SendFile (lit "./public/a.html") 2) (web_conn get_request))
    as (r & c' & Hrun & Hts & _).
  - split; [exact I|]. cbn [world web_conn]. change (noise get_request) with 1%nat.
    assert (Hlen : length (input get_request) = 24%nat) by (vm_compute; reflexivity). rewrite Hlen. lia.
  - discriminate.
  - unfold stats_ok, stats_below. cbn. lia.
  - unfold time_ok. cbn. lia.
  - unfold time_ok. cbn. lia.
  - vm_compute. reflexivity.
  - change (logged (world (web_conn get_request))) with (@nil ascii). unfold room, MAXLINE. cbn [length]. lia.
  - change (noise (world (web_conn get_request))) with 1%nat. lia.
  - vm_compute. reflexivity.
  - exists (file_of (lit "hi")), (repeat "000"%char 2). split; [vm_compute; reflexivity|].
    split; [vm_compute; reflexivity|]. split; [discriminate|]. split; [exact I|]. split; [vm_compute; split; discriminate|].
    change (noise (file_of (lit "hi"))) with 0%nat. lia.
  - exists r, c'. split; [exact Hrun|exact Hts].
Defined.

Lemma append_stats_bounded_witness :
  Z.of_nat (length (append_stats [] first_worker
    {| task_arrival := toy_now; task_dispatch := toy_now; log_enter := toy_now; log_exit := toy_now |})) < 8192.
Proof.
  apply append_stats_bounded.
  - unfold stats_fit, stats_below. cbn. lia.
  - split_and!; apply toy_now_ok.
Defined.

(** A request line without an address: the array [uri] is read before
    anything was stored in it. *)
Theorem missing_uri_undefined :
  handle_request (F := toy_fd) 50 web_junk
    (web_conn (ToyWeb (ToyFd [Some ("G"%char, lit "ET" ++ crlf ++ crlf)] [] 100) [] [])) = Err UB.
Proof. vm_compute. reflexivity. Qed.

(** So is the array [method], on an empty line. *)
Theorem missing_method_undefined :
  handle_request (F := toy_fd) 50 web_junk
    (web_conn (ToyWeb (ToyFd [Some ("013"%char, ["010"%char])] [] 100) [] [])) = Err UB.
Proof. vm_compute. reflexivity. Qed.
