(* ===== verification/RequestOnce.v ===== *)
(** * [request.c]: a request uses the log once

    [handle_request], run on a service that counts the calls of [log_write]
    and [log_read], makes one of them at most.  What a request does to the
    shared state can therefore be taken to happen at that call. *)

From S2P Require Import Prelude ShellText Rio Request RequestProps.

(** ** A service that counts *)

Section counting.
Context {W F : Type} `{Descriptor W} `{Service W} `{LogCalls W} `{Files W F}.

Definition keeping {A} (f : W -> A * W) (w : W * nat) : A * (W * nat) := let '(a, w') := f (fst w) in (a, (w', snd w)).
Definition counted_call {A} (f : W -> A * W) (w : W * nat) : A * (W * nat) := let '(a, w') := f (fst w) in (a, (w', S (snd w))).

#[local] Instance counting_descriptor : Descriptor (W * nat) := {
  sys_read := fun n => keeping (sys_read n);
  sys_write := fun bs => keeping (sys_write bs);
  errno_eintr := fun w => errno_eintr (fst w);
}.

#[local] Instance counting_service : Service (W * nat) := {
  stat := fun f w => stat f (fst w);
  malloc := malloc (W := W);
  fork_cgi := fun ch => keeping (fork_cgi ch);
  wait_child := fun pid => keeping (wait_child pid);
}.

#[local] Instance counting_log : LogCalls (W * nat) := {
  write_log := fun t => counted_call (write_log t);
  read_log := counted_call read_log;
}.

#[local] Instance counting_files : Files (W * nat) F :=
  { open_file := fun f w => open_file f (fst w); close_file := close_file (W := W) }.

(** ** Code that does not call the log *)

Definition keeps {X A} (m : M (X * (W * nat)) A) : Prop :=
  forall s a s', m s = Ok (a, s') -> snd (snd s') = snd (snd s).

Lemma keeps_value {X A} (a : A) : keeps (X := X) (ret a).
Proof. by intros s a' s' [= _ <-]. Qed.
Lemma keeps_fail {X A} e : keeps (X := X) (A := A) (fail_with e).
Proof. by intros s a' s'. Qed.
Lemma keeps_bound {X A B} (m : M (X * (W * nat)) A) (f : A -> M (X * (W * nat)) B) :
  keeps m -> (forall a, keeps (f a)) -> keeps (bind m f).
Proof.
  intros Hm Hf s b s'. unfold bind. destruct (m s) as [[a s1]|] eqn:Hs; [|done]. intros Hr.
  rewrite (Hf a _ _ _ Hr). by apply (Hm _ _ _ Hs).
Qed.
Lemma keeps_gets {X A} (f : X * (W * nat) -> A) : keeps (gets f).
Proof. by intros s a s' [= _ <-]. Qed.
Lemma keeps_try_gets {X A} (f : X * (W * nat) -> option A) : keeps (try_gets f).
Proof. intros s a s'. unfold try_gets. destruct (f s); [|done]. by intros [= _ <-]. Qed.
Lemma keeps_set_rio {X} (f : X -> X) : keeps (set_rio f).
Proof. by intros s a s' [= _ <-]. Qed.
Lemma keeps_call {X A} (f : W -> A * W) : keeps (X := X) (Rio.call (keeping f)).
Proof.
  intros [x [w k]] a s'. unfold Rio.call, keeping. cbn. destruct (f w) as [b w']. by intros [= _ <-].
Qed.
Lemma keeps_iter {X I A} fuel (body : I -> M (X * (W * nat)) (I + A)) i :
  (forall i, keeps (body i)) -> keeps (iter fuel body i).
Proof.
  intros Hb. revert i. induction fuel as [|fuel IH]; intros i; [apply keeps_fail|]. cbn. apply keeps_bound; [done|].
  intros [j|a]; [done|apply keeps_value].
Qed.

(** Code is taken apart by its structure. *)
Ltac keep :=
  repeat first
    [ apply keeps_value | apply keeps_fail | apply keeps_gets | apply keeps_try_gets | apply keeps_set_rio | apply keeps_call
    | apply keeps_bound; [|intros ?] | apply keeps_iter; intros ? | progress case_match | assumption ].

Lemma keeps_readlineb fuel n : keeps (Rio_readlineb fuel n).
Proof. unfold Rio_readlineb, rio_readlineb, rio_read, refill. keep. Qed.

Lemma keeps_writen fuel bs : keeps (Rio_writen fuel bs).
Proof. unfold Rio_writen, rio_writen. keep. Qed.

(** ** Code that calls the log at most [k] times *)

Notation conn := (conn (W := (W * nat))).

Definition costs (k : nat) {A} (m : M conn A) : Prop :=
  forall c a c', m c = Ok (a, c') -> (snd (world c') <= snd (world c) + k)%nat.

Lemma costs_more k k' {A} (m : M conn A) : costs k m -> (k <= k')%nat -> costs k' m.
Proof. intros Hm Hk c a c' Hr. specialize (Hm c a c' Hr). lia. Qed.
Lemma costs_ret {A} (a : A) : costs 0 (ret a).
Proof. intros c a' c' [= _ <-]. lia. Qed.
Lemma costs_fail {A} e : costs 0 (fail_with (A := A) e).
Proof. by intros c a c'. Qed.
Lemma costs_bind k1 k2 {A B} (m : M conn A) (f : A -> M conn B) :
  costs k1 m -> (forall a, costs k2 (f a)) -> costs (k1 + k2) (bind m f).
Proof.
  intros Hm Hf c b c'. unfold bind. destruct (m c) as [[a c1]|] eqn:Hc; [|done]. intros Hr.
  specialize (Hm _ _ _ Hc). specialize (Hf _ _ _ _ Hr). lia.
Qed.
Lemma costs_andthen k1 k2 {A B} (m : M conn (ended A)) (f : A -> M conn (ended B)) :
  costs k1 m -> (forall a, costs k2 (f a)) -> costs (k1 + k2) (andthen m f).
Proof.
  intros Hm Hf. unfold andthen. apply costs_bind; [done|]. intros [a|]; [done|].
  eapply costs_more; [apply costs_ret|lia].
Qed.
Lemma costs_gets {A} (f : conn -> A) : costs 0 (gets f).
Proof. intros c a c' [= _ <-]. lia. Qed.
Lemma costs_try_gets {A} (f : conn -> option A) : costs 0 (try_gets f).
Proof. intros c a c'. unfold try_gets. destruct (f c); [|done]. intros [= _ <-]. lia. Qed.
Lemma costs_modify (f : conn -> conn) : (forall c, world (f c) = world c) -> costs 0 (modify f).
Proof. intros Hf c a c' [= _ <-]. rewrite Hf. lia. Qed.
Lemma costs_bump f : costs 0 (bump f).
Proof.
  intros c a c'. unfold bump, try_modify. destruct (f (ts c)); [|done]. intros [= _ <-]. cbn. lia.
Qed.
Lemma costs_iter {I A} fuel (body : I -> M conn (I + A)) i : (forall i, costs 0 (body i)) -> costs 0 (iter fuel body i).
Proof.
  intros Hb. revert i. induction fuel as [|fuel IH]; intros i; [apply costs_fail|]. cbn. apply (costs_bind 0 0); [done|].
  intros [j|a]; [done|apply costs_ret].
Qed.
Lemma costs_on_rio {A} (m : M (rio_t * (W * nat)) A) : keeps m -> costs 0 (on_rio m).
Proof.
  intros Hm c a c'. unfold on_rio. destruct (m _) as [[b [rp w]]|] eqn:Hr; [|done]. intros [= _ <-].
  specialize (Hm _ _ _ Hr). cbn in *. lia.
Qed.
Lemma costs_on_world {A} (m : M (unit * (W * nat)) A) : keeps m -> costs 0 (on_world m).
Proof.
  intros Hm c a c'. unfold on_world. destruct (m _) as [[b [[] w]]|] eqn:Hr; [|done]. intros [= _ <-].
  specialize (Hm _ _ _ Hr). cbn in *. lia.
Qed.
Lemma costs_on_file `{Descriptor F} {A} (m : M (unit * F) A) f : costs 0 (on_file m f).
Proof. intros c a c'. unfold on_file. destruct (m _) as [[b s]|]; [|done]. intros [= _ <-]. lia. Qed.
Lemma costs_service {A} (f : W -> A * W) : costs 1 (service (counted_call f)).
Proof.
  intros c a c'. unfold service, on_world, Rio.call, counted_call. cbn. destruct (f _) as [b w]. intros [= _ <-]. cbn. lia.
Qed.
Lemma costs_keeping {A} (f : W -> A * W) : costs 0 (service (keeping f)).
Proof. apply costs_on_world, keeps_call. Qed.

(** Free code is taken apart by its structure. *)
Ltac free :=
  repeat first
    [ apply costs_ret | apply costs_fail | apply costs_gets | apply costs_try_gets | apply costs_bump | apply costs_on_file
    | apply costs_keeping | apply costs_on_world, keeps_writen | apply costs_on_rio, keeps_readlineb
    | apply costs_modify; intros ?; reflexivity
    | apply (costs_bind 0 0); [|intros ?] | apply costs_iter; intros ? | progress case_match ].

Context `{Descriptor F} (fuel : nat) (junk : bytes).

Lemma free_send_error cause e sm lm : costs 0 (send_error fuel cause e sm lm).
Proof. unfold send_error, write_stats, stats_text, write. free. Qed.

Lemma free_serve_static f size : costs 0 (serve_static (F := F) fuel f size).
Proof. unfold serve_static, write_stats, stats_text, write, ask. free. Qed.

Lemma free_serve_dynamic f q : costs 0 (serve_dynamic fuel f q).
Proof. unfold serve_dynamic, write_stats, stats_text, write. free. Qed.

Lemma once_log_entry : costs 1 log_entry.
Proof.
  unfold log_entry, stats_text. apply (costs_bind 0 1); [free|intros entry]. apply (costs_bind 1 0); [apply costs_service|].
  intros t. unfold set_log_times. free.
Qed.

Lemma once_serve_post : costs 1 (serve_post fuel).
Proof.
  unfold serve_post. apply (costs_bind 1 0); [apply costs_service|]. intros [bs t].
  unfold send_log, set_log_times, write_stats, stats_text, write. free.
Qed.

Lemma once_handle_get uri : costs 1 (handle_get (F := F) fuel uri).
Proof.
  unfold handle_get. destruct (if has_str _ _ then _ else _) as [f q]. apply (costs_bind 0 1); [apply costs_gets|].
  intros [a|]; [|eapply costs_more; [apply free_send_error|lia]].
  destruct (has_str _ _), (_ || _); try (eapply costs_more; [apply free_send_error|lia]);
    (apply (costs_bind 0 1); [apply costs_bump|intros _]); (apply (costs_bind 1 0); [apply once_log_entry|intros _]);
    [apply free_serve_dynamic|apply free_serve_static].
Qed.

Lemma once_respond fields : costs 1 (respond (F := F) fuel fields).
Proof.
  unfold respond. apply (costs_bind 0 1); [apply costs_try_gets|]. intros m.
  destruct (_ && _); [eapply costs_more; [apply free_send_error|lia]|]. destruct (strcasecmp_eq _ _).
  - apply (costs_bind 0 1); [apply costs_bump|intros _; apply once_serve_post].
  - apply (costs_bind 0 1); [apply costs_try_gets|apply once_handle_get].
Qed.

Lemma free_read_request : costs 0 (read_request fuel junk).
Proof.
  unfold read_request. apply (costs_bind 0 0); [apply costs_gets|intros d]. apply (costs_bind 0 0); [unfold set_log_times; free|intros _].
  apply (costs_bind 0 0); [free|intros _]. apply (costs_andthen 0 0); [apply costs_on_rio, keeps_readlineb|].
  intros [rc line]. destruct (rc <=? 0); [apply costs_ret|].
  apply (costs_bind 0 0); [apply costs_try_gets|intros buf]. apply (costs_andthen 0 0); [unfold drain; free|intros _].
  apply (costs_bind 0 0); [apply costs_bump|intros _; apply costs_ret].
Qed.

(** C37: Whatever arrives on the connection, a call of [handle_request] that
    returns has called [log_write] and [log_read] at most once between them. *)
Theorem handle_request_logs_once (c c' : conn) r :
  handle_request (F := F) fuel junk c = Ok (r, c') -> (snd (world c') <= snd (world c) + 1)%nat.
Proof.
  revert c r c'. change (costs 1 (handle_request (F := F) fuel junk)). unfold handle_request.
  apply (costs_andthen 0 1); [apply free_read_request|]. intros [fields|]; [apply once_respond|].
  eapply costs_more; [apply costs_ret|lia].
Qed.

End counting.

(** The request of [RequestProps], on the service that counts. *)
Section witness.
#[local] Existing Instance counting_descriptor.
#[local] Existing Instance counting_service.
#[local] Existing Instance counting_log.
#[local] Existing Instance counting_files.

Definition counted_run :=
  handle_request (W := toy_web * nat) (F := toy_fd) (Z.to_nat 200) web_junk
    (Conn (rio_readinitb web_junk) first_worker (tm (web_conn get_request)) (get_request, 0%nat)).

Lemma handle_request_logs_once_witness : exists r c', counted_run = Ok (r, c') /\ (snd (world c') <= 1)%nat.
Proof.
  destruct counted_run as [[r c']|] eqn:Hrun; [|by vm_compute in Hrun]. exists r, c'. split; [reflexivity|].
  exact (handle_request_logs_once (Z.to_nat 200) web_junk _ c' r Hrun).
Defined.
End witness.
