(* ===== verification/RequestSplit.v ===== *)
(** * [request.c]: a request before and after its call of the log

    [handle_request] calls [log_write] or [log_read] once at most; cut at that
    call it is two pieces of code, which touch nothing but the connection and
    the files, and a step of the log between them.  [handle_request_split]
    says that they make up [handle_request]; the rules after it say what each
    piece does.  The server runs the pieces, with the threads of the log in
    between. *)

From S2P Require Import Prelude ShellText Rio Request RequestProps.

(** What is sent after an entry was written. *)
Inductive serving := Static (filename : text) (size : Z) | Dynamic (filename cgiargs : text).

(** The call of the log a request stops at. *)
Inductive pause := AtWrite (entry : text) (next : serving) | AtRead.

Section code.
Context {W F : Type} `{Descriptor W} `{Descriptor F} `{Service W} `{Files W F}.
Context (fuel : nat) (junk : bytes).

Notation conn := (conn (W := W)).
Notation R := (R (W := W)).

Definition get_until_log (uri : text) : R (option pause) :=
  let is_dynamic := has_str (lit ".cgi") uri in
  let '(filename, cgiargs) := if is_dynamic then cgi_target uri else (static_target uri, []) in
  let* sbuf := ask (stat filename) in
  match sbuf with
  | None =>
      send_error fuel filename (lit "404") (lit "Not found") (lit "OS-HW3 Server could not find this file") ;;! finish None
  | Some sbuf =>
      if is_dynamic then
        if negb (st_reg sbuf) || negb (st_xusr sbuf) then
          send_error fuel filename (lit "403") (lit "Forbidden") (lit "OS-HW3 Server could not run the CGI program") ;;!
          finish None
        else
          bump bump_dynamic ;;*
          let* entry := stats_text in
          finish (Some (AtWrite entry (Dynamic filename cgiargs)))
      else
        if negb (st_reg sbuf) || negb (st_rusr sbuf) then
          send_error fuel filename (lit "403") (lit "Forbidden") (lit "OS-HW3 Server could not read the file") ;;!
          finish None
        else
          bump bump_static ;;*
          let* entry := stats_text in
          finish (Some (AtWrite entry (Static filename (int32 (st_size sbuf)))))
  end.

Definition respond_until_log (fields : list text) : R (option pause) :=
  let* method := try_gets (fun _ => fields !! 0%nat) in
  if negb (strcasecmp_eq method (lit "GET")) && negb (strcasecmp_eq method (lit "POST")) then
    send_error fuel method (lit "501") (lit "Not Implemented") (lit "OS-HW3 Server does not implement this method") ;;!
    finish None
  else if strcasecmp_eq method (lit "POST") then
    bump bump_post ;;* finish (Some AtRead)
  else
    let* uri := try_gets (fun _ => fields !! 1%nat) in
    get_until_log uri.

Definition until_log : R (option pause) :=
  let! request := read_request fuel junk in
  match request with
  | None => finish None
  | Some fields => respond_until_log fields
  end.

(** The rest, given what the call of the log returned: the bytes read, and
    its times. *)
Definition after_log (p : pause) (r : bytes * (timeval * timeval)) : R unit :=
  set_log_times (snd r) ;;*
  match p with
  | AtWrite _ (Static filename size) => serve_static fuel filename size
  | AtWrite _ (Dynamic filename cgiargs) => serve_dynamic fuel filename cgiargs
  | AtRead => send_log fuel (fst r)
  end.

(** The call itself, on a service that has a log. *)
Definition call_log `{LogCalls W} (p : pause) : M conn (bytes * (timeval * timeval)) :=
  match p with
  | AtWrite entry _ => let* times := service (write_log entry) in ret ([], times)
  | AtRead => service read_log
  end.

(** ** The pieces make up the request *)

Lemma andthen_ext {S A B} (m : M S (ended A)) (f g : A -> M S (ended B)) s :
  (forall a s, f a s = g a s) -> andthen m f s = andthen m g s.
Proof. intros Hfg. unfold andthen, bind. destruct (m s) as [[[a|] s']|]; [apply Hfg|done|done]. Qed.

Lemma bind_ext {S A B} (m : M S A) (f g : A -> M S B) s :
  (forall a s, f a s = g a s) -> bind m f s = bind m g s.
Proof. intros Hfg. unfold bind. destruct (m s) as [[a s']|]; [apply Hfg|done]. Qed.

Lemma andthen_assoc {S A B C} (m : M S (ended A)) (f : A -> M S (ended B)) (g : B -> M S (ended C)) s :
  andthen (andthen m f) g s = andthen m (fun a => andthen (f a) g) s.
Proof. unfold andthen, bind. by destruct (m s) as [[[a|] s']|]. Qed.

Lemma andthen_bind {S A B C} (m : M S A) (f : A -> M S (ended B)) (g : B -> M S (ended C)) s :
  andthen (bind m f) g s = bind m (fun a => andthen (f a) g) s.
Proof. unfold andthen, bind. by destruct (m s) as [[a s']|]. Qed.

Context `{LogCalls W}.

Definition joined (p : option pause) : R unit :=
  match p with
  | None => finish tt
  | Some p => let* r := call_log p in after_log p r
  end.

Lemma joined_error cause e sm lm c :
  send_error fuel cause e sm lm c = andthen (send_error fuel cause e sm lm ;;! finish None) joined c.
Proof. unfold andthen, bind. by destruct (send_error fuel cause e sm lm c) as [[[[]|] c']|]. Qed.

(** The call of the log follows what was counted. *)
Lemma joined_write f next c :
  (bump f ;;* log_entry ;;* match next with Static n z => serve_static fuel n z | Dynamic n q => serve_dynamic fuel n q end) c =
  andthen (bump f ;;* (let* entry := stats_text in finish (Some (AtWrite entry next)))) joined c.
Proof.
  rewrite andthen_bind. apply bind_ext. intros _ c1. rewrite andthen_bind. unfold log_entry, bind, stats_text, gets. cbn.
  unfold bind. by destruct (service _ c1) as [[t c2]|], next.
Qed.

Lemma get_split uri c : handle_get fuel uri c = andthen (get_until_log uri) joined c.
Proof.
  unfold handle_get, get_until_log. destruct (if has_str _ _ then _ else _) as [filename cgiargs].
  rewrite andthen_bind. apply bind_ext. intros [sbuf|] c1; [|apply joined_error].
  destruct (has_str _ _), (_ || _); try apply joined_error.
  - by rewrite <- (joined_write _ (Dynamic filename cgiargs)).
  - by rewrite <- (joined_write _ (Static filename (int32 (st_size sbuf)))).
Qed.

Lemma respond_split fields c : respond fuel fields c = andthen (respond_until_log fields) joined c.
Proof.
  unfold respond, respond_until_log. rewrite andthen_bind. apply bind_ext. intros method c1.
  destruct (_ && _); [apply joined_error|]. destruct (strcasecmp_eq _ _); rewrite andthen_bind; apply bind_ext.
  - intros _ c2. unfold serve_post, andthen, bind. cbn. unfold bind. by destruct (service _ c2) as [[[bs t] c3]|].
  - intros uri c2. apply get_split.
Qed.

(** [handle_request] is its two pieces with the call of the log between
    them. *)
Theorem handle_request_split c : handle_request fuel junk c = andthen until_log joined c.
Proof.
  unfold handle_request, until_log. rewrite andthen_assoc. apply andthen_ext. intros [fields|] c'; [apply respond_split|done].
Qed.

End code.

(** ** What each piece does *)

(** The call an action makes, given the entry it writes. *)
Definition pause_of (a : action) (entry : text) : option pause :=
  match a with
  | SendFile filename size => Some (AtWrite entry (Static filename size))
  | RunCgi filename cgiargs => Some (AtWrite entry (Dynamic filename cgiargs))
  | PostLog => Some AtRead
  | _ => None
  end.

Section rules.
Context {W F : Type} `{DescriptorModel W} `{DescriptorModel F} `{!Service W} `{!Files W F} `{!ServiceModel (W := W) (F := F)}.
Context (fuel : nat).

Notation conn := (conn (W := W)).
Notation live := (live (F := F) fuel).

(** The connection [c] at its call of the log, or at the end of a request
    without one: it was counted, and the response to such a request was
    sent. *)
Definition stopped (a : action) (w0 : W) (n : nat) (s : threads_stats) (tm0 : time_stats) (out : bytes)
    (p : option pause) (c : conn) : Prop :=
  live w0 n c /\ ts c = s /\ tm c = tm0 /\ p = pause_of a (append_stats [] s tm0) /\
  output (world c) = out ++ match p with None => response a (append_stats [] s tm0) [] [] | Some _ => [] end.

Lemma stopped_error a w0 n cause e sm lm c :
  pause_of a [] = None -> (forall stats log file, response a stats log file = error_text cause e sm lm stats) ->
  live w0 n c -> stats_fit (ts c) -> times_ok (tm c) -> (room <= n)%nat ->
  wp (send_error fuel cause e sm lm ;;! finish None)
     (fun r c' => exists p, r = Value p /\ stopped a w0 n (ts c) (tm c) (output (world c)) p c') c.
Proof.
  intros Ha Hr Hl Hs Ht Hn. apply wp_andthen, (wp_send_error fuel w0 n); [done..|]. intros c' Hl' (E1 & E2 & E3).
  apply wp_ret. exists None. split; [done|]. split_and!; [done..| |by rewrite Hr, E3]. by destruct a.
Qed.

Lemma wp_get_until_log w0 n uri c :
  live w0 n c -> counters_ok (ts c) -> times_ok (tm c) -> (room <= n)%nat ->
  let a := decide_get uri (fun f => stat f w0) in
  wp (get_until_log fuel uri)
     (fun r c' => exists p, r = Value p /\ stopped a w0 n (served a (ts c)) (tm c) (output (world c)) p c') c.
Proof.
  intros Hl Hs Ht Hn. pose proof Hl as (_ & (_ & Hst & _) & _). pose proof (proj1 Hs) as Hfit. unfold get_until_log, decide_get.
  assert (Herr : forall a cause e sm lm, match a with PostLog | RunCgi _ _ | SendFile _ _ => False | _ => True end ->
    (forall stats log file, response a stats log file = error_text cause e sm lm stats) ->
    wp (send_error fuel cause e sm lm ;;! finish None)
       (fun r c' => exists p, r = Value p /\ stopped a w0 n (served a (ts c)) (tm c) (output (world c)) p c') c).
  { intros a cause e sm lm Ha Hr. rewrite served_none by done. apply stopped_error; [by destruct a|done..]. }
  destruct (has_str (lit ".cgi") uri); [destruct (cgi_target uri) as [f q]|set (f := static_target uri)];
    apply wp_bind, wp_gets; rewrite Hst; (destruct (stat f w0) as [at_|]; [|by apply Herr]).
  - destruct (st_reg at_), (st_xusr at_); cbn [negb orb andb]; try (by apply Herr). apply wp_bind.
    apply (wp_bump _ (served (RunCgi f q) (ts c))); [by apply bump_dynamic_served|]. apply wp_bind, wp_gets, wp_ret.
    eexists. split; [done|]. split_and!; [done..|]. by rewrite app_nil_r.
  - destruct (st_reg at_), (st_rusr at_); cbn [negb orb andb]; try (by apply Herr). apply wp_bind.
    apply (wp_bump _ (served (SendFile f (int32 (st_size at_))) (ts c))); [by apply bump_static_served|]. apply wp_bind, wp_gets, wp_ret.
    eexists. split; [done|]. split_and!; [done..|]. by rewrite app_nil_r.
Qed.

Lemma wp_respond_until_log w0 n fields a c :
  live w0 n c -> counters_ok (ts c) -> times_ok (tm c) -> (room <= n)%nat ->
  decide_request fields (fun f => stat f w0) = Some a ->
  wp (respond_until_log fuel fields)
     (fun r c' => exists p, r = Value p /\ stopped a w0 n (served a (ts c)) (tm c) (output (world c)) p c') c.
Proof.
  intros Hl Hs Ht Hn Hd. unfold respond_until_log. destruct fields as [|method rest]; [done|]. cbn [decide_request] in Hd.
  apply wp_bind. eapply wp_try_gets; [reflexivity|]. pose proof (proj1 Hs) as Hfit.
  destruct (strcasecmp_eq method (lit "GET")) eqn:Hg; cbn [negb andb].
  - assert (Hp : strcasecmp_eq method (lit "POST") = false).
    { unfold strcasecmp_eq in *. apply bool_decide_eq_true in Hg. apply bool_decide_eq_false. rewrite Hg. done. }
    rewrite Hp. destruct rest as [|uri rest]; [done|]. injection Hd as <-. apply wp_bind.
    eapply wp_try_gets; [reflexivity|]. by apply wp_get_until_log.
  - destruct (strcasecmp_eq method (lit "POST")) eqn:Hp; injection Hd as <-; cbn [negb].
    + apply wp_bind. apply (wp_bump _ (served PostLog (ts c))); [by apply bump_post_served|]. apply wp_ret.
      eexists. split; [done|]. split_and!; [done..|]. by rewrite app_nil_r.
    + rewrite served_none by done. by apply stopped_error.
Qed.

(** From the call on: the response is sent. *)
Definition finished (a : action) (w0 : W) (bs : bytes) (times : timeval * timeval) (c : conn) (r : ended unit) (c' : conn) : Prop :=
  healthy (world c') /\ same_view w0 (world c') /\ ts c' = ts c /\
  tm c' = {| task_arrival := task_arrival (tm c); task_dispatch := task_dispatch (tm c);
             log_enter := fst times; log_exit := snd times |} /\
  exists o, output (world c') = output (world c) ++ response a (append_stats [] (ts c) (tm c')) bs (contents a w0) ++ o /\
            (is_cgi a = false -> r = Value tt /\ o = []).

Lemma wp_after_log w0 n a entry p bs times c :
  live w0 n c -> stats_fit (ts c) -> times_ok (tm c) -> time_ok (fst times) -> time_ok (snd times) ->
  (room + length bs <= n)%nat -> servable fuel a w0 n -> pause_of a entry = Some p ->
  wp (after_log fuel p (bs, times)) (finished a w0 bs times c) c.
Proof.
  intros Hl Hs Ht Ht1 Ht2 Hn Hsv Hp. unfold after_log. apply wp_bind, wp_modify. cbn [fst snd].
  pose proof (set_log_times_ok times (tm c) Ht Ht1 Ht2) as Hok. set (c1 := Conn _ _ _ _).
  assert (Hl1 : live w0 n c1) by done.
  assert (Hend : forall c', live w0 n c' -> forall o, sent_on o c1 c' -> o = response a (append_stats [] (ts c) (tm c1)) bs (contents a w0) ->
    finished a w0 bs times c (Value tt) c').
  { intros c' (Hh' & Hv' & _) o (E1 & E2 & E3) Ho. split_and!; [done..|]. exists []. rewrite app_nil_r, E2, E3, Ho. done. }
  destruct a as [m| |f|f|f|f q|f size]; try discriminate Hp; injection Hp as <-.
  - apply (wp_send_log fuel w0 n); [done..|]. intros c' Hl' Hs'. by eapply Hend.
  - apply (wp_serve_dynamic fuel w0 n f q); [done..|lia|]. intros r c' o Hh' E1 E2 Hv' E3. split_and!; [done..|]. exists o.
    rewrite E2, E3. split; [|done]. done.
  - destruct Hsv as (fd & mem & Hop & Hmem & Hcl & Hfd & Hsize & Hsn & Hfl).
    apply (wp_serve_static fuel w0 n f size fd mem); [done..|lia|done|done|done|done|done|done|done|]. intros c' Hl' Hs'. eapply Hend; [done|done|].
    cbn [contents]. by rewrite Hop.
Qed.

Context (junk : bytes) (junk_size : Z.of_nat (length junk) = RIO_BUFSIZE).

(** Up to the call: the request is read, decided and counted. *)
Lemma wp_until_log n a c :
  readable fuel c -> input (world c) <> [] -> stats_ok (ts c) -> time_ok (task_arrival (tm c)) -> time_ok (task_dispatch (tm c)) ->
  (noise (world c) + n < fuel)%nat -> (room <= n)%nat ->
  decide_request (request_fields (world c)) (fun f => stat f (world c)) = Some a ->
  wp (until_log fuel junk)
     (fun r c' => exists p, r = Value p /\
        stopped a (world c) n (counted a (ts c)) (dispatched (tm c)) (output (world c)) p c') c.
Proof.
  intros Hr Hne Hs Ht1 Ht2 Hf Hn Ha. unfold until_log. apply wp_andthen, (wp_read_request fuel junk junk_size); [done..|].
  intros c1 (Hp1 & (Hh1 & Hv1 & Hn1) & Hr1) E1 E2 E3. cbn in Hh1, Hv1, Hn1.
  destruct (bump_total_ok (ts c) Hs) as [_ Hc].
  eapply wp_mono; [apply (wp_respond_until_log (world c) n _ a); [|by rewrite E1| |done|done]|].
  - split_and!; [done..|lia].
  - rewrite E2. by split_and!.
  - intros r c' (p & -> & Hst). exists p. split; [done|]. by rewrite E1, E2, E3 in Hst.
Qed.

End rules.
