(* ===== verification/Backend.v ===== *)
(** * What the workers share besides the log

    A worker handles a connection of its own; the files, the memory and the
    processes are shared.  [Environment] has the operations on the shared
    part, [EnvironmentModel] their laws; together with one descriptor they are
    the service [Request] is written against, so what [RequestSplit] proves of
    the pieces of a request holds for every worker.  The log, which the
    workers share too, is not a part of it: [Server] runs it. *)

From S2P Require Import Prelude ShellText Rio Request RequestProps.

(** The shared state [E]; [D] is a connection, [F] an open file.  The child
    that runs a CGI program writes to the connection. *)
Class Environment (E D F : Type) := {
  e_stat : text -> E -> option file_stat;
  e_open : text -> E -> option F;
  e_close : F -> Z;
  e_malloc : Z -> option bytes;
  e_fork_cgi : cgi -> D * E -> Z * (D * E);
  e_wait_child : Z -> D * E -> Z * (D * E);
}.

Definition on_fst {D E A} (f : D -> A * D) (w : D * E) : A * (D * E) := let '(a, d) := f (fst w) in (a, (d, snd w)).

Section service.
Context {E D F : Type} `{Descriptor D} `{Environment E D F}.

#[export] Instance joined_descriptor : Descriptor (D * E) := {
  sys_read := fun n => on_fst (sys_read n);
  sys_write := fun bs => on_fst (sys_write bs);
  errno_eintr := fun w => errno_eintr (fst w);
}.

#[export] Instance joined_service : Service (D * E) := {
  stat := fun f w => e_stat (D := D) (F := F) f (snd w);
  malloc := e_malloc (E := E) (D := D) (F := F);
  fork_cgi := e_fork_cgi (F := F);
  wait_child := e_wait_child (F := F);
}.

#[export] Instance joined_files : Files (D * E) F := {
  open_file := fun f w => e_open (D := D) f (snd w);
  close_file := e_close (E := E) (D := D);
}.

End service.

(** The laws: the files stay as they are, and a child leaves the connection
    working, with more written to it at most. *)
Class EnvironmentModel (E D F : Type) `{DescriptorModel D} `{!Environment E D F} := {
  e_files : E -> E -> Prop := fun e e' =>
    (forall f, e_stat (D := D) (F := F) f e' = e_stat (D := D) (F := F) f e) /\
    (forall f, e_open (D := D) (F := F) f e' = e_open (D := D) (F := F) f e);
  e_malloc_spec : forall n bs, e_malloc (E := E) (D := D) (F := F) n = Some bs -> Z.of_nat (length bs) = n;
  e_fork_spec : forall ch d e, healthy d ->
    let '(pid, (d', e')) := e_fork_cgi (F := F) ch (d, e) in healthy d' /\ e_files e e' /\ exists o, output d' = output d ++ o;
  e_wait_spec : forall pid d e, healthy d ->
    let '(r, (d', e')) := e_wait_child (F := F) pid (d, e) in healthy d' /\ e_files e e' /\ exists o, output d' = output d ++ o;
}.

Section model.
Context {E D F : Type} `{DescriptorModel D} `{DescriptorModel F} `{!Environment E D F} `{!EnvironmentModel E D F}.

#[export, program] Instance joined_model : DescriptorModel (D * E) := {
  input := fun w => input (fst w);
  output := fun w => output (fst w);
  noise := fun w => noise (fst w);
  healthy := fun w => healthy (fst w);
}.
Next Obligation.
  intros n [d e] Hd Hn. cbn. unfold on_fst. cbn. pose proof (read_spec n d Hd Hn) as Hr.
  by destruct (sys_read n d) as [[bs|er] d'].
Qed.
Next Obligation.
  intros bs [d e] Hd Hn. cbn. unfold on_fst. cbn. pose proof (write_spec bs d Hd Hn) as Hr.
  by destruct (sys_write bs d) as [[k|er] d'].
Qed.

#[export, program] Instance joined_service_model : ServiceModel (W := D * E) (F := F) := { logged := fun _ => [] }.
Next Obligation. intros n [d e]. cbn. unfold on_fst. cbn. by destruct (sys_read n d). Qed.
Next Obligation. intros bs [d e]. cbn. unfold on_fst. cbn. by destruct (sys_write bs d). Qed.
Next Obligation. intros n bs Hb. by apply e_malloc_spec. Qed.
Next Obligation.
  intros ch [d e] Hd. pose proof (e_fork_spec ch d e Hd) as Hf. cbn. destruct (e_fork_cgi ch (d, e)) as [pid [d' e']].
  by destruct Hf as (Hd' & (Hst & Hop) & Ho).
Qed.
Next Obligation.
  intros pid [d e] Hd. pose proof (e_wait_spec pid d e Hd) as Hf. cbn. destruct (e_wait_child pid (d, e)) as [r [d' e']].
  by destruct Hf as (Hd' & (Hst & Hop) & Ho).
Qed.

Lemma e_files_refl (e : E) : e_files e e.
Proof. by split. Qed.

Lemma e_files_trans (e1 e2 e3 : E) : e_files e1 e2 -> e_files e2 e3 -> e_files e1 e3.
Proof. intros [E1 E2] [E3 E4]. split; intros f; [by rewrite E3|by rewrite E4]. Qed.

(** The environment of a connection seen as a view of its world. *)
Lemma same_view_files d d' (e e' : E) : same_view (W := D * E) (F := F) (d, e) (d', e') <-> e_files e e'.
Proof. split; [by intros (_ & Hst & Hop)|]. by intros [Hst Hop]. Qed.

End model.
