(* ===== verification/LogService.v ===== *)
(** * [log.c]: calls that nobody disturbs

    A call of [log_write] or [log_read] that no other thread disturbs comes to
    its end, having appended to the log or copied it. *)

From Stdlib Require Import Ascii.
From S2P Require Import Prelude Monitor ServerLog LogBuffer LogProps Request RequestProps.

Section calls.
Context {junk : Z -> list ascii} `{!FreshMemory junk}.

Notation body := (ServerLog.body junk).
Notation instr := (Monitor.instr server_log locals cond event).
Notation log_run := (Monitor.run body no_locals).

(** Nobody is inside the lock, and the buffer holds [log]. *)
Record quiet (s : server_log) (log : list ascii) : Prop := {
  q_readers : readers_active s = 0;
  q_active : writers_active s = 0;
  q_waiting : writers_waiting s = 0;
  q_holds : holds s log;
}.

Lemma log_init_quiet s : log_init junk = Some s -> quiet s [].
Proof.
  unfold log_init. intros Hs. pose proof (fresh_length LOG_INIT_CAP ltac:(done)) as Hlen.
  destruct (junk LOG_INIT_CAP) as [|b rest] eqn:Hj; [done|]. replace (b :: rest) with ([] ++ [b] ++ rest) in Hs by done.
  change 0 with (Z.of_nat (length (@nil ascii))) in Hs at 1. rewrite splice_app in Hs by done. cbn [mbind option_bind] in Hs.
  injection Hs as <-. split; [done..|]. split; cbn; [cbn in Hlen; lia|done|by exists rest].
Qed.

(** The four statements that append an entry. *)
Lemma append_alone entry l s log :
  holds s log -> Z.of_nat (length log + length entry) < log_limit ->
  exists s', alone (CV := cond) (Ev := event) [Act (ensure junk entry); Act (copy_entry entry); Act (add_len entry); Act (terminate entry)] l s = Some (l, s') /\
    holds s' (log ++ entry) /\ counters s' = counters s.
Proof.
  intros Hh Hlim. unfold log_limit in Hlim.
  assert (He : elen entry = Z.of_nat (length entry)) by (unfold elen; apply int32_small; lia).
  pose proof (h_len _ _ Hh) as Hn. pose proof (h_capacity _ _ Hh) as Hc. destruct (h_data _ _ Hh) as [rest Hd].
  assert (Hcap : 1 <= capacity s) by (rewrite <- Hc, Hd, length_app; cbn [length]; lia).
  destruct (grow_total 31 entry s log Hh) as [s1 Hg]; [lia|lia|cbn; lia|].
  destruct (grow_holds _ _ _ _ _ Hg Hh) as [Hh1 Hroom]. destruct (grow_counters _ _ _ _ Hg) as [Hcnt Hlen1].
  destruct (h_data _ _ Hh1) as [rest1 Hd1]. pose proof (h_capacity _ _ Hh1) as Hc1. rewrite Hd1, length_app in Hc1. cbn [length] in Hc1.
  assert (Hst : stored entry = entry) by (apply stored_small; lia).
  cbn [alone]. unfold ensure. rewrite Hg. cbn [mbind option_bind]. unfold copy_entry. rewrite (proj2 (Z.leb_le _ _)) by lia.
  assert (Hcopy : exists b rest2, splice (data s1) (len s1) (stored entry) = Some (log ++ entry ++ b :: rest2) /\
                    Z.of_nat (length (log ++ entry ++ b :: rest2)) = capacity s1).
  { rewrite Hst, Hlen1, Hn, Hd1. rewrite <- (take_drop (length entry) (ServerLog.NUL :: rest1)).
    rewrite splice_app by (rewrite length_take; cbn [length]; lia).
    destruct (drop (length entry) (ServerLog.NUL :: rest1)) as [|b rest2] eqn:Hdr; apply (f_equal length) in Hdr;
      rewrite length_drop in Hdr; cbn [length] in Hdr; [lia|].
    exists b, rest2. split; [done|]. rewrite !length_app. cbn [length]. lia. }
  destruct Hcopy as (b & rest2 & -> & Hlen2). cbn [mbind option_bind]. unfold add_len. cbn [with_data len]. rewrite int_ok_in by lia.
  cbn [mbind option_bind]. unfold terminate. cbn [with_len with_data data len].
  replace (log ++ entry ++ b :: rest2) with ((log ++ entry) ++ [b] ++ rest2) by by rewrite <- app_assoc.
  replace (len s1 + elen entry) with (Z.of_nat (length (log ++ entry))) by (rewrite length_app; lia).
  rewrite splice_app by done. cbn [mbind option_bind]. eexists. split; [done|]. split; [|done]. split; cbn.
  - rewrite <- Hlen2, !length_app. cbn [length]. lia.
  - done.
  - by exists rest2.
Qed.

Lemma alone_app (b1 b2 : list instr) l s :
  alone (b1 ++ b2) l s = ('(l', s') ← alone b1 l s; alone b2 l' s').
Proof.
  revert l s. induction b1 as [|i b1 IH]; intros l s; [done|]. cbn. destruct i as [| |c cv|f|f]; try apply IH.
  - destruct (c s); [done|apply IH].
  - destruct (f l s) as [[[l1 s1] e]|]; [apply IH|done].
Qed.

(** The lock, when nobody else is about. *)
Definition with_counters (s : server_log) (r a w : Z) : server_log := Log (data s) (len s) (capacity s) r a w.

Lemma alone_write_lock l s :
  counters s = (0, 0, 0) -> alone (Ev := event) rw_write_lock l s = Some (l, with_counters s 0 1 0).
Proof. destruct s. unfold counters. cbn. by intros [= -> -> ->]. Qed.

Lemma alone_write_unlock l s :
  counters s = (0, 1, 0) -> alone (Ev := event) rw_write_unlock l s = Some (l, with_counters s 0 0 0).
Proof. destruct s. unfold counters. cbn. by intros [= -> -> ->]. Qed.

Lemma alone_read_lock l s :
  counters s = (0, 0, 0) -> alone (Ev := event) rw_read_lock l s = Some (l, with_counters s 1 0 0).
Proof. destruct s. unfold counters. cbn. by intros [= -> -> ->]. Qed.

Lemma alone_read_unlock l s :
  counters s = (1, 0, 0) -> alone (Ev := event) rw_read_unlock l s = Some (l, with_counters s 0 0 0).
Proof. destruct s. unfold counters. cbn. by intros [= -> -> ->]. Qed.

Lemma holds_counters s r a w log : holds s log -> holds (with_counters s r a w) log.
Proof. intros Hh. by eapply holds_same; [|exact Hh]. Qed.

Lemma quiet_counters s log : quiet s log -> counters s = (0, 0, 0).
Proof. intros [Hr Ha Hw _]. unfold counters. by rewrite Hr, Ha, Hw. Qed.

Lemma quiet_intro s log : holds s log -> quiet (with_counters s 0 0 0) log.
Proof. intros Hh. split; [done..|]. by apply holds_counters. Qed.

Lemma write_alone entry l s log :
  quiet s log -> Z.of_nat (length log + length entry) < log_limit ->
  exists s', alone (body (Write entry)) l s = Some (l, s') /\ quiet s' (log ++ entry).
Proof.
  intros Hq Hlim. cbn [ServerLog.body]. unfold log_write.
  rewrite alone_app, (alone_write_lock _ _ (quiet_counters _ _ Hq)). cbn [mbind option_bind]. rewrite alone_app.
  destruct (append_alone entry l (with_counters s 0 1 0) log) as (s1 & -> & Hh & Hc); [by apply holds_counters, q_holds|done|].
  cbn [mbind option_bind]. rewrite alone_write_unlock by done. eexists. split; [done|]. by apply quiet_intro.
Qed.

(** The reader returns the bytes before the NUL it copies as well. *)
Lemma read_alone l s log :
  quiet s log -> Z.of_nat (length log) < log_limit ->
  exists s', alone (body Read) l s = Some (Locals (len s) (log ++ [ServerLog.NUL]), s') /\ quiet s' log.
Proof.
  intros Hq Hlim. unfold log_limit in Hlim. cbn [ServerLog.body]. unfold log_read.
  rewrite alone_app, (alone_read_lock _ _ (quiet_counters _ _ Hq)). cbn [mbind option_bind]. rewrite alone_app.
  pose proof (q_holds _ _ Hq) as Hh. pose proof (h_len _ _ Hh) as Hn. destruct (h_data _ _ Hh) as [rest Hd].
  assert (Hcopy : alone (Ev := event) (CV := cond) [Act load_len; Act copy_out] l (with_counters s 1 0 0) =
    Some (Locals (len s) (log ++ [ServerLog.NUL]), with_counters s 1 0 0)).
  { cbn [alone]. unfold load_len, copy_out. cbn [mbind option_bind rlen with_counters len data]. rewrite int_ok_in by lia.
    cbn [mbind option_bind]. rewrite Hd, length_app. cbn [length].
    rewrite (proj2 (Z.leb_le _ _)), (proj2 (Z.leb_le _ _)) by lia. cbn [andb mbind option_bind]. do 3 f_equal.
    rewrite Hn. replace (Z.to_nat (Z.of_nat (length log) + 1)) with (length log + 1)%nat by lia. by rewrite take_app_add. }
  rewrite Hcopy. cbn [mbind option_bind]. rewrite alone_read_unlock by done. eexists. split; [done|].
  by apply (quiet_intro (with_counters s 1 0 0)), holds_counters.
Qed.

(** C38: A call of [log_write] or [log_read] that no other thread disturbs
    comes to its end: from a log nobody is at, with room for it, there is a
    run in which thread [i] makes the call and returns, the mutex is free
    again, and the log holds the entry behind what it held, or the reader has
    a copy of the log. *)
Theorem log_calls_complete s log i ths th :
  quiet s log -> Z.of_nat (length log) < log_limit ->
  ths !! i = Some th -> Forall idle ths ->
  (forall entry, Z.of_nat (length log + length entry) < log_limit ->
     exists tr s' v, log_run (Config s None ths) tr (Config s' None (<[i := Thread None 0 v Running]> ths)) /\
       quiet s' (log ++ entry)) /\
  exists tr s' v, log_run (Config s None ths) tr (Config s' None (<[i := Thread None 0 v Running]> ths)) /\
    quiet s' log /\ out_buf v = log ++ [ServerLog.NUL] /\ rlen v = Z.of_nat (length log).
Proof.
  intros Hq Hlim Hi Hidle. rewrite Forall_forall in Hidle.
  assert (Hawake : forall th, th ∈ ths -> forall cv, Monitor.stat th <> Waiting cv).
  { intros t Ht cv. destruct (Hidle t Ht) as [_ ->]. done. }
  destruct (Hidle th (list_elem_of_lookup_2 _ _ _ Hi)) as [Hop _]. split.
  - intros entry Hroom. destruct (write_alone entry (no_locals (Write entry)) s log Hq Hroom) as (s' & Ha & Hq').
    destruct (alone_runs body no_locals log_body_locked (Write entry) i ths th s _ s' Hi Hop Hawake Ha) as [tr Hrun].
    by eexists tr, s', _.
  - destruct (read_alone (no_locals Read) s log Hq Hlim) as (s' & Ha & Hq').
    destruct (alone_runs body no_locals log_body_locked Read i ths th s _ s' Hi Hop Hawake Ha) as [tr Hrun].
    eexists tr, s', _. split; [exact Hrun|]. split_and!; [done..|]. cbn. apply (h_len _ _ (q_holds _ _ Hq)).
Qed.

End calls.

(** A log just made, three threads that have not begun, an entry of two bytes. *)
Lemma log_calls_complete_witness :
  exists tr s' v,
    Monitor.run (ServerLog.body toy_junk) no_locals toy_start tr
      (Config s' None (<[0%nat := Thread None 0 v Running]> (threads toy_start))) /\ quiet s' ["a"; "b"]%char.
Proof.
  destruct (log_calls_complete (junk := toy_junk) toy_log [] 0 (threads toy_start) (Thread None 0 (Locals 0 []) Running))
    as [Hw _]; [exact (log_init_quiet _ toy_log_init)|done|done| |].
  - apply Forall_forall. intros th Hth. apply list_elem_of_In in Hth. cbn in Hth. destruct Hth as [<-|[<-|[<-|[]]]]; done.
  - exact (Hw ["a"; "b"]%char ltac:(done)).
Defined.
