(* ===== verification/Client.v ===== *)
(** * [multithreaded-web-server/client.c] and [output.c]

    The client: it sends one request over a connection and prints what comes
    back.  [output.c] is the program the server's dynamic requests run. *)

From S2P Require Import Prelude ShellText Rio Segel Request.

Definition MAXBUF : Z := 8192.

(** [strncasecmp(buf, "Content-Length: ", 16) == 0] *)
Definition is_length_header (buf : text) : bool :=
  bool_decide (lower <$> take 16 buf = lower <$> lit "Content-Length: ").

Definition request_text (method filename hostname : text) : text :=
  snprintf MAXBUF (method ++ lit " /" ++ filename ++ lit " HTTP/1.1" ++ crlf ++ lit "host: " ++ hostname ++ crlf ++ crlf).

Section code.
Context {W : Type} `{Descriptor W}.
Context (fuel : nat).

(** The bytes [rio_buf] holds on the stack before it is filled. *)
Context (junk : bytes).

(** The process: its buffer, what it printed, and the rest. *)
Record client := Client { c_rio : rio_t; c_out : text; c_world : W }.

Definition with_rio {A} (m : M (rio_t * W) A) : M client A := fun c =>
  match m (c_rio c, c_world c) with
  | Ok (a, (rp, w)) => Ok (a, Client rp (c_out c) w)
  | Err e => Err e
  end.

Definition with_world {A} (m : M W A) : M client A := fun c =>
  match m (c_world c) with
  | Ok (a, w) => Ok (a, Client (c_rio c) (c_out c) w)
  | Err e => Err e
  end.

Definition printf (s : text) : M client unit := modify (fun c => Client (c_rio c) (c_out c ++ s) (c_world c)).

Definition set_client_rio (rp : rio_t) : M client unit := modify (fun c => Client rp (c_out c) (c_world c)).

(** [if (strncasecmp(...) == 0) length = atoi(buf + 16);] *)
Definition header_length (buf : text) (length : Z) : option Z :=
  if is_length_header buf then atoi (drop 16 buf) else Some length.

(** The loop over the header lines; a call that reads nothing leaves the line
    before it in the buffer. *)
Definition read_headers (buf : text) (n : Z) : M client (ended Z) :=
  iter fuel (fun '(buf, n, length) =>
    if negb (bool_decide (c_str buf = crlf)) && (0 <? n) then
      printf (lit "Header: " ++ c_str buf) ;;*
      let* length := try_gets (fun _ => header_length (c_str buf) length) in
      let* r := with_rio (Rio_readlineb fuel MAXBUF) in
      match r with
      | Exited => ret (inr Exited)
      | Value (n, line) => ret (inl (default buf line, n, length))
      end
    else ret (inr (Value length))) (buf, n, 0).

(** [buf[n] = '\0'] is out of bounds when the buffer is full. *)
Definition print_body (length : Z) : M client (ended unit) :=
  iter fuel (fun remaining =>
    if 0 <? remaining then
      let chunk := if remaining <? MAXBUF then remaining else MAXBUF in
      let* r := with_rio (Rio_readnb fuel chunk) in
      match r with
      | Exited => ret (inr Exited)
      | Value bs =>
          let n := Z.of_nat (List.length bs) in
          if n <=? 0 then ret (inr (Value tt))
          else if MAXBUF <=? n then fail_with UB
          else printf (c_str bs) ;;* ret (inl (remaining - n))
      end
    else ret (inr (Value tt))) length.

(** Comparing the buffer before anything was stored in it is undefined. *)
Definition print_headers : M client (ended Z) :=
  set_client_rio (rio_readinitb junk) ;;*
  let! first := with_rio (Rio_readlineb fuel MAXBUF) in
  let* buf := try_gets (fun _ => snd first) in
  let! length := read_headers buf (fst first) in
  printf (lit "Length = " ++ show length ++ ["010"%char]) ;;*
  finish length.

Definition print_response : M client (ended unit) :=
  let! length := print_headers in print_body length.

(** [Rio_writen(fd, req, strlen(req))] *)
Definition send_request (req : text) : M client (ended unit) := fun c =>
  match Rio_writen fuel req (tt, c_world c) with
  | Ok (r, (_, w)) => Ok (r, Client (c_rio c) (c_out c) w)
  | Err e => Err e
  end.

Definition main `{Errors W} `{Sockets W} `{FileCalls W} (argv : list text) : M client (ended unit) :=
  match argv with
  | [_; hostname; port; filename; method] =>
      let* port := try_gets (fun _ => atoi port) in
      let! hp := with_world (Gethostbyname hostname) in
      let sa := {| sin_family := AF_INET; sin_port := htons (ushort port); s_addr := hp |} in
      let! fd := with_world Socket in
      with_world (Connect fd sa) ;;!
      printf (lit "Connected to server. clientfd = " ++ show fd ++ ["010"%char]) ;;*
      let req := request_text method filename hostname in
      printf (lit "Request:" ++ ["010"%char] ++ req ++ ["010"%char]) ;;*
      send_request req ;;!
      print_response ;;!
      with_world (Close fd) ;;!
      finish tt
  | _ =>
      with_world (modify (put_err (lit "Usage: " ++ default [] (head argv) ++
        lit " <hostname> <port> <filename> <method>" ++ ["010"%char]))) ;;*
      ret Exited
  end.

End code.

Arguments client : clear implicits.

(** ** [output.c] *)

(** The seconds it sleeps, and what it prints; [qs] is the variable
    [QUERY_STRING]. *)
Definition cgi_secs (qs : option text) : option Z :=
  match qs with
  | None => Some 0
  | Some qs =>
      match find_str (lit "sleep=") qs with
      | Some p => atoi (drop (p + 6) qs)
      | None => Some 0
      end
  end.

Definition cgi_output (secs : Z) : text :=
  lit "Content-Type: text/html" ++ crlf ++ crlf ++
  lit "<html><body><h1>CGI Output</h1>" ++
  lit "<p>Slept " ++ show secs ++ lit " seconds.</p></body></html>" ++ crlf.

(** [sleep(secs)] is called for positive numbers only. *)
Definition cgi_main (qs : option text) : option (option Z * text) :=
  secs ← cgi_secs qs; Some (if 0 <? secs then Some secs else None, cgi_output secs).
