(* ===== verification/ClientProps.v ===== *)
(** * The client and the server together

    What the client prints of a response, and the whole exchange: the request
    the client sends is the one the server answers, and the answer is what the
    client prints. *)

From stdpp Require Import pretty.
From S2P Require Import Prelude ShellText Rio Segel Request RequestProps Client.

(** ** Header lines *)

(** Characters that neither end a line nor a C string. *)
Definition plain (c : ascii) : bool := negb (Ascii.eqb c newline) && negb (Ascii.eqb c NUL).

(** A line read into the client's buffer. *)
Definition line_max : nat := Z.to_nat (MAXBUF - 1).

(** Lines the client reads whole: at most [MAXBUF - 1] characters, ended by
    CR LF, and not the empty line. *)
Definition header_ok (l : text) : Prop :=
  exists l0, l = l0 ++ crlf /\ l0 <> [] /\ forallb plain l0 = true /\ Z.of_nat (length l0) < MAXBUF - 2.

(** What the loop over the headers computes. *)
Definition announced (hs : list text) (length : Z) : option Z :=
  foldl (fun n l => n ← n; header_length l n) (Some length) hs.

Definition headers_printed (hs : list text) : text := concat ((fun l => lit "Header: " ++ l) <$> hs).

Lemma line_end k l0 s :
  forallb plain l0 = true -> (length l0 < k)%nat -> line k (l0 ++ newline :: s) = l0 ++ [newline].
Proof.
  revert k. induction l0 as [|c l0 IH]; intros k Hp Hk; destruct k as [|k]; cbn in *; try lia; [done|].
  apply andb_true_iff in Hp as [Hc Hp]. apply andb_true_iff in Hc as [Hc%negb_true_iff _].
  rewrite Hc. by rewrite IH by (done || lia).
Qed.

Lemma c_str_plain l : forallb plain l = true -> forall t, c_str (l ++ t) = l ++ c_str t.
Proof.
  unfold c_str. induction l as [|c l IH]; cbn; [done|]. intros [[_ Hc]%andb_true_iff Hl]%andb_true_iff t.
  rewrite Hc. by rewrite IH.
Qed.

Lemma header_line l s : header_ok l -> line line_max (l ++ s) = l.
Proof.
  intros (l0 & -> & _ & Hp & Hlen). change crlf with (["013"%char] ++ [newline]).
  rewrite !app_assoc, <- app_assoc. apply (line_end line_max (l0 ++ ["013"%char])).
  - by rewrite forallb_app, Hp.
  - rewrite length_app. unfold line_max, MAXBUF in *. cbn [length]. lia.
Qed.

Lemma crlf_line s : line line_max (crlf ++ s) = crlf.
Proof. change crlf with (["013"%char] ++ [newline]). rewrite <- app_assoc. apply line_end; [done|unfold line_max, MAXBUF; cbn; lia]. Qed.

Lemma header_c_str l : header_ok l -> c_str l = l /\ l <> crlf /\ l <> [] /\ line_result l = Z.of_nat (length l).
Proof.
  intros (l0 & -> & Hne & Hp & _). split_and!.
  - by rewrite c_str_plain.
  - intros Heq. apply (f_equal length) in Heq. rewrite length_app in Heq. destruct l0; [done|]. cbn in Heq. lia.
  - by destruct l0.
  - unfold line_result. change crlf with (["013"%char] ++ [newline]). rewrite app_assoc, ends_line_snoc. cbn. lia.
Qed.

Lemma announced_cons l hs n m : announced (l :: hs) n = Some m -> exists n', header_length l n = Some n' /\ announced hs n' = Some m.
Proof.
  unfold announced. cbn [foldl]. intros Ha. change (Some n ≫= _) with (header_length l n) in Ha.
  destruct (header_length l n) as [n'|]; [by exists n'|]. exfalso.
  assert (Hn : foldl (fun n l => n ← n; header_length l n) None hs = None) by (clear Ha; induction hs; done). congruence.
Qed.

(** ** Printing a response *)

Section print.
Context {W : Type} `{DescriptorModel W}.
Context (fuel : nat) (junk : bytes) (junk_size : Z.of_nat (length junk) = RIO_BUFSIZE).

Notation client := (client W).

Lemma wp_with_rio {A} (m : M (rio_t * W) A) (Q : A -> client -> Prop) c :
  wp m (fun a s => Q a (Client (fst s) (c_out c) (snd s))) (c_rio c, c_world c) -> wp (with_rio m) Q c.
Proof. unfold wp, with_rio. by destruct (m _) as [[a [rp w]]|]. Qed.

(** The bytes still to come, and that they can be read. *)
Definition coming (c : client) : bytes := upcoming (c_rio c, c_world c).
Definition client_ready (c : client) : Prop := ready fuel (c_rio c, c_world c).

Lemma wp_client_line (Q : ended (Z * option bytes) -> client -> Prop) c :
  client_ready c ->
  (forall c', client_ready c' -> c_out c' = c_out c -> coming c = line line_max (coming c) ++ coming c' ->
     Q (Value (match coming c with [] => (0, None) | _ => (line_result (line line_max (coming c)), Some (line line_max (coming c))) end)) c') ->
  wp (with_rio (Rio_readlineb fuel MAXBUF)) Q c.
Proof.
  intros Hr HQ. apply wp_with_rio. unfold Rio_readlineb. apply wp_bind.
  eapply wp_mono; [apply (wp_rio_readlineb fuel MAXBUF); [exact Hr|unfold MAXBUF; lia]|].
  intros r [rp w] ((-> & Hu) & Hr' & _). apply wp_ret. cbn [fst snd] in *.
  fold line_max in *. fold (coming c) in *.
  assert (Hpos : fst (match coming c with [] => (0, None) | _ => (line_result (line line_max (coming c)), Some (line line_max (coming c))) end) <? 0 = false).
  { apply Z.ltb_ge. destruct (coming c); cbn [fst]; [lia|apply line_result_pos]. }
  rewrite Hpos. by apply HQ.
Qed.

(** Reading a line the stream is known to start with. *)
Lemma wp_next_line l rest (Q : ended (Z * option bytes) -> client -> Prop) c :
  client_ready c -> coming c = l ++ rest -> line line_max (l ++ rest) = l -> l <> [] ->
  (forall c', client_ready c' -> c_out c' = c_out c -> coming c' = rest -> Q (Value (line_result l, Some l)) c') ->
  wp (with_rio (Rio_readlineb fuel MAXBUF)) Q c.
Proof.
  intros Hr Hc Hl Hne HQ. apply wp_client_line; [done|]. intros c' Hr' Ho. rewrite Hc, Hl.
  intros Hrest%app_inv_head. destruct (l ++ rest) eqn:E; [by destruct l|]. by apply HQ.
Qed.

Lemma wp_read_headers hs l rest n (Q : ended Z -> client -> Prop) c :
  Forall header_ok (l :: hs) -> announced (l :: hs) 0 = Some n -> client_ready c ->
  coming c = concat hs ++ crlf ++ rest -> (length hs + 1 < fuel)%nat ->
  (forall c', client_ready c' -> coming c' = rest -> c_out c' = c_out c ++ headers_printed (l :: hs) -> Q (Value n) c') ->
  wp (read_headers fuel l (line_result l)) Q c.
Proof.
  intros Hhs Hann Hr Hc Hfuel HQ. unfold read_headers.
  apply (wp_iter (fun v '(buf, k, len) c' => client_ready c' /\
    ((buf = crlf /\ v = 0%nat /\ len = n /\ coming c' = rest /\ c_out c' = c_out c ++ headers_printed (l :: hs)) \/
     (exists hs', Forall header_ok (buf :: hs') /\ v = S (length hs') /\ k = line_result buf /\
        announced (buf :: hs') len = Some n /\ coming c' = concat hs' ++ crlf ++ rest /\
        c_out c' ++ headers_printed (buf :: hs') = c_out c ++ headers_printed (l :: hs)))))
    with (n := S (length hs)); [|split; [done|right; by exists hs]|lia].
  clear Hr Hc Hann Hhs. intros v [[buf k] len] c' (Hr & [(-> & -> & -> & Hc & Ho)|(hs' & Hhs & -> & -> & Hann & Hc & Ho)]).
  { apply wp_ret. by apply HQ. }
  apply Forall_cons in Hhs as [Hbuf Hhs]. destruct (header_c_str buf Hbuf) as (Hs & Hne & Hnil & Hres). rewrite Hs.
  rewrite bool_decide_eq_false_2 by done. rewrite (proj2 (Z.ltb_lt 0 _)) by (destruct buf; [done|cbn in Hres |- *; lia]). cbn [negb andb].
  destruct (announced_cons _ _ _ _ Hann) as (len' & Hlen & Hann').
  unfold printf. apply wp_bind, wp_modify, wp_bind. eapply wp_try_gets; [exact Hlen|]. apply wp_bind.
  destruct hs' as [|l' hs'].
  - apply (wp_next_line crlf rest); [exact Hr|exact Hc|apply crlf_line|done|]. intros c2 Hr2 Ho2 Hc2. apply wp_ret.
    exists 0%nat. split; [cbn; lia|]. split; [exact Hr2|left]. cbn [default from_option id].
    unfold announced in Hann'. injection Hann' as ->. split_and!; [done..|].
    rewrite Ho2, <- Ho. cbn [c_out]. unfold headers_printed. cbn. by rewrite app_nil_r.
  - apply Forall_cons in Hhs as [Hl' Hhs]. cbn [concat] in Hc. rewrite <- app_assoc in Hc.
    apply (wp_next_line l' (concat hs' ++ crlf ++ rest)); [exact Hr|exact Hc|by apply header_line|by apply header_c_str|].
    intros c2 Hr2 Ho2 Hc2. apply wp_ret. exists (S (length hs')). split; [cbn; lia|]. split; [exact Hr2|right].
    exists hs'. split_and!; [by constructor|done|done|done|done|].
    rewrite Ho2, <- Ho. cbn [c_out]. unfold headers_printed. cbn. by rewrite <- !app_assoc.
Qed.

(** ** The body *)

Lemma wp_client_block n (Q : ended bytes -> client -> Prop) c :
  client_ready c -> 0 <= n < 2 ^ 31 -> (Z.to_nat n < fuel)%nat ->
  (forall c', client_ready c' -> c_out c' = c_out c -> coming c' = drop (Z.to_nat n) (coming c) ->
     Q (Value (take (Z.to_nat n) (coming c))) c') ->
  wp (with_rio (Rio_readnb fuel n)) Q c.
Proof.
  intros Hr Hn Hf HQ. apply wp_with_rio. unfold Rio_readnb. apply wp_bind.
  eapply wp_mono; [apply (wp_rio_readnb fuel n); [exact Hr|done..]|].
  intros r [rp w] (-> & Hu & Hr' & _). apply wp_ret. by apply HQ.
Qed.

(** The bytes asked for in one call. *)
Definition chunk_of (n : Z) : Z := if n <? MAXBUF then n else MAXBUF.

Lemma chunk_range n : 0 < n -> 0 < chunk_of n <= MAXBUF /\ chunk_of n <= n.
Proof. intros Hn. unfold chunk_of, MAXBUF. destruct (Z.ltb_spec n 8192); lia. Qed.

Context (fuel_block : (Z.to_nat MAXBUF < fuel)%nat).

Lemma chunk_fuel n : 0 < n -> 0 <= chunk_of n < 2 ^ 31 /\ (Z.to_nat (chunk_of n) < fuel)%nat.
Proof. intros [Hc _]%chunk_range. unfold MAXBUF in *. lia. Qed.

(** A body that leaves room for the NUL is printed up to its first NUL. *)
Lemma wp_print_body n (Q : ended unit -> client -> Prop) c :
  client_ready c -> Z.of_nat (length (take (Z.to_nat n) (coming c))) < MAXBUF ->
  (forall c', c_out c' = c_out c ++ c_str (take (Z.to_nat n) (coming c)) -> Q (Value tt) c') ->
  wp (print_body fuel n) Q c.
Proof.
  intros Hr Hlen HQ. unfold print_body.
  apply (wp_iter (fun v rem c' => client_ready c' /\
    ((v = 1%nat /\ rem = n /\ c' = c) \/
     (v = 0%nat /\ (rem <= 0 \/ coming c' = []) /\ c_out c' = c_out c ++ c_str (take (Z.to_nat n) (coming c))))))
    with (n := 1%nat); [|auto|unfold MAXBUF in *; lia].
  intros v rem c' (Hr' & [(-> & -> & ->)|(-> & Hend & Ho)]); fold (chunk_of rem) || fold (chunk_of n).
  - destruct (Z.ltb_spec 0 n) as [Hn|Hn].
    2:{ apply wp_ret, HQ. replace (Z.to_nat n) with 0%nat by lia. by rewrite app_nil_r. }
    pose proof (chunk_range n Hn) as [Hc Hcn]. destruct (chunk_fuel n Hn).
    assert (Htake : take (Z.to_nat (chunk_of n)) (coming c) = take (Z.to_nat n) (coming c)).
    { unfold chunk_of in *. destruct (Z.ltb_spec n MAXBUF); [done|]. rewrite length_take in Hlen.
      unfold MAXBUF in *. rewrite !take_ge by lia. done. }
    apply wp_bind, wp_client_block; [done..|]. rewrite Htake. intros c2 Hr2 Ho2 Hc2.
    set (bs := take (Z.to_nat n) (coming c)) in *. destruct (Z.leb_spec (Z.of_nat (length bs)) 0) as [Hz|Hz].
    + apply wp_ret, HQ. rewrite Ho2. destruct bs; [by rewrite app_nil_r|cbn in Hz; lia].
    + rewrite (proj2 (Z.leb_gt _ _)) by lia. apply wp_bind, wp_modify, wp_ret. exists 0%nat. split; [lia|].
      split; [exact Hr2|right]. split_and!; [done| |by cbn; rewrite Ho2].
      change (coming (Client (c_rio c2) _ (c_world c2))) with (coming c2). rewrite Hc2.
      assert (Hl : length bs = Nat.min (Z.to_nat n) (length (coming c))) by (unfold bs; apply length_take).
      destruct (decide (Z.of_nat (length bs) = n)); [left; lia|right].
      apply drop_ge. unfold chunk_of in *. destruct (Z.ltb_spec n MAXBUF); unfold MAXBUF in *; lia.
  - destruct (Z.ltb_spec 0 rem) as [Hn|Hn]; [|by apply wp_ret, HQ]. destruct (chunk_fuel rem Hn).
    destruct Hend as [|Hend]; [lia|]. apply wp_bind, wp_client_block; [done..|]. rewrite Hend, take_nil.
    intros c2 Hr2 Ho2 _. apply wp_ret, HQ. by rewrite Ho2.
Qed.

(** A defect: a block of [MAXBUF] bytes leaves none. *)
Lemma print_body_overflow n c :
  client_ready c -> MAXBUF <= Z.of_nat (length (take (Z.to_nat n) (coming c))) -> print_body fuel n c = Err UB.
Proof.
  intros Hr Hlen. rewrite length_take in Hlen. assert (Hn : MAXBUF <= n) by (unfold MAXBUF in *; lia).
  destruct fuel as [|fuel'] eqn:Hf; [lia|]. rewrite <- Hf in *. unfold print_body. rewrite Hf at 1. cbn [iter].
  rewrite (proj2 (Z.ltb_lt 0 n)) by (unfold MAXBUF in *; lia). rewrite (proj2 (Z.ltb_ge n MAXBUF)) by lia.
  destruct (wp_run _ _ _ (wp_client_block MAXBUF (fun r c' => r = Value (take (Z.to_nat MAXBUF) (coming c))) c Hr
    ltac:(unfold MAXBUF; lia) fuel_block ltac:(done))) as (r & c' & Hrun & ->).
  unfold bind. rewrite Hrun. rewrite length_take. rewrite (proj2 (Z.leb_gt _ 0)) by (unfold MAXBUF in *; lia).
  rewrite (proj2 (Z.leb_le _ _)) by (unfold MAXBUF in *; lia). done.
Qed.

(** ** The whole response *)

Definition length_line (n : Z) : text := lit "Length = " ++ show n ++ ["010"%char].

Lemma wp_print_headers hs body n (Q : ended Z -> client -> Prop) c :
  hs <> [] -> Forall header_ok hs -> announced hs 0 = Some n ->
  healthy (c_world c) -> (noise (c_world c) + 2 < fuel)%nat -> (length hs + 1 < fuel)%nat ->
  input (c_world c) = concat hs ++ crlf ++ body ->
  (forall c', client_ready c' -> coming c' = body -> c_out c' = c_out c ++ headers_printed hs ++ length_line n -> Q (Value n) c') ->
  wp (print_headers fuel junk) Q c.
Proof.
  intros Hne Hhs Hann Hh Hf Hfl Hin HQ. destruct hs as [|l hs]; [done|]. unfold print_headers, set_client_rio.
  apply wp_bind, wp_modify. destruct (readinitb_ok junk junk_size) as [Hok Hpend].
  set (c1 := Client _ (c_out c) (c_world c)). assert (Hr1 : client_ready c1) by done.
  assert (Hc1 : coming c1 = l ++ concat hs ++ crlf ++ body).
  { unfold coming, upcoming. cbn [fst snd c1 c_rio c_world]. rewrite Hpend, Hin. cbn [concat]. by rewrite <- app_assoc. }
  pose proof Hhs as [Hl _]%Forall_cons. apply wp_andthen.
  apply (wp_next_line l (concat hs ++ crlf ++ body)); [done|done|by apply header_line|by apply header_c_str|].
  intros c2 Hr2 Ho2 Hc2. apply wp_bind. eapply wp_try_gets; [reflexivity|]. apply wp_andthen. cbn [fst].
  apply (wp_read_headers hs l body n); [done|done|done|done|cbn in Hfl; lia|]. intros c3 Hr3 Hc3 Ho3.
  apply wp_bind, wp_modify, wp_ret, HQ; [done|done|]. cbn [c_out]. rewrite Ho3, Ho2. by rewrite <- app_assoc.
Qed.

(** A response whose body leaves room in the buffer is printed, but not what
    comes after it, and a longer one is undefined. *)
Lemma print_response_ok hs body more c :
  hs <> [] -> Forall header_ok hs -> announced hs 0 = Some (Z.of_nat (length body)) ->
  healthy (c_world c) -> (noise (c_world c) + 2 < fuel)%nat -> (length hs + 1 < fuel)%nat ->
  input (c_world c) = concat hs ++ crlf ++ body ++ more -> Z.of_nat (length body) < MAXBUF ->
  exists c', print_response fuel junk c = Ok (Value tt, c') /\
    c_out c' = c_out c ++ headers_printed hs ++ length_line (Z.of_nat (length body)) ++ c_str body.
Proof.
  intros Hne Hhs Hann Hh Hf Hfl Hin Hlen.
  destruct (wp_run (print_response fuel junk) (fun r c' => r = Value tt /\
    c_out c' = c_out c ++ headers_printed hs ++ length_line (Z.of_nat (length body)) ++ c_str body) c) as (r & c' & Hrun & -> & Ho).
  - unfold print_response. apply wp_andthen. eapply wp_print_headers; [done..|]. intros c1 Hr1 Hc1 Ho1.
    apply wp_print_body; [done|by rewrite Hc1, Nat2Z.id, take_app_length|].
    intros c' ->. split; [done|]. rewrite Hc1, Nat2Z.id, take_app_length, Ho1. by rewrite <- !app_assoc.
  - by exists c'.
Qed.

Lemma print_response_overflow hs body more c :
  hs <> [] -> Forall header_ok hs -> announced hs 0 = Some (Z.of_nat (length body)) ->
  healthy (c_world c) -> (noise (c_world c) + 2 < fuel)%nat -> (length hs + 1 < fuel)%nat ->
  input (c_world c) = concat hs ++ crlf ++ body ++ more -> MAXBUF <= Z.of_nat (length body) ->
  print_response fuel junk c = Err UB.
Proof.
  intros Hne Hhs Hann Hh Hf Hfl Hin Hlen.
  destruct (wp_run (print_headers fuel junk) (fun r c' => r = Value (Z.of_nat (length body)) /\ client_ready c' /\ coming c' = body ++ more) c)
    as (r & c' & Hrun & -> & Hr & Hc).
  - eapply wp_print_headers; [done..|]. intros c1 Hr1 Hc1 _. done.
  - unfold print_response, andthen, bind. rewrite Hrun. apply print_body_overflow; [done|].
    by rewrite Hc, Nat2Z.id, take_app_length.
Qed.

End print.

(** ** The server's responses, line by line *)

Definition stats_lines (s : threads_stats) (t : time_stats) : list text :=
  (fun l => l ++ crlf) <$>
  [ lit "Stat-Req-Arrival:: " ++ print_time (task_arrival t);
    lit "Stat-Req-Dispatch:: " ++ print_time (task_dispatch t);
    lit "Stat-Log-Arrival:: " ++ print_time (log_enter t);
    lit "Stat-Log-Dispatch:: " ++ print_time (log_exit t);
    lit "Stat-Thread-Id:: " ++ show (id s);
    lit "Stat-Thread-Count:: " ++ show (total_req s);
    lit "Stat-Thread-Static:: " ++ show (stat_req s);
    lit "Stat-Thread-Dynamic:: " ++ show (dynm_req s);
    lit "Stat-Thread-Post:: " ++ show (post_req s) ].

Definition length_line_of (n : Z) : text := lit "Content-Length: " ++ show n ++ crlf.

Definition content_lines (n : Z) (filetype : text) : list text :=
  [ lit "HTTP/1.0 200 OK" ++ crlf; lit "Server: OS-HW3 Web Server" ++ crlf; length_line_of n;
    lit "Content-Type: " ++ filetype ++ crlf ].

Definition error_lines (status : text) (body : text) : list text :=
  [ lit "HTTP/1.0 " ++ status ++ crlf; lit "Content-Type: text/html" ++ crlf; length_line_of (Z.of_nat (length body)) ].

(** The body a response announces, and the lines before the statistics.  That
    of a CGI program announces none: its output follows. *)
Definition body_of (a : action) (log file : bytes) : bytes :=
  match a with
  | NotImplemented m => error_body m (lit "501") (lit "Not Implemented") (lit "OS-HW3 Server does not implement this method")
  | NotFound f => error_body f (lit "404") (lit "Not found") (lit "OS-HW3 Server could not find this file")
  | CannotRun f => error_body f (lit "403") (lit "Forbidden") (lit "OS-HW3 Server could not run the CGI program")
  | CannotRead f => error_body f (lit "403") (lit "Forbidden") (lit "OS-HW3 Server could not read the file")
  | PostLog => match log with [] => fallback | _ => log end
  | SendFile f size => take (Z.to_nat size) file
  | RunCgi _ _ => []
  end.

Definition status_lines (a : action) (log file : bytes) : list text :=
  let body := body_of a log file in
  match a with
  | NotImplemented _ => error_lines (lit "501 Not Implemented") body
  | NotFound _ => error_lines (lit "404 Not found") body
  | CannotRun _ | CannotRead _ => error_lines (lit "403 Forbidden") body
  | PostLog => content_lines (Z.of_nat (length body)) (lit "text/plain")
  | SendFile f size => content_lines size (get_filetype f)
  | RunCgi _ _ => [lit "HTTP/1.0 200 OK" ++ crlf; lit "Server: OS-HW3 Web Server" ++ crlf]
  end.

Lemma append_stats_lines s t : append_stats [] s t = concat (stats_lines s t) ++ crlf.
Proof.
  unfold append_stats, stats_lines. cbn [fmap list_fmap concat app]. rewrite !app_nil_r, <- !app_assoc. done.
Qed.

(** Numbers print as digits, which are plain. *)
Lemma isdigit_is_plain c : isdigit c = true -> plain c = true.
Proof.
  intros (n & Hn & ->)%isdigit_range. by apply (for_digits (fun n => plain (ascii_of_N (48 + n)))).
Qed.

Lemma digits_plain ds : forallb isdigit ds = true -> forallb plain ds = true.
Proof. rewrite !forallb_forall. intros Hd x Hx. by apply isdigit_is_plain, Hd. Qed.

Lemma show_digits n : 0 <= n -> exists ds, show n = ds /\ forallb isdigit ds = true /\ digits_value 0 ds = n /\ ds <> [].
Proof.
  intros Hn. assert (Hs : exists m, show n = lit (pretty m) /\ n = Z.of_N m).
  { destruct n as [|q|q]; [by exists 0%N|by exists (Npos q)|lia]. }
  destruct Hs as (m & -> & ->). destruct (show_N_digits m) as (ds & -> & Ha & Hv & Hne & _). by exists ds.
Qed.

Lemma show_plain n : 0 <= n -> forallb plain (show n) = true.
Proof. intros Hn. destruct (show_digits n Hn) as (ds & -> & Hd & _). by apply digits_plain. Qed.

Lemma print_time_plain t : time_ok t -> forallb plain (print_time t) = true.
Proof.
  intros [Hs Hu]. unfold print_time, pad6. rewrite (proj2 (Z.ltb_ge _ _)), Z.abs_eq by lia. cbn [app].
  rewrite !forallb_app, !show_plain by lia. rewrite andb_true_r. cbn [forallb]. apply andb_true_iff. split; [done|].
  apply forallb_forall. intros x Hx. by apply repeat_spec in Hx as ->.
Qed.

Lemma digits_value_stop acc ds c t :
  forallb isdigit ds = true -> isdigit c = false -> digits_value acc (ds ++ c :: t) = digits_value acc ds.
Proof.
  intros Hd Hc. revert acc. induction ds as [|d ds IH]; intros acc; cbn; [by rewrite Hc|].
  cbn in Hd. apply andb_true_iff in Hd as [-> Hd]. by apply IH.
Qed.

(** The length announced is read back. *)
Lemma atoi_show n : 0 <= n < 2 ^ 31 -> atoi (show n ++ crlf) = Some n.
Proof.
  intros Hn. destruct (show_digits n ltac:(lia)) as (ds & -> & Hd & Hv & Hne). destruct ds as [|c ds]; [done|].
  pose proof Hd as Hd'. cbn [forallb] in Hd'. apply andb_true_iff in Hd' as [Hc _]. destruct (isdigit_plain c Hc) as (Hm & Hp & Hw).
  unfold atoi, parse_integer. cbn [app]. rewrite stoi_skip by done. cbn [drop]. rewrite Hm, Hp, Hc.
  change (c :: ds ++ crlf) with ((c :: ds) ++ "013"%char :: ["010"%char]). rewrite digits_value_stop by done.
  rewrite Hv, Z.mul_1_l. by apply int_ok_in; lia.
Qed.

Lemma header_ok_intro l :
  l <> [] -> forallb plain l = true -> Z.of_nat (length l) < 8190 -> header_ok (l ++ crlf).
Proof. intros Hne Hp Hlen. by exists l. Qed.

Lemma header_ok_show (name : text) n :
  (length name <= 100)%nat -> name <> [] -> forallb plain name = true -> 0 <= n < 2 ^ 31 -> header_ok ((name ++ show n) ++ crlf).
Proof.
  intros Hl Hne Hp Hn. apply header_ok_intro.
  - by destruct name.
  - by rewrite forallb_app, Hp, show_plain by lia.
  - pose proof (int_show_length n Hn). rewrite length_app. lia.
Qed.

Lemma header_ok_time (name : text) t :
  (length name <= 100)%nat -> name <> [] -> forallb plain name = true -> time_ok t -> header_ok ((name ++ print_time t) ++ crlf).
Proof.
  intros Hl Hne Hp Ht. apply header_ok_intro.
  - by destruct name.
  - by rewrite forallb_app, Hp, print_time_plain.
  - pose proof (print_time_length t Ht). rewrite length_app. lia.
Qed.

Lemma stats_lines_ok s t : stats_fit s -> times_ok t -> Forall header_ok (stats_lines s t).
Proof.
  intros (Hi & Ht & Hs & Hd & Hp) (H1 & H2 & H3 & H4). unfold stats_lines.
  repeat (constructor; [first [apply header_ok_time; [cbn; lia|done|done|done]|apply header_ok_show; [cbn; lia|done|done|lia]]|]).
  constructor.
Qed.

Lemma announced_step l hs n m : header_length l n = Some m -> announced (l :: hs) n = announced hs m.
Proof. intros Hl. unfold announced. cbn [foldl]. change (Some n ≫= _) with (header_length l n). by rewrite Hl. Qed.

Lemma announced_app hs1 hs2 n m : announced hs1 n = Some m -> announced (hs1 ++ hs2) n = announced hs2 m.
Proof. unfold announced. intros Ha. by rewrite foldl_app, Ha. Qed.

(** Lines that announce no length. *)
Lemma announced_other hs n : Forall (fun l => is_length_header l = false) hs -> announced hs n = Some n.
Proof.
  unfold announced. induction 1 as [|l hs Hl Hhs IH]; [done|]. cbn. unfold header_length. rewrite Hl. exact IH.
Qed.

Lemma stats_lines_other s t : Forall (fun l => is_length_header l = false) (stats_lines s t).
Proof. unfold stats_lines. repeat (constructor; [reflexivity|]). constructor. Qed.

Lemma announced_length n m : 0 <= n < 2 ^ 31 -> header_length (length_line_of n) m = Some n.
Proof.
  intros Hn. unfold header_length, length_line_of. change (is_length_header _) with true. cbn iota. apply (atoi_show n Hn).
Qed.

Lemma content_lines_ok n ft :
  ft ∈ [lit "text/html"; lit "image/gif"; lit "image/jpeg"; lit "image/png"; lit "text/plain"] -> 0 <= n < 2 ^ 31 ->
  Forall header_ok (content_lines n ft) /\ announced (content_lines n ft) 0 = Some n /\
  content_header n ft = concat (content_lines n ft).
Proof.
  intros Hft Hn. assert (Hok : header_ok (length_line_of n)).
  { unfold length_line_of. rewrite app_assoc. apply header_ok_show; [cbn; lia|done..]. }
  assert (Hl : (length (show n) <= 10)%nat) by by apply int_show_length.
  unfold content_header. rewrite snprintf_short.
  2:{ unfold MAXLINE, ok_header, length_header. rewrite !length_app.
      assert (length ft <= 20)%nat by (repeat (apply elem_of_cons in Hft as [->|Hft]; [cbn; lia|]); by apply elem_of_nil in Hft).
      repeat match goal with |- context [length (lit ?x)] => let n := eval vm_compute in (length (lit x)) in change (length (lit x)) with n end.
      change (length crlf) with 2%nat. lia. }
  split_and!.
  - unfold content_lines. constructor; [|constructor; [|constructor; [exact Hok|constructor; [|constructor]]]].
    + by apply header_ok_intro; [..|cbn; lia].
    + by apply header_ok_intro; [..|cbn; lia].
    + repeat (apply elem_of_cons in Hft as [->|Hft]; [rewrite app_assoc; apply header_ok_intro; [done|done|cbn; lia]|]).
      by apply elem_of_nil in Hft.
  - unfold content_lines. rewrite (announced_step _ _ 0 0) by done. rewrite (announced_step _ _ 0 0) by done.
    rewrite (announced_step _ _ 0 n) by by apply announced_length. apply announced_other. constructor; [|done].
    repeat (apply elem_of_cons in Hft as [->|Hft]; [reflexivity|]). by apply elem_of_nil in Hft.
  - unfold content_lines, ok_header, length_header, length_line_of. cbn [concat]. rewrite <- !app_assoc, app_nil_r. done.
Qed.

Lemma error_lines_ok status errnum shortmsg body :
  status = errnum ++ lit " " ++ shortmsg ->
  status ∈ [lit "501 Not Implemented"; lit "404 Not found"; lit "403 Forbidden"] -> Z.of_nat (length body) < 2 ^ 31 ->
  Forall header_ok (error_lines status body) /\ announced (error_lines status body) 0 = Some (Z.of_nat (length body)) /\
  error_header errnum shortmsg body = concat (error_lines status body).
Proof.
  intros Hst Hin Hb. assert (Hn : 0 <= Z.of_nat (length body) < 2 ^ 31) by lia. set (n := Z.of_nat (length body)) in *.
  assert (Hok : header_ok (length_line_of n)).
  { unfold length_line_of. rewrite app_assoc. apply header_ok_show; [cbn; lia|done..]. }
  assert (Hl : (length (show n) <= 10)%nat) by by apply int_show_length.
  assert (Hls : (length status <= 30)%nat) by (repeat (apply elem_of_cons in Hin as [->|Hin]; [cbn; lia|]); by apply elem_of_nil in Hin).
  split_and!.
  - unfold error_lines. constructor; [|constructor; [|by constructor]].
    + rewrite app_assoc. repeat (apply elem_of_cons in Hin as [->|Hin]; [apply header_ok_intro; [done|done|cbn; lia]|]).
      by apply elem_of_nil in Hin.
    + by apply header_ok_intro; [..|cbn; lia].
  - unfold error_lines. rewrite (announced_step _ _ 0 0).
    2:{ repeat (apply elem_of_cons in Hin as [->|Hin]; [reflexivity|]). by apply elem_of_nil in Hin. }
    rewrite (announced_step _ _ 0 0) by done. by rewrite (announced_step _ _ 0 n) by by apply announced_length.
  - unfold error_header. fold n. rewrite snprintf_short.
    + unfold error_lines, length_header, length_line_of. cbn [concat]. rewrite Hst, <- !app_assoc, app_nil_r. done.
    + rewrite !length_app. unfold length_header, MAXLINE. rewrite !length_app.
      apply (f_equal length) in Hst. rewrite !length_app in Hst.
      repeat match goal with |- context [length (lit ?x)] => let n := eval vm_compute in (length (lit x)) in change (length (lit x)) with n end.
      change (length crlf) with 2%nat. lia.
Qed.

Lemma get_filetype_known f : get_filetype f ∈ [lit "text/html"; lit "image/gif"; lit "image/jpeg"; lit "image/png"; lit "text/plain"].
Proof. unfold get_filetype. repeat case_match; set_solver. Qed.

(** A response with a body of [n] bytes the header can announce. *)
Definition announces (a : action) (log file : bytes) : Prop :=
  Z.of_nat (length (body_of a log file)) < 2 ^ 31 /\
  match a with
  | SendFile _ size => 0 <= size <= Z.of_nat (length file)
  | _ => True
  end.

(** The response is the header lines, an empty line and the body, and the
    length its header announces is that of the body. *)
Lemma response_lines a s t log file :
  announces a log file -> stats_fit s -> times_ok t ->
  let hs := status_lines a log file ++ stats_lines s t in
  hs <> [] /\ Forall header_ok hs /\ announced hs 0 = Some (Z.of_nat (length (body_of a log file))) /\
  (length hs <= 13)%nat /\ response a (append_stats [] s t) log file = concat hs ++ crlf ++ body_of a log file.
Proof.
  intros [Hb Ha] Hs Ht hs. pose proof (stats_lines_ok s t Hs Ht) as Hst.
  pose proof (fun n => announced_other _ n (stats_lines_other s t)) as Hann.
  assert (Hgen : forall h, Forall header_ok (status_lines a log file) ->
    announced (status_lines a log file) 0 = Some (Z.of_nat (length (body_of a log file))) ->
    h = concat (status_lines a log file) -> (length (status_lines a log file) <= 4)%nat ->
    response a (append_stats [] s t) log file = h ++ append_stats [] s t ++ body_of a log file ->
    hs <> [] /\ Forall header_ok hs /\ announced hs 0 = Some (Z.of_nat (length (body_of a log file))) /\
    (length hs <= 13)%nat /\ response a (append_stats [] s t) log file = concat hs ++ crlf ++ body_of a log file).
  { intros h H1 H2 -> H4 ->. unfold hs. split_and!.
    - destruct (status_lines a log file); [|done]. unfold stats_lines. done.
    - by apply Forall_app.
    - by rewrite (announced_app _ _ _ _ H2), Hann.
    - rewrite length_app. change (length (stats_lines s t)) with 9%nat. lia.
    - by rewrite append_stats_lines, concat_app, <- !app_assoc. }
  destruct a as [m| |f|f|f|f q|f size]; cbn [status_lines] in *.
  - destruct (error_lines_ok (lit "501 Not Implemented") (lit "501") (lit "Not Implemented") _ eq_refl ltac:(left) Hb)
      as (H1 & H2 & H3). apply (Hgen _ H1 H2 H3); [cbn; lia|]. cbn [response body_of]. unfold error_text. cbv zeta. reflexivity.
  - destruct (content_lines_ok (Z.of_nat (length (body_of PostLog log file))) (lit "text/plain") ltac:(do 4 right; left) ltac:(lia))
      as (H1 & H2 & H3). apply (Hgen _ H1 H2 H3); [cbn; lia|]. cbn [response body_of]. unfold error_text. cbv zeta. reflexivity.
  - destruct (error_lines_ok (lit "404 Not found") (lit "404") (lit "Not found") _ eq_refl ltac:(do 1 right; left) Hb)
      as (H1 & H2 & H3). apply (Hgen _ H1 H2 H3); [cbn; lia|]. cbn [response body_of]. unfold error_text. cbv zeta. reflexivity.
  - destruct (error_lines_ok (lit "403 Forbidden") (lit "403") (lit "Forbidden") _ eq_refl ltac:(do 2 right; left) Hb)
      as (H1 & H2 & H3). apply (Hgen _ H1 H2 H3); [cbn; lia|]. cbn [response body_of]. unfold error_text. cbv zeta. reflexivity.
  - destruct (error_lines_ok (lit "403 Forbidden") (lit "403") (lit "Forbidden") _ eq_refl ltac:(do 2 right; left) Hb)
      as (H1 & H2 & H3). apply (Hgen _ H1 H2 H3); [cbn; lia|]. cbn [response body_of]. unfold error_text. cbv zeta. reflexivity.
  - apply (Hgen ok_header).
    + repeat constructor; (by apply header_ok_intro; [..|cbn; lia]).
    + reflexivity.
    + reflexivity.
    + cbn; lia.
    + cbn [response body_of]. by rewrite app_nil_r.
  - assert (Hl : Z.of_nat (length (body_of (SendFile f size) log file)) = size) by (cbn; rewrite length_take; lia).
    destruct (content_lines_ok size (get_filetype f) (get_filetype_known f) ltac:(lia)) as (H1 & H2 & H3).
    apply (Hgen (content_header size (get_filetype f)) H1); [by rewrite H2, Hl|exact H3|cbn; lia|]. cbn [response body_of]. reflexivity.
Qed.

(** ** The exchange *)

(** What the client prints of the server's answer to [a]. *)
Definition printed (a : action) (s : threads_stats) (t : time_stats) (log file : bytes) : text :=
  headers_printed (status_lines a log file ++ stats_lines s t) ++
  length_line (Z.of_nat (length (body_of a log file))) ++ c_str (body_of a log file).

(** A word of a request line. *)
Definition request_word (s : text) : Prop :=
  s <> [] /\ forallb (fun c => plain c && negb (isspace c)) s = true.

Lemma request_word_parts s : request_word s -> s <> [] /\ forallb plain s = true /\ forallb (fun c => negb (isspace c)) s = true.
Proof.
  intros [Hne Hs]. rewrite forallb_forall in Hs. split_and!; [done|apply forallb_forall..];
    intros x Hx; by apply Hs, andb_true_iff in Hx as [? ?].
Qed.

(** The fields of the client's request, as the server reads them. *)
Lemma request_text_fields method filename hostname rest :
  request_word method -> forallb (fun c => plain c && negb (isspace c)) filename = true ->
  Z.of_nat (length method + length filename + length hostname) < MAXBUF - 32 ->
  words isspace (c_str (line line_max (request_text method filename hostname ++ rest))) =
    [method; "/"%char :: filename; lit "HTTP/1.1"].
Proof.
  intros Hm Hf Hlen. destruct (request_word_parts method Hm) as (Hmne & Hmp & Hms).
  assert (Hf' : request_word ("/"%char :: filename)) by (split; [done|exact Hf]).
  destruct (request_word_parts _ Hf') as (_ & Hfp & Hfs).
  unfold request_text, snprintf. rewrite take_ge.
  2:{ rewrite !length_app. unfold MAXBUF in *. cbn [length lit]. cbn. lia. }
  set (l0 := method ++ [" "%char] ++ ("/"%char :: filename) ++ lit " HTTP/1.1").
  assert (Hl0 : forallb plain l0 = true).
  { unfold l0. by rewrite !forallb_app, Hmp, Hfp. }
  assert (Ht : (method ++ lit " /" ++ filename ++ lit " HTTP/1.1" ++ crlf ++ lit "host: " ++ hostname ++ crlf ++ crlf) ++ rest
    = (l0 ++ ["013"%char]) ++ newline :: (lit "host: " ++ hostname ++ crlf ++ crlf ++ rest)).
  { unfold l0. rewrite <- !app_assoc. done. }
  rewrite Ht.
  rewrite line_end; [|by rewrite forallb_app, Hl0|unfold line_max, MAXBUF in *; unfold l0; rewrite !length_app; cbn; lia].
  rewrite <- app_assoc, c_str_plain by done. unfold l0. rewrite <- !app_assoc. cbn [app].
  rewrite words_app_sep by done. change ("/"%char :: filename ++ ?x) with (("/"%char :: filename) ++ x).
  change (lit " HTTP/1.1" ++ ?x) with (" "%char :: lit "HTTP/1.1" ++ x). rewrite words_app_sep by done. done.
Qed.

Section exchange.
Context {W F D : Type} `{DescriptorModel W} `{DescriptorModel F} `{DescriptorModel D} `{Service W} `{LogCalls W} `{Files W F} `{!ServiceModel (W := W) (F := F)} `{!LogModel (W := W) (F := F)}.
Context (fuel : nat) (junk : bytes) (junk_size : Z.of_nat (length junk) = RIO_BUFSIZE).

(** What the server needs to carry out the action [a] on the connection. *)
Definition can_handle (n : nat) (a : action) (c : conn (W := W)) : Prop :=
  readable fuel c /\ stats_ok (ts c) /\ time_ok (task_arrival (tm c)) /\ time_ok (task_dispatch (tm c)) /\
  log_fits (world c) /\ (room + length (logged (world c)) <= n)%nat /\ (noise (world c) + n < fuel)%nat /\ servable fuel a (world c) n.

(** What the client needs to read an answer: fuel for a full buffer. *)
Definition can_receive (answer : bytes) (k : client D) : Prop :=
  healthy (c_world k) /\ (noise (c_world k) + 2 < fuel)%nat /\ (Z.to_nat MAXBUF < fuel)%nat /\ input (c_world k) = answer.

(** C7: Client and server understand each other: the server reads the method and
    the file name the client was started with and does what they ask for; the
    client prints the header lines of the answer, the length they announce and
    as much of the body, up to its first NUL.  For a file, the log and an error
    that is all that was sent.  The answer of a CGI program announces no
    length: the client prints its header lines and [Length = 0], and nothing of
    what the program sends.  A defect: a body of [MAXBUF] bytes or more makes
    the client store past the end of its buffer. *)
Theorem exchange (method filename hostname : text) (n : nat) (a : action) (c : conn) :
  request_word method -> forallb (fun x => plain x && negb (isspace x)) filename = true ->
  Z.of_nat (length method + length filename + length hostname) < MAXBUF - 32 ->
  input (world c) = request_text method filename hostname ->
  decide_request [method; "/"%char :: filename; lit "HTTP/1.1"] (fun f => stat f (world c)) = Some a ->
  announces a (logged (world c)) (contents a (world c)) -> can_handle n a c ->
  exists r c' o, handle_request fuel junk c = Ok (r, c') /\
    let answer := response a (append_stats [] (ts c') (tm c')) (logged (world c)) (contents a (world c)) ++ o in
    output (world c') = output (world c) ++ answer /\ (is_cgi a = false -> r = Value tt /\ o = []) /\
    forall k : client D, can_receive answer k ->
      let body := body_of a (logged (world c)) (contents a (world c)) in
      if Z.of_nat (length body) <? MAXBUF then
        exists k', print_response fuel junk k = Ok (Value tt, k') /\
          c_out k' = c_out k ++ printed a (ts c') (tm c') (logged (world c)) (contents a (world c))
      else print_response fuel junk k = Err UB.
Proof.
  intros Hm Hf Hlen Hin Hd Han (Hr & Hs & Hta & Htd & Hlf & Hn & Hfl & Hsv).
  assert (Hne : input (world c) <> []).
  { rewrite Hin. unfold request_text. destruct Hm as [Hm _]. by destruct method. }
  assert (Hfields : decide_request (request_fields (world c)) (fun f => stat f (world c)) = Some a).
  { unfold request_fields, first_line. rewrite Hin. pose proof (request_text_fields method filename hostname [] Hm Hf Hlen) as Hw.
    rewrite app_nil_r in Hw. change (Z.to_nat (MAXLINE - 1)) with line_max. by rewrite Hw. }
  destruct (wp_run _ _ _ (wp_handle_request fuel junk junk_size n a c Hr Hne Hs Hta Htd Hlf Hn Hfl Hfields Hsv))
    as (r & c' & Hrun & (Hts & _ & o & Ho & Hcgi) & (_ & _ & Htm) & _).
  exists r, c', o. split; [exact Hrun|]. cbv zeta. split; [exact Ho|]. split; [exact Hcgi|]. intros k (Hk1 & Hk2 & Hk3 & Hk4).
  destruct (response_lines a (ts c') (tm c') (logged (world c)) (contents a (world c)) Han
    ltac:(rewrite Hts; by apply counted_fit) Htm) as (H1' & H2' & H3' & H4' & H5').
  rewrite H5', <- !app_assoc in Hk4.
  assert (Hl : (length (status_lines a (logged (world c)) (contents a (world c)) ++ stats_lines (ts c') (tm c')) + 1 < fuel)%nat)
    by (unfold MAXBUF in *; lia).
  destruct (Z.ltb_spec (Z.of_nat (length (body_of a (logged (world c)) (contents a (world c))))) MAXBUF) as [Hb|Hb].
  - by eapply print_response_ok.
  - by eapply print_response_overflow.
Qed.

End exchange.

(** The client asks for a small file, and its request arrives in two pieces. *)
Definition file_request : toy_web :=
  let text := request_text (lit "GET") (lit "a.html") (lit "localhost") in
  ToyWeb (ToyFd [Some ("G"%char, take 8 (drop 1 text)); None; Some ("m"%char, drop 10 text)] [] 100) []
    [(lit "./public/a.html", (Build_file_stat true true false 2, lit "hi"))].

Lemma file_of_input bs : input (file_of bs) = bs.
Proof. unfold file_of. destruct bs; cbn; by rewrite ?app_nil_r. Qed.

Lemma exchange_witness :
  exists c' k k', handle_request (Z.to_nat 20000) web_junk (web_conn file_request) = Ok (Value tt, c') /\
    input (c_world k) = output (world c') /\ c_out k = [] /\
    print_response (W := toy_fd) (Z.to_nat 20000) web_junk k = Ok (Value tt, k') /\
    exists headers, c_out k' = headers ++ lit "Length = 2" ++ ["010"%char] ++ lit "hi".
Proof.
  destruct (exchange (W := toy_web) (F := toy_fd) (D := toy_fd) (Z.to_nat 20000) web_junk ltac:(vm_compute; reflexivity)
    (lit "GET") (lit "a.html") (lit "localhost") (Z.to_nat 17000) (SendFile (lit "./public/a.html") 2) (web_conn file_request))
    as (r & c' & o & Hrun & Ho & Hcgi & Hk).
  - split; [discriminate|vm_compute; reflexivity].
  - vm_compute; reflexivity.
  - vm_compute; reflexivity.
  - vm_compute; reflexivity.
  - vm_compute; reflexivity.
  - split; [vm_compute; reflexivity|]. vm_compute. split; discriminate.
  - split; [|split_and!].
    + split; [exact I|]. cbn [world web_conn]. change (noise file_request) with 1%nat.
      assert (Hlen : length (input file_request) = 41%nat) by (vm_compute; reflexivity). rewrite Hlen. lia.
    + unfold stats_ok, stats_below. cbn. lia.
    + unfold time_ok. cbn. lia.
    + unfold time_ok. cbn. lia.
    + vm_compute. reflexivity.
    + change (logged (world (web_conn file_request))) with (@nil ascii). unfold room, MAXLINE. cbn [length]. lia.
    + change (noise (world (web_conn file_request))) with 1%nat. lia.
    + exists (file_of (lit "hi")), (repeat "000"%char 2). split; [vm_compute; reflexivity|].
      split; [vm_compute; reflexivity|]. split; [discriminate|]. split; [exact I|]. split; [vm_compute; split; discriminate|].
      change (noise (file_of (lit "hi"))) with 0%nat. lia.
  - destruct (Hcgi eq_refl) as [-> ->]. clear Hcgi. rewrite app_nil_r in Ho, Hk.
    set (answer := response _ _ _ _) in *. clearbody answer.
    specialize (Hk (Client (rio_readinitb web_junk) [] (file_of answer))). cbv zeta in Hk.
    change (output (world (web_conn file_request))) with (@nil ascii) in Ho. cbn [app] in Ho.
    destruct Hk as (k' & Hrun' & Hout).
    + split; [exact I|]. split_and!; [|unfold MAXBUF; lia|apply file_of_input].
      cbn [c_world]. assert (Hno : noise (file_of answer) = 0%nat) by (unfold file_of; by destruct answer). rewrite Hno. lia.
    + exists c', (Client (rio_readinitb web_junk) [] (file_of answer)), k'.
      split_and!; [exact Hrun|cbn [c_world]; rewrite Ho; apply file_of_input|reflexivity|exact Hrun'|].
      eexists. rewrite Hout. cbn [c_out app]. unfold printed. reflexivity.
Defined.
