(* ===== verification/Server.v ===== *)
(** * [multithreaded-web-server/server.c]: the server

    [main] up to its loop, the round of the loop, the round of a worker, and
    the server they make up: the master, thread 0 of the request queue, accepts
    connections and pushes them; the workers pop them, handle them and close
    them.  The queue runs statement by statement, as [ReqQueue] has it, and so
    does the log, as [ServerLog] has it: a worker handles its request up to
    the call of the log it makes ([until_log]), goes through the statements of
    [log_write] or [log_read] as a thread of the log, interleaved with the
    calls of the other workers, and handles the rest ([after_log]). *)

From stdpp Require Import gmap.
From S2P Require Import Prelude Monitor ServerLog ReqQueue ShellText Rio Segel Request RequestProps RequestSplit Backend.

(** What [main] asks of the system besides [Segel]'s calls. *)
Class Console (K : Type) := { put_out : text -> K -> K }.
Class Clock (K : Type) := { gettimeofday : K -> timeval * K }.

(** ** [main] before its loop *)

(** The addresses of the mutexes and condition variables of [g_log] and
    [g_queue]. *)
Record addresses := {
  log_mutex : Z; log_can_read : Z; log_can_write : Z;
  queue_mutex : Z; queue_not_full : Z; queue_not_empty : Z;
}.

(** What [main] has made when it enters its loop. *)
Record ready_server := Ready {
  r_log : server_log;
  r_sleep : Z;
  r_queue : req_queue;
  r_tstats : list threads_stats;
  r_tids : list Z;
  r_listenfd : Z;
}.

Section main.
Context {K : Type} `{Errors K} `{Console K} `{Threads K Z} `{Monitors K} `{Memory K} `{Sockets K}.
Context (at_ : addresses).

(** The contents of fresh memory, as bytes and as queue items. *)
Context (junk : Z -> list ascii) (junk_items : Z -> list queue_item).

Definition log_setup (debug_sleep_time : Z) : M K (ended (server_log * Z)) :=
  Malloc LOG_INIT_CAP ;;!
  let* log := try_gets (fun _ => log_init junk) in
  Pthread_mutex_init (log_mutex at_) ;;!
  Pthread_cond_init (log_can_read at_) ;;!
  Pthread_cond_init (log_can_write at_) ;;!
  finish (log, if 0 <? debug_sleep_time then debug_sleep_time else 0).

(** [sizeof(queue_item_t)] is 24. *)
Definition queue_setup (cap : Z) : M K (ended req_queue) :=
  Malloc (wrap64 (cap * 24)) ;;!
  Pthread_mutex_init (queue_mutex at_) ;;!
  Pthread_cond_init (queue_not_full at_) ;;!
  Pthread_cond_init (queue_not_empty at_) ;;!
  finish (queue_init (junk_items cap) cap).

(** The loop that starts the workers; a worker's argument is its index. *)
Fixpoint spawn (idxs : list Z) : M K (ended (list Z)) :=
  match idxs with
  | [] => finish []
  | i :: rest =>
      Malloc 4 ;;!
      let! tid := Pthread_create i in
      let! tids := spawn rest in
      finish (tid :: tids)
  end.

Definition usage (name : text) : text :=
  lit "Usage: " ++ name ++ lit " <port> <threads> <queue_size> [debug_sleep_time]" ++ ["010"%char].

Definition not_positive : text := lit "threads and queue_size must be positive" ++ ["010"%char].

Definition greeting (port num_threads queue_size debug_sleep_time : Z) : text :=
  lit "Server: port=" ++ show port ++ lit " threads=" ++ show num_threads ++ lit " queue=" ++ show queue_size ++
  lit " debug_sleep=" ++ show debug_sleep_time ++ ["010"%char].

(** [Calloc] yields zeroed counters; [init_stats] numbers them. *)
Definition start_threads (num_threads : Z) : M K (ended (list threads_stats * list Z)) :=
  Calloc num_threads 20 ;;!
  Malloc (wrap64 (num_threads * 8)) ;;!
  let! tids := spawn (seqZ 0 num_threads) in
  finish (init_stats (Z.to_nat num_threads), tids).

Definition start (port num_threads queue_size debug_sleep_time : Z) : M K (ended ready_server) :=
  let! log := log_setup debug_sleep_time in
  let! queue := queue_setup queue_size in
  let! workers := start_threads num_threads in
  let! listenfd := Open_listenfd port in
  modify (put_out (greeting port num_threads queue_size debug_sleep_time)) ;;*
  finish (Ready (fst log) (snd log) queue (fst workers) (snd workers) listenfd).

Definition main (argv : list text) : M K (ended ready_server) :=
  match argv with
  | _ :: port :: threads :: size :: rest =>
      let* port := try_gets (fun _ => atoi port) in
      let* num_threads := try_gets (fun _ => atoi threads) in
      let* queue_size := try_gets (fun _ => atoi size) in
      let* debug_sleep_time := try_gets (fun _ => match rest with [] => Some 0 | s :: _ => atoi s end) in
      if (num_threads <=? 0) || (queue_size <=? 0)
      then modify (put_err not_positive) ;;* ret Exited
      else start port num_threads queue_size debug_sleep_time
  | _ => modify (put_err (usage (default [] (List.head argv)))) ;;* ret Exited
  end.

End main.

(** ** The rounds *)

Definition timeval_of (t : Z * Z) : timeval := {| tv_sec := fst t; tv_usec := snd t |}.

(** The call of [log.c] a pause is at, and what [log_read] hands back: the
    first bytes of the buffer, as many as it returned. *)
Definition call_of (p : pause) : ServerLog.call :=
  match p with AtWrite entry _ => ServerLog.Write entry | AtRead => ServerLog.Read end.

Definition returned (o : ServerLog.call) (v : locals) : bytes :=
  match o with ServerLog.Write _ => [] | ServerLog.Read => take (Z.to_nat (rlen v)) (out_buf v) end.

(** A thread of the log before the statement [gettimeofday(log_enter)], or
    [gettimeofday(log_exit)], that follows the locking and precedes the
    unlocking. *)
Definition at_enter (th : ServerLog.thread) : bool :=
  match op th, pc th with Some (ServerLog.Write _), 6%nat => true | Some ServerLog.Read, 4%nat => true | _, _ => false end.
Definition at_exit (th : ServerLog.thread) : bool :=
  match op th, pc th with Some (ServerLog.Write _), 10%nat => true | Some ServerLog.Read, 6%nat => true | _, _ => false end.

Section rounds.
Context {K E D F : Type}.
Context `{Errors K} `{Clock K} `{Sockets K} `{FileCalls K}.
Context `{Descriptor D} `{Descriptor F} `{!Environment E D F}.
Context (fuel : nat).

(** The bytes of an uninitialised [rio_buf]. *)
Context (junk : bytes).

(** The master: what it pushes next. *)
Definition accept_round (listenfd : Z) : M K (ended queue_item) :=
  let! connfd := Accept listenfd in
  let* arr := sys gettimeofday in
  finish (Item connfd (tv_sec arr, tv_usec arr)).

Notation conn := (conn (W := (D * E))).

(** A request whose worker is inside the log: the call it makes, the
    connection, and the times the log has taken. *)
Record suspended := Suspended {
  at_call : pause;
  s_rio : rio_t;
  s_tm : time_stats;
  s_desc : D;
  entered : option timeval;
  left : option timeval;
}.

Definition suspend (p : pause) (c : conn) : suspended := Suspended p (rio c) (tm c) (fst (world c)) None None.

(** The clock is read; a thread goes on from the statement only then. *)
Definition stamp (t : timeval) (th : ServerLog.thread) (u : suspended) : option suspended :=
  match entered u, left u with
  | None, _ => if at_enter th then Some (Suspended (at_call u) (s_rio u) (s_tm u) (s_desc u) (Some t) (left u)) else None
  | Some _, None => if at_exit th then Some (Suspended (at_call u) (s_rio u) (s_tm u) (s_desc u) (entered u) (Some t)) else None
  | Some _, Some _ => None
  end.

Definition stamped (th : ServerLog.thread) (u : suspended) : bool :=
  (negb (at_enter th) || bool_decide (is_Some (entered u))) && (negb (at_exit th) || bool_decide (is_Some (left u))).

Definition on_kernel {A} (m : M K A) : M (K * E) A := fun '(k, e) =>
  match m k with Ok (a, k') => Ok (a, (k', e)) | Err er => Err er end.

(** Code of [request.c] on the connection [d] of a worker; what else it works
    on is shared. *)
Definition on_shared {A} (m : M conn A) (rp : rio_t) (s : threads_stats) (t : time_stats) (d : D) : M (K * E) (A * conn) :=
  fun '(k, e) => match m (Conn rp s t (d, e)) with Ok (a, c) => Ok ((a, c), (k, snd (world c))) | Err er => Err er end.

(** The times a round starts with. *)
Definition round_times (x : queue_item) (dispatch : timeval) : time_stats :=
  {| task_arrival := timeval_of (arrival x); task_dispatch := dispatch; log_enter := dispatch; log_exit := dispatch |}.

(** The end of a round. *)
Definition close_conn {A} (x : queue_item) (a : A) : M (K * E) (ended A) :=
  on_kernel (Close (connfd x)) ;;! finish a.

(** A worker that has popped [x] begins with the connection [d]; [None]: the
    request made no call of the log and is answered. *)
Definition begin (x : queue_item) (s : threads_stats) (d : D) : M (K * E) (ended (option pause * conn)) :=
  let* dispatch := on_kernel (sys gettimeofday) in
  let* rc := on_shared (until_log fuel junk) (rio_readinitb junk) s (round_times x dispatch) d in
  match fst rc with
  | Exited => ret Exited
  | Value (Some p) => finish (Some p, snd rc)
  | Value None => close_conn x (None, snd rc)
  end.

(** It is back from the log. *)
Definition resume (x : queue_item) (s : threads_stats) (u : suspended) (bs : bytes) (times : timeval * timeval) :
    M (K * E) (ended conn) :=
  let* rc := on_shared (after_log (F := F) fuel (at_call u) (bs, times)) (s_rio u) s (s_tm u) (s_desc u) in
  match fst rc with
  | Exited => ret Exited
  | Value _ => close_conn x (snd rc)
  end.

End rounds.

Arguments suspended : clear implicits.

(** ** The server *)

#[export] Instance item_eq_dec : EqDecision queue_item.
Proof. solve_decision. Defined.

#[export] Instance call_eq_dec : EqDecision ReqQueue.call.
Proof. solve_decision. Defined.

Section system.
Context {K E D F : Type}.
Context `{Errors K} `{Clock K} `{Sockets K} `{FileCalls K}.
Context `{Descriptor D} `{Descriptor F} `{!Environment E D F}.
Context (fuel : nat) (junk : bytes) (fresh : Z -> list ascii) (listenfd : Z).

Notation conn := (conn (W := (D * E))).
Notation log_body := (ServerLog.body fresh).

(** Thread 0 of [queue] is the master, thread [i + 1] the worker [i].  [hand]
    is what the master accepted and has not begun to push, [busy] what each
    worker popped and has not closed, [conns] the open connections as they
    were accepted.  Thread [i] of [log] is the worker [i]; [paused] is the
    request it is inside the log with. *)
Record server := Server {
  queue : config;
  hand : option queue_item;
  busy : list (option queue_item);
  conns : gmap Z D;
  tstats : list threads_stats;
  kernel : K;
  rest : E;
  log : ServerLog.config;
  paused : list (option (suspended D));
}.

(** The connections after [Close(fd)]. *)
Definition closed (fd : Z) (cs : gmap Z D) : gmap Z D := delete fd cs.

(** What a step does: a connection is accepted, the queue changes, the worker
    [i] has a log call take effect, a worker has handled a connection, which
    it leaves as [c]. *)
Inductive happening :=
| Accepted (x : queue_item) (d : D)
| Queued (e : ReqQueue.event)
| Logged (i : nat) (e : ServerLog.event)
| Served (i : nat) (x : queue_item) (c : conn).

Notation queue_body := ReqQueue.body.
Notation no_item := (fun _ : ReqQueue.call => None (A := queue_item)).

(** The steps of the worker [i] from the time it has popped a connection: it
    begins with it, and answers it or enters the log; it goes on in the log; it
    is back from there and answers.  Without a state after it, the process
    exits. *)
Inductive work (i : nat) : server -> option happening -> option server -> Prop :=
| work_answer q h b cs s k e l ps x d s0 c k' e' :
    b !! i = Some (Some x) -> ps !! i = Some None -> cs !! connfd x = Some d -> s !! i = Some s0 ->
    begin (F := F) fuel junk x s0 d (k, e) = Ok (Value (None, c), (k', e')) ->
    work i (Server q h b cs s k e l ps) (Some (Served i x c))
         (Some (Server q h (<[i := None]> b) (closed (connfd x) cs) (<[i := ts c]> s) k' e' l ps))
| work_call q h b cs s k e l ps x d s0 p c k' e' l' :
    b !! i = Some (Some x) -> ps !! i = Some None -> cs !! connfd x = Some d -> s !! i = Some s0 ->
    begin (F := F) fuel junk x s0 d (k, e) = Ok (Value (Some p, c), (k', e')) ->
    enter no_locals i (call_of p) l = Some l' ->
    work i (Server q h b cs s k e l ps) None
         (Some (Server q h b cs (<[i := ts c]> s) k' e' l' (<[i := Some (suspend p c)]> ps)))
| work_begin_fails q h b cs s k e l ps x d s0 k' e' :
    b !! i = Some (Some x) -> ps !! i = Some None -> cs !! connfd x = Some d -> s !! i = Some s0 ->
    begin (F := F) fuel junk x s0 d (k, e) = Ok (Exited, (k', e')) ->
    work i (Server q h b cs s k e l ps) None None
| work_stamp q h b cs s k e l ps th u u' t k' :
    ps !! i = Some (Some u) -> threads l !! i = Some th -> gettimeofday k = (t, k') -> stamp t th u = Some u' ->
    work i (Server q h b cs s k e l ps) None (Some (Server q h b cs s k' e l (<[i := Some u']> ps)))
| work_log q h b cs s k e l ps th u ev l' :
    ps !! i = Some (Some u) -> threads l !! i = Some th -> stamped th u = true ->
    Monitor.step log_body no_locals l ev l' -> map op (threads l') = map op (threads l) -> by_thread i l l' ->
    work i (Server q h b cs s k e l ps) (Logged i <$> ev) (Some (Server q h b cs s k e l' ps))
| work_serve q h b cs s k e l ps x s0 u t1 t2 o v l' c k' e' :
    b !! i = Some (Some x) -> ps !! i = Some (Some u) -> s !! i = Some s0 -> entered u = Some t1 -> left u = Some t2 ->
    leave log_body i l = Some (o, v, l') ->
    resume (F := F) fuel x s0 u (returned o v) (t1, t2) (k, e) = Ok (Value c, (k', e')) ->
    work i (Server q h b cs s k e l ps) (Some (Served i x c))
         (Some (Server q h (<[i := None]> b) (closed (connfd x) cs) (<[i := ts c]> s) k' e' l' (<[i := None]> ps)))
| work_serve_fails q h b cs s k e l ps x s0 u t1 t2 o v l' k' e' :
    b !! i = Some (Some x) -> ps !! i = Some (Some u) -> s !! i = Some s0 -> entered u = Some t1 -> left u = Some t2 ->
    leave log_body i l = Some (o, v, l') ->
    resume (F := F) fuel x s0 u (returned o v) (t1, t2) (k, e) = Ok (Exited, (k', e')) ->
    work i (Server q h b cs s k e l ps) None None.

(** The steps of the server: the master's, those of the queue, and the
    workers'. *)
Inductive step : server -> option happening -> option server -> Prop :=
| step_accept q b cs s k e l ps x d k' :
    idle_at 0 q -> accept_round listenfd k = Ok (Value x, k') -> cs !! connfd x = None ->
    step (Server q None b cs s k e l ps) (Some (Accepted x d))
         (Some (Server q (Some x) b (<[connfd x := d]> cs) s k' e l ps))
| step_accept_fails q b cs s k e l ps k' :
    idle_at 0 q -> accept_round listenfd k = Ok (Exited, k') ->
    step (Server q None b cs s k e l ps) None None
| step_push q b cs s k e l ps x q' :
    enter no_item 0 (Push (connfd x) (arrival x)) q = Some q' ->
    step (Server q (Some x) b cs s k e l ps) None (Some (Server q' None b cs s k e l ps))
| step_pushed q h b cs s k e l ps o v q' :
    leave queue_body 0 q = Some (o, v, q') -> step (Server q h b cs s k e l ps) None (Some (Server q' h b cs s k e l ps))
| step_pop q h b cs s k e l ps i q' :
    b !! i = Some None -> enter no_item (S i) Pop q = Some q' ->
    step (Server q h b cs s k e l ps) None (Some (Server q' h b cs s k e l ps))
| step_popped q h b cs s k e l ps i o x q' :
    leave queue_body (S i) q = Some (o, Some x, q') -> b !! i = Some None ->
    step (Server q h b cs s k e l ps) None (Some (Server q' h (<[i := Some x]> b) cs s k e l ps))
| step_queue q h b cs s k e l ps ev q' :
    Monitor.step queue_body no_item q ev q' -> map op (threads q') = map op (threads q) ->
    step (Server q h b cs s k e l ps) (Queued <$> ev) (Some (Server q' h b cs s k e l ps))
| step_work i c ev oc : work i c ev oc -> step c ev oc.

Inductive run : server -> list happening -> server -> Prop :=
| run_nil c : run c [] c
| run_snoc c tr c1 e c2 : run c tr c1 -> step c1 e (Some c2) -> run c (tr ++ option_list e) c2.

(** The server [main] enters its loop with: every thread is outside the queue
    and outside the log. *)
Definition started (r : ready_server) (k : K) (e : E) : server :=
  let n := length (r_tstats r) in
  Server (Config (r_queue r) None (repeat (Thread None 0 None Running) (S n)))
         None (repeat None n) ∅ (r_tstats r) k e
         (Config (r_log r) None (repeat (Thread None 0 (Locals 0 []) Running) n)) (repeat None n).

(** ** What the happenings say *)

Definition accepted (tr : list happening) : list queue_item :=
  omap (fun e => match e with Accepted x _ => Some x | _ => None end) tr.
Definition queued (tr : list happening) : list ReqQueue.event :=
  omap (fun e => match e with Queued e => Some e | _ => None end) tr.
Definition log_events (tr : list happening) : list ServerLog.event :=
  omap (fun e => match e with Logged _ e => Some e | _ => None end) tr.
Definition served_items (tr : list happening) : list queue_item :=
  omap (fun e => match e with Served _ x _ => Some x | _ => None end) tr.
Definition taken (tr : list happening) : list queue_item := popped (queued tr).

(** ** Executing a schedule *)

(** Choices: the connection the master accepts, which thread goes on in the
    queue, which worker pops, has popped, begins with its connection, goes on
    in the log or takes its time there, or is back from the log. *)
Inductive choice :=
| TakeConn (d : D) | BeginPush | EndPush | BeginPop (i : nat) | EndPop (i : nat) | Go (i : nat)
| Begin (i : nat) | Stamp (i : nat) | GoLog (i : nat) | Resume (i : nat).

Notation outcome := (option (option happening * server)).

Definition exec_accept (d : D) (c : server) : outcome :=
  let '(Server q h b cs s k e l ps) := c in
  match threads q !! 0%nat, h, accept_round listenfd k with
  | Some th, None, Ok (Value x, k') =>
      match op th, cs !! connfd x with
      | None, None => Some (Some (Accepted x d), Server q (Some x) b (<[connfd x := d]> cs) s k' e l ps)
      | _, _ => None
      end
  | _, _, _ => None
  end.

Definition exec_pop (i : nat) (c : server) : outcome :=
  let '(Server q h b cs s k e l ps) := c in
  match b !! i, enter no_item (S i) Pop q with
  | Some None, Some q' => Some (None, Server q' h b cs s k e l ps)
  | _, _ => None
  end.

Definition exec_popped (i : nat) (c : server) : outcome :=
  let '(Server q h b cs s k e l ps) := c in
  match b !! i, leave queue_body (S i) q with
  | Some None, Some (_, Some x, q') => Some (None, Server q' h (<[i := Some x]> b) cs s k e l ps)
  | _, _ => None
  end.

Definition exec_queue (i : nat) (c : server) : outcome :=
  let '(Server q h b cs s k e l ps) := c in
  match Monitor.exec queue_body no_item (Monitor.Go i) q with
  | Some (ev, q') =>
      if bool_decide (map op (threads q') = map op (threads q))
      then Some (Queued <$> ev, Server q' h b cs s k e l ps) else None
  | None => None
  end.

Definition exec_begin (i : nat) (c : server) : outcome :=
  let '(Server q h b cs s k e l ps) := c in
  match b !! i, ps !! i, s !! i with
  | Some (Some x), Some None, Some s0 =>
      match cs !! connfd x with
      | Some d =>
          match begin (F := F) fuel junk x s0 d (k, e) with
          | Ok (Value (None, c'), (k', e')) =>
              Some (Some (Served i x c'), Server q h (<[i := None]> b) (closed (connfd x) cs) (<[i := ts c']> s) k' e' l ps)
          | Ok (Value (Some p, c'), (k', e')) =>
              l' ← enter no_locals i (call_of p) l;
              Some (None, Server q h b cs (<[i := ts c']> s) k' e' l' (<[i := Some (suspend p c')]> ps))
          | _ => None
          end
      | None => None
      end
  | _, _, _ => None
  end.

Definition exec_stamp (i : nat) (c : server) : outcome :=
  let '(Server q h b cs s k e l ps) := c in
  match ps !! i, threads l !! i, gettimeofday k with
  | Some (Some u), Some th, (t, k') =>
      u' ← stamp t th u; Some (None, Server q h b cs s k' e l (<[i := Some u']> ps))
  | _, _, _ => None
  end.

#[local] Instance log_call_eq_dec : EqDecision ServerLog.call.
Proof. solve_decision. Defined.

Definition exec_log (i : nat) (c : server) : outcome :=
  let '(Server q h b cs s k e l ps) := c in
  match ps !! i, threads l !! i, Monitor.exec log_body no_locals (Monitor.Go i) l with
  | Some (Some u), Some th, Some (ev, l') =>
      if stamped th u && bool_decide (map op (threads l') = map op (threads l))
      then Some (Logged i <$> ev, Server q h b cs s k e l' ps) else None
  | _, _, _ => None
  end.

Definition exec_resume (i : nat) (c : server) : outcome :=
  let '(Server q h b cs s k e l ps) := c in
  match b !! i, ps !! i, s !! i, leave log_body i l with
  | Some (Some x), Some (Some u), Some s0, Some (o, v, l') =>
      match entered u, left u with
      | Some t1, Some t2 =>
          match resume (F := F) fuel x s0 u (returned o v) (t1, t2) (k, e) with
          | Ok (Value c', (k', e')) =>
              Some (Some (Served i x c'), Server q h (<[i := None]> b) (closed (connfd x) cs) (<[i := ts c']> s) k' e' l' (<[i := None]> ps))
          | _ => None
          end
      | _, _ => None
      end
  | _, _, _, _ => None
  end.

Definition exec (ch : choice) (c : server) : outcome :=
  let '(Server q h b cs s k e l ps) := c in
  match ch with
  | TakeConn d => exec_accept d c
  | BeginPush =>
      match h with
      | Some x => q' ← enter no_item 0 (Push (connfd x) (arrival x)) q; Some (None, Server q' None b cs s k e l ps)
      | None => None
      end
  | EndPush => '(_, _, q') ← leave queue_body 0 q; Some (None, Server q' h b cs s k e l ps)
  | BeginPop i => exec_pop i c
  | EndPop i => exec_popped i c
  | Go i => exec_queue i c
  | Begin i => exec_begin i c
  | Stamp i => exec_stamp i c
  | GoLog i => exec_log i c
  | Resume i => exec_resume i c
  end.

Fixpoint exec_all (chs : list choice) (tr : list happening) (c : server) : option (list happening * server) :=
  match chs with
  | [] => Some (tr, c)
  | ch :: chs' => '(e, c') ← exec ch c; exec_all chs' (tr ++ option_list e) c'
  end.

Lemma exec_sound ch c e c' : exec ch c = Some (e, c') -> step c e (Some c').
Proof.
  destruct c as [q h b cs s k e0 l ps]. destruct ch as [d| | |i|i|i|i|i|i|i]; cbn; intros He; repeat (case_match; try done); simplify_eq.
  - apply step_accept; [by eexists|done..].
  - apply bind_Some in He as (q' & Hq & He). simplify_eq. by apply step_push.
  - apply bind_Some in He as ([[o v] q'] & Hq & He). simplify_eq. by eapply step_pushed.
  - by eapply step_pop.
  - by eapply step_popped.
  - apply step_queue; [by eapply Monitor.exec_step|]. by eapply bool_decide_eq_true.
  - apply bind_Some in He as (l' & Hl & He). simplify_eq. by eapply step_work, work_call.
  - by eapply step_work, work_answer.
  - apply bind_Some in He as (u' & Hu & He). simplify_eq. by eapply step_work, work_stamp.
  - match goal with Hs : _ && _ = true |- _ => apply andb_true_iff in Hs as [Hst Hop%bool_decide_eq_true] end.
    eapply step_work, work_log; [done..|by eapply Monitor.exec_step|done|by eapply exec_by_thread].
  - by eapply step_work, work_serve.
Qed.

Lemma exec_all_sound chs c0 tr c tr' c' : run c0 tr c -> exec_all chs tr c = Some (tr', c') -> run c0 tr' c'.
Proof.
  revert tr c. induction chs as [|ch chs IH]; intros tr c Hrun He; cbn in He; [by simplify_eq|].
  apply bind_Some in He as ([e c1] & Hs & He). eapply IH; [|done]. eapply run_snoc; [done|]. by eapply exec_sound.
Qed.

End system.

Arguments server : clear implicits.
Arguments happening : clear implicits.
