(* ===== verification/ServerInv.v ===== *)
(** * [server.c]: where every connection is

    The account of the connections: each one that was accepted waits, is
    moved by a thread inside the queue, is handled, or was served, and its
    descriptor is open exactly until then; and where every worker is: a worker
    inside the log holds a connection.  Both are invariants of every run of
    [Server.step]. *)

From stdpp Require Import gmap.
From S2P Require Import Prelude Monitor ServerLog ReqQueue ShellText Rio Segel Request RequestProps RequestSplit Backend Server.

(** ** Lists collected over threads *)

Section collect.
Context {A B : Type} (f : A -> list B).

Lemma collect_insert l i x y :
  l !! i = Some x -> f x ++ flat_map f (<[i := y]> l) ≡ₚ f y ++ flat_map f l.
Proof.
  revert i. induction l as [|z l IH]; intros [|i] Hi; cbn in Hi; [done..|simplify_eq; apply Permutation_app_swap_app|].
  cbn. rewrite (Permutation_app_swap_app (f x)), (Permutation_app_swap_app (f y)). by rewrite (IH i Hi).
Qed.

(** One element changes, and its list grows by [p]. *)
Lemma collect_changed i p l l' :
  length l' = length l -> (i < length l)%nat ->
  (forall j y, l' !! j = Some y -> exists x, l !! j = Some x /\ f y = (if decide (j = i) then p else []) ++ f x) ->
  flat_map f l' ≡ₚ p ++ flat_map f l.
Proof.
  revert i l'. induction l as [|x l IH]; intros i l' Hlen Hi Hf; [cbn in Hi; lia|].
  destruct l' as [|y l']; [done|]. cbn in Hlen, Hi. destruct (Hf 0%nat y eq_refl) as (x' & [= <-] & Hy).
  destruct i as [|i].
  - cbn. rewrite Hy, decide_True, <- app_assoc by done. do 2 f_equiv.
    assert (Heq : forall j y', l' !! j = Some y' -> exists x', l !! j = Some x' /\ f y' = f x').
    { intros j y' Hj. destruct (Hf (S j) y' Hj) as (x' & Hx & Hfy). rewrite decide_False in Hfy by done. by exists x'. }
    clear -Hlen Heq. revert l Hlen Heq. induction l' as [|y l' IH]; intros [|x l] Hlen Heq; [reflexivity|done|done|].
    cbn. destruct (Heq 0%nat y eq_refl) as (? & [= <-] & ->). f_equiv. apply IH; [cbn in Hlen; lia|].
    intros j y' Hj. exact (Heq (S j) y' Hj).
  - cbn. rewrite Hy, decide_False by done. cbn. rewrite (IH i l'); [|lia|lia|].
    + apply Permutation_app_swap_app.
    + intros j y' Hj. destruct (Hf (S j) y' Hj) as (x' & Hx & Hfy). exists x'. split; [done|]. rewrite Hfy.
      destruct (decide (S j = S i)), (decide (j = i)); (done || lia).
Qed.

End collect.

(** ** The account of a thread *)

Notation queue_step := (Monitor.step body (fun _ => None)).
Notation queue_run := (Monitor.run body (fun _ => None)).

(** The connection a push has not put into the queue yet; what a pop has
    taken out of it. *)
Definition carried (th : thread) : list queue_item :=
  match op th with Some (Push fd arr) => if (pc th <=? 5)%nat then [Item fd arr] else [] | _ => [] end.
Definition fetched (th : thread) : list queue_item :=
  match op th with Some Pop => if (5 <=? pc th)%nat then option_list (local th) else [] | _ => [] end.

(** A pop past its third statement has loaded an item. *)
Definition loaded (th : thread) : Prop := op th = Some Pop -> (3 <= pc th)%nat -> is_Some (local th).

Definition pushed_by (e : option event) : list queue_item := match e with Some (Pushed x) => [x] | _ => [] end.
Definition popped_by (e : option event) : list queue_item := match e with Some (Popped x) => [x] | _ => [] end.

Definition accounts (e : option event) (th th' : thread) : Prop :=
  op th' = op th /\ carried th = pushed_by e ++ carried th' /\ fetched th' = popped_by e ++ fetched th /\ (loaded th -> loaded th').

Lemma accounts_stat st th : accounts None th (with_stat st th).
Proof. done. Qed.

Lemma accounts_refl th : accounts None th th.
Proof. done. Qed.

Lemma accounts_move th ins :
  Monitor.stat th = Running -> at_instr body th = Some ins -> match ins with Act _ => False | _ => True end -> accounts None th (next th).
Proof.
  intros _ Hat Hact. instr_op Hat o Hop. unfold accounts, carried, fetched, loaded, next. cbn [op pc local].
  rewrite Hop. remember (pc th) as n eqn:Hn. clear Hn. statement o Hat; try done; (split_and!; [done..|]); intros Hl _ H3; by apply Hl; [|lia].
Qed.

Lemma accounts_act th f v q e :
  at_instr body th = Some (Act f) -> f (local th) v = Some q -> q.2 = e ->
  accounts e th (Thread (op th) (S (pc th)) q.1.1 Running).
Proof.
  intros Hat Hf <-. destruct q as [[l' q'] e]. cbn [fst snd]. instr_op Hat o Hop.
  unfold accounts, carried, fetched, loaded. cbn [op pc local]. rewrite Hop. remember (pc th) as n eqn:Hn. clear Hn.
  statement o Hat; unfold store_connfd, store_arrival, step_tail, count_up, load_head, step_head, count_down in Hf;
    repeat match type of Hf with (_ ≫= _) = _ => apply bind_Some in Hf as (? & ?Hx & Hf) end; simplify_eq/=;
    (split_and!; try done);
    first [by destruct (local th)|by intros Hl _ _; apply Hl; [|lia]].
Qed.

(** A step of the queue without calls that begin or end: one thread moves,
    and its account changes by the event. *)
Lemma queue_step_accounts c e c' :
  queue_step c e c' -> map op (threads c') = map op (threads c) -> one_moves accounts e c c'.
Proof.
  apply inside_moved; [apply accounts_refl|intros; apply accounts_stat|apply accounts_move|].
  intros th f l' s' e0 _ Hat Hf. by apply (accounts_act th f (shared c) (l', s', e0)).
Qed.

(** ** The account of the server *)

Section inv.
Context {K E D F : Type}.
Context `{Errors K} `{Clock K} `{Sockets K} `{FileCalls K}.
Context `{Descriptor D} `{Descriptor F} `{!Environment E D F}.
Context (fuel : nat) (junk : bytes) (fresh : Z -> list ascii) (listenfd : Z).

Notation server := (server K E D).
Notation happening := (happening E D).
Notation step := (Server.step (F := F) fuel junk fresh listenfd).
Notation run := (Server.run (F := F) fuel junk fresh listenfd).

(** What the workers hold: popped, and not served. *)
Definition inside (c : server) : list queue_item :=
  flat_map fetched (threads (queue c)) ++ flat_map option_list (busy c).

(** What the master holds: accepted, and not in the queue. *)
Definition offered (c : server) : list queue_item :=
  match threads (queue c) !! 0%nat with Some th => carried th | None => [] end ++ option_list (hand c).

(** The open connections are those of the requests [l]. *)
Record connected (tr : list happening) (cs : gmap Z D) (l : list queue_item) : Prop := {
  con_distinct : NoDup (connfd <$> l);
  con_open : forall x, x ∈ l -> exists d, cs !! connfd x = Some d /\ Accepted x d ∈ tr;
  con_only : forall fd, is_Some (cs !! fd) -> fd ∈ connfd <$> l;
}.

Record sound (n : nat) (q0 : config) (tr : list happening) (c : server) : Prop := {
  so_queue : queue_run q0 (queued tr) (queue c);
  so_threads : length (threads (queue c)) = Datatypes.S n;
  so_workers : length (busy c) = n;
  so_stats : length (tstats c) = n;
  so_roles : forall i th o, threads (queue c) !! i = Some th -> op th = Some o -> (o = Pop <-> i <> 0%nat);
  so_loaded : forall i th, threads (queue c) !! i = Some th -> loaded th;
  so_hand : is_Some (hand c) -> idle_at 0 (queue c);
  so_busy : forall i x, busy c !! i = Some (Some x) -> idle_at (Datatypes.S i) (queue c);
  so_accepted : accepted tr = pushed (queued tr) ++ offered c;
  so_taken : taken tr ≡ₚ served_items tr ++ inside c;
  so_conns : forall l, accepted tr ≡ₚ served_items tr ++ l -> connected tr (conns c) l;
}.

Lemma connected_perm tr cs l l' : l ≡ₚ l' -> connected tr cs l -> connected tr cs l'.
Proof.
  intros Hp [C1 C2 C3]. split.
  - by rewrite <- Hp.
  - intros x Hx. apply C2. by rewrite Hp.
  - intros fd Hfd. rewrite <- Hp. by apply C3.
Qed.

Lemma connected_trace tr e cs l : connected tr cs l -> connected (tr ++ e) cs l.
Proof.
  intros [C1 C2 C3]. split; [done| |done]. intros x Hx. destruct (C2 x Hx) as (d & Hd & Hin).
  exists d. split; [done|]. apply elem_of_app. by left.
Qed.

Lemma connected_accept tr cs l x d :
  connected tr cs l -> cs !! connfd x = None -> connected (tr ++ [Accepted x d]) (<[connfd x := d]> cs) (x :: l).
Proof.
  intros [C1 C2 C3] Hnone.
  assert (Hnew : connfd x ∉ connfd <$> l).
  { intros (y & Hxy & Hy)%list_elem_of_fmap. destruct (C2 y Hy) as (d' & Hd' & _). congruence. }
  split.
  - cbn. by apply NoDup_cons.
  - intros y [->|Hy]%elem_of_cons.
    + exists d. rewrite lookup_insert_eq. split; [done|]. apply elem_of_app. right. by apply list_elem_of_singleton.
    + destruct (C2 y Hy) as (d' & Hd' & Hin). exists d'. rewrite lookup_insert_ne by congruence. split; [done|].
      apply elem_of_app. by left.
  - intros fd Hfd. cbn. apply elem_of_cons. destruct (decide (fd = connfd x)) as [->|Hne]; [by left|right].
    apply C3. by rewrite lookup_insert_ne in Hfd by done.
Qed.

Lemma connected_close tr e cs l x :
  connected tr cs (x :: l) -> connected (tr ++ e) (closed (connfd x) cs) l.
Proof.
  intros Hc%(connected_trace _ e). destruct Hc as [[Hx C1]%NoDup_cons C2 C3]. split; [done| |].
  - intros y Hy. destruct (C2 y) as (d & Hd & Hin); [by right|]. exists d. split; [|done].
    unfold closed. rewrite lookup_delete_ne; [done|]. intros Heq. apply Hx. rewrite Heq. apply list_elem_of_fmap. by exists y.
  - unfold closed. intros fd (Hne & Hfd)%lookup_delete_is_Some. apply C3 in Hfd. by apply elem_of_cons in Hfd as [->|Hfd].
Qed.

Lemma accepted_snoc tr e : accepted (E := E) (D := D) (tr ++ e) = accepted tr ++ accepted e.
Proof. apply omap_app. Qed.
Lemma served_snoc tr e : served_items (E := E) (D := D) (tr ++ e) = served_items tr ++ served_items e.
Proof. apply omap_app. Qed.
Lemma queued_snoc tr e : queued (E := E) (D := D) (tr ++ e) = queued tr ++ queued e.
Proof. apply omap_app. Qed.

(** Everything accepted is served, held by a worker, in the queue, or held by
    the master. *)
Lemma sound_outstanding n q0 tr c l :
  sound n q0 tr c -> pushed (queued tr) = popped (queued tr) ++ l -> accepted tr ≡ₚ served_items tr ++ inside c ++ l ++ offered c.
Proof.
  intros Hs Hl. rewrite (so_accepted _ _ _ _ Hs), Hl. pose proof (so_taken _ _ _ _ Hs) as Ht. unfold taken in Ht.
  rewrite Ht. by rewrite <- !app_assoc.
Qed.

(** ** Every step keeps the account *)

Context (memory : list queue_item) (size : Z) (q0 : config).
Context (Hsize : 0 < size < 2 ^ 31) (Hmemory : Z.of_nat (length memory) = size).
Context (Hinit : initial (queue_init memory size) q0).

Implicit Types (q : config) (th : thread) (b : list (option queue_item)).

Lemma sound_invariant n tr c : sound n q0 tr c -> ReqQueue.invariant size (queued tr) (queue c).
Proof. intros Hs. by eapply run_queue, so_queue. Qed.

Lemma sound_contents n tr c :
  sound n q0 tr c -> exists l, pushed (queued tr) = popped (queued tr) ++ l /\ Z.of_nat (length l) <= size.
Proof.
  intros Hs. destruct (sound_invariant _ _ _ Hs) as (_ & Hcap & (l & Hl & Hc) & _). exists l. split; [done|].
  unfold consistent in Hc. destruct (owner (queue c)) as [i|].
  - destruct Hc as (th & o & _ & _ & Hat%at_point_length). lia.
  - pose proof (ring_full _ _ _ _ Hc). lia.
Qed.

(** One thread enters or leaves a call. *)
Lemma sound_thread n tr q h b cs s k sh l0 ps i th th' q' h' b' :
  sound n q0 tr (Server q h b cs s k sh l0 ps) -> queue_step q None q' ->
  threads q !! i = Some th -> threads q' = <[i := th']> (threads q) ->
  (forall o, op th' = Some o -> (o = Pop <-> i <> 0%nat)) -> loaded th' -> length b' = length b ->
  (is_Some h' -> idle_at 0 q') -> (forall j x, b' !! j = Some (Some x) -> idle_at (Datatypes.S j) q') ->
  offered (Server q' h' b' cs s k sh l0 ps) = offered (Server q h b cs s k sh l0 ps) ->
  inside (Server q' h' b' cs s k sh l0 ps) ≡ₚ inside (Server q h b cs s k sh l0 ps) ->
  sound n q0 (tr ++ []) (Server q' h' b' cs s k sh l0 ps).
Proof.
  intros [] Hstep Hi Hq Hrole Hload Hb Hh Hbusy Hoff Hin. rewrite app_nil_r. cbn in *.
  split; cbn [queue hand busy conns tstats kernel rest log paused].
  - rewrite <- (app_nil_r (queued tr)). by apply (Monitor.run_snoc _ _ _ _ q None).
  - by rewrite Hq, length_insert.
  - congruence.
  - done.
  - intros j tj o. rewrite Hq. destruct (decide (j = i)) as [->|Hne].
    + rewrite list_lookup_insert_eq by by eapply lookup_lt_Some. intros [= <-]. by apply Hrole.
    + rewrite list_lookup_insert_ne by done. apply so_roles0.
  - intros j tj. rewrite Hq. destruct (decide (j = i)) as [->|Hne].
    + rewrite list_lookup_insert_eq by by eapply lookup_lt_Some. by intros [= <-].
    + rewrite list_lookup_insert_ne by done. apply so_loaded0.
  - done.
  - done.
  - by rewrite so_accepted0, Hoff.
  - by rewrite so_taken0, Hin.
  - done.
Qed.

Lemma inside_thread q h b cs s k sh l0 ps i th th' q' h' b' :
  threads q !! i = Some th -> threads q' = <[i := th']> (threads q) ->
  fetched th ++ flat_map option_list b ≡ₚ fetched th' ++ flat_map option_list b' ->
  inside (Server q' h' b' cs s k sh l0 ps) ≡ₚ inside (Server q h b cs s k sh l0 ps).
Proof.
  intros Hi Hq Hf. unfold inside. cbn. pose proof (collect_insert fetched _ _ _ th' Hi) as Hc. rewrite <- Hq in Hc.
  apply (Permutation_app_inv_l (fetched th)). rewrite !app_assoc, Hc, <- !app_assoc.
  rewrite (Permutation_app_swap_app (fetched th)), Hf. apply Permutation_app_swap_app.
Qed.

Lemma offered_other q h b cs s k sh l0 ps i th' q' b' :
  threads q' = <[Datatypes.S i := th']> (threads q) ->
  offered (Server q' h b' cs s k sh l0 ps) = offered (Server q h b cs s k sh l0 ps).
Proof. intros Hq. unfold offered. cbn. by rewrite Hq, list_lookup_insert_ne. Qed.

Lemma offered_master q h b cs s k sh l0 ps th th' q' h' b' :
  threads q !! 0%nat = Some th -> threads q' = <[0%nat := th']> (threads q) ->
  carried th' ++ option_list h' = carried th ++ option_list h ->
  offered (Server q' h' b' cs s k sh l0 ps) = offered (Server q h b cs s k sh l0 ps).
Proof. intros Hi Hq Hc. unfold offered. cbn. by rewrite Hq, list_lookup_insert_eq, Hi by by eapply lookup_lt_Some. Qed.

Lemma fetched_idle th : op th = None -> fetched th = [].
Proof. unfold fetched. by intros ->. Qed.
Lemma carried_idle th : op th = None -> carried th = [].
Proof. unfold carried. by intros ->. Qed.

Lemma sound_push n tr q b cs s k sh l0 ps x q' :
  sound n q0 tr (Server q (Some x) b cs s k sh l0 ps) -> enter (fun _ => None) 0 (Push (connfd x) (arrival x)) q = Some q' ->
  sound n q0 (tr ++ []) (Server q' None b cs s k sh l0 ps).
Proof.
  intros Hs He. destruct (enter_step body _ _ _ _ _ He) as (th & Hi & Hop & Hq & Hstep).
  apply (sound_thread _ _ _ _ _ _ _ _ _ _ _ _ _ _ _ _ _ Hs Hstep Hi Hq); try done.
  - by intros o [= <-].
  - intros j y Hj. eapply idle_at_insert; [done|done|]. by apply (so_busy _ _ _ _ Hs j y).
  - eapply offered_master; [done..|]. rewrite (carried_idle th Hop). by destruct x.
  - eapply inside_thread; [done..|]. by rewrite (fetched_idle th Hop).
Qed.

Lemma sound_pushed n tr q h b cs s k sh l0 ps o v q' :
  sound n q0 tr (Server q h b cs s k sh l0 ps) -> leave body 0 q = Some (o, v, q') -> sound n q0 (tr ++ []) (Server q' h b cs s k sh l0 ps).
Proof.
  intros Hs He. destruct (leave_step body (fun _ => None) _ _ _ _ _ He) as (th & Hi & Hop & _ & Hpc & Hv & Hq & Hstep).
  assert (Ho : o <> Pop) by (intros ->; by apply (so_roles _ _ _ _ Hs _ _ _ Hi Hop)).
  destruct o as [fd arr|]; [|done].
  apply (sound_thread _ _ _ _ _ _ _ _ _ _ _ _ _ _ _ _ _ Hs Hstep Hi Hq); try done.
  - intros _. eapply idle_at_new; [done|by eexists|done].
  - intros j y Hj. eapply idle_at_insert; [done|done|]. by apply (so_busy _ _ _ _ Hs j y).
  - eapply offered_master; [done..|]. unfold carried. cbn. by rewrite Hop, Hpc.
  - eapply inside_thread; [done..|]. unfold fetched. cbn. by rewrite Hop.
Qed.

Lemma sound_pop n tr q h b cs s k sh l0 ps i q' :
  sound n q0 tr (Server q h b cs s k sh l0 ps) -> b !! i = Some None -> enter (fun _ => None) (Datatypes.S i) Pop q = Some q' ->
  sound n q0 (tr ++ []) (Server q' h b cs s k sh l0 ps).
Proof.
  intros Hs Hb He. destruct (enter_step body _ _ _ _ _ He) as (th & Hi & Hop & Hq & Hstep).
  apply (sound_thread _ _ _ _ _ _ _ _ _ _ _ _ _ _ _ _ _ Hs Hstep Hi Hq); try done.
  - by intros o [= <-].
  - intros _ Hge. cbn in Hge. lia.
  - intros Hh. eapply idle_at_insert; [done|done|]. by apply (so_hand _ _ _ _ Hs).
  - intros j y Hj. eapply idle_at_insert; [done| |by apply (so_busy _ _ _ _ Hs j y)]. intros [= ->]. congruence.
  - by eapply offered_other.
  - eapply inside_thread; [done..|]. by rewrite (fetched_idle th Hop).
Qed.

Lemma sound_popped n tr q h b cs s k sh l0 ps i o x q' :
  sound n q0 tr (Server q h b cs s k sh l0 ps) -> leave body (Datatypes.S i) q = Some (o, Some x, q') -> b !! i = Some None ->
  sound n q0 (tr ++ []) (Server q' h (<[i := Some x]> b) cs s k sh l0 ps).
Proof.
  intros Hs He Hb. destruct (leave_step body (fun _ => None) _ _ _ _ _ He) as (th & Hi & Hop & _ & Hpc & Hv & Hq & Hstep).
  assert (o = Pop) as -> by by apply (so_roles _ _ _ _ Hs _ _ _ Hi Hop).
  apply (sound_thread _ _ _ _ _ _ _ _ _ _ _ _ _ _ _ _ _ Hs Hstep Hi Hq); try done.
  - by rewrite length_insert.
  - intros Hh. eapply idle_at_insert; [done|done|]. by apply (so_hand _ _ _ _ Hs).
  - intros j y Hj. destruct (decide (j = i)) as [->|Hne]; [eapply idle_at_new; [done|by eexists|done]|].
    rewrite list_lookup_insert_ne in Hj by done. eapply idle_at_insert; [done|congruence|]. by apply (so_busy _ _ _ _ Hs j y).
  - by eapply offered_other.
  - eapply inside_thread; [done..|]. unfold fetched. cbn [op pc local]. rewrite Hop, Hpc, Hv. cbn.
    pose proof (collect_insert option_list _ _ _ (Some x) Hb) as Hc. cbn in Hc. by rewrite Hc.
Qed.

Lemma sound_queue n tr q h b cs s k sh l0 ps e q' :
  sound n q0 tr (Server q h b cs s k sh l0 ps) -> queue_step q e q' -> map op (threads q') = map op (threads q) ->
  sound n q0 (tr ++ option_list (Queued <$> e)) (Server q' h b cs s k sh l0 ps).
Proof.
  intros Hs Hstep Hops. destruct (queue_step_accounts _ _ _ Hstep Hops) as (Hlen & i & Hi & Hacc).
  assert (Hop : forall j tj', threads q' !! j = Some tj' -> exists tj, threads q !! j = Some tj /\ op tj' = op tj).
  { intros j tj' Hj. destruct (Hacc j tj' Hj) as (tj & Htj & Ho & _). by exists tj. }
  assert (Hidle : forall j, idle_at j q -> idle_at j q').
  { intros j (tj & Hj & Hnone). pose proof (lookup_lt_Some _ _ _ Hj) as Hlt. rewrite <- Hlen in Hlt.
    destruct (lookup_lt_is_Some_2 _ _ Hlt) as [tj' Hj']. exists tj'. split; [done|].
    destruct (Hop j tj' Hj') as (tj2 & Hj2 & ->). congruence. }
  assert (Hq : queued (E := E) (D := D) (option_list (Queued <$> e)) = option_list e) by by destruct e.
  assert (Ha : accepted (E := E) (D := D) (option_list (Queued <$> e)) = []) by by destruct e.
  assert (Hv : served_items (E := E) (D := D) (option_list (Queued <$> e)) = []) by by destruct e.
  assert (Hpush : pushed (option_list e) = pushed_by e) by (by destruct e as [[x|x]|]).
  assert (Hpop : popped (option_list e) = popped_by e) by (by destruct e as [[x|x]|]).
  destruct Hs. cbn in *.
  split; rewrite ?accepted_snoc, ?served_snoc, ?queued_snoc, ?Hq, ?Ha, ?Hv, ?app_nil_r; cbn [queue hand busy conns tstats kernel rest log paused]; try done.
  - by eapply Monitor.run_snoc.
  - congruence.
  - intros j tj' o Hj Ho. destruct (Hop j tj' Hj) as (tj & Htj & Heq). apply (so_roles0 _ _ _ Htj). congruence.
  - intros j tj' Hj. destruct (Hacc j tj' Hj) as (tj & Htj & _ & _ & _ & Hl). by eapply Hl, so_loaded0.
  - intros Hh. by apply Hidle, so_hand0.
  - intros j y Hj. by eapply Hidle, so_busy0.
  - rewrite so_accepted0. unfold pushed in *. rewrite omap_app, Hpush, <- app_assoc. f_equal. unfold offered. cbn.
    destruct (threads q' !! 0%nat) as [th'|] eqn:H0'; [|exfalso; apply lookup_ge_None in H0'; lia].
    destruct (Hacc _ _ H0') as (th & H0th & _ & Hc & _). rewrite H0th, app_assoc. f_equal.
    destruct (decide (0%nat = i)) as [<-|Hne]; [done|].
    rewrite Hc. cbn. destruct (lookup_lt_is_Some_2 (threads q') i ltac:(lia)) as [ti' Hi'].
    destruct (Hacc _ _ Hi') as (ti & Hti & _ & Hci & _). rewrite decide_True in Hci by done.
    assert (Hnil : carried ti = []).
    { unfold carried. destruct (op ti) as [o|] eqn:Hoi; [|done]. rewrite (proj2 (so_roles0 _ _ _ Hti Hoi)); [done|congruence]. }
    rewrite Hnil in Hci. symmetry in Hci. apply app_nil in Hci as [-> _]. done.
  - unfold taken in *. rewrite queued_snoc, Hq. unfold popped in *. rewrite omap_app, Hpop, so_taken0. unfold inside. cbn.
    rewrite (collect_changed fetched i (popped_by e) (threads q) (threads q')); [|done|done|].
    + rewrite <- !app_assoc. f_equiv. rewrite app_assoc. apply Permutation_app_comm.
    + intros j tj' Hj. destruct (Hacc j tj' Hj) as (tj & Htj & _ & _ & Hf & _). exists tj. split; [done|]. rewrite Hf.
      by destruct (decide (j = i)).
  - intros l Hl. by apply connected_trace, so_conns0.
Qed.

Lemma sound_accept n tr q b cs s k k' sh l0 ps x d :
  sound n q0 tr (Server q None b cs s k sh l0 ps) -> idle_at 0 q -> cs !! connfd x = None ->
  sound n q0 (tr ++ [Accepted x d]) (Server q (Some x) b (<[connfd x := d]> cs) s k' sh l0 ps).
Proof.
  intros Hs Hidle Hnone. destruct (sound_contents _ _ _ Hs) as (ql & Hql & _).
  pose proof (sound_outstanding _ _ _ _ _ Hs Hql) as Hout. destruct Hs. cbn in *.
  split; rewrite ?accepted_snoc, ?served_snoc, ?queued_snoc; cbn [queue hand busy conns tstats kernel rest log paused accepted served_items queued omap list_omap];
    rewrite ?app_nil_r; try done.
  - rewrite so_accepted0. unfold offered. cbn. by rewrite app_nil_r, <- app_assoc.
  - unfold taken in *. by rewrite queued_snoc, app_nil_r.
  - intros l Hl. rewrite Hout, <- app_assoc in Hl. apply Permutation_app_inv_l in Hl.
    eapply connected_perm; [exact Hl|]. eapply connected_perm; [apply Permutation_cons_append|].
    by apply connected_accept, Hnone; apply so_conns0.
Qed.

Lemma sound_serve n tr q h b cs s k k' sh sh' l0 l0' ps ps' i x c :
  sound n q0 tr (Server q h b cs s k sh l0 ps) -> b !! i = Some (Some x) ->
  sound n q0 (tr ++ [Served i x c]) (Server q h (<[i := None]> b) (closed (connfd x) cs) (<[i := ts c]> s) k' sh' l0' ps').
Proof.
  intros Hs Hb. destruct Hs. cbn in *.
  split; rewrite ?accepted_snoc, ?served_snoc, ?queued_snoc; cbn [queue hand busy conns tstats kernel rest log paused accepted served_items queued omap list_omap];
    rewrite ?app_nil_r; try done.
  - by rewrite length_insert.
  - by rewrite length_insert.
  - intros j y Hj. apply list_lookup_insert_Some in Hj as [(_ & [=] & _)|[_ Hj]]. by eapply so_busy0.
  - unfold taken in *. rewrite queued_snoc, app_nil_r, so_taken0, <- app_assoc. f_equiv. unfold inside. cbn.
    pose proof (collect_insert option_list _ _ _ None Hb) as Hc. cbn in Hc. rewrite <- Hc. symmetry. apply Permutation_middle.
  - intros l Hl. apply connected_close, so_conns0. by rewrite Hl, <- app_assoc.
Qed.

(** A step of a worker that holds a connection, and keeps it. *)
Lemma sound_inside n tr q h b cs s s' k k' sh sh' l0 l0' ps ps' e :
  sound n q0 tr (Server q h b cs s k sh l0 ps) -> length s' = length s ->
  match e with None | Some (Logged _ _) => True | _ => False end ->
  sound n q0 (tr ++ option_list e) (Server q h b cs s' k' sh' l0' ps').
Proof.
  intros Hs Hlen He. destruct Hs. cbn in *.
  assert (Hn : accepted (option_list e) = [] /\ served_items (option_list e) = [] /\ queued (option_list e) = [])
    by by destruct e as [[]|].
  destruct Hn as (Ha & Hv & Hq).
  split; rewrite ?accepted_snoc, ?served_snoc, ?queued_snoc, ?Ha, ?Hv, ?Hq, ?app_nil_r; cbn [queue hand busy conns tstats kernel rest log paused]; try done.
  - congruence.
  - unfold taken in *. by rewrite queued_snoc, Hq, app_nil_r.
  - intros l Hl. by apply connected_trace, so_conns0.
Qed.

Lemma step_sound n tr c e c' : sound n q0 tr c -> step c e (Some c') -> sound n q0 (tr ++ option_list e) c'.
Proof.
  intros Hs Hstep. inversion Hstep as [| | | | | | |i c1 ev oc Hwork]; clear Hstep; try subst c; try subst c'; try subst e; cbn [option_list].
  - by eapply sound_accept.
  - by eapply sound_push.
  - by eapply sound_pushed.
  - by eapply sound_pop.
  - by eapply sound_popped.
  - by eapply sound_queue.
  - inversion Hwork; clear Hwork; try subst c; try subst c1; try subst c'; try subst e; cbn [option_list].
    + by eapply sound_serve.
    + eapply (sound_inside _ _ _ _ _ _ _ _ _ _ _ _ _ _ _ _ None); [done|by rewrite length_insert|done].
    + by eapply (sound_inside _ _ _ _ _ _ _ _ _ _ _ _ _ _ _ _ None).
    + eapply sound_inside; [done..|]. by lazymatch goal with |- context [Logged _ <$> ?e] => destruct e end.
    + by eapply sound_serve.
Qed.

Lemma run_sound n tr c c' : sound n q0 [] c -> run c tr c' -> sound n q0 tr c'.
Proof. intros Hs Hrun. induction Hrun; [done|]. eapply step_sound; [by apply IHHrun|done]. Qed.

End inv.

(** ** The server when it starts *)

Section start.
Context {K E D F : Type}.
Context `{Errors K} `{Clock K} `{Sockets K} `{FileCalls K}.
Context `{Descriptor D} `{Descriptor F} `{!Environment E D F}.
Context (fuel : nat) (junk : bytes) (fresh : Z -> list ascii) (listenfd : Z).

Definition start_queue (r : ready_server) : config :=
  Config (r_queue r) None (repeat (Thread None 0 None Running) (Datatypes.S (length (r_tstats r)))).

Lemma start_queue_initial r : initial (r_queue r) (start_queue r).
Proof. split; [done|]. split; [done|]. apply Forall_forall. intros th Hth. by apply list_elem_of_In, repeat_spec in Hth as ->. Qed.

Lemma repeat_lookup {A} (x y : A) n i : repeat x n !! i = Some y -> y = x.
Proof. intros Hi%list_elem_of_lookup_2%list_elem_of_In. by apply repeat_spec in Hi. Qed.

Lemma collect_repeat {A B} (f : A -> list B) x n : f x = [] -> flat_map f (repeat x n) = [].
Proof. intros Hf. induction n as [|n IH]; cbn; [done|]. by rewrite Hf, IH. Qed.

Lemma started_sound r (k : K) (sh : E) :
  sound (length (r_tstats r)) (start_queue r) [] (started (D := D) r k sh).
Proof.
  unfold started. split; cbn [queue hand busy conns tstats kernel rest log paused queued omap list_omap].
  - constructor.
  - cbn [threads]. by rewrite repeat_length.
  - by rewrite repeat_length.
  - done.
  - intros i th o Hi Hop. cbn [threads] in Hi. apply repeat_lookup in Hi as ->. done.
  - intros i th Hi. cbn [threads] in Hi. by apply repeat_lookup in Hi as ->.
  - by intros [? ?].
  - intros i x Hi. by apply repeat_lookup in Hi.
  - done.
  - unfold inside, taken. cbn [queue busy threads queued popped omap list_omap served_items app]. by rewrite !collect_repeat.
  - intros l Hl. cbn in Hl. apply Permutation_nil in Hl as ->. split.
    + constructor.
    + by intros x Hx%elem_of_nil.
    + intros fd Hfd. rewrite lookup_empty in Hfd. by destruct Hfd.
Qed.

End start.
