(* ===== verification/ServerPaused.v ===== *)
(** * [server.c]: the workers inside the log

    A worker inside [log_write] or [log_read] holds a connection, and its
    thread of the log is in the call its request came to; every run of the
    server is a run of the log, so what [LogProps] proves of the log holds in
    the server.  A call of the log takes effect once. *)

From stdpp Require Import gmap.
From S2P Require Import Prelude Monitor ServerLog LogBuffer LogProps ReqQueue ShellText Rio Segel Request RequestProps RequestSplit Backend Server ServerInv.

Notation log_thread := ServerLog.thread.
Notation log_config := ServerLog.config.

(** ** Where a call takes effect *)

(** What a call returns, once it has taken effect. *)
Definition outcome_of (th : log_thread) : option bytes :=
  match op th with
  | Some (ServerLog.Write entry) => if (10 <=? pc th)%nat then Some (returned (ServerLog.Write entry) (local th)) else None
  | Some ServerLog.Read => if (6 <=? pc th)%nat then Some (returned ServerLog.Read (local th)) else None
  | None => None
  end.

Definition takes_effect (e : option ServerLog.event) (th th' : log_thread) : Prop :=
  op th' = op th /\ (pc th' = pc th \/ (Monitor.stat th = Running /\ pc th' = S (pc th))) /\
  match e with
  | None => outcome_of th' = outcome_of th
  | Some e => Monitor.stat th = Running /\ th' <> th /\ outcome_of th = None /\
      match e with
      | Appended b => outcome_of th' = Some [] /\ exists entry, op th = Some (ServerLog.Write entry) /\ b = stored entry
      | Copied b => op th = Some ServerLog.Read /\ outcome_of th' = Some (take (length b - 1) b)
      end
  end.

Section log.
Context (fresh : Z -> list ascii).

Notation log_body := (ServerLog.body fresh).
Notation log_step := (Monitor.step log_body no_locals).

Lemma takes_effect_move th ins :
  Monitor.stat th = Running -> at_instr log_body th = Some ins -> match ins with Act _ => False | _ => True end -> takes_effect None th (next th).
Proof.
  intros Hst Hat Hact. instr_op Hat o Hop. unfold takes_effect, outcome_of, next. cbn [op pc local]. rewrite Hop.
  split; [done|]. split; [by right|]. remember (pc th) as n eqn:Hn. clear Hn. ServerLog.statement o Hat; injection Hat as <-; done.
Qed.

#[local] Opaque grow splice int_ok.

Lemma takes_effect_act th f s l' s' e :
  Monitor.stat th = Running -> at_instr log_body th = Some (Act f) -> f (local th) s = Some (l', s', e) ->
  takes_effect e th (Thread (op th) (S (pc th)) l' Running).
Proof.
  intros Hst Hat Hf. instr_op Hat o Hop. unfold takes_effect.
  assert (Hne : Thread (op th) (S (pc th)) l' Running <> th) by (intros Heq%(f_equal pc); cbn in Heq; lia).
  rewrite <- Hop. split; [done|]. split; [by right|]. unfold outcome_of. cbn [op pc local]. rewrite Hop.
  remember (pc th) as n eqn:Hn.
  ServerLog.statement o Hat; injection Hat as <-;
    unfold set_waiting, set_active, set_readers, ensure, copy_entry, add_len, terminate, load_len, copy_out in Hf;
    repeat (case_match; try done);
    repeat match type of Hf with (_ ≫= _) = _ => apply bind_Some in Hf as (? & ?Hx0 & Hf) end;
    repeat match type of Hf with (if ?b then _ else _) = _ => destruct b eqn:?; [|done] end;
    simplify_eq/=; try done.
  - split_and!; [done..|by rewrite <- Hop|done|done|by eexists].
  - split_and!; [done|by rewrite <- Hop|done|done|]. do 2 f_equal.
    match goal with H : int_ok _ = Some _ |- _ => apply int_ok_Some in H as [-> _] end.
    rewrite length_take. lia.
Qed.

(** A step inside the calls: one thread moves, and takes effect if the step
    has an event. *)
Lemma log_step_effect c e c' :
  log_step c e c' -> map op (threads c') = map op (threads c) -> one_moves takes_effect e c c'.
Proof.
  apply inside_moved; [intros th; split_and!; [done|by left|done]|intros st th; split_and!; [done|by left|done]|apply takes_effect_move|]. intros th f l' s' e0 Hst Hat Hf. by eapply takes_effect_act.
Qed.

(** The thread that goes on is the one whose call takes effect. *)
Lemma log_step_by i c e c' :
  log_step c e c' -> map op (threads c') = map op (threads c) -> by_thread i c c' ->
  length (threads c') = length (threads c) /\
  forall j tj', threads c' !! j = Some tj' ->
    exists tj, threads c !! j = Some tj /\ takes_effect (if decide (j = i) then e else None) tj tj' /\ (j <> i -> pc tj' = pc tj).
Proof.
  intros Hstep Hops Hby. destruct (log_step_effect _ _ _ Hstep Hops) as (Hlen & k & Hk & Hall). split; [done|].
  assert (Hpc : forall j tj tj', j <> i -> threads c !! j = Some tj -> threads c' !! j = Some tj' ->
    forall e0, takes_effect e0 tj tj' -> pc tj' = pc tj).
  { intros j tj tj' Hne Hj Hj' e0 (_ & [Hp|[Hr _]] & _); [done|]. pose proof (Hby j tj Hne Hj Hr). congruence. }
  assert (Hki : e <> None -> k = i).
  { intros He. destruct e as [e|]; [|done]. destruct (lookup_lt_is_Some_2 (threads c') k ltac:(lia)) as [tk' Hk'].
    destruct (Hall k tk' Hk') as (tk & Htk & Ht). rewrite decide_True in Ht by done. destruct Ht as (_ & _ & Hrun & Hne & _).
    destruct (decide (k = i)) as [|Hki]; [done|]. pose proof (Hby k tk Hki Htk Hrun). congruence. }
  intros j tj' Hj. destruct (Hall j tj' Hj) as (tj & Htj & Ht). exists tj. split; [done|]. split; [|by intros Hne; eapply Hpc].
  destruct e as [e|]; [by rewrite <- (Hki ltac:(done))|]. by destruct (decide (j = k)), (decide (j = i)).
Qed.

End log.

(** ** The invariant *)

Section inv.
Context {K E D F : Type}.
Context `{Errors K} `{Clock K} `{Sockets K} `{FileCalls K}.
Context `{Descriptor D} `{Descriptor F} `{!Environment E D F}.
Context (fuel : nat) (junk : bytes) (fresh : Z -> list ascii) (listenfd : Z).

Notation server := (server K E D).
Notation happening := (happening E D).
Notation step := (Server.step (F := F) fuel junk fresh listenfd).
Notation run := (Server.run (F := F) fuel junk fresh listenfd).
Notation log_run := (Monitor.run (ServerLog.body fresh) no_locals).
Notation log_step := (Monitor.step (ServerLog.body fresh) no_locals).

Record in_log (n : nat) (l0 : log_config) (tr : list happening) (c : server) : Prop := {
  il_run : log_run l0 (log_events tr) (log c);
  il_threads : length (threads (log c)) = n;
  il_paused : length (paused c) = n;
  il_inside : forall i u, paused c !! i = Some (Some u) ->
    (exists x, busy c !! i = Some (Some x)) /\ exists th, threads (log c) !! i = Some th /\ op th = Some (call_of (at_call u));
  il_outside : forall i th, threads (log c) !! i = Some th -> paused c !! i = Some None -> op th = None;
}.

Context (n : nat) (l0 : log_config).

Lemma log_events_snoc tr e : log_events (E := E) (D := D) (tr ++ e) = log_events tr ++ log_events e.
Proof. apply omap_app. Qed.

(** The log and who is in it stay. *)
Lemma in_log_frame tr c c' e :
  in_log n l0 tr c -> log_events (option_list e) = [] -> log c' = log c -> paused c' = paused c ->
  (forall i x u, busy c !! i = Some (Some x) -> paused c !! i = Some (Some u) -> busy c' !! i = Some (Some x)) ->
  in_log n l0 (tr ++ option_list e) c'.
Proof.
  intros [Hr Ht Hp Hin Hout] He Hl Hps Hb. split; rewrite ?log_events_snoc, ?He, ?app_nil_r, ?Hl, ?Hps; try done.
  intros i u Hi. destruct (Hin i u Hi) as ((x & Hx) & Hth). split; [|done]. exists x. by eapply Hb.
Qed.

(** One worker enters or leaves the log. *)
Lemma in_log_thread tr c c' e i th th' o :
  in_log n l0 tr c -> log_events (option_list e) = [] -> log_step (log c) None (log c') ->
  threads (log c) !! i = Some th -> threads (log c') = <[i := th']> (threads (log c)) -> paused c' = <[i := o]> (paused c) ->
  (forall j, j <> i -> busy c' !! j = busy c !! j) ->
  (forall u, o = Some u -> (exists x, busy c' !! i = Some (Some x)) /\ op th' = Some (call_of (at_call u))) ->
  (o = None -> op th' = None) ->
  in_log n l0 (tr ++ option_list e) c'.
Proof.
  intros [Hr Ht Hp Hin Hout] He Hs Hi Hl Hps Hb Hnew Hold. pose proof (lookup_lt_Some _ _ _ Hi) as Hlt.
  split; rewrite ?log_events_snoc, ?He, ?app_nil_r, ?Hps, ?Hl, ?length_insert; try done.
  - rewrite <- (app_nil_r (log_events tr)). by apply (Monitor.run_snoc _ _ _ _ _ None _ Hr).
  - intros j u Hj. apply list_lookup_insert_Some in Hj as [(-> & -> & _)|[Hne Hj]].
    + destruct (Hnew u eq_refl) as [Hx Hop]. split; [done|]. exists th'. by rewrite list_lookup_insert_eq.
    + rewrite Hb, list_lookup_insert_ne by congruence. by apply Hin.
  - intros j tj Hj Hpj. destruct (decide (j = i)) as [->|Hne].
    + rewrite list_lookup_insert_eq in Hj by done. rewrite list_lookup_insert_eq in Hpj by lia. simplify_eq. by apply Hold.
    + rewrite list_lookup_insert_ne in Hj by done. rewrite list_lookup_insert_ne in Hpj by done. by apply (Hout j).
Qed.

Lemma in_log_stamp tr q h b cs s k k' sh l ps i u u' :
  in_log n l0 tr (Server q h b cs s k sh l ps) -> ps !! i = Some (Some u) -> at_call u' = at_call u ->
  in_log n l0 (tr ++ []) (Server q h b cs s k' sh l (<[i := Some u']> ps)).
Proof.
  intros [Hr Ht Hp Hin Hout] Hi Hc. rewrite app_nil_r. cbn in *. split; cbn; rewrite ?length_insert; try done.
  - intros j v Hj. apply list_lookup_insert_Some in Hj as [(-> & [= <-] & _)|[_ Hj]]; [|by apply Hin].
    rewrite Hc. by apply Hin.
  - intros j tj Hj Hpj. apply list_lookup_insert_Some in Hpj as [(_ & [=] & _)|[_ Hpj]]. by apply (Hout j).
Qed.

Lemma in_log_step tr q h b cs s k sh l ps i e l' :
  in_log n l0 tr (Server q h b cs s k sh l ps) -> log_step l e l' -> map op (threads l') = map op (threads l) ->
  in_log n l0 (tr ++ option_list (Logged i <$> e)) (Server q h b cs s k sh l' ps).
Proof.
  intros [Hr Ht Hp Hin Hout] Hs Hops. cbn in *.
  assert (Hlen : length (threads l') = length (threads l)) by by rewrite <- (length_map op), Hops, length_map.
  assert (Hop : forall j, op <$> threads l' !! j = op <$> threads l !! j).
  { intros j. rewrite <- !list_lookup_fmap. exact (f_equal (fun l => l !! j) Hops). }
  split; cbn; try done.
  - rewrite log_events_snoc. replace (log_events (option_list (Logged i <$> e))) with (option_list e) by by destruct e.
    by eapply Monitor.run_snoc.
  - congruence.
  - intros j u Hj. destruct (Hin j u Hj) as (Hx & th & Hth & Ho). split; [done|]. specialize (Hop j). rewrite Hth in Hop. cbn in Hop.
    apply fmap_Some in Hop as (th' & Hth' & Heq). exists th'. split; [done|]. congruence.
  - intros j tj Hj Hpj. specialize (Hop j). rewrite Hj in Hop. cbn in Hop. symmetry in Hop.
    apply fmap_Some in Hop as (th & Hth & Heq). rewrite Heq. by apply (Hout j).
Qed.

Lemma stamp_call t th (u u' : suspended D) : stamp t th u = Some u' -> at_call u' = at_call u.
Proof. unfold stamp. intros Hu. repeat case_match; by simplify_eq. Qed.

Lemma step_in_log tr c e c' : in_log n l0 tr c -> step c e (Some c') -> in_log n l0 (tr ++ option_list e) c'.
Proof.
  intros Hs Hstep. inversion Hstep as [| | | | | | |i c1 ev oc Hwork]; clear Hstep; try subst c; try subst c'; try subst e; cbn [option_list].
  - by apply (in_log_frame _ _ _ (Some (Accepted _ _)) Hs).
  - by apply (in_log_frame _ _ _ None Hs).
  - by apply (in_log_frame _ _ _ None Hs).
  - by apply (in_log_frame _ _ _ None Hs).
  - apply (in_log_frame _ _ _ None Hs); [done..|]. cbn. intros j y u Hj _. rewrite list_lookup_insert_ne; [done|]. congruence.
  - apply (in_log_frame _ _ _ (Queued <$> _) Hs); [|done..]. by lazymatch goal with |- context [Queued <$> ?e] => destruct e end.
  - inversion Hwork; clear Hwork; try subst c; try subst c1; try subst c'; try subst e; cbn [option_list].
    + apply (in_log_frame _ _ _ (Some (Served _ _ _)) Hs); [done..|]. cbn. intros j y u Hj Hu. rewrite list_lookup_insert_ne; [done|]. congruence.
    + match goal with He : enter _ _ _ _ = Some _ |- _ => destruct (enter_step (ServerLog.body fresh) _ _ _ _ _ He) as (th & Hi & Hop & Hl & Hst) end.
      eapply (in_log_thread _ _ _ None); [exact Hs|done|exact Hst|exact Hi|exact Hl|reflexivity|done| |done]. cbn. intros u [= <-]. split; [by eexists|done].
    + match goal with Hst : stamp _ _ _ = Some _ |- _ => apply stamp_call in Hst end. by eapply in_log_stamp.
    + by eapply in_log_step.
    + match goal with He : leave _ _ _ = Some _ |- _ => destruct (leave_step (ServerLog.body fresh) no_locals _ _ _ _ _ He) as (th & Hi & Hop & _ & _ & _ & Hl & Hst) end.
      eapply (in_log_thread _ _ _ (Some (Served _ _ _))); [exact Hs|done|exact Hst|exact Hi|exact Hl|reflexivity| |done|done].
      intros j Hne. cbn. by rewrite list_lookup_insert_ne.
Qed.

Lemma run_in_log tr c c' : in_log n l0 [] c -> run c tr c' -> in_log n l0 tr c'.
Proof. intros Hs Hrun. induction Hrun; [done|]. eapply step_in_log; [by apply IHHrun|done]. Qed.

End inv.

(** ** The log when the server starts *)

Definition start_log (r : ready_server) : log_config :=
  Config (r_log r) None (repeat (Thread None 0 (Locals 0 []) Running) (length (r_tstats r))).

Lemma start_log_initial r : initial (r_log r) (start_log r).
Proof. split; [done|]. split; [done|]. apply Forall_forall. intros th Hth. by apply list_elem_of_In, repeat_spec in Hth as ->. Qed.

Lemma started_in_log {K E D} (fresh : Z -> list ascii) r (k : K) (sh : E) :
  in_log (D := D) fresh (length (r_tstats r)) (start_log r) [] (started r k sh).
Proof.
  split; cbn.
  - constructor.
  - by rewrite repeat_length.
  - by rewrite repeat_length.
  - intros i u Hi. by apply repeat_lookup in Hi.
  - intros i th Hi _. by apply repeat_lookup in Hi as ->.
Qed.
