(* ===== verification/ServerProps.v ===== *)
(** * [server.c]: the server as a whole

    From [main] on: what it starts, in which order connections reach the
    workers and what becomes of them, and that the server does not come to
    rest with a request unserved. *)

From stdpp Require Import gmap.
From S2P Require Import Prelude Monitor ServerLog LogBuffer LogProps ReqQueue ShellText Rio Segel Request RequestProps RequestSplit Backend Server ServerInv ServerPaused.

(** ** [main] *)

Section main.
Context {K : Type} `{Errors K} `{Console K} `{Threads K Z} `{Monitors K} `{Memory K} `{Sockets K}.
Context (at_ : addresses) (junk : Z -> list ascii) (junk_items : Z -> list queue_item).
Context `{!FreshMemory junk}.

(** The calls of [main] between the check of its arguments and its greeting:
    for the log, for the queue, for each worker, and for the socket [fd]. *)
Definition log_calls : list (syscall K) :=
  [Call (lit "Malloc error") (sys_malloc LOG_INIT_CAP) NonNull;
   Call (lit "Pthread_mutex_init error") (pthread_mutex_init (log_mutex at_)) Zero;
   Call (lit "Pthread_cond_init error") (pthread_cond_init (log_can_read at_)) Zero;
   Call (lit "Pthread_cond_init error") (pthread_cond_init (log_can_write at_)) Zero].

Definition queue_calls (queue_size : Z) : list (syscall K) :=
  [Call (lit "Malloc error") (sys_malloc (wrap64 (queue_size * 24))) NonNull;
   Call (lit "Pthread_mutex_init error") (pthread_mutex_init (queue_mutex at_)) Zero;
   Call (lit "Pthread_cond_init error") (pthread_cond_init (queue_not_full at_)) Zero;
   Call (lit "Pthread_cond_init error") (pthread_cond_init (queue_not_empty at_)) Zero].

Definition spawn_calls (idxs : list Z) : list (syscall K) :=
  flat_map (fun i => [Call (lit "Malloc error") (sys_malloc 4) NonNull;
                      Call (lit "Pthread_create error") (creating i) Zero]) idxs.

Definition thread_calls (num_threads : Z) : list (syscall K) :=
  Call (lit "Calloc error") (sys_calloc num_threads 20) NonNull ::
  Call (lit "Malloc error") (sys_malloc (wrap64 (num_threads * 8))) NonNull :: spawn_calls (seqZ 0 num_threads).

Definition startup (port num_threads queue_size fd : Z) : list (syscall K) :=
  log_calls ++ queue_calls queue_size ++ thread_calls num_threads ++ listen_calls port fd.

(** What [main] has made, with [num_threads] workers, a queue of [queue_size]
    slots and a delay of [sleep] seconds. *)
Definition made (num_threads queue_size sleep : Z) (s : ready_server) : Prop :=
  r_queue s = queue_init (junk_items queue_size) queue_size /\ r_tstats s = init_stats (Z.to_nat num_threads) /\
  length (r_tids s) = Z.to_nat num_threads /\ log_init junk = Some (r_log s) /\ r_sleep s = Z.max sleep 0.

Lemma log_setup_performs sleep :
  performs (log_setup at_ junk sleep) log_calls (fun l => log_init junk = Some (fst l) /\ snd l = Z.max sleep 0).
Proof.
  unfold log_setup. eapply performs_cons; [apply performs_non_null|intros _ _].
  assert (Hlog : exists log, log_init junk = Some log).
  { unfold log_init, splice. rewrite fresh_length by done. eexists. reflexivity. }
  destruct Hlog as [log Hlog]. intros k. apply wp_bind. eapply wp_try_gets; [exact Hlog|]. revert k.
  do 3 (eapply performs_cons; [apply performs_posix|intros _ _]). apply performs_finish. split; [done|]. cbn.
  destruct (Z.ltb_spec 0 sleep); lia.
Qed.

Lemma queue_setup_performs size :
  performs (queue_setup at_ junk_items size) (queue_calls size) (fun q => q = queue_init (junk_items size) size).
Proof.
  unfold queue_setup. eapply performs_cons; [apply performs_non_null|intros _ _].
  do 3 (eapply performs_cons; [apply performs_posix|intros _ _]). by apply performs_finish.
Qed.

Lemma spawn_performs idxs : performs (spawn idxs) (spawn_calls idxs) (fun tids => length tids = length idxs).
Proof.
  induction idxs as [|i idxs IH]; cbn [spawn]; [by apply performs_finish|].
  change (spawn_calls (i :: idxs)) with
    (Call (lit "Malloc error") (sys_malloc 4) NonNull :: Call (lit "Pthread_create error") (creating i) Zero :: spawn_calls idxs).
  eapply performs_cons; [apply performs_non_null|intros _ _]. eapply performs_cons; [apply performs_create|intros tid _].
  rewrite <- (app_nil_r (spawn_calls idxs)). eapply performs_andthen; [exact IH|]. intros tids Hlen.
  apply performs_finish. cbn. by rewrite Hlen.
Qed.

Lemma start_threads_performs n :
  performs (start_threads n) (thread_calls n) (fun w => fst w = init_stats (Z.to_nat n) /\ length (snd w) = Z.to_nat n).
Proof.
  unfold start_threads, thread_calls. do 2 (eapply performs_cons; [apply performs_non_null|intros _ _]).
  rewrite <- (app_nil_r (spawn_calls _)). eapply performs_andthen; [apply spawn_performs|]. intros tids Hlen.
  apply performs_finish. split; [done|]; cbn; by rewrite Hlen, length_seqZ.
Qed.

Lemma wp_start port n size sleep k :
  wp (start at_ junk junk_items port n size sleep)
    (fun r k' => exists fd, match r with
       | Value s => made n size sleep s /\ r_listenfd s = fd /\ 0 <= fd /\
           exists k1, all_done (startup port n size fd) k k1 /\ k' = put_out (greeting port n size sleep) k1
       | Exited => stopped_at (startup port n size fd) k k'
       end) k.
Proof.
  unfold start, startup. apply wp_andthen. eapply wp_mono; [apply log_setup_performs|]. cbv beta.
  intros [log|] k1; [|intros Hs; exists 0; by apply stopped_at_app_l]. intros [[Hlog Hsl] Hd1].
  apply wp_andthen. eapply wp_mono; [apply queue_setup_performs|]. cbv beta.
  intros [q|] k2; [|intros Hs; exists 0; eapply stopped_at_app_r, stopped_at_app_l; done]. intros [-> Hd2].
  apply wp_andthen. eapply wp_mono; [apply start_threads_performs|]. cbv beta. pose proof (all_done_app _ _ _ _ _ Hd1 Hd2) as Hd12.
  intros [w|] k3; [|intros Hs; exists 0; rewrite app_assoc; eapply stopped_at_app_r, stopped_at_app_l; done].
  intros [[Hst Hlen] Hd3]. pose proof (all_done_app _ _ _ _ _ Hd12 Hd3) as Hd123.
  apply wp_andthen. eapply wp_mono; [apply wp_Open_listenfd|]. cbv beta. intros [fd|] k4 [fd' Hr].
  - destruct Hr as (-> & Hfd & Hd4). apply wp_bind, wp_modify, wp_ret. exists fd'. split_and!; [by split_and!|done..|].
    exists k4. split; [|done]. rewrite !app_assoc. rewrite <- (app_assoc log_calls) in *. by eapply all_done_app.
  - exists fd'. rewrite !app_assoc. rewrite <- (app_assoc log_calls) in *. by eapply stopped_at_app_r.
Qed.

(** The command line: the numbers [main] reads from it. *)
Definition arguments (argv : list text) (port num_threads queue_size sleep : Z) : Prop :=
  exists name p t q rest, argv = name :: p :: t :: q :: rest /\ atoi p = Some port /\ atoi t = Some num_threads /\
    atoi q = Some queue_size /\ match rest with [] => sleep = 0 | s :: _ => atoi s = Some sleep end.

Lemma try_gets_value {A B} (o : option A) (f : A -> M K B) k r :
  (let* x := try_gets (fun _ => o) in f x) k = Ok r -> exists x, o = Some x /\ f x k = Ok r.
Proof. unfold bind, try_gets. destruct o as [x|]; [|done]. intros Hr. by exists x. Qed.

Lemma atoi_int s n : atoi s = Some n -> n < 2 ^ 31.
Proof. unfold atoi. destruct (parse_integer s) as [[sg m]|]; [intros Hn%int_ok_Some; lia|intros [= <-]; lia]. Qed.

(** What the loop starts from. *)
Lemma main_made argv k r k' :
  main at_ junk junk_items argv k = Ok (Value r, k') ->
  exists n size sleep, made n size sleep r /\ 0 < n < 2 ^ 31 /\ 0 < size < 2 ^ 31.
Proof.
  destruct argv as [|a0 [|a1 [|a2 [|a3 rest]]]]; try done. cbn [main]. intros Hrun.
  apply try_gets_value in Hrun as (port & Hp & Hrun). apply try_gets_value in Hrun as (n & Hn%atoi_int & Hrun).
  apply try_gets_value in Hrun as (size & Hsz%atoi_int & Hrun). apply try_gets_value in Hrun as (sleep & _ & Hrun).
  destruct (_ || _) eqn:Hpos; [done|]. exists n, size, sleep. split; [|lia].
  refine (run_wp _ (fun r' _ => forall s, r' = Value s -> made n size sleep s) _ _ _ Hrun _ r eq_refl).
  eapply wp_mono; [apply wp_start|]. intros [s|] k1 [fd Hr] s' [= <-]. apply Hr.
Qed.

(** C32: [main] checks its arguments before it does anything: with fewer than
    three, or with a number of threads or slots that is not positive, it says
    so and exits.  Otherwise it makes the calls of [startup], in this order:
    memory, mutex and condition variables of the log and of the queue, the
    counters and one thread for each worker, and those that make a socket
    listen on the port.  It comes to its loop exactly when all of them succeed,
    with an empty log, an empty queue of the size asked for, the counters and
    threads of all workers and that socket, and has greeted.  At the first of
    them that fails it says so and exits, and makes none of the others. *)
Theorem main_starts (argv : list text) (k : K) :
  ((length argv < 4)%nat -> main at_ junk junk_items argv k = Ok (Exited, put_err (usage (default [] (List.head argv))) k)) /\
  forall port n size sleep, arguments argv port n size sleep ->
    if (n <=? 0) || (size <=? 0) then main at_ junk junk_items argv k = Ok (Exited, put_err not_positive k)
    else exists r k' fd, main at_ junk junk_items argv k = Ok (r, k') /\
      match r with
      | Value s => made n size sleep s /\ r_listenfd s = fd /\ 0 <= fd /\
          exists k1, all_done (startup port n size fd) k k1 /\ k' = put_out (greeting port n size sleep) k1
      | Exited => stopped_at (startup port n size fd) k k'
      end.
Proof.
  split.
  - intros Hlen. destruct argv as [|a0 [|a1 [|a2 [|a3 rest]]]]; try reflexivity. cbn in Hlen. lia.
  - intros port n size sleep (name & p & t & q & rest & -> & Hp & Ht & Hq & Hs). unfold main.
    assert (Hsl : match rest with [] => Some 0 | s :: _ => atoi s end = Some sleep) by (destruct rest; [by subst|done]).
    destruct (_ || _) eqn:Hpos.
    + unfold bind at 1 2 3 4, try_gets. by rewrite Hp, Ht, Hq, Hsl, Hpos.
    + destruct (wp_run _ _ _ (wp_start port n size sleep k)) as (r & k' & Hrun & fd & Hr). exists r, k', fd. split; [|done].
      rewrite <- Hrun. unfold bind at 1 2 3 4, try_gets. by rewrite Hp, Ht, Hq, Hsl, Hpos.
Qed.

End main.

(** ** Every run of the server *)

Section properties.
Context {K E D F : Type}.
Context `{Errors K} `{Console K} `{Threads K Z} `{Monitors K} `{Memory K} `{Sockets K} `{Clock K} `{FileCalls K}.
Context `{Descriptor D} `{Descriptor F} `{!Environment E D F}.
Context (at_ : addresses) (junk : Z -> list ascii) (junk_items : Z -> list queue_item) (stack : bytes) (fuel : nat).
Context `{!FreshMemory junk}.
Context (items_length : forall n, 0 <= n -> Z.of_nat (length (junk_items n)) = n).

(** The server [main] starts, and what it shares. *)
Context (argv : list text) (k0 k : K) (r : ready_server) (sh : E).
Context (Hmain : main at_ junk junk_items argv k0 = Ok (Value r, k)).

Notation server := (server K E D).
Notation step := (Server.step (F := F) fuel stack junk (r_listenfd r)).
Notation run := (Server.run (F := F) fuel stack junk (r_listenfd r)).

Definition workers : nat := length (r_tstats r).

Lemma main_ready : exists size, (0 < workers)%nat /\ Z.of_nat workers < 2 ^ 31 /\ 0 < size < 2 ^ 31 /\
  r_queue r = queue_init (junk_items size) size /\ r_tstats r = init_stats workers.
Proof.
  destruct (main_made at_ junk junk_items _ _ _ _ Hmain) as (n & size & sleep & (Hq & Ht & _) & Hn & Hsz).
  exists size. unfold workers. rewrite Ht. unfold init_stats. rewrite length_fmap, length_seq. split_and!; (done || lia).
Qed.

Lemma reached_sound tr c : run (started r k sh) tr c ->
  exists size, 0 < size < 2 ^ 31 /\ cap (r_queue r) = size /\
    Z.of_nat (length (junk_items size)) = size /\ initial (queue_init (junk_items size) size) (start_queue r) /\
    sound workers (start_queue r) tr c.
Proof.
  intros Hrun. destruct main_ready as (size & Hw & _ & Hsz & Hq & Ht). exists size.
  assert (Hinit : initial (queue_init (junk_items size) size) (start_queue r)) by (rewrite <- Hq; apply start_queue_initial).
  assert (Hmem : Z.of_nat (length (junk_items size)) = size) by (apply items_length; lia).
  split_and!; [lia..|by rewrite Hq|done|done|].
  eapply run_sound; [exact Hsz|exact Hmem|exact Hinit|apply started_sound|exact Hrun].
Qed.

Lemma main_log : log_init junk = Some (r_log r).
Proof.
  destruct (main_made at_ junk junk_items _ _ _ _ Hmain) as (n & size & sleep & (_ & _ & _ & Hlog & _) & _). exact Hlog.
Qed.

Lemma reached_log tr c : run (started r k sh) tr c ->
  in_log junk workers (start_log r) tr c /\ LogProps.invariant (junk := junk) (log_events tr) (log c).
Proof.
  intros Hrun. assert (Hin : in_log junk workers (start_log r) tr c) by (eapply run_in_log; [apply started_in_log|exact Hrun]).
  split; [done|]. eapply run_inv; [apply main_log|apply start_log_initial|apply Hin].
Qed.

Implicit Types (tr : list (happening E D)) (c : server).

(** ** Order and number *)

Lemma inside_length n q0 tr c : sound n q0 tr c -> (length (inside c) <= n)%nat.
Proof.
  intros Hs. unfold inside. rewrite length_app.
  assert (Hgen : forall (ths : list thread) (b : list (option queue_item)), length ths = length b ->
    (forall i th o, ths !! i = Some th -> b !! i = Some o -> (length (fetched th) + length (option_list o) <= 1)%nat) ->
    (length (flat_map fetched ths) + length (flat_map option_list b) <= length b)%nat).
  { clear. induction ths as [|th ths IH]; intros [|o b] Hl Hone; try done. cbn. rewrite !length_app.
    pose proof (Hone 0%nat th o eq_refl eq_refl). specialize (IH b ltac:(cbn in Hl; lia)).
    specialize (IH (fun i th' o' Hi Ho => Hone (Datatypes.S i) th' o' Hi Ho)). lia. }
  pose proof (so_threads _ _ _ _ Hs) as Hth. destruct (threads (queue c)) as [|m ths] eqn:Hths; [done|]. cbn [flat_map].
  assert (Hm : fetched m = []).
  { unfold fetched. destruct (op m) as [o|] eqn:Ho; [|done]. assert (Hi : threads (queue c) !! 0%nat = Some m) by by rewrite Hths.
    destruct o; [done|]. by destruct (proj1 (so_roles _ _ _ _ Hs _ _ _ Hi Ho) eq_refl). }
  rewrite Hm. cbn [app]. rewrite <- (so_workers _ _ _ _ Hs). apply Hgen.
  - rewrite (so_workers _ _ _ _ Hs). cbn in Hth. lia.
  - intros i th o Hi Ho. assert (Hi' : threads (queue c) !! Datatypes.S i = Some th) by by rewrite Hths.
    destruct o as [x|].
    + destruct (so_busy _ _ _ _ Hs _ _ Ho) as (th' & Hth' & Hidle). rewrite Hi' in Hth'. simplify_eq.
      rewrite (fetched_idle th' Hidle). cbn. lia.
    + unfold fetched. destruct (op th) as [[|]|]; try (cbn; lia). destruct (5 <=? pc th)%nat, (local th); cbn; lia.
Qed.

Lemma offered_length n q0 tr c : sound n q0 tr c -> (length (offered c) <= 1)%nat.
Proof.
  intros Hs. unfold offered. rewrite length_app. destruct (hand c) as [x|] eqn:Hh.
  - destruct (so_hand _ _ _ _ Hs ltac:(by rewrite Hh)) as (th & Hi & Hop). rewrite Hi, (carried_idle th Hop). cbn. lia.
  - destruct (threads (queue c) !! 0%nat) as [th|]; [|cbn; lia]. unfold carried.
    destruct (op th) as [[fd arr|]|]; try (cbn; lia). destruct (_ <=? _)%nat; cbn; lia.
Qed.

(** C10: In every run of the server the workers take connections in the order
    in which they were accepted; at most as many wait as the queue has slots,
    and one more in the hands of the master.  Each connection that was taken
    is served once, or is one of those the workers are at, at most one each.
    The descriptors of the connections accepted and not served are distinct,
    and they are exactly those that are open: none is closed early or
    leaked. *)
Theorem server_in_order tr c :
  run (started r k sh) tr c ->
  (exists waiting, accepted tr = taken tr ++ waiting /\ Z.of_nat (length waiting) <= cap (r_queue r) + 1) /\
  (exists handled, taken tr ≡ₚ served_items tr ++ handled /\ (length handled <= workers)%nat) /\
  (forall l, accepted tr ≡ₚ served_items tr ++ l ->
     NoDup (connfd <$> l) /\ forall fd, is_Some (conns c !! fd) <-> fd ∈ connfd <$> l).
Proof.
  intros Hrun. destruct (reached_sound tr c Hrun) as (size & Hsz & Hcap & Hmem & Hinit & Hs). split; [|split].
  - destruct (sound_contents _ _ _ Hsz Hmem Hinit _ _ _ Hs) as (l & Hl & Hlen).
    exists (l ++ offered c). rewrite (so_accepted _ _ _ _ Hs), Hl, <- app_assoc. split; [done|].
    rewrite length_app. pose proof (offered_length _ _ _ _ Hs). lia.
  - exists (inside c). split; [apply (so_taken _ _ _ _ Hs)|by eapply inside_length].
  - intros l Hl. destruct (so_conns _ _ _ _ Hs l Hl) as [C1 C2 C3]. split; [done|]. intros fd. split; [apply C3|].
    intros (x & -> & Hx)%list_elem_of_fmap. destruct (C2 x Hx) as (d & Hd & _). by rewrite Hd.
Qed.

(** ** Rest *)

(** No thread can go on but the master, by accepting a connection: nothing is
    in its hand, no worker is outside the queue with nothing to do or holds a
    connection outside the log, and each thread inside the queue or the log
    sleeps or needs the mutex of another. *)
Definition at_rest (c : server) : Prop :=
  hand c = None /\
  (forall i o, busy c !! i = Some o ->
     match o with None => ~ idle_at (Datatypes.S i) (queue c) | Some _ => exists u, paused c !! i = Some (Some u) end) /\
  (forall i th o, threads (queue c) !! i = Some th -> op th = Some o ->
     (exists cv, Monitor.stat th = Waiting cv) \/ blocked ReqQueue.body (queue c) i th) /\
  (forall i th o, threads (log c) !! i = Some th -> op th = Some o ->
     (exists cv, Monitor.stat th = Waiting cv) \/ blocked (ServerLog.body junk) (log c) i th).

(** Nobody is left inside the log, so nobody holds a connection. *)
Lemma rest_log tr c :
  run (started r k sh) tr c -> at_rest c ->
  forall i o, busy c !! i = Some o -> o = None /\ ~ idle_at (Datatypes.S i) (queue c).
Proof.
  intros Hrun (_ & Hbusy & _ & Hstuck) i o Hi. specialize (Hbusy i o Hi). destruct o as [x|]; [|done]. exfalso.
  destruct Hbusy as [u Hu]. destruct (reached_log _ _ Hrun) as [Hin Hinv].
  destruct (il_inside _ _ _ _ _ Hin i u Hu) as (_ & th & Hth & Hop).
  destruct (log_stuck_asleep _ _ Hinv Hstuck) as [How Hall].
  pose proof (asleep_nobody _ _ Hinv How Hall i th Hth). congruence.
Qed.

Lemma rest_workers n q0 size tr c :
  sound n q0 tr c -> ReqQueue.invariant size (queued tr) (queue c) -> run (started r k sh) tr c -> at_rest c ->
  owner (queue c) = None /\
  (forall i th o, threads (queue c) !! i = Some th -> op th = Some o -> Monitor.stat th = Waiting (waits_on o)) /\
  forall i, (i < n)%nat -> exists th, threads (queue c) !! Datatypes.S i = Some th /\ op th = Some Pop /\ Monitor.stat th = Waiting not_empty.
Proof.
  intros Hs Hinv Hrun Hrest. pose proof (rest_log _ _ Hrun Hrest) as Hbusy. destruct Hrest as (Hhand & _ & Hstuck & _). destruct (stuck_asleep _ _ _ Hinv Hstuck) as [Hown Hasleep]. split_and!; [done..|].
  intros i Hi. destruct (lookup_lt_is_Some_2 (threads (queue c)) (Datatypes.S i)) as [th Hth]; [rewrite (so_threads _ _ _ _ Hs); lia|].
  destruct (lookup_lt_is_Some_2 (busy c) i) as [o Ho]; [by rewrite (so_workers _ _ _ _ Hs)|].
  destruct (Hbusy _ _ Ho) as [_ Hni]. destruct (op th) as [cl|] eqn:Hop; [|exfalso; apply Hni; by exists th].
  rewrite (proj2 (so_roles _ _ _ _ Hs _ _ _ Hth Hop)) in Hop by done. exists th. split_and!; [done..|]. by apply (Hasleep _ _ _ Hth Hop).
Qed.

(** The queue is empty, so the master does not wait for a slot. *)
Lemma rest_master n q0 size tr c :
  sound n q0 tr c -> ReqQueue.invariant size (queued tr) (queue c) -> 0 < size -> (0 < n)%nat -> run (started r k sh) tr c -> at_rest c ->
  count (shared (queue c)) = 0 /\ idle_at 0 (queue c).
Proof.
  intros Hs Hinv Hsz Hn Hrun Hrest. destruct (rest_workers _ _ _ _ _ Hs Hinv Hrun Hrest) as (Hown & Hasleep & Hpop).
  destruct (Hpop 0%nat Hn) as (tw & Htw & Hopw & _). pose proof (asleep_resource _ _ _ _ _ _ Hinv Hown Hasleep Htw Hopw) as Hempty.
  cbn in Hempty. split; [done|].
  destruct (lookup_lt_is_Some_2 (threads (queue c)) 0%nat) as [th Hth]; [rewrite (so_threads _ _ _ _ Hs); lia|].
  exists th. split; [done|]. destruct (op th) as [[fd arr|]|] eqn:Hop; [exfalso..|done].
  - pose proof (asleep_resource _ _ _ _ _ _ Hinv Hown Hasleep Hth Hop) as Hfull. destruct Hinv as (_ & Hc & _). cbn in Hfull. lia.
  - by destruct (proj1 (so_roles _ _ _ _ Hs _ _ _ Hth Hop) eq_refl).
Qed.

Lemma collect_nil {A B} (f : A -> list B) l : (forall i x, l !! i = Some x -> f x = []) -> flat_map f l = [].
Proof.
  intros Hf. induction l as [|x l IH]; [done|]. cbn. rewrite (Hf 0%nat x eq_refl). apply IH. intros i y Hy.
  apply (Hf (Datatypes.S i) y Hy).
Qed.

(** Nobody holds a connection. *)
Lemma rest_nothing n q0 size tr c :
  sound n q0 tr c -> ReqQueue.invariant size (queued tr) (queue c) -> 0 < size -> (0 < n)%nat -> run (started r k sh) tr c -> at_rest c ->
  accepted tr ≡ₚ served_items tr.
Proof.
  intros Hs Hinv Hsz Hn Hrun Hrest. destruct (rest_workers _ _ _ _ _ Hs Hinv Hrun Hrest) as (Hown & Hasleep & _).
  destruct (rest_master _ _ _ _ _ Hs Hinv Hsz Hn Hrun Hrest) as (Hempty & tm & Htm & Hopm). pose proof (rest_log _ _ Hrun Hrest) as Hbusy. destruct Hrest as (Hhand & _).
  pose proof Hinv as (Hex & _ & (l & Hl & Hcons) & _). pose proof (sound_outstanding _ _ _ _ _ Hs Hl) as Ho.
  assert (l = []) as ->.
  { unfold consistent in Hcons. rewrite Hown in Hcons. pose proof (ring_count _ _ _ _ Hcons). destruct l; [done|cbn in *; lia]. }
  assert (offered c = []) as Hoff by (unfold offered; by rewrite Htm, (carried_idle tm Hopm), Hhand).
  assert (inside c = []) as Hin; [|by rewrite Hin, Hoff, !app_nil_r in Ho].
  unfold inside. rewrite !collect_nil; [done| |].
  - intros i o Ho'. by destruct (Hbusy _ _ Ho') as [-> _].
  - intros i th Hth. unfold fetched. destruct (op th) as [[|]|] eqn:Hop; try done.
    pose proof (excl_waits _ _ Hex _ _ Hth) as Hww. unfold waits_well in Hww. rewrite (Hasleep _ _ _ Hth Hop) in Hww.
    destruct Hww as [cnd Hat]. unfold at_instr in Hat. rewrite Hop in Hat. destruct (wait_statement _ _ _ _ Hat) as (Hpc & _). by rewrite Hpc.
Qed.

(** C11: The server never comes to rest with a connection it has accepted and
    not served: when no thread can go on, neither in the queue nor in the log,
    every one is served and closed, the workers all wait for the queue to
    fill, and the master is outside the queue, ready to accept. *)
Theorem server_no_deadlock tr c :
  run (started r k sh) tr c -> at_rest c ->
  accepted tr ≡ₚ served_items tr /\ conns c = ∅ /\ idle_at 0 (queue c) /\
  forall i, (i < workers)%nat -> exists th, threads (queue c) !! Datatypes.S i = Some th /\ op th = Some Pop /\ Monitor.stat th = Waiting not_empty.
Proof.
  intros Hrun Hrest. destruct (reached_sound tr c Hrun) as (size & Hsz & Hcap & Hmem & Hinit & Hs).
  pose proof (sound_invariant _ _ _ Hsz Hmem Hinit _ _ _ Hs) as Hinv. destruct main_ready as (_ & Hw & _).
  pose proof (rest_nothing _ _ _ _ _ Hs Hinv ltac:(lia) Hw Hrun Hrest) as Hout. split; [done|]. split.
  - rewrite <- (app_nil_r (served_items tr)) in Hout. destruct (so_conns _ _ _ _ Hs [] Hout) as [_ _ C3].
    apply map_empty. intros fd. destruct (conns c !! fd) eqn:Hfd; [|done].
    pose proof (C3 fd ltac:(by rewrite Hfd)) as Hin. by apply elem_of_nil in Hin.
  - destruct (rest_master _ _ _ _ _ Hs Hinv ltac:(lia) Hw Hrun Hrest) as [_ Hm].
    destruct (rest_workers _ _ _ _ _ Hs Hinv Hrun Hrest) as (_ & _ & Hpop). done.
Qed.

End properties.
