(* ===== verification/ServerSpec.v ===== *)
(** * [server.c]: the server that handles one request at a time

    The specification of the server: it takes the requests one after the
    other, each as a whole, keeps the log and the counters, and answers each
    from the log as it is then.  [replay] is its state after a list of
    requests; [answers] is what a connection gets.  The pieces a worker runs
    before and after its call of the log ([begin] and [resume]) send what the
    specification says. *)

From stdpp Require Import gmap.
From S2P Require Import Prelude Monitor ServerLog LogBuffer ReqQueue ShellText Rio Segel Request RequestProps RequestSplit Backend Server.

(** The clock yields proper times. *)
Class ClockModel (K : Type) `{Clock K} := gettimeofday_ok : forall k, time_ok (fst (gettimeofday k)).

Section spec.
Context {E D F : Type} `{DescriptorModel D} `{DescriptorModel F} `{!Environment E D F} `{!EnvironmentModel E D F}.

(** The files. *)
Context (e0 : E).

Notation conn := (conn (W := (D * E))).

(** What the request on [d] asks for. *)
Definition action_of (d : D) : option action :=
  decide_request (request_fields (d, e0)) (fun f => stat f (d, e0)).

(** The entry a request leaves in the log, from the counters of its worker; it
    is written before the log takes its times. *)
Definition entry (a : action) (x : queue_item) (dispatch : timeval) (s : threads_stats) : bytes :=
  if logs a then
    append_stats [] s {| task_arrival := timeval_of (arrival x); task_dispatch := dispatch; log_enter := dispatch; log_exit := dispatch |}
  else [].

(** What is sent for the request on [d], given the counters of the worker and
    the log before it: the connection is left as [c]. *)
Definition answers (a : action) (x : queue_item) (dispatch : timeval) (d : D) (s : threads_stats) (log : bytes) (c : conn) : Prop :=
  ts c = counted a s /\ task_arrival (tm c) = timeval_of (arrival x) /\ task_dispatch (tm c) = dispatch /\ times_ok (tm c) /\
  exists o, output (fst (world c)) = output d ++ response a (append_stats [] (ts c) (tm c)) log (contents a (d, e0)) ++ o /\
            (is_cgi a = false -> o = []).

(** A request: its worker, the connection as it was accepted, when the worker
    began with it; how it ended, unless it has not; and where in the run it
    takes effect. *)
Record job := Job {
  j_worker : nat;
  j_item : queue_item;
  j_conn : D;
  j_dispatch : timeval;
  j_result : option conn;
  j_at : nat;
}.

(** The state of the specification: the log, and the counters of the workers. *)
Record spec := Spec { sp_log : bytes; sp_stats : list threads_stats }.

Definition handle_next (s : option spec) (j : job) : option spec :=
  sp ← s; a ← action_of (j_conn j); s0 ← sp_stats sp !! j_worker j;
  Some (Spec (sp_log sp ++ entry a (j_item j) (j_dispatch j) (counted a s0)) (<[j_worker j := counted a s0]> (sp_stats sp))).

Context (st0 : list threads_stats).

Definition replay (jobs : list job) : option spec := foldl handle_next (Some (Spec [] st0)) jobs.

(** The answers of the requests that have ended are those of the
    specification. *)
Definition answered_in_turn (jobs : list job) : Prop :=
  forall js j js' c, jobs = js ++ j :: js' -> j_result j = Some c ->
    exists sp a s, replay js = Some sp /\ action_of (j_conn j) = Some a /\ sp_stats sp !! j_worker j = Some s /\
      answers a (j_item j) (j_dispatch j) (j_conn j) s (sp_log sp) c.

(** ** Facts *)

Lemma replay_snoc js j : replay (js ++ [j]) = handle_next (replay js) j.
Proof. unfold replay. by rewrite foldl_app. Qed.

Definition same_job (j j' : job) : Prop :=
  j_worker j' = j_worker j /\ j_item j' = j_item j /\ j_conn j' = j_conn j /\ j_dispatch j' = j_dispatch j.

Lemma same_job_refl j : same_job j j.
Proof. done. Qed.

(** How a request ended does not matter for the ones after it. *)
Lemma replay_same js js' : Forall2 same_job js js' -> replay js' = replay js.
Proof.
  unfold replay. generalize (Some (Spec [] st0)). intros s Hjs. revert s. induction Hjs as [|j j' js js' (E1 & E2 & E3 & E4) _ IH]; intros s; [done|].
  cbn. rewrite IH. f_equal. unfold handle_next. by rewrite E1, E2, E3, E4.
Qed.

Lemma replay_update js j j' js' : same_job j j' -> replay (js ++ j' :: js') = replay (js ++ j :: js').
Proof.
  intros Hj. apply replay_same, Forall2_app; [|constructor; [done|]];
    apply Forall_Forall2_diag, Forall_forall; intros; apply same_job_refl.
Qed.

(** A list with one element, seen from another one. *)
Lemma middle_split {A} (l1 l2 k1 k2 : list A) x y :
  l1 ++ x :: l2 = k1 ++ y :: k2 ->
  (l1 = k1 /\ x = y /\ l2 = k2) \/ (exists l, l1 = k1 ++ y :: l /\ k2 = l ++ x :: l2) \/ (exists l, k1 = l1 ++ x :: l /\ l2 = l ++ y :: k2).
Proof.
  intros Heq. apply app_eq_app in Heq as (l & [[-> Hl]|[-> Hl]]); destruct l as [|z l]; cbn in Hl; simplify_eq.
  - left. by rewrite app_nil_r.
  - right; left. by exists l.
  - left. by rewrite app_nil_r.
  - right; right. by exists l.
Qed.

Lemma answered_snoc js j :
  answered_in_turn js ->
  (forall c, j_result j = Some c -> exists sp a s, replay js = Some sp /\ action_of (j_conn j) = Some a /\
     sp_stats sp !! j_worker j = Some s /\ answers a (j_item j) (j_dispatch j) (j_conn j) s (sp_log sp) c) ->
  answered_in_turn (js ++ [j]).
Proof.
  intros Hjs Hj ks k ks' c Heq Hr. symmetry in Heq. apply middle_split in Heq as [(-> & -> & _)|[(l & -> & Hl)|(l & -> & ->)]].
  - by apply Hj.
  - by destruct l.
  - by eapply Hjs.
Qed.

(** A request that has taken effect ends. *)
Lemma answered_update js j j' js' :
  same_job j j' -> answered_in_turn (js ++ j :: js') ->
  (forall c, j_result j' = Some c -> exists sp a s, replay js = Some sp /\ action_of (j_conn j') = Some a /\
     sp_stats sp !! j_worker j' = Some s /\ answers a (j_item j') (j_dispatch j') (j_conn j') s (sp_log sp) c) ->
  answered_in_turn (js ++ j' :: js').
Proof.
  intros Hsame Hjs Hj ks k ks' c Heq Hr. apply middle_split in Heq as [(-> & -> & _)|[(l & -> & ->)|(l & -> & ->)]].
  - by apply Hj.
  - apply (Hjs ks k (l ++ j :: js')); [by rewrite <- app_assoc|done].
  - rewrite (replay_update _ _ _ _ Hsame). apply (Hjs (js ++ j :: l) k ks'); [by rewrite <- app_assoc|done].
Qed.

(** The counters of worker [i] after [m] requests at most. *)
Definition counters_upto (i m : nat) (s : threads_stats) : Prop :=
  id s = Z.of_nat i + 1 /\ 0 <= total_req s <= Z.of_nat m /\ 0 <= stat_req s <= Z.of_nat m /\
  0 <= dynm_req s <= Z.of_nat m /\ 0 <= post_req s <= Z.of_nat m.

Lemma counted_upto i m a s : counters_upto i m s -> counters_upto i (m + 1) (counted a s).
Proof. unfold counters_upto. destruct a; cbn; lia. Qed.

Lemma counters_upto_le i m m' s : (m <= m')%nat -> counters_upto i m s -> counters_upto i m' s.
Proof. unfold counters_upto. lia. Qed.

Lemma counters_upto_ok i m s : Z.of_nat i < 2 ^ 31 - 1 -> Z.of_nat m < 2 ^ 31 - 1 -> counters_upto i m s -> stats_ok s.
Proof. unfold counters_upto, stats_ok, stats_below. lia. Qed.

Lemma replay_counters js sp i s :
  (forall i s, st0 !! i = Some s -> counters_upto i 0 s) ->
  replay js = Some sp -> sp_stats sp !! i = Some s -> counters_upto i (length js) s.
Proof.
  intros Hst0. revert sp i s. induction js as [|j js IH] using rev_ind; intros sp i s Hr Hi; [by injection Hr as <-; apply Hst0|].
  rewrite replay_snoc in Hr. unfold handle_next in Hr.
  apply bind_Some in Hr as (sp1 & Hr & Hn). apply bind_Some in Hn as (a & Ha & Hn). apply bind_Some in Hn as (s0 & Hs0 & Hn). simplify_eq/=.
  rewrite length_app. cbn [length]. apply list_lookup_insert_Some in Hi as [(<- & <- & _)|[_ Hi]].
  - apply counted_upto. by eapply IH.
  - eapply counters_upto_le; [|by eapply IH]. lia.
Qed.

Lemma replay_length js sp : replay js = Some sp -> length (sp_stats sp) = length st0.
Proof.
  revert sp. induction js as [|j js IH] using rev_ind; intros sp Hr; [by injection Hr as <-|].
  rewrite replay_snoc in Hr. unfold handle_next in Hr.
  apply bind_Some in Hr as (sp1 & Hr & Hn). apply bind_Some in Hn as (a & Ha & Hn). apply bind_Some in Hn as (s0 & Hs0 & Hn). simplify_eq/=.
  rewrite length_insert. by apply IH.
Qed.

Lemma entry_length a x t s :
  stats_fit s -> time_ok (timeval_of (arrival x)) -> time_ok t -> (length (entry a x t s) <= 400)%nat.
Proof.
  intros Hs Hx Ht. unfold entry. destruct (logs a); [|cbn; lia].
  pose proof (append_stats_length [] s (round_times x t) Hs ltac:(by split_and!)). cbn in *. lia.
Qed.

(** ** The pieces of a worker's round *)

Context (fuel n : nat).

(** A connection on which one request arrives that the server can handle,
    with [n] bytes as the longest text written. *)
Definition request_ok (d : D) : Prop :=
  healthy d /\ input d <> [] /\ (noise d + 2 < fuel)%nat /\ (length (input d) < fuel)%nat /\ (noise d + n < fuel)%nat /\
  exists a, action_of d = Some a /\ servable fuel a (d, e0) n.

Context {K : Type} `{Errors K} `{Clock K} `{FileCalls K} `{!ClockModel K}.
Context (junk : bytes) (junk_size : Z.of_nat (length junk) = RIO_BUFSIZE).

Lemma action_files d e : e_files e0 e -> decide_request (request_fields (d, e)) (fun f => stat f (d, e)) = action_of d.
Proof.
  intros [Hst _]. unfold action_of. change (request_fields (d, e)) with (request_fields (d, e0)).
  unfold decide_request, decide_get. destruct (request_fields (d, e0)) as [|m [|uri l]]; [done|done|].
  destruct (cgi_target uri) as [f q]. cbn in *. by rewrite !Hst.
Qed.

Lemma wp_close {A} x (a : A) (Q : ended A -> K * E -> Prop) k e :
  (forall r k', match r with Value a' => a' = a | Exited => True end -> Q r (k', e)) -> wp (close_conn x a) Q (k, e).
Proof.
  intros HQ. unfold close_conn. apply wp_andthen.
  pose proof (wp_checked_value (lit "Close error") (sys_close (connfd x)) (fun _ _ => True) k ltac:(done) ltac:(done)) as Hc.
  unfold wp in Hc. unfold wp, on_kernel, Close. destruct (checked _ _ k) as [[[v|] k']|]; [|by apply HQ|done].
  unfold finish, ret. by apply HQ.
Qed.

(** The connection at the call of the log, or answered. *)
Definition begun (d : D) (x : queue_item) (s : threads_stats) (p : option pause) (c : conn) : Prop :=
  exists a t, action_of d = Some a /\ time_ok t /\ ts c = counted a s /\ tm c = round_times x t /\
    p = pause_of a (append_stats [] (counted a s) (round_times x t)) /\
    healthy (fst (world c)) /\ (noise (fst (world c)) + n < fuel)%nat /\
    output (fst (world c)) = output d ++ match p with None => response a (append_stats [] (counted a s) (round_times x t)) [] [] | Some _ => [] end.

Lemma wp_begin x s d k e :
  request_ok d -> e_files e0 e -> stats_ok s -> time_ok (timeval_of (arrival x)) -> (room <= n)%nat ->
  wp (begin (F := F) fuel junk x s d) (fun r ke =>
    e_files e0 (snd ke) /\ match r with Value (p, c) => begun d x s p c | Exited => True end) (k, e).
Proof.
  intros (Hd & Hne & Hf1 & Hf2 & Hf3 & a & Ha & Hsv) He Hs Hx Hn. unfold begin. apply wp_bind. unfold wp at 1, on_kernel, sys.
  pose proof (gettimeofday_ok k) as Ht. destruct (gettimeofday k) as [t k1]. cbn in Ht. apply wp_bind.
  pose proof (wp_until_log (W := D * E) (F := F) fuel junk junk_size n a (Conn (rio_readinitb junk) s (round_times x t) (d, e))
    ltac:(done) Hne Hs Hx Ht Hf3 Hn ltac:(cbn [world]; by rewrite action_files)) as Hu.
  unfold wp at 1, on_shared. unfold wp in Hu. destruct (until_log _ _ _) as [[r c]|]; [|done].
  destruct Hu as (p & -> & (Hh & Hv & Hno) & E1 & E2 & Hp & Ho). cbn [fst snd ts tm world].
  destruct c as [rp s' t' [d' e']]. apply same_view_files in Hv. cbn in Hh, Hno, E1, E2, Ho. subst s' t'. cbn [ts tm world fst snd] in *.
  assert (Hb : begun d x s p (Conn rp (counted a s) (round_times x t) (d', e'))) by (exists a, t; by split_and!).
  assert (He' : e_files e0 e') by by eapply e_files_trans.
  destruct p as [p|]; [by apply wp_ret|]. apply wp_close. intros [[p c]|] k' Hr; [|done]. by injection Hr as -> ->.
Qed.

Lemma wp_resume x s0 d a t u e bs times k :
  action_of d = Some a -> servable fuel a (d, e0) n -> e_files e0 e -> stats_ok s0 ->
  time_ok (timeval_of (arrival x)) -> time_ok t -> time_ok (fst times) -> time_ok (snd times) ->
  pause_of a (append_stats [] (counted a s0) (round_times x t)) = Some (at_call u) -> s_tm u = round_times x t ->
  healthy (s_desc u) -> (noise (s_desc u) + n < fuel)%nat -> output (s_desc u) = output d -> (room + length bs <= n)%nat ->
  wp (resume (F := F) fuel x (counted a s0) u bs times) (fun r ke =>
    e_files e0 (snd ke) /\ match r with Value c => answers a x t d s0 bs c | Exited => True end) (k, e).
Proof.
  intros Ha Hsv He Hs Hx Ht Ht1 Ht2 Hp Htm Hh Hno Ho Hn. unfold resume. apply wp_bind.
  assert (Hok : times_ok (round_times x t)) by by split_and!.
  pose proof (wp_after_log (W := D * E) (F := F) fuel (d, e0) n a _ (at_call u) bs times (Conn (s_rio u) (counted a s0) (s_tm u) (s_desc u, e))
    ltac:(split_and!; [done|by apply same_view_files|done]) (counted_fit a s0 Hs) ltac:(cbn [tm]; by rewrite Htm) Ht1 Ht2 Hn Hsv Hp) as Hw.
  unfold wp at 1, on_shared. unfold wp in Hw. destruct (after_log _ _ _ _) as [[r c]|]; [|done].
  destruct Hw as (Hh' & Hv & E1 & E2 & o & Ho' & Hr). destruct c as [rp s' t' [d' e']]. apply same_view_files in Hv.
  cbn [fst snd ts tm world] in *. cbn in Ho'. subst s' t'. rewrite Htm in *. cbn in Ho'.
  destruct r as [[]|]; [|by apply wp_ret]. apply wp_close. intros [c|] k' Hc; [|done]. subst c. split; [done|].
  split_and!; [done..|]. exists o. split; [|by intros Hcgi; apply Hr]. cbn [ts tm world fst]. rewrite Ho', Ho. done.
Qed.

End spec.

Arguments job : clear implicits.
