(* ===== verification/ServerRefines.v ===== *)
(** * [server.c]: many workers answer as one

    Every run of [Server.step], with the queue and the log interleaved
    statement by statement, is one of the specification of [ServerSpec], in
    which requests are handled one at a time: each takes effect at one moment
    between its acceptance and its end, and in the order of these moments the
    log, the counters and the answers are those of the specification.  The
    simulation keeps the list of the requests that have taken effect. *)

From stdpp Require Import gmap sorting.
From S2P Require Import Prelude Monitor ServerLog LogBuffer LogProps ReqQueue ShellText Rio Segel Request RequestProps RequestSplit Backend Server ServerInv ServerPaused ServerProps ServerSpec.

Section refinement.
Context {K E D F : Type}.
Context `{Errors K} `{Console K} `{Threads K Z} `{Monitors K} `{Memory K} `{Sockets K} `{Clock K} `{FileCalls K} `{!ClockModel K}.
Context `{DescriptorModel D} `{DescriptorModel F} `{!Environment E D F} `{!EnvironmentModel E D F}.
Context (at_ : addresses) (junk : Z -> list ascii) (junk_items : Z -> list queue_item) (stack : bytes) (fuel : nat).
Context `{!FreshMemory junk}.
Context (items_length : forall n, 0 <= n -> Z.of_nat (length (junk_items n)) = n).
Context (stack_size : Z.of_nat (length stack) = RIO_BUFSIZE).

(** What [main] made, and the files. *)
Context (argv : list text) (k0 k : K) (r : ready_server) (e0 : E).
Context (Hmain : main at_ junk junk_items argv k0 = Ok (Value r, k)).

(** The longest text written. *)
Context (n : nat).

Notation server := (server K E D).
Notation happening := (happening E D).
Notation job := (job E D).
Notation conn := (conn (W := (D * E))).
Notation step := (Server.step (F := F) fuel stack junk (r_listenfd r)).
Notation work := (Server.work (F := F) fuel stack junk).
Notation run := (Server.run (F := F) fuel stack junk (r_listenfd r)).
Notation log_body := (ServerLog.body junk).
Notation st0 := (r_tstats r).
Notation action_of := (action_of (F := F) e0).
Notation answers := (answers (F := F) e0).
Notation replay := (replay (F := F) e0 st0).
Notation answered_in_turn := (answered_in_turn (F := F) e0 st0).
Notation request_ok := (request_ok (F := F) e0 fuel n).

Implicit Types (tr : list happening) (j : job) (js jobs : list job) (sp : spec) (u : suspended D).

(** Every connection carries a request the server can handle, and the log and
    the texts written have room for the requests served and those the workers
    are at. *)
Record environment tr : Prop := {
  env_requests : forall x d, Accepted x d ∈ tr -> request_ok d;
  env_log : 400 * Z.of_nat (length (served_items tr) + workers r) + 400 < log_limit;
  env_room : Z.of_nat room + 400 * Z.of_nat (length (served_items tr) + workers r) <= Z.of_nat n;
}.

Lemma environment_prefix tr e : environment (tr ++ e) -> environment tr.
Proof.
  intros [Hr Hl Hn]. rewrite served_snoc, length_app in Hl, Hn. split; [|lia|lia].
  intros x d Hx. apply (Hr x). apply elem_of_app. by left.
Qed.

(** ** The relation *)

(** How the requests ended: the worker, the item, the connection it left. *)
Definition served_with tr : list (nat * queue_item * conn) :=
  omap (fun e => match e with Served i x c => Some (i, x, c) | _ => None end) tr.
Definition result_of j : option (nat * queue_item * conn) := c ← j_result j; Some (j_worker j, j_item j, c).

(** Those that have not: their workers. *)
Definition pending j : option nat := match j_result j with None => Some (j_worker j) | Some _ => None end.

(** The request takes effect in a step of its worker, after its connection was
    accepted and no later than it is served. *)
Definition in_between tr j : Prop :=
  Accepted (j_item j) (j_conn j) ∈ take (j_at j) tr /\
  match tr !! j_at j with
  | Some (Logged i _) => i = j_worker j
  | Some (Served i x c) => i = j_worker j /\ x = j_item j /\ j_result j = Some c
  | _ => False
  end /\
  forall c, j_result j = Some c -> Served (j_worker j) (j_item j) c ∈ drop (j_at j) tr.

(** The times a suspended request has taken in the log. *)
Definition timed (th : log_thread) u : Prop :=
  (forall t, entered u = Some t -> time_ok t) /\ (forall t, left u = Some t -> time_ok t) /\
  match op th with
  | Some (ServerLog.Write _) => ((6 < pc th)%nat -> is_Some (entered u)) /\ ((10 < pc th)%nat -> is_Some (left u))
  | Some ServerLog.Read => ((4 < pc th)%nat -> is_Some (entered u)) /\ ((6 < pc th)%nat -> is_Some (left u))
  | None => True
  end.

(** The request worker [i] is inside the log with; [s0] are the counters before
    it.  Until its call takes effect the specification has not handled it;
    then it has, and the worker has what the log was before it. *)
Record halted tr jobs sp (c : server) (i : nat) u (x : queue_item) (d : D) (a : action) (t : timeval) (s0 : threads_stats) (th : log_thread) : Prop := {
  ha_busy : busy c !! i = Some (Some x);
  ha_accepted : Accepted x d ∈ tr;
  ha_action : action_of d = Some a;
  ha_time : time_ok t;
  ha_counters : stats_ok s0;
  ha_call : pause_of a (append_stats [] (counted a s0) (round_times x t)) = Some (at_call u);
  ha_times : s_tm u = round_times x t;
  ha_healthy : healthy (s_desc u);
  ha_noise : (noise (s_desc u) + n < fuel)%nat;
  ha_output : output (s_desc u) = output d;
  ha_stats : tstats c !! i = Some (counted a s0);
  ha_thread : threads (log c) !! i = Some th;
  ha_op : op th = Some (call_of (at_call u));
  ha_timed : timed th u;
  ha_effect :
    match outcome_of th with
    | None => sp_stats sp !! i = Some s0
    | Some bs => sp_stats sp !! i = Some (counted a s0) /\
        exists js js' sp1 p, jobs = js ++ Job i x d t None p :: js' /\ replay js = Some sp1 /\ sp_stats sp1 !! i = Some s0 /\
          bs = (match a with PostLog => sp_log sp1 | _ => [] end) /\ (length (sp_log sp1) <= 400 * length js)%nat
    end;
}.

Record simulated tr jobs sp (c : server) : Prop := {
  si_replay : replay jobs = Some sp;
  si_answers : answered_in_turn jobs;
  si_log : sp_log sp = LogBuffer.logged (log_events tr);
  si_bound : (length (sp_log sp) <= 400 * length jobs)%nat;
  si_stats : forall i, paused c !! i = Some None -> sp_stats sp !! i = tstats c !! i;
  si_points : forall j, j ∈ jobs -> in_between tr j;
  si_sorted : StronglySorted lt (j_at <$> jobs);
  si_served : omap result_of jobs ≡ₚ served_with tr;
  si_once : NoDup (omap pending jobs);
  si_pending : forall i, i ∈ omap pending jobs ->
    exists u th bs, paused c !! i = Some (Some u) /\ threads (log c) !! i = Some th /\ outcome_of th = Some bs;
  si_halted : forall i u, paused c !! i = Some (Some u) -> exists x d a t s0 th, halted tr jobs sp c i u x d a t s0 th;
  si_files : e_files (D := D) (F := F) e0 (rest c);
  si_arrivals : forall x d, Accepted x d ∈ tr -> time_ok (timeval_of (arrival x));
}.

(** ** Facts of the relation *)

Lemma served_with_snoc tr e : served_with (tr ++ e) = served_with tr ++ served_with e.
Proof. apply omap_app. Qed.

Lemma served_with_length tr : length (served_with tr) = length (served_items tr).
Proof.
  unfold served_with, served_items. induction tr as [|ev tr IH]; [done|]. destruct ev; cbn; by rewrite ?IH.
Qed.

Lemma jobs_length jobs : length jobs = (length (omap result_of jobs) + length (omap pending jobs))%nat.
Proof.
  induction jobs as [|j jobs IH]; [done|]. unfold result_of, pending in *. cbn. destruct (j_result j); cbn; lia.
Qed.

Lemma in_between_snoc tr e j : in_between tr j -> in_between (tr ++ e) j.
Proof.
  intros (Ha & Hp & Hr). unfold in_between. destruct (tr !! j_at j) as [ev|] eqn:Hev; [|done].
  pose proof (lookup_lt_Some _ _ _ Hev) as Hlt. rewrite lookup_app_l, Hev by done. rewrite take_app_le by lia.
  split_and!; [done..|]. intros c Hc. rewrite drop_app_le by lia. apply elem_of_app. left. by apply Hr.
Qed.

Lemma in_between_lt tr j : in_between tr j -> (j_at j < length tr)%nat.
Proof. intros (_ & Hp & _). destruct (tr !! j_at j) eqn:Hev; [|done]. by apply lookup_lt_Some in Hev. Qed.

(** The moments grow. *)
Lemma sorted_snoc tr jobs j :
  StronglySorted lt (j_at <$> jobs) -> (forall j, j ∈ jobs -> in_between tr j) -> j_at j = length tr ->
  StronglySorted lt (j_at <$> (jobs ++ [j])).
Proof.
  intros Hs Hp Hj. rewrite fmap_app. apply StronglySorted_app. split_and!; [|done|repeat constructor].
  intros x1 x2 (j1 & -> & Hj1)%list_elem_of_fmap Hx2%list_elem_of_singleton. subst x2. rewrite Hj. by apply in_between_lt, Hp.
Qed.

Lemma sim_length tr jobs sp c n0 l0 :
  simulated tr jobs sp c -> in_log junk n0 l0 tr c -> (length jobs <= length (served_items tr) + n0)%nat.
Proof.
  intros Hs Hl. rewrite jobs_length, (Permutation_length (si_served _ _ _ _ Hs)), served_with_length.
  assert (Hp : (length (omap pending jobs) <= length (seq 0 n0))%nat); [|rewrite length_seq in Hp; lia].
  apply submseteq_length, NoDup_submseteq; [apply (si_once _ _ _ _ Hs)|]. intros i Hi.
  destruct (si_pending _ _ _ _ Hs i Hi) as (u & _ & _ & Hu & _). apply elem_of_seq.
  apply lookup_lt_Some in Hu. rewrite (il_paused _ _ _ _ _ Hl) in Hu. lia.
Qed.

(** ** Steps that concern no request inside the log *)

(** What a halted request needs stays. *)
Lemma halted_keep tr tr' jobs jobs' sp sp' (c c' : server) i u x d a t s0 th th' :
  halted tr jobs sp c i u x d a t s0 th ->
  (forall y d', Accepted y d' ∈ tr -> Accepted y d' ∈ tr') ->
  busy c' !! i = busy c !! i -> tstats c' !! i = tstats c !! i ->
  threads (log c') !! i = Some th' -> op th' = op th -> outcome_of th' = outcome_of th -> timed th' u ->
  sp_stats sp' !! i = sp_stats sp !! i ->
  (forall js js' p, jobs = js ++ Job i x d t None p :: js' ->
     exists ks ks', jobs' = ks ++ Job i x d t None p :: ks' /\ replay ks = replay js /\ length ks = length js) ->
  halted tr' jobs' sp' c' i u x d a t s0 th'.
Proof.
  intros [] Hacc Hb Hs Hth Hop Ho Ht Hsp Hj. split; rewrite ?Hb, ?Hs, ?Hop, ?Ho, ?Hsp; try done; [by apply Hacc|].
  destruct (outcome_of th) as [bs|]; [|done]. destruct ha_effect0 as (Hst & js & js' & sp1 & p & Heq & Hr & Hrest).
  split; [done|]. destruct (Hj js js' p Heq) as (ks & ks' & Heq' & Hr' & Hlen). exists ks, ks', sp1, p. by rewrite Hr', Hlen.
Qed.

Lemma same_decomposition jobs i (x : queue_item) (d : D) t : forall js js' p,
  jobs = js ++ Job (E := E) i x d t None p :: js' ->
  exists ks ks', jobs = ks ++ Job i x d t None p :: ks' /\ replay ks = replay js /\ length ks = length js.
Proof. intros js js' p ->. by exists js, js'. Qed.

Lemma snoc_decomposition jobs j i (x : queue_item) (d : D) t : forall js js' p,
  jobs = js ++ Job (E := E) i x d t None p :: js' ->
  exists ks ks', jobs ++ [j] = ks ++ Job i x d t None p :: ks' /\ replay ks = replay js /\ length ks = length js.
Proof. intros js js' p ->. exists js, (js' ++ [j]). by rewrite <- app_assoc. Qed.

Lemma accepted_grows tr e y (d : D) : Accepted (E := E) y d ∈ tr -> Accepted y d ∈ tr ++ e.
Proof. intros Hy. apply elem_of_app. by left. Qed.

Lemma simulated_frame tr jobs sp (c c' : server) e :
  simulated tr jobs sp c -> match e with Some (Logged _ _) | Some (Served _ _ _) => False | _ => True end ->
  (forall x d, e = Some (Accepted x d) -> time_ok (timeval_of (arrival x))) ->
  log c' = log c -> paused c' = paused c -> tstats c' = tstats c -> rest c' = rest c ->
  (forall i x u, busy c !! i = Some (Some x) -> paused c !! i = Some (Some u) -> busy c' !! i = Some (Some x)) ->
  simulated (tr ++ option_list e) jobs sp c'.
Proof.
  intros [] He Hx Hl Hp Ht Hr Hb.
  assert (Hle : log_events (option_list e) = [] /\ served_with (option_list e) = []) by by destruct e as [[]|].
  destruct Hle as [Hle Hse].
  split; rewrite ?log_events_snoc, ?served_with_snoc, ?Hle, ?Hse, ?app_nil_r, ?Hl, ?Hp, ?Ht, ?Hr; try done.
  - intros j Hj. by apply in_between_snoc, si_points0.
  - intros i u Hi. destruct (si_halted0 i u Hi) as (x & d & a & t & s0 & th & Hh). exists x, d, a, t, s0, th.
    eapply halted_keep; [exact Hh|intros; by apply accepted_grows| |by rewrite Ht|rewrite Hl; apply Hh|done|done|apply Hh|done|apply same_decomposition].
    rewrite (ha_busy _ _ _ _ _ _ _ _ _ _ _ _ Hh). eapply Hb; [apply Hh|done].
  - intros x d [Hin|Hin]%elem_of_app; [by eapply si_arrivals0|]. destruct e as [ev|]; cbn in Hin; [|by apply elem_of_nil in Hin].
    apply list_elem_of_singleton in Hin as <-. by eapply Hx.
Qed.

(** A worker that holds a connection outside the log: what it needs is
    there. *)
Lemma accept_arrival fd k1 x k2 : accept_round fd k1 = Ok (Value x, k2) -> time_ok (timeval_of (arrival x)).
Proof.
  unfold accept_round, andthen, bind, sys, finish, ret. destruct (Accept fd k1) as [[[cfd|] k3]|]; [|done..].
  pose proof (gettimeofday_ok k3) as Ht. destruct (gettimeofday k3) as [t k4]. cbn in Ht. intros [= <- _]. by destruct t.
Qed.

Lemma init_stats_lookup m i s : init_stats m !! i = Some s ->
  (i < m)%nat /\ s = {| id := Z.of_nat i + 1; total_req := 0; stat_req := 0; dynm_req := 0; post_req := 0 |}.
Proof. unfold init_stats. intros (j & -> & Hj)%list_lookup_fmap_Some. apply lookup_seq in Hj as [-> Hlt]. done. Qed.

Lemma st0_counters i s : st0 !! i = Some s -> counters_upto i 0 s.
Proof.
  destruct (main_ready at_ junk junk_items _ _ _ _ Hmain) as (_ & _ & _ & _ & _ & Ht). rewrite Ht.
  intros [_ ->]%init_stats_lookup. unfold counters_upto. cbn. lia.
Qed.

Lemma workers_small : Z.of_nat (workers r) < 2 ^ 31.
Proof. by destruct (main_ready at_ junk junk_items _ _ _ _ Hmain) as (size & _ & Hw & _). Qed.

(** The counters of the specification can count one more request. *)
Lemma spec_counters tr jobs sp c i s :
  run (started r k e0) tr c -> simulated tr jobs sp c -> environment tr ->
  sp_stats sp !! i = Some s -> stats_ok s.
Proof.
  intros Hrun Hs Henv Hi. destruct (reached_log at_ junk junk_items stack fuel _ _ _ _ _ Hmain _ _ Hrun) as [Hin _].
  pose proof (sim_length _ _ _ _ _ _ Hs Hin) as Hlen. pose proof (env_log _ Henv) as Hlog. pose proof workers_small as Hw.
  apply (counters_upto_ok i (length jobs)).
  - pose proof (lookup_lt_Some _ _ _ Hi) as Hlt. rewrite (replay_length e0 st0 _ _ (si_replay _ _ _ _ Hs)) in Hlt.
    unfold workers, log_limit in *. lia.
  - unfold log_limit in *. lia.
  - by apply (replay_counters e0 st0 jobs sp i s st0_counters (si_replay _ _ _ _ Hs)).
Qed.

Lemma busy_ready tr jobs sp c i x :
  run (started r k e0) tr c -> simulated tr jobs sp c -> environment tr -> busy c !! i = Some (Some x) ->
  exists d s, conns c !! connfd x = Some d /\ tstats c !! i = Some s /\ Accepted x d ∈ tr /\ request_ok d /\ time_ok (timeval_of (arrival x)).
Proof.
  intros Hrun Hsim Henv Hb.
  destruct (reached_sound at_ junk junk_items stack fuel items_length _ _ _ _ e0 Hmain tr c Hrun)
    as (size & Hsz & _ & Hmem & Hinit & Hs).
  destruct (sound_contents _ _ _ Hsz Hmem Hinit _ _ _ Hs) as (l & Hl & _).
  pose proof (sound_outstanding _ _ _ _ _ Hs Hl) as Hout.
  assert (Hx : x ∈ inside c ++ l ++ offered c).
  { apply elem_of_app. left. unfold inside. apply elem_of_app. right. apply list_elem_of_In, in_flat_map.
    exists (Some x). split; [by eapply list_elem_of_In, list_elem_of_lookup_2|by left]. }
  destruct (con_open _ _ _ (so_conns _ _ _ _ Hs _ Hout) x Hx) as (d & Hd & Hacc).
  pose proof (lookup_lt_Some _ _ _ Hb) as Hi. rewrite (so_workers _ _ _ _ Hs) in Hi.
  destruct (lookup_lt_is_Some_2 (tstats c) i) as [s Hst]; [by rewrite (so_stats _ _ _ _ Hs)|].
  exists d, s. split_and!; [done|done|done|by apply (env_requests _ Henv x)|by eapply si_arrivals].
Qed.


(** ** A request that makes no call of the log *)

Lemma replay_next jobs sp i (x : queue_item) (d : D) a t s0 res p :
  replay jobs = Some sp -> action_of d = Some a -> sp_stats sp !! i = Some s0 ->
  replay (jobs ++ [Job i x d t res p]) = Some (Spec (sp_log sp ++ entry a x t (counted a s0)) (<[i := counted a s0]> (sp_stats sp))).
Proof. intros Hr Ha Hs. rewrite replay_snoc, Hr. unfold handle_next. cbn. by rewrite Ha, Hs. Qed.

(** The moment of a request is the last step. *)
Lemma in_between_last tr ev i (x : queue_item) (d : D) t (res : option conn) :
  Accepted x d ∈ tr -> match ev with Logged i' _ => i' = i /\ res = None | Served i' x' c => i' = i /\ x' = x /\ res = Some c | _ => False end ->
  in_between (tr ++ [ev]) (Job i x d t res (length tr)).
Proof.
  intros Hx Hev. unfold in_between. cbn. rewrite take_app_length, lookup_app_r, Nat.sub_diag, drop_app_length by done. cbn.
  split; [done|]. destruct ev as [| |i' e'|i' x' c']; try done.
  - destruct Hev as [-> ->]. by split.
  - destruct Hev as (-> & -> & ->). split; [done|]. intros c [= ->]. by apply list_elem_of_singleton.
Qed.

Lemma unlogged a entry_ stats lg file :
  pause_of a entry_ = None -> response a stats lg file = response a stats [] [] /\ logs a = false.
Proof. by destruct a. Qed.

Lemma list_insert_both {A} (l l' : list A) (i m : nat) x :
  length l' = length l -> (m <> i -> l' !! m = l !! m) -> <[i := x]> l' !! m = <[i := x]> l !! m.
Proof.
  intros Hlen Hne. destruct (decide (m = i)) as [->|Hji]; [|by rewrite !list_lookup_insert_ne, Hne by done].
  destruct (decide (i < length l)%nat); [by rewrite !list_lookup_insert_eq by lia|].
  by rewrite !list_insert_ge, !lookup_ge_None_2 by lia.
Qed.

Lemma stats_length tr jobs sp c : run (started r k e0) tr c -> simulated tr jobs sp c -> length (sp_stats sp) = length (tstats c).
Proof.
  intros Hrun Hsim. rewrite (replay_length e0 st0 _ _ (si_replay _ _ _ _ Hsim)).
  destruct (reached_sound at_ junk junk_items stack fuel items_length _ _ _ _ e0 Hmain tr c Hrun) as (size & _ & _ & _ & _ & Hs).
  by rewrite (so_stats _ _ _ _ Hs).
Qed.

Lemma environment_texts tr : environment tr -> (room <= n)%nat.
Proof. intros [_ _ Hn]. lia. Qed.

Lemma simulated_answer tr jobs sp q h b cs s k1 e l ps i x d s0 c k2 e2 :
  run (started r k e0) tr (Server q h b cs s k1 e l ps) -> simulated tr jobs sp (Server q h b cs s k1 e l ps) -> environment tr ->
  b !! i = Some (Some x) -> ps !! i = Some None -> cs !! connfd x = Some d -> s !! i = Some s0 ->
  begin (F := F) fuel stack x s0 d (k1, e) = Ok (Value (None, c), (k2, e2)) ->
  exists jobs' sp', simulated (tr ++ [Served i x c]) jobs' sp'
    (Server q h (<[i := None]> b) (closed (connfd x) cs) (<[i := ts c]> s) k2 e2 l ps).
Proof.
  intros Hrun Hsim Henv Hb Hps Hd Hs Hbegin. pose proof (stats_length _ _ _ _ Hrun Hsim) as Hlen.
  destruct (busy_ready _ _ _ _ _ _ Hrun Hsim Henv Hb) as (d' & s' & Hd' & Hs' & Hacc & Hok & Hx). cbn in Hd', Hs', Hlen. simplify_eq.
  pose proof (si_stats _ _ _ _ Hsim i Hps) as Hsp. cbn in Hsp. rewrite Hs in Hsp.
  pose proof (spec_counters _ _ _ _ _ _ Hrun Hsim Henv Hsp) as Hcnt.
  pose proof (wp_begin e0 fuel n stack stack_size x s0 d k1 e Hok (si_files _ _ _ _ Hsim) Hcnt Hx (environment_texts _ Henv)) as Hwp.
  pose proof (run_wp _ _ _ _ _ Hbegin Hwp) as (He2 & a & t & Ha & Ht & Hts & Htm & Hp & Hh & Hno & Ho). cbn [snd] in He2.
  destruct (unlogged a _ (append_stats [] (counted a s0) (round_times x t)) (sp_log sp) (contents a (d, e0)) (eq_sym Hp)) as [Hresp Hlg].
  assert (Hans : answers a x t d s0 (sp_log sp) c).
  { split; [done|]. rewrite Htm. split_and!; [done|done|by split_and!|]. exists []. by rewrite app_nil_r, Hts, Hresp. }
  exists (jobs ++ [Job i x d t (Some c) (length tr)]), (Spec (sp_log sp ++ []) (<[i := counted a s0]> (sp_stats sp))).
  destruct Hsim. cbn [queue hand busy conns tstats kernel rest log paused] in *.
  split; rewrite ?served_with_snoc, ?log_events_snoc; cbn [queue hand busy conns tstats kernel rest log paused sp_log sp_stats];
    rewrite ?omap_app; cbn [omap list_omap served_with log_events]; rewrite ?app_nil_r; try done.
  - rewrite (replay_next _ sp _ _ _ a) with (s0 := s0) by done. unfold entry. by rewrite Hlg, app_nil_r.
  - apply answered_snoc; [done|]. intros c' [= <-]. by exists sp, a, s0.
  - rewrite length_app. lia.
  - intros j Hj. rewrite Hts. apply list_insert_both; [done|]. intros _. by rewrite si_stats0.
  - intros j [Hj| ->%list_elem_of_singleton]%elem_of_app; [by apply in_between_snoc, si_points0|by apply in_between_last].
  - by eapply sorted_snoc.
  - by rewrite si_served0.
  - intros j u Hj. destruct (si_halted0 j u Hj) as (y & d' & a' & t' & s' & th & Hh'). exists y, d', a', t', s', th.
    assert (Hne : j <> i) by congruence.
    eapply halted_keep; [exact Hh'|intros; by apply accepted_grows|..|apply snoc_decomposition];
      cbn; rewrite ?list_lookup_insert_ne by done; (done || apply Hh').
  - intros y d' [Hin|Hin]%elem_of_app; [by eapply si_arrivals0|]. by apply list_elem_of_singleton in Hin.
Qed.


(** ** Into the log, and inside it *)

Lemma simulated_call tr jobs sp q h b cs s k1 e l ps i x d s0 p c k2 e2 l2 :
  run (started r k e0) tr (Server q h b cs s k1 e l ps) -> simulated tr jobs sp (Server q h b cs s k1 e l ps) -> environment tr ->
  b !! i = Some (Some x) -> ps !! i = Some None -> cs !! connfd x = Some d -> s !! i = Some s0 ->
  begin (F := F) fuel stack x s0 d (k1, e) = Ok (Value (Some p, c), (k2, e2)) -> enter no_locals i (call_of p) l = Some l2 ->
  simulated (tr ++ []) jobs sp (Server q h b cs (<[i := ts c]> s) k2 e2 l2 (<[i := Some (suspend p c)]> ps)).
Proof.
  intros Hrun Hsim Henv Hb Hps Hd Hs Hbegin Henter. pose proof (stats_length _ _ _ _ Hrun Hsim) as Hlen.
  destruct (busy_ready _ _ _ _ _ _ Hrun Hsim Henv Hb) as (d' & s' & Hd' & Hs' & Hacc & Hok & Hx). cbn in Hd', Hs', Hlen. simplify_eq.
  pose proof (si_stats _ _ _ _ Hsim i Hps) as Hsp. cbn in Hsp. rewrite Hs in Hsp.
  pose proof (spec_counters _ _ _ _ _ _ Hrun Hsim Henv Hsp) as Hcnt.
  pose proof (wp_begin e0 fuel n stack stack_size x s0 d k1 e Hok (si_files _ _ _ _ Hsim) Hcnt Hx (environment_texts _ Henv)) as Hwp.
  pose proof (run_wp _ _ _ _ _ Hbegin Hwp) as (He2 & a & t & Ha & Ht & Hts & Htm & Hp & Hh & Hno & Ho). cbn [snd] in He2.
  destruct (enter_step log_body no_locals i (call_of p) l l2 Henter) as (th & Hi & Hop & Hl2 & _).
  pose proof (lookup_lt_Some _ _ _ Hi) as Hlt. pose proof (lookup_lt_Some _ _ _ Hps) as Hltp. pose proof (lookup_lt_Some _ _ _ Hs) as Hlts.
  destruct Hsim. cbn [queue hand busy conns tstats kernel rest log paused] in *. rewrite app_nil_r.
  split; cbn [queue hand busy conns tstats kernel rest log paused]; try done.
  - intros m Hm. apply list_lookup_insert_Some in Hm as [(_ & [=] & _)|[Hne Hm]]. rewrite list_lookup_insert_ne by done. by apply si_stats0.
  - intros m Hm. destruct (si_pending0 m Hm) as (u & th' & bs & Hu & Hth & Hbs). assert (Hne : m <> i) by congruence.
    exists u, th', bs. by rewrite Hl2, !list_lookup_insert_ne.
  - intros m u Hm. apply list_lookup_insert_Some in Hm as [(-> & [= <-] & _)|[Hne Hm]].
    + exists x, d, a, t, s0, (Thread (Some (call_of p)) 0 (no_locals (call_of p)) Running).
      assert (Hnone : outcome_of (Thread (Some (call_of p)) 0 (no_locals (call_of p)) Running) = None) by by destruct p.
      split; cbn [busy tstats log at_call s_tm s_desc suspend]; try done.
      * by rewrite Ho, app_nil_r.
      * by rewrite list_lookup_insert_eq, Hts.
      * by rewrite Hl2, list_lookup_insert_eq.
      * split_and!; [done..|]. destruct p; cbn; split; lia.
      * by rewrite Hnone.
    + destruct (si_halted0 m u Hm) as (y & d' & a' & t' & s' & th' & Hh'). exists y, d', a', t', s', th'.
      eapply halted_keep; [exact Hh'|done|..|apply same_decomposition];
        cbn; rewrite ?Hl2, ?list_lookup_insert_ne by done; (done || apply Hh').
Qed.

Lemma stamp_timed t th u u' : stamp t th u = Some u' -> time_ok t -> timed th u ->
  timed th u' /\ at_call u' = at_call u /\ s_rio u' = s_rio u /\ s_tm u' = s_tm u /\ s_desc u' = s_desc u.
Proof.
  unfold stamp, timed. intros Hu Ht (Hen & Hle & Hpc).
  repeat case_match; simplify_eq/=; (split; [|done]); split_and!; try done;
    try (by intros t' [= <-]); try (by eexists); apply Hpc.
Qed.

Lemma simulated_stamp tr jobs sp q h b cs s k1 e l ps i th u u' t k2 :
  simulated tr jobs sp (Server q h b cs s k1 e l ps) -> ps !! i = Some (Some u) -> threads l !! i = Some th ->
  gettimeofday k1 = (t, k2) -> stamp t th u = Some u' ->
  simulated (tr ++ []) jobs sp (Server q h b cs s k2 e l (<[i := Some u']> ps)).
Proof.
  intros [] Hps Hth Hclock Hu. pose proof (gettimeofday_ok k1) as Ht. rewrite Hclock in Ht. cbn in Ht.
  pose proof (lookup_lt_Some _ _ _ Hps) as Hltp.
  cbn [queue hand busy conns tstats kernel rest log paused] in *. rewrite app_nil_r.
  split; cbn [queue hand busy conns tstats kernel rest log paused]; try done.
  - intros m Hm. apply list_lookup_insert_Some in Hm as [(_ & [=] & _)|[Hne Hm]]. by apply si_stats0.
  - intros m Hm. destruct (si_pending0 m Hm) as (v & th' & bs & Hv & Hth' & Hbs).
    destruct (decide (m = i)) as [->|Hne]; [|exists v, th', bs; by rewrite list_lookup_insert_ne].
    exists u', th', bs. by rewrite list_lookup_insert_eq.
  - intros m v Hm. apply list_lookup_insert_Some in Hm as [(-> & [= <-] & _)|[Hne Hm]].
    2:{ destruct (si_halted0 m v Hm) as (y & d' & a' & t' & s' & th' & Hh). exists y, d', a', t', s', th'.
        eapply halted_keep; [exact Hh|done..|apply Hh|done|done|apply Hh|done|apply same_decomposition]. }
    destruct (si_halted0 m u Hps) as (y & d' & a' & t' & s' & th' & []). cbn in ha_thread0. simplify_eq.
    destruct (stamp_timed _ _ _ _ Hu Ht ha_timed0) as (Htd & E1 & E2 & E3 & E4).
    exists y, d', a', t', s', th. split; cbn; rewrite ?E1, ?E3, ?E4; done.
Qed.


(** A thread goes on from a time stamp only when it was taken. *)
Lemma timed_step th th' u :
  timed th u -> stamped th u = true -> op th' = op th -> pc th' = pc th \/ pc th' = S (pc th) -> timed th' u.
Proof.
  intros (Hen & Hle & Hpc) Hst Hop Hpc'. unfold timed. rewrite Hop. split_and!; [done..|].
  unfold stamped, at_enter, at_exit in Hst. apply andb_true_iff in Hst as [Hs1 Hs2].
  destruct (op th) as [[en|]|]; [| |done]; destruct Hpc as [Hp1 Hp2]; (split; intros Hlt).
  - destruct (decide (pc th = 6)%nat) as [Heq|]; [|apply Hp1; lia]. rewrite Heq in Hs1. by apply bool_decide_eq_true in Hs1.
  - destruct (decide (pc th = 10)%nat) as [Heq|]; [|apply Hp2; lia]. rewrite Heq in Hs2. by apply bool_decide_eq_true in Hs2.
  - destruct (decide (pc th = 4)%nat) as [Heq|]; [|apply Hp1; lia]. rewrite Heq in Hs1. by apply bool_decide_eq_true in Hs1.
  - destruct (decide (pc th = 6)%nat) as [Heq|]; [|apply Hp2; lia]. rewrite Heq in Hs2. by apply bool_decide_eq_true in Hs2.
Qed.

Lemma timed_same th th' u : timed th u -> op th' = op th -> pc th' = pc th -> timed th' u.
Proof. unfold timed. by intros Ht -> ->. Qed.

(** What the call of an action does to the log. *)
Lemma effect_entry (a : action) (x : queue_item) t s0 u th ev th' (lg : bytes) :
  pause_of a (append_stats [] s0 (round_times x t)) = Some (at_call u) -> op th = Some (call_of (at_call u)) ->
  stats_fit s0 -> time_ok (timeval_of (arrival x)) -> time_ok t ->
  takes_effect (Some ev) th th' -> (forall bs, ev = Copied bs -> bs = lg ++ [ServerLog.NUL]) ->
  entry a x t s0 = LogBuffer.logged [ev] /\ outcome_of th' = Some (match a with PostLog => lg | _ => [] end).
Proof.
  intros Hp Hop Hs Hx Ht (_ & _ & _ & _ & _ & Hev) Hcopy.
  pose proof (append_stats_length [] s0 (round_times x t) Hs ltac:(by split_and!)) as Hlen. unfold round_times in *. cbn [length] in Hlen.
  destruct ev as [bs|bs].
  - destruct Hev as (Hout & en & Hen & ->). rewrite Hop in Hen. cbn. rewrite app_nil_r, Hout. unfold entry.
    destruct a; try discriminate Hp; injection Hp as Hc; rewrite <- Hc in Hen; cbn in Hen; simplify_eq; cbn [logs];
      (split; [symmetry; apply stored_small; lia|done]).
  - destruct Hev as (Hen & Hout). rewrite Hop in Hen. rewrite (Hcopy bs eq_refl) in Hout. cbn. unfold entry.
    rewrite length_app in Hout. cbn [length] in Hout. rewrite Nat.add_sub, take_app_length in Hout.
    destruct a; try discriminate Hp; injection Hp as Hc; rewrite <- Hc in Hen; cbn in Hen; try discriminate Hen. by rewrite Hout.
Qed.

(** What a step of worker [i]'s thread of the log does to the threads, and to
    the times of the suspended requests. *)
Definition log_moved (i : nat) ev (l l2 : log_config) (ps : list (option (suspended D))) : Prop :=
  forall m tm, threads l !! m = Some tm -> exists tm', threads l2 !! m = Some tm' /\
    takes_effect (if decide (m = i) then ev else None) tm tm' /\
    forall v, ps !! m = Some (Some v) -> timed tm v -> timed tm' v.

Lemma step_log_moved l ps i th u ev l2 :
  ps !! i = Some (Some u) -> threads l !! i = Some th -> stamped th u = true ->
  Monitor.step log_body no_locals l ev l2 -> map op (threads l2) = map op (threads l) -> by_thread i l l2 ->
  log_moved i ev l l2 ps.
Proof.
  intros Hps Hth Hst Hstep Hops Hby m tm Hm. destruct (log_step_by junk i l ev l2 Hstep Hops Hby) as (Hlen & Hall).
  destruct (lookup_lt_is_Some_2 (threads l2) m) as [tm' Hm']; [rewrite Hlen; by eapply lookup_lt_Some|].
  destruct (Hall m tm' Hm') as (tm0 & Hm0 & Hte & Hne). simplify_eq. exists tm'. split_and!; [done..|].
  intros v Hv Htd. pose proof Hte as (Ho & Hpc & _). destruct (decide (m = i)) as [->|Hmi]; [|by eapply timed_same; [|done|apply Hne]].
  simplify_eq. eapply timed_step; [done..|]. destruct Hpc as [?|[_ ?]]; auto.
Qed.

(** A suspended request whose call does not take effect in the step. *)
Lemma halted_moved tr tr' jobs jobs' sp sp' q h b cs s k1 e l l2 ps i ev m u x d a t s0 th :
  halted tr jobs sp (Server q h b cs s k1 e l ps) m u x d a t s0 th -> ps !! m = Some (Some u) ->
  log_moved i ev l l2 ps -> m <> i \/ ev = None ->
  (forall y d', Accepted y d' ∈ tr -> Accepted y d' ∈ tr') -> sp_stats sp' !! m = sp_stats sp !! m ->
  (forall js js' p, jobs = js ++ Job m x d t None p :: js' ->
     exists ks ks', jobs' = ks ++ Job m x d t None p :: ks' /\ replay ks = replay js /\ length ks = length js) ->
  exists th', halted tr' jobs' sp' (Server q h b cs s k1 e l2 ps) m u x d a t s0 th'.
Proof.
  intros Hh Hps Hmv Hm Hacc Hsp Hj. pose proof (ha_thread _ _ _ _ _ _ _ _ _ _ _ _ Hh) as Hth. cbn in Hth.
  destruct (Hmv m th Hth) as (th' & Hth' & Hte & Htd). exists th'.
  assert (Hnone : takes_effect None th th') by (destruct (decide (m = i)), Hm; congruence || by subst).
  eapply halted_keep; [exact Hh|done|done|done|done|apply Hnone|apply Hnone|apply (Htd u Hps), Hh|done|done].
Qed.

(** Nothing but the threads changes. *)
Lemma simulated_quiet tr jobs sp q h b cs s k1 e l l2 ps i :
  simulated tr jobs sp (Server q h b cs s k1 e l ps) -> log_moved i None l l2 ps ->
  simulated tr jobs sp (Server q h b cs s k1 e l2 ps).
Proof.
  intros [] Hmv. cbn [queue hand busy conns tstats kernel rest log paused] in *.
  split; cbn [queue hand busy conns tstats kernel rest log paused]; try done.
  - intros m Hm. destruct (si_pending0 m Hm) as (v & tm & bs & Hv & Htm & Hbs).
    destruct (Hmv m tm Htm) as (tm' & Htm' & Hte & _). exists v, tm', bs. split_and!; [done..|].
    assert (Hnone : takes_effect None tm tm') by by destruct (decide (m = i)). destruct Hnone as (_ & _ & ->). done.
  - intros m v Hm. destruct (si_halted0 m v Hm) as (y & d' & a' & t' & s' & tm & Hh). exists y, d', a', t', s'.
    by eapply (halted_moved tr tr jobs jobs sp sp); [| | |right| | |apply same_decomposition].
Qed.

(** The call of worker [i] takes effect: so does its request. *)
Lemma simulated_effect tr jobs sp q h b cs s k1 e l l2 ps i u x d a t s0 th th' ev :
  simulated tr jobs sp (Server q h b cs s k1 e l ps) -> log_moved i (Some ev) l l2 ps ->
  ps !! i = Some (Some u) -> halted tr jobs sp (Server q h b cs s k1 e l ps) i u x d a t s0 th ->
  threads l2 !! i = Some th' -> timed th' u -> takes_effect (Some ev) th th' ->
  entry a x t (counted a s0) = LogBuffer.logged [ev] -> outcome_of th' = Some (match a with PostLog => sp_log sp | _ => [] end) ->
  simulated (tr ++ [Logged i ev]) (jobs ++ [Job i x d t None (length tr)])
    (Spec (sp_log sp ++ entry a x t (counted a s0)) (<[i := counted a s0]> (sp_stats sp))) (Server q h b cs s k1 e l2 ps).
Proof.
  intros Hsim Hmv Hps Hh Hth' Htd (Hopeq & _ & _ & _ & Hout & _) Hentry Hout'.
  pose proof (ha_effect _ _ _ _ _ _ _ _ _ _ _ _ Hh) as Hs0. rewrite Hout in Hs0.
  pose proof (ha_thread _ _ _ _ _ _ _ _ _ _ _ _ Hh) as Hth. destruct Hsim. cbn [queue hand busy conns tstats kernel rest log paused] in *.
  pose proof (entry_length a x t (counted a s0) (counted_fit a s0 (ha_counters _ _ _ _ _ _ _ _ _ _ _ _ Hh))
    (si_arrivals0 _ _ (ha_accepted _ _ _ _ _ _ _ _ _ _ _ _ Hh)) (ha_time _ _ _ _ _ _ _ _ _ _ _ _ Hh)) as Hel.
  assert (Hnew : i ∉ omap pending jobs) by (intros Hi; destruct (si_pending0 i Hi) as (v & tv & bs & _ & Htv & Hbs); simplify_eq).
  split; rewrite ?served_with_snoc, ?log_events_snoc; cbn [queue hand busy conns tstats kernel rest log paused sp_log sp_stats];
    rewrite ?omap_app; cbn [omap list_omap served_with log_events]; rewrite ?app_nil_r; try done.
  - apply replay_next; [done|apply Hh|done].
  - by apply answered_snoc.
  - by rewrite logged_app, si_log0, Hentry.
  - rewrite !length_app. cbn [length]. lia.
  - intros m Hm. rewrite list_lookup_insert_ne by congruence. by apply si_stats0.
  - intros j [Hj| ->%list_elem_of_singleton]%elem_of_app; [by apply in_between_snoc, si_points0|]. apply in_between_last; [apply Hh|done].
  - by eapply sorted_snoc.
  - apply NoDup_app. split_and!; [done| |by repeat constructor; apply not_elem_of_nil]. intros m Hm ->%list_elem_of_singleton. done.
  - intros m [Hm| ->%list_elem_of_singleton]%elem_of_app; [|by exists u, th', (match a with PostLog => sp_log sp | _ => [] end)].
    destruct (si_pending0 m Hm) as (v & tm & bs & Hv & Htm & Hbs). assert (Hne : m <> i) by (intros ->; done).
    destruct (Hmv m tm Htm) as (tm' & Htm' & (_ & _ & Heq) & _). rewrite decide_False in Heq by done. exists v, tm', bs. by rewrite Heq.
  - intros m v Hm. destruct (decide (m = i)) as [->|Hne].
    + simplify_eq. exists x, d, a, t, s0, th'. destruct Hh. split; cbn in *; rewrite ?Hopeq, ?Hout'; try done; [by apply accepted_grows|].
      rewrite list_lookup_insert_eq by by eapply lookup_lt_Some. split; [done|]. exists jobs, [], sp, (length tr). by split_and!.
    + destruct (si_halted0 m v Hm) as (y & d' & a' & t' & s' & tm & Hh'). exists y, d', a', t', s'.
      eapply halted_moved; [exact Hh'|done|exact Hmv|by left|intros; by apply accepted_grows|cbn; by rewrite list_lookup_insert_ne|apply snoc_decomposition].
  - intros y d' [Hin|Hin]%elem_of_app; [by eapply si_arrivals0|]. by apply list_elem_of_singleton in Hin.
Qed.

Lemma simulated_log tr jobs sp q h b cs s k1 e l ps i th u ev l2 :
  run (started r k e0) tr (Server q h b cs s k1 e l ps) -> simulated tr jobs sp (Server q h b cs s k1 e l ps) ->
  ps !! i = Some (Some u) -> threads l !! i = Some th -> stamped th u = true ->
  Monitor.step log_body no_locals l ev l2 -> map op (threads l2) = map op (threads l) -> by_thread i l l2 ->
  exists jobs' sp', simulated (tr ++ option_list (Logged i <$> ev)) jobs' sp' (Server q h b cs s k1 e l2 ps).
Proof.
  intros Hrun Hsim Hps Hth Hst Hstep Hops Hby. pose proof (step_log_moved _ _ _ _ _ _ _ Hps Hth Hst Hstep Hops Hby) as Hmv.
  destruct ev as [ev|]; [|exists jobs, sp; cbn; rewrite app_nil_r; by eapply simulated_quiet].
  destruct (si_halted _ _ _ _ Hsim i u Hps) as (x & d & a & t & s0 & th0 & Hh). pose proof (ha_thread _ _ _ _ _ _ _ _ _ _ _ _ Hh) as Hth0. cbn in Hth0. simplify_eq.
  destruct (Hmv i th Hth) as (th' & Hth' & Heff & Htd). rewrite decide_True in Heff by done.
  assert (Hcopy : forall bs, ev = Copied bs -> bs = sp_log sp ++ [ServerLog.NUL]).
  { intros bs ->. rewrite (si_log _ _ _ _ Hsim).
    destruct (reached_log at_ junk junk_items stack fuel _ _ _ _ _ Hmain _ _ Hrun) as [_ Hinv].
    pose proof (step_inv _ _ _ _ Hinv Hstep) as Hinv'. by apply (inv_copies _ _ Hinv' (log_events tr) bs []). }
  destruct (effect_entry a x t (counted a s0) u th ev th' (sp_log sp)) as [Hentry Hout];
    [apply Hh|apply Hh|apply counted_fit, Hh|by eapply (si_arrivals _ _ _ _ Hsim), Hh|apply Hh|done|by apply Hcopy|].
  do 2 eexists. eapply simulated_effect; [exact Hsim|exact Hmv|done|exact Hh|done|apply Htd, Hh; done|done..].
Qed.

(** ** Back from the log *)

Lemma update_decomposition js js' (i : nat) (x : queue_item) (d : D) t (res : option conn) p m (y : queue_item) (d' : D) t' : m <> i ->
  forall ks ks' p', js ++ Job i x d t None p :: js' = ks ++ Job m y d' t' None p' :: ks' ->
  exists qs qs', js ++ Job i x d t res p :: js' = qs ++ Job m y d' t' None p' :: qs' /\ replay qs = replay ks /\ length qs = length ks.
Proof.
  intros Hne ks ks' p' Heq. apply middle_split in Heq as [(_ & Hj & _)|[(l & -> & ->)|(l & -> & ->)]].
  - by injection Hj.
  - exists ks, (l ++ Job i x d t res p :: js'). by rewrite <- app_assoc.
  - exists (js ++ Job i x d t res p :: l), ks'. rewrite <- app_assoc. split; [done|]. split; [by apply replay_update|].
    rewrite !length_app. done.
Qed.

Lemma answers_log a (x : queue_item) t (d : D) s0 lg (c : conn) :
  answers a x t d s0 (match a with PostLog => lg | _ => [] end) c -> answers a x t d s0 lg c.
Proof. intros (H1' & H2' & H3' & H4' & o & H5' & H6'). split_and!; [done..|]. exists o. by destruct a. Qed.

Lemma outcome_at_end (th : log_thread) o v :
  op th = Some o -> pc th = length (log_body o) -> local th = v -> outcome_of th = Some (returned o v).
Proof. unfold outcome_of. intros -> -> ->. by destruct o. Qed.

Lemma in_between_done tr i (x : queue_item) (d : D) t p (c : conn) :
  in_between tr (Job i x d t None p) -> in_between (tr ++ [Served i x c]) (Job i x d t (Some c) p).
Proof.
  intros Hb. pose proof (in_between_lt _ _ Hb) as Hlt. cbn in Hlt. destruct Hb as (Ha & Hp & _). cbn in Ha, Hp.
  unfold in_between. cbn. rewrite take_app_le, lookup_app_l, drop_app_le by lia. split; [done|]. split.
  - destruct (tr !! p) as [[| |i' e'|i' x' c']|]; try done. by destruct Hp as (_ & _ & ?).
  - intros c' [= <-]. apply elem_of_app. right. by apply list_elem_of_singleton.
Qed.

(** The end of a request the specification has handled. *)
Lemma resumed tr jobs sp q h b cs s k1 e l ps i x s1 u t1 t2 o v l2 :
  run (started r k e0) tr (Server q h b cs s k1 e l ps) -> simulated tr jobs sp (Server q h b cs s k1 e l ps) -> environment tr ->
  b !! i = Some (Some x) -> ps !! i = Some (Some u) -> s !! i = Some s1 -> entered u = Some t1 -> left u = Some t2 ->
  leave log_body i l = Some (o, v, l2) ->
  exists d a t s0 js js' sp1 p, jobs = js ++ Job i x d t None p :: js' /\ replay js = Some sp1 /\ action_of d = Some a /\
    sp_stats sp1 !! i = Some s0 /\ s1 = counted a s0 /\ sp_stats sp !! i = Some s1 /\
    wp (resume (F := F) fuel x s1 u (returned o v) (t1, t2)) (fun res ke => e_files (D := D) (F := F) e0 (snd ke) /\
      match res with Value c => answers a x t d s0 (sp_log sp1) c | Exited => True end) (k1, e).
Proof.
  intros Hrun Hsim Henv Hb Hps Hs Ht1 Ht2 Hleave.
  destruct (leave_step log_body no_locals i l o v l2 Hleave) as (th & Hi & Hop & _ & Hpc & Hv & _ & _).
  destruct (reached_log at_ junk junk_items stack fuel _ _ _ _ _ Hmain _ _ Hrun) as [Hin _].
  pose proof (sim_length _ _ _ _ _ _ Hsim Hin) as Hlen. destruct (si_halted _ _ _ _ Hsim i u Hps) as (y & d & a & t & s0 & th' & []).
  cbn [busy tstats log] in *. simplify_eq. rewrite (outcome_at_end _ _ _ Hop Hpc eq_refl) in ha_effect0.
  destruct ha_effect0 as (Hsp & js & js' & sp1 & p & -> & Hr & Hs1 & Hbs & Hle). rewrite length_app in Hlen. cbn [length] in Hlen.
  exists d, a, t, s0, js, js', sp1, p. split_and!; [done..|].
  destruct ha_timed0 as (Hok1 & Hok2 & _). destruct (env_requests _ Henv _ _ ha_accepted0) as (_ & _ & _ & _ & _ & a' & Ha' & Hsv). simplify_eq.
  pose proof (env_room _ Henv) as Hroom.
  eapply wp_mono; [apply (wp_resume e0 fuel n x s0 d a t u e (returned _ (local th)) (t1, t2) k1)|]; try done.
  - apply (si_files _ _ _ _ Hsim).
  - by eapply si_arrivals.
  - by apply Hok1.
  - by apply Hok2.
  - rewrite Hbs. destruct a; cbn [length]; lia.
  - intros [c|] ke [Hf Hans]; split; try done. rewrite Hbs in Hans. by apply answers_log.
Qed.

Lemma simulated_serve tr jobs sp q h b cs s k1 e l ps i x s1 u t1 t2 o v l2 c k2 e2 :
  run (started r k e0) tr (Server q h b cs s k1 e l ps) -> simulated tr jobs sp (Server q h b cs s k1 e l ps) -> environment tr ->
  b !! i = Some (Some x) -> ps !! i = Some (Some u) -> s !! i = Some s1 -> entered u = Some t1 -> left u = Some t2 ->
  leave log_body i l = Some (o, v, l2) ->
  resume (F := F) fuel x s1 u (returned o v) (t1, t2) (k1, e) = Ok (Value c, (k2, e2)) ->
  exists jobs', simulated (tr ++ [Served i x c]) jobs' sp
    (Server q h (<[i := None]> b) (closed (connfd x) cs) (<[i := ts c]> s) k2 e2 l2 (<[i := None]> ps)).
Proof.
  intros Hrun Hsim Henv Hb Hps Hs Ht1 Ht2 Hleave Hresume.
  destruct (resumed _ _ _ _ _ _ _ _ _ _ _ _ _ _ _ _ _ _ _ _ _ Hrun Hsim Henv Hb Hps Hs Ht1 Ht2 Hleave)
    as (d & a & t & s0 & js & js' & sp1 & p & -> & Hr & Ha & Hs0 & -> & Hsp & Hwp).
  pose proof (run_wp _ _ _ _ _ Hresume Hwp) as [He2 Hans]. cbn [snd] in He2.
  destruct (leave_step log_body no_locals i l o v l2 Hleave) as (th & Hi & Hop & _ & Hpc & Hv & Hl2 & _).
  destruct Hsim. cbn [queue hand busy conns tstats kernel rest log paused] in *.
  exists (js ++ Job i x d t (Some c) p :: js'). rewrite omap_app in si_served0. rewrite omap_app in si_once0. setoid_rewrite omap_app in si_pending0. cbn in si_served0, si_once0, si_pending0.
  assert (Hsame : forall m, m ∈ omap pending js ++ omap pending js' -> m <> i /\ m ∈ omap pending js ++ i :: omap pending js').
  { intros m Hm. pose proof (NoDup_app (omap pending js) (i :: omap pending js')) as [Hnd _]. destruct (Hnd si_once0) as (_ & Hn1 & [Hn2 _]%NoDup_cons).
    split; [|by set_solver]. intros ->. apply elem_of_app in Hm as [Hm|Hm]; [|done]. apply (Hn1 i Hm). by left. }
  split; rewrite ?served_with_snoc, ?log_events_snoc; cbn [queue hand busy conns tstats kernel rest log paused];
    rewrite ?omap_app; cbn [omap list_omap served_with log_events result_of pending j_result mbind option_bind j_worker j_item]; rewrite ?app_nil_r; try done.
  - rewrite <- si_replay0. by apply replay_update.
  - eapply answered_update; [|exact si_answers0|]; [done|]. intros c' [= <-]. by exists sp1, a, s0.
  - rewrite length_app in *. cbn in *. lia.
  - intros m Hm. destruct (decide (m = i)) as [->|Hne].
    + rewrite list_lookup_insert_eq by by eapply lookup_lt_Some. by rewrite (proj1 Hans).
    + rewrite list_lookup_insert_ne in Hm by done. rewrite list_lookup_insert_ne by done. by apply si_stats0.
  - intros j [Hj|[->|Hj]%elem_of_cons]%elem_of_app; [apply in_between_snoc, si_points0; set_solver| |apply in_between_snoc, si_points0; set_solver].
    apply in_between_done, si_points0. set_solver.
  - rewrite fmap_app in *. done.
  - rewrite <- si_served0. rewrite <- app_assoc. f_equiv. apply Permutation_cons_append.
  - by apply NoDup_app in si_once0 as (Hn1 & Hn2 & [Hn3 Hn4]%NoDup_cons); apply NoDup_app; split_and!; [|intros m Hm Hm'; apply (Hn2 m Hm); right|].
  - intros m Hm. destruct (Hsame m Hm) as [Hne Hin]. destruct (si_pending0 m Hin) as (w & tm & bs & Hw & Htm & Hbs).
    exists w, tm, bs. by rewrite Hl2, !list_lookup_insert_ne.
  - intros m w Hm. apply list_lookup_insert_Some in Hm as [(_ & [=] & _)|[Hne Hm]].
    destruct (si_halted0 m w Hm) as (y & d' & a' & t' & s' & tm & Hh'). exists y, d', a', t', s', tm.
    eapply halted_keep; [exact Hh'|intros; by apply accepted_grows|..|by apply update_decomposition];
      cbn; rewrite ?Hl2, ?list_lookup_insert_ne by done; (done || apply Hh').
  - intros y d' [Hin|Hin]%elem_of_app; [by eapply si_arrivals0|]. by apply list_elem_of_singleton in Hin.
Qed.


(** ** Every run *)

Lemma started_simulated : simulated [] [] (Spec [] st0) (started r k e0).
Proof.
  split; cbn [started conns rest tstats log paused]; try done.
  - by intros [|j js] j' js' c' Heq.
  - by intros j Hj%elem_of_nil.
  - constructor.
  - constructor.
  - by intros i Hi%elem_of_nil.
  - intros i u Hi. by apply repeat_lookup in Hi.
  - by intros x d Hx%elem_of_nil.
Qed.

Lemma run_simulated tr c : run (started r k e0) tr c -> environment tr -> exists jobs sp, simulated tr jobs sp c.
Proof.
  intros Hrun. remember (started r k e0) as c0 eqn:Hc0. induction Hrun as [c|c tr c1 e c2 Hrun IH Hstep]; intros Henv; subst.
  - eexists [], _. apply started_simulated.
  - destruct (IH eq_refl (environment_prefix _ _ Henv)) as (jobs & sp & Hsim). pose proof (environment_prefix _ _ Henv) as Henv'. clear IH Henv.
    inversion Hstep as [| | | | | | |i c' ev oc Hwork]; clear Hstep; try subst c1; try subst c2; try subst e; cbn [option_list].
    + exists jobs, sp. apply (simulated_frame _ _ _ _ _ (Some (Accepted _ _)) Hsim); try done.
      intros y d' [= <- <-]. by eapply accept_arrival.
    + exists jobs, sp. by apply (simulated_frame _ _ _ _ _ None Hsim).
    + exists jobs, sp. by apply (simulated_frame _ _ _ _ _ None Hsim).
    + exists jobs, sp. by apply (simulated_frame _ _ _ _ _ None Hsim).
    + exists jobs, sp. apply (simulated_frame _ _ _ _ _ None Hsim); try done.
      cbn. intros m y u Hm _. rewrite list_lookup_insert_ne; [done|]. congruence.
    + exists jobs, sp. apply (simulated_frame _ _ _ _ _ (Queued <$> _) Hsim); try done;
        by lazymatch goal with |- context [Queued <$> ?e] => destruct e end.
    + inversion Hwork; clear Hwork; try subst c'; try subst c2; try subst ev; cbn [option_list].
      * by eapply simulated_answer.
      * exists jobs, sp. by eapply simulated_call.
      * exists jobs, sp. by eapply simulated_stamp.
      * by eapply simulated_log.
      * edestruct simulated_serve as [jobs' Hs']; [exact Hrun|exact Hsim|done..|]. by exists jobs', sp.
Qed.

(** ** Progress *)

(** A thread before a time stamp that was not taken can take it. *)
Lemma unstamped t th u : timed th u -> stamped th u = false -> exists u', stamp t th u = Some u'.
Proof.
  intros (_ & _ & Hpc) Hst. unfold stamped, stamp, at_enter, at_exit in *.
  destruct (op th) as [[en|]|]; [| |done]; destruct Hpc as [Hp1 Hp2];
    (destruct (entered u) as [t1|]; [destruct (left u) as [t2|]; [by rewrite !orb_true_r in Hst|]|]);
    repeat (case_match; try done); first [by eexists|by destruct (Hp1 ltac:(lia))].
Qed.

Lemma worker_begins tr jobs sp c i x :
  run (started r k e0) tr c -> simulated tr jobs sp c -> environment tr ->
  busy c !! i = Some (Some x) -> paused c !! i = Some None -> exists ev oc, work i c ev oc.
Proof.
  intros Hrun Hsim Henv Hb Hps. destruct (busy_ready _ _ _ _ _ _ Hrun Hsim Henv Hb) as (d & s0 & Hd & Hs & Hacc & Hok & Hx).
  pose proof (si_stats _ _ _ _ Hsim i Hps) as Hsp. rewrite Hs in Hsp.
  pose proof (spec_counters _ _ _ _ _ _ Hrun Hsim Henv Hsp) as Hcnt.
  pose proof (wp_begin e0 fuel n stack stack_size x s0 d (kernel c) (rest c) Hok (si_files _ _ _ _ Hsim) Hcnt Hx (environment_texts _ Henv)) as Hwp.
  destruct (wp_run _ _ _ Hwp) as (res & [k2 e2] & Hbegin & _).
  destruct (reached_log at_ junk junk_items stack fuel _ _ _ _ _ Hmain _ _ Hrun) as [Hin _].
  destruct c as [q h b cs s k1 e l ps]. cbn in *. destruct res as [[[p|] c1]|].
  - assert (Hi : exists th, l.(threads) !! i = Some th).
    { apply lookup_lt_is_Some_2. pose proof (lookup_lt_Some _ _ _ Hps) as Hlt.
      pose proof (il_threads _ _ _ _ _ Hin) as H1'. pose proof (il_paused _ _ _ _ _ Hin) as H2'. cbn in H1', H2'. lia. }
    destruct Hi as [th Hi]. pose proof (il_outside _ _ _ _ _ Hin i th Hi Hps) as Hop.
    do 2 eexists. eapply work_call; [done..|]. unfold enter. rewrite Hi. cbn. by rewrite Hop.
  - do 2 eexists. by eapply work_answer.
  - do 2 eexists. by eapply work_begin_fails.
Qed.

Lemma worker_ends tr jobs sp c i u th o :
  run (started r k e0) tr c -> simulated tr jobs sp c -> environment tr ->
  paused c !! i = Some (Some u) -> threads (log c) !! i = Some th -> op th = Some o -> Monitor.stat th = Running ->
  pc th = length (log_body o) -> exists ev oc, work i c ev oc.
Proof.
  intros Hrun Hsim Henv Hps Hi Hop Hst Hpc. destruct (si_halted _ _ _ _ Hsim i u Hps) as (x & d & a & t & s0 & th' & Hh).
  pose proof (ha_busy _ _ _ _ _ _ _ _ _ _ _ _ Hh) as Hb. pose proof (ha_stats _ _ _ _ _ _ _ _ _ _ _ _ Hh) as Hs.
  pose proof (ha_thread _ _ _ _ _ _ _ _ _ _ _ _ Hh) as Hi'. rewrite Hi in Hi'. injection Hi' as <-.
  assert (Htimes : is_Some (entered u) /\ is_Some (left u)).
  { destruct (ha_timed _ _ _ _ _ _ _ _ _ _ _ _ Hh) as (_ & _ & Hlt). rewrite Hop, Hpc in Hlt. destruct o; cbn in Hlt; split; apply Hlt; lia. }
  destruct Htimes as [[t1 Ht1] [t2 Ht2]]. destruct c as [q h b cs s k1 e l ps]. cbn in *.
  assert (Hleave : exists l2, leave log_body i l = Some (o, local th, l2)).
  { unfold leave. rewrite Hi. cbn. rewrite Hop. cbn. rewrite bool_decide_true, Hpc, Nat.eqb_refl by done. by eexists. }
  destruct Hleave as [l2 Hleave].
  destruct (resumed _ _ _ _ _ _ _ _ _ _ _ _ _ _ _ _ _ _ _ _ _ Hrun Hsim Henv Hb Hps Hs Ht1 Ht2 Hleave)
    as (d' & a' & t' & s0' & js & js' & sp1 & p & _ & _ & _ & _ & _ & _ & Hwp).
  destruct (wp_run _ _ _ Hwp) as ([c1|] & [k2 e2] & Hres & _); do 2 eexists; [by eapply work_serve|by eapply work_serve_fails].
Qed.

(** The log has room for the entry of every worker. *)
Lemma log_room tr jobs sp c i u x d a t s0 th :
  run (started r k e0) tr c -> simulated tr jobs sp c -> environment tr -> halted tr jobs sp c i u x d a t s0 th ->
  Z.of_nat (length (LogBuffer.logged (log_events tr))) +
  Z.of_nat (length (match call_of (at_call u) with ServerLog.Write en => en | ServerLog.Read => [] end)) < 2 ^ 30.
Proof.
  intros Hrun Hsim Henv Hh. destruct (reached_log at_ junk junk_items stack fuel _ _ _ _ _ Hmain _ _ Hrun) as [Hin _].
  pose proof (sim_length _ _ _ _ _ _ Hsim Hin) as Hlen. pose proof (si_bound _ _ _ _ Hsim) as Hb. rewrite (si_log _ _ _ _ Hsim) in Hb.
  pose proof (env_log _ Henv) as Hl. unfold log_limit in Hl.
  pose proof (append_stats_length [] (counted a s0) (round_times x t) (counted_fit a s0 (ha_counters _ _ _ _ _ _ _ _ _ _ _ _ Hh))
    ltac:(split_and!; first [by eapply si_arrivals, Hh|apply Hh])) as He. cbn [length] in He.
  pose proof (ha_call _ _ _ _ _ _ _ _ _ _ _ _ Hh) as Hc. destruct a; try discriminate Hc; injection Hc as <-; cbn [call_of length]; lia.
Qed.

Lemma worker_goes_on tr jobs sp c i u x d a t s0 th :
  run (started r k e0) tr c -> simulated tr jobs sp c -> environment tr ->
  paused c !! i = Some (Some u) -> halted tr jobs sp c i u x d a t s0 th ->
  (exists cv, Monitor.stat th = Waiting cv) \/ blocked log_body (log c) i th \/ exists ev oc, work i c ev oc.
Proof.
  intros Hrun Hsim Henv Hps Hh. destruct (reached_log at_ junk junk_items stack fuel _ _ _ _ _ Hmain _ _ Hrun) as [Hin Hinv].
  pose proof (ha_thread _ _ _ _ _ _ _ _ _ _ _ _ Hh) as Hi. pose proof (ha_op _ _ _ _ _ _ _ _ _ _ _ _ Hh) as Hop.
  assert (Hn : Z.of_nat (length (threads (log c))) < 2 ^ 31 - 1).
  { rewrite (il_threads _ _ _ _ _ Hin). pose proof (env_log _ Henv). unfold log_limit in *. lia. }
  destruct (inv_progress _ _ i th _ Hinv Hn (log_room _ _ _ _ _ _ _ _ _ _ _ _ Hrun Hsim Henv Hh) Hi Hop) as [|[|(ev & l2 & th2 & Hstep & Hi2 & Hne)]]; [by left|by right; left|].
  pose proof (excl_waits _ _ (inv_mutex _ _ Hinv) _ _ Hi) as Hw. unfold waits_well in Hw.
  assert (Hgo : (forall cv, Monitor.stat th <> Waiting cv) -> is_Some (at_instr log_body th) -> exists ev oc, work i c ev oc).
  { intros Hawake Hat. destruct (step_by_thread log_body no_locals _ _ _ i th Hstep Hi Hawake Hat) as [Hby Hops]; [congruence|].
    destruct c as [q h b cs s k1 e l ps]. cbn in *. destruct (stamped th u) eqn:Hstamp; [do 2 eexists; by eapply work_log|].
    destruct (gettimeofday k1) as [t' k2] eqn:Hk. destruct (unstamped t' th u (ha_timed _ _ _ _ _ _ _ _ _ _ _ _ Hh) Hstamp) as [u' Hu'].
    do 2 eexists. by eapply work_stamp. }
  destruct (Monitor.stat th) as [|cv|] eqn:Hst; [|by left; exists cv|]; right; right.
  - destruct (at_instr log_body th) as [ins|] eqn:Hat; [by apply Hgo; [|eexists]|].
    eapply (worker_ends _ _ _ _ _ _ th); try done. unfold at_instr in Hat. rewrite Hop in Hat. apply lookup_ge_None in Hat.
    specialize (Hw _ Hop). lia.
  - destruct Hw as (cnd & cv & Hat). apply Hgo; [done|]. by rewrite Hat.
Qed.

(** ** The theorem *)

Lemma pending_unique jobs j1 j2 :
  NoDup (omap pending jobs) -> j1 ∈ jobs -> j2 ∈ jobs -> j_result j1 = None -> j_result j2 = None ->
  j_worker j1 = j_worker j2 -> j1 = j2.
Proof.
  intros Hnd Hj1 Hj2 Hr1 Hr2 Hw.
  assert (Hin : forall js j, j ∈ js -> j_result j = None -> j_worker j ∈ omap pending js).
  { intros js j Hj Hr. apply list_elem_of_omap. exists j. split; [done|]. unfold pending. by rewrite Hr. }
  induction jobs as [|j jobs IH]; [by apply elem_of_nil in Hj1|]. apply elem_of_cons in Hj1, Hj2. cbn in Hnd.
  destruct Hj1 as [->|Hj1], Hj2 as [->|Hj2]; [done|..].
  - unfold pending in Hnd at 1. rewrite Hr1 in Hnd. apply NoDup_cons in Hnd as [Hn _]. exfalso. apply Hn. rewrite Hw. by apply Hin.
  - unfold pending in Hnd at 1. rewrite Hr2 in Hnd. apply NoDup_cons in Hnd as [Hn _]. exfalso. apply Hn. rewrite <- Hw. by apply Hin.
  - apply IH; [|done..]. destruct (pending j); [by apply NoDup_cons in Hnd as [_ ?]|done].
Qed.

(** A request that has taken effect and not ended is the one its worker is
    at. *)
Lemma pending_busy tr jobs sp c j :
  simulated tr jobs sp c -> j ∈ jobs -> j_result j = None -> busy c !! j_worker j = Some (Some (j_item j)).
Proof.
  intros Hsim Hj Hr. destruct (si_pending _ _ _ _ Hsim (j_worker j)) as (u & th & bs & Hu & Hth & Hbs).
  { apply list_elem_of_omap. exists j. split; [done|]. unfold pending. by rewrite Hr. }
  destruct (si_halted _ _ _ _ Hsim _ _ Hu) as (x & d & a & t & s0 & th' & []). simplify_eq. rewrite Hbs in ha_effect0.
  destruct ha_effect0 as (_ & js & js' & sp1 & p & -> & _).
  rewrite (pending_unique _ j (Job (j_worker j) x d t None p) (si_once _ _ _ _ Hsim)); cbn; try done.
  apply elem_of_app. right. by left.
Qed.

(** C2: The whole server, with the queue of [server.c] and the log of [log.c]
    interleaved statement by statement, answers like a server that handles one
    request at a time.  In every run in which each accepted connection
    carries a well-formed request for a file that can be served, with fuel
    beyond the bytes and interruptions of a connection and room below the
    log's limit, on a clock that yields proper times and with files that stay
    as they are, there is an order of the requests, each taking effect in one
    step of its worker after its connection was accepted and no later than it
    is served, such that handling them in that order gives every response that
    was sent, the bytes in the buffer of the log whenever no writer is at it,
    and the counters of every worker without a connection.  A worker with a
    connection sleeps in the log, needs the mutex another one owns, or has a
    next step: its code runs into nothing undefined and out of no loop. *)
Theorem server_linearizable tr c :
  run (started r k e0) tr c -> environment tr ->
  (exists jobs sp,
     replay jobs = Some sp /\ answered_in_turn jobs /\ omap result_of jobs ≡ₚ served_with tr /\
     (forall j, j ∈ jobs -> in_between tr j /\ (j_result j = None -> busy c !! j_worker j = Some (Some (j_item j)))) /\
     StronglySorted lt (j_at <$> jobs) /\
     ((forall i th, threads (log c) !! i = Some th -> midway th = false) -> holds (shared (log c)) (sp_log sp)) /\
     (forall i, busy c !! i = Some None -> sp_stats sp !! i = tstats c !! i)) /\
  forall i x, busy c !! i = Some (Some x) ->
    (exists th, threads (log c) !! i = Some th /\ ((exists cv, Monitor.stat th = Waiting cv) \/ blocked log_body (log c) i th)) \/
    exists ev oc, work i c ev oc.
Proof.
  intros Hrun Henv. destruct (run_simulated _ _ Hrun Henv) as (jobs & sp & Hsim).
  destruct (reached_log at_ junk junk_items stack fuel _ _ _ _ _ Hmain _ _ Hrun) as [Hin Hinv].
  destruct (reached_sound at_ junk junk_items stack fuel items_length _ _ _ _ e0 Hmain tr c Hrun) as (size & _ & _ & _ & _ & Hs).
  assert (Hps : forall i o, busy c !! i = Some o -> exists p, paused c !! i = Some p).
  { intros i o Hi. apply lookup_lt_is_Some_2. rewrite (il_paused _ _ _ _ _ Hin), <- (so_workers _ _ _ _ Hs). by eapply lookup_lt_Some. }
  split.
  - exists jobs, sp. split_and!; try apply Hsim.
    + intros j Hj. split; [by apply (si_points _ _ _ _ Hsim)|]. by eapply pending_busy.
    + rewrite (si_log _ _ _ _ Hsim). apply (bi_rest _ _ (inv_buffer _ _ Hinv)).
    + intros i Hi. destruct (Hps i _ Hi) as [[u|] Hu]; [|by apply (si_stats _ _ _ _ Hsim)].
      destruct (il_inside _ _ _ _ _ Hin i u Hu) as [[x Hx] _]. congruence.
  - intros i x Hb. destruct (Hps i _ Hb) as [[u|] Hu]; [|right; by eapply worker_begins].
    destruct (si_halted _ _ _ _ Hsim i u Hu) as (y & d & a & t & s0 & th & Hh).
    destruct (worker_goes_on _ _ _ _ _ _ _ _ _ _ _ _ Hrun Hsim Henv Hu Hh) as [Hw|[Hw|Hw]]; [left..|by right];
      exists th; (split; [apply Hh|]); auto.
Qed.

End refinement.
