(* ===== verification/ServerToy.v ===== *)
(** * [server.c]: a server that runs

    A concrete kernel and environment, the server [main] starts on them with
    one worker and a queue of one slot, and a schedule in which a client asks
    for a file: the theorems of [ServerProps] and [ServerRefines] at these. *)

From stdpp Require Import gmap.
From S2P Require Import Prelude Monitor ServerLog LogBuffer LogProps ReqQueue ShellText Rio Segel Request RequestProps RequestSplit Backend Server ServerInv ServerPaused ServerProps ServerSpec ServerRefines.

(** ** The kernel: the next descriptor and what was printed *)

Record toy_kernel := Toy { next_fd : Z; printed : text }.

Definition ok0 (k : toy_kernel) : Z * toy_kernel := (0, k).
Definition fresh_fd (k : toy_kernel) : Z * toy_kernel := (next_fd k, Toy (next_fd k + 1) (printed k)).

#[export] Instance toy_errors : Errors toy_kernel := {
  strerror := fun _ => []; errno := fun _ => 0; put_err := fun t k => Toy (next_fd k) (printed k ++ t) }.
#[export] Instance toy_console : Console toy_kernel := { put_out := fun t k => Toy (next_fd k) (printed k ++ t) }.
#[export] Instance toy_clock : Clock toy_kernel := { gettimeofday := fun k => (toy_now, k) }.
#[export] Instance toy_threads : Threads toy_kernel Z := {
  pthread_create := fun i k => ((0, i), k); pthread_join := fun _ => ok0; pthread_detach := fun _ => ok0; pthread_self := fun _ => 0 }.
#[export] Instance toy_monitors : Monitors toy_kernel := {
  pthread_mutex_init := fun _ => ok0; pthread_mutex_lock := fun _ => ok0; pthread_mutex_unlock := fun _ => ok0;
  pthread_cond_init := fun _ => ok0; pthread_cond_signal := fun _ => ok0; pthread_cond_broadcast := fun _ => ok0;
  pthread_cond_wait := fun _ _ => ok0 }.
#[export] Instance toy_memory : Memory toy_kernel := {
  sys_malloc := fun _ k => (4096, k); sys_realloc := fun p _ k => (p, k); sys_calloc := fun _ _ k => (4096, k);
  sys_free := fun _ k => k }.
#[export] Instance toy_sockets : Sockets toy_kernel := {
  sys_socket := fresh_fd; sys_setsockopt := fun _ => ok0; sys_bind := fun _ _ => ok0; sys_listen := fun _ _ => ok0;
  sys_accept := fun _ => fresh_fd; sys_connect := fun _ _ => ok0; sys_gethostbyname := fun _ k => (None, k) }.
#[export] Instance toy_file_calls : FileCalls toy_kernel := {
  sys_open := fun _ _ _ => fresh_fd; sys_readfd := fun _ _ k => ((0, []), k); sys_writefd := fun _ bs k => (Z.of_nat (length bs), k);
  sys_lseek := fun _ _ _ => ok0; sys_close := fun _ => ok0; sys_dup2 := fun _ fd k => (fd, k) }.

#[export] Instance toy_clock_model : ClockModel toy_kernel := fun _ => toy_now_ok.

(** ** The environment: the files *)

Definition toy_env : Type := list (text * (file_stat * bytes)).

#[export] Instance toy_environment_calls : Environment toy_env toy_fd toy_fd := {
  e_stat := fun f e => fst <$> look_up f e;
  e_open := fun f e => (fun a => file_of (snd a)) <$> look_up f e;
  e_malloc := fun n => if 0 <=? n then Some (repeat "000"%char (Z.to_nat n)) else None;
  e_close := fun _ => 0;
  e_fork_cgi := fun _ w => (42, w);
  e_wait_child := fun pid w => (pid, w);
}.

#[export, program] Instance toy_environment_model : EnvironmentModel toy_env toy_fd toy_fd.
Next Obligation.
  intros n bs. cbn. destruct (Z.leb_spec 0 n); [|done]. intros [= <-]. rewrite repeat_length. lia.
Qed.
Next Obligation. intros ch d e Hd. cbn. split_and!; try done. exists []. by rewrite app_nil_r. Qed.
Next Obligation. intros pid d e Hd. cbn. split_and!; try done. exists []. by rewrite app_nil_r. Qed.

Definition fresh_bytes (n : Z) : list ascii := repeat "000"%char (Z.to_nat n).
Definition fresh_items (n : Z) : list queue_item := repeat (Item 0 (0, 0)) (Z.to_nat n).

#[export] Instance fresh_bytes_length : FreshMemory fresh_bytes.
Proof. intros n _. apply repeat_length. Qed.
Lemma fresh_items_length n : 0 <= n -> Z.of_nat (length (fresh_items n)) = n.
Proof. intros Hn. unfold fresh_items. rewrite repeat_length. lia. Qed.

(** ** What [main] starts *)

Definition toy_addresses : addresses := {|
  log_mutex := 1; log_can_read := 2; log_can_write := 3; queue_mutex := 4; queue_not_full := 5; queue_not_empty := 6 |}.
Definition toy_argv : list text := [lit "server"; lit "8000"; lit "1"; lit "1"].

Definition toy_main : res (ended ready_server * toy_kernel) :=
  Server.main toy_addresses fresh_bytes fresh_items toy_argv (Toy 3 []).

Definition toy_ready : ready_server :=
  match toy_main with
  | Ok (Value r, _) => r
  | _ => Ready (Log [] 0 0 0 0 0) 0 (queue_init [] 0) [] [] 0
  end.
Definition toy_kernel0 : toy_kernel := match toy_main with Ok (_, k) => k | _ => Toy 0 [] end.

Lemma toy_main_ok : Server.main toy_addresses fresh_bytes fresh_items toy_argv (Toy 3 []) = Ok (Value toy_ready, toy_kernel0).
Proof. vm_compute. reflexivity. Qed.

Definition toy_site : toy_env := [(lit "./public/a.html", (Build_file_stat true true false 2, lit "hi"))].

(** A client that asks for the file, in two pieces. *)
Definition toy_client : toy_fd :=
  ToyFd [Some ("G"%char, lit "ET /a.ht"); None; Some ("m"%char, lit "l HTTP/1.0" ++ crlf ++ crlf)] [] 100.

Definition toy_fuel : nat := Z.to_nat 20000.

Notation toy_server := (Server.server toy_kernel toy_env toy_fd).

Definition toy_start : toy_server := started toy_ready toy_kernel0 toy_site.

(** The connection is accepted, pushed and popped; its worker begins with it,
    goes through the fourteen statements of [log_write], with the two time
    stamps, and serves it; then it goes back to the queue and sleeps. *)
Definition toy_serving : list (Server.choice (D := toy_fd)) :=
  [TakeConn toy_client; BeginPush] ++ replicate 8 (Go 0) ++ [EndPush; BeginPop 0] ++ replicate 7 (Go 1) ++ [EndPop 0; Begin 0] ++
  replicate 6 (GoLog 0) ++ [Stamp 0] ++ replicate 4 (GoLog 0) ++ [Stamp 0] ++ replicate 4 (GoLog 0) ++ [Resume 0].
Definition toy_resting : list (Server.choice (D := toy_fd)) := toy_serving ++ [BeginPop 0; Go 1; Go 1].

Definition toy_exec (chs : list (Server.choice (D := toy_fd))) : list (happening toy_env toy_fd) * toy_server :=
  default ([], toy_start) (Server.exec_all (F := toy_fd) toy_fuel web_junk fresh_bytes (r_listenfd toy_ready) chs [] toy_start).

Lemma toy_serves : Server.run (F := toy_fd) toy_fuel web_junk fresh_bytes (r_listenfd toy_ready) toy_start (toy_exec toy_serving).1 (toy_exec toy_serving).2.
Proof.
  apply (Server.exec_all_sound _ _ _ _ toy_serving toy_start [] toy_start); [constructor|]. vm_compute. reflexivity.
Qed.

Lemma toy_rests : Server.run (F := toy_fd) toy_fuel web_junk fresh_bytes (r_listenfd toy_ready) toy_start (toy_exec toy_resting).1 (toy_exec toy_resting).2.
Proof.
  apply (Server.exec_all_sound _ _ _ _ toy_resting toy_start [] toy_start); [constructor|]. vm_compute. reflexivity.
Qed.

(** ** The theorems at this server *)

Lemma main_starts_witness :
  exists s k', Server.main toy_addresses fresh_bytes fresh_items toy_argv (Toy 3 []) = Ok (Value s, k') /\
    length (r_tids s) = 1%nat /\ r_listenfd s = 3 /\
    exists k1, all_done (startup toy_addresses 8000 1 1 3) (Toy 3 []) k1 /\ k' = put_out (greeting 8000 1 1 0) k1.
Proof.
  destruct (main_starts toy_addresses fresh_bytes fresh_items toy_argv (Toy 3 [])) as [_ Hm].
  specialize (Hm 8000 1 1 0). destruct Hm as (r & k' & fd & Hrun & Hr).
  - exists (lit "server"), (lit "8000"), (lit "1"), (lit "1"), []. by vm_compute.
  - rewrite toy_main_ok in Hrun. injection Hrun as <- <-.
    assert (Hfd : r_listenfd toy_ready = 3) by (vm_compute; reflexivity).
    destruct Hr as ((_ & _ & Htids & _) & Heq & _ & Hall). rewrite <- Heq, Hfd in Hall. exists toy_ready, toy_kernel0.
    split; [exact toy_main_ok|]. split; [exact Htids|]. split; [exact Hfd|exact Hall].
Defined.

Lemma server_in_order_witness :
  exists waiting, accepted (toy_exec toy_serving).1 = taken (toy_exec toy_serving).1 ++ waiting /\
    Z.of_nat (length waiting) <= 2 /\ length (served_items (toy_exec toy_serving).1) = 1%nat.
Proof.
  destruct (server_in_order toy_addresses fresh_bytes fresh_items web_junk toy_fuel fresh_items_length
    toy_argv (Toy 3 []) toy_kernel0 toy_ready toy_site toy_main_ok _ _ toy_serves) as ((waiting & Hw & Hlen) & _).
  exists waiting. split; [exact Hw|]. split; [|vm_compute; reflexivity]. revert Hlen.
  assert (Hcap : cap (r_queue toy_ready) = 1) by (vm_compute; reflexivity). rewrite Hcap. intros Hlen. exact Hlen.
Defined.

Lemma toy_at_rest : at_rest fresh_bytes (toy_exec toy_resting).2.
Proof.
  assert (Hq : exists q m, queue (toy_exec toy_resting).2 = Config q None [m; Thread (Some Pop) 1 None (Waiting not_empty)] /\ op m = None)
    by (eexists _, _; split; [vm_compute; reflexivity|reflexivity]).
  destruct Hq as (q & m & Hq & Hm). unfold at_rest. rewrite Hq. cbn [threads].
  assert (Hh : hand (toy_exec toy_resting).2 = None) by (vm_compute; reflexivity).
  assert (Hb : busy (toy_exec toy_resting).2 = [None]) by (vm_compute; reflexivity).
  rewrite Hh, Hb. clear Hq Hh Hb. split; [reflexivity|]. split.
  - intros [|[|i]] o Ho; cbn in Ho; simplify_eq. intros (th & Hth & Hop). cbn in Hth. by simplify_eq.
  - split; [intros [|[|i]] th o Hi Hop; cbn in Hi; simplify_eq; left; by exists not_empty|].
    assert (Hl : Forall (fun th : ServerLog.thread => op th = None) (threads (log (toy_exec toy_resting).2))) by (vm_compute; repeat constructor).
    intros i th o Hi Hop. pose proof (Forall_lookup_1 _ _ _ _ Hl Hi). congruence.
Qed.

Lemma server_no_deadlock_witness :
  accepted (toy_exec toy_resting).1 ≡ₚ served_items (toy_exec toy_resting).1 /\ length (accepted (toy_exec toy_resting).1) = 1%nat.
Proof.
  split; [|vm_compute; reflexivity].
  exact (proj1 (server_no_deadlock toy_addresses fresh_bytes fresh_items web_junk toy_fuel fresh_items_length
    toy_argv (Toy 3 []) toy_kernel0 toy_ready toy_site toy_main_ok _ _ toy_rests toy_at_rest)).
Defined.

(** The connections of a run. *)
Definition clients (tr : list (happening toy_env toy_fd)) : list toy_fd :=
  omap (fun e => match e with Accepted _ d => Some d | _ => None end) tr.

Lemma toy_environment : environment (F := toy_fd) toy_fuel toy_ready toy_site (Z.to_nat 18000) (toy_exec toy_serving).1.
Proof.
  split.
  - intros x d Hin. assert (Hd : d ∈ clients (toy_exec toy_serving).1) by (apply list_elem_of_omap; by exists (Accepted x d)).
    assert (Hc : clients (toy_exec toy_serving).1 = [toy_client]) by (vm_compute; reflexivity). rewrite Hc in Hd.
    apply list_elem_of_singleton in Hd as ->. unfold request_ok, toy_fuel. change (noise toy_client) with 1%nat.
    assert (Hlen : length (input toy_client) = 24%nat) by (vm_compute; reflexivity). rewrite Hlen.
    split_and!; [exact I|discriminate|lia..|]. exists (SendFile (lit "./public/a.html") 2). split; [vm_compute; reflexivity|].
    exists (file_of (lit "hi")), (repeat "000"%char 2). split; [vm_compute; reflexivity|].
    split; [vm_compute; reflexivity|]. split; [done|]. split; [exact I|]. split; [vm_compute; split; discriminate|].
    change (noise (file_of (lit "hi"))) with 0%nat. lia.
  - vm_compute. reflexivity.
  - vm_compute. discriminate.
Qed.

Lemma server_linearizable_witness :
  exists jobs sp, replay (F := toy_fd) toy_site (init_stats 1) jobs = Some sp /\
    omap result_of jobs ≡ₚ served_with (toy_exec toy_serving).1 /\ length (served_with (toy_exec toy_serving).1) = 1%nat.
Proof.
  destruct (server_linearizable (F := toy_fd) toy_addresses fresh_bytes fresh_items web_junk toy_fuel fresh_items_length
    ltac:(vm_compute; reflexivity) toy_argv (Toy 3 []) toy_kernel0 toy_ready toy_site toy_main_ok (Z.to_nat 18000) _ _
    toy_serves toy_environment) as [(jobs & sp & Hr & _ & Hp & _) _].
  assert (Hst : r_tstats toy_ready = init_stats 1) by (vm_compute; reflexivity). rewrite Hst in Hr.
  exists jobs, sp. split; [exact Hr|]. split; [exact Hp|vm_compute; reflexivity].
Defined.
