(* ===== verification/Regex.v ===== *)
(** * Regular expressions

    The part of [std::regex] the shell uses: [regex_match] of a whole string
    against literals, character classes, [+] and [*].  The matcher takes
    derivatives, and decides the language of the expression. *)

From S2P Require Import Prelude ShellText.

Inductive regex :=
| Void
| Eps
| Class (p : ascii -> bool)
| Cat (r1 r2 : regex)
| Alt (r1 r2 : regex)
| Star (r : regex).

Fixpoint nullable (r : regex) : bool :=
  match r with
  | Void => false
  | Eps => true
  | Class _ => false
  | Cat r1 r2 => nullable r1 && nullable r2
  | Alt r1 r2 => nullable r1 || nullable r2
  | Star _ => true
  end.

Fixpoint deriv (c : ascii) (r : regex) : regex :=
  match r with
  | Void | Eps => Void
  | Class p => if p c then Eps else Void
  | Cat r1 r2 =>
      if nullable r1 then Alt (Cat (deriv c r1) r2) (deriv c r2) else Cat (deriv c r1) r2
  | Alt r1 r2 => Alt (deriv c r1) (deriv c r2)
  | Star r => Cat (deriv c r) (Star r)
  end.

(** [std::regex_match(s, r)]: the whole of [s] matches. *)
Fixpoint regex_match (r : regex) (s : text) : bool :=
  match s with
  | [] => nullable r
  | c :: s' => regex_match (deriv c r) s'
  end.

Definition Char (c : ascii) : regex := Class (Ascii.eqb c).
Definition Lit (s : text) : regex := foldr (fun c r => Cat (Char c) r) Eps s.
Definition Plus (r : regex) : regex := Cat r (Star r).

(** ** The language of an expression *)

Inductive matches : regex -> text -> Prop :=
| m_eps : matches Eps []
| m_class (p : ascii -> bool) c : p c = true -> matches (Class p) [c]
| m_cat r1 r2 s1 s2 : matches r1 s1 -> matches r2 s2 -> matches (Cat r1 r2) (s1 ++ s2)
| m_alt1 r1 r2 s : matches r1 s -> matches (Alt r1 r2) s
| m_alt2 r1 r2 s : matches r2 s -> matches (Alt r1 r2) s
| m_star0 r : matches (Star r) []
| m_star r c s1 s2 : matches r (c :: s1) -> matches (Star r) s2 -> matches (Star r) (c :: s1 ++ s2).

Create HintDb regex.
#[export] Hint Constructors matches : regex.

Lemma matches_cat r1 r2 s :
  matches (Cat r1 r2) s <-> exists s1 s2, s = s1 ++ s2 /\ matches r1 s1 /\ matches r2 s2.
Proof. split; [inversion 1; subst; eauto|]. intros (s1 & s2 & -> & ? & ?). by constructor. Qed.

Lemma nullable_matches r : nullable r = true <-> matches r [].
Proof.
  induction r; cbn [nullable]; try (split; [done|by inversion 1]).
  - split; auto with regex.
  - rewrite andb_true_iff, IHr1, IHr2, matches_cat. split; [intros []; by exists [], []|].
    intros (s1 & s2 & He & H1 & H2). symmetry in He. apply app_nil in He as [-> ->]. done.
  - rewrite orb_true_iff, IHr1, IHr2. split; [intros []; auto with regex|inversion 1; auto].
  - split; auto with regex.
Qed.

Lemma deriv_matches c r s : matches (deriv c r) s <-> matches r (c :: s).
Proof.
  revert s. induction r; intros s; cbn [deriv].
  - split; inversion 1.
  - split; inversion 1.
  - destruct (p c) eqn:Hp; split; inversion 1; subst; auto with regex. congruence.
  - assert (Hcat : matches (Cat (deriv c r1) r2) s <->
                   exists s1 s2, s = s1 ++ s2 /\ matches r1 (c :: s1) /\ matches r2 s2).
    { rewrite matches_cat. by setoid_rewrite IHr1. }
    assert (Hsplit : matches (Cat r1 r2) (c :: s) <->
                     matches (Cat (deriv c r1) r2) s \/ matches r1 [] /\ matches r2 (c :: s)).
    { rewrite Hcat, matches_cat. split.
      - intros ([|c' s1] & s2 & He & H1 & H2); [right|left]; cbn in He; simplify_eq; eauto.
      - intros [(s1 & s2 & -> & H1 & H2)|[H1 H2]]; [by exists (c :: s1), s2|by exists [], (c :: s)]. }
    rewrite Hsplit. destruct (nullable r1) eqn:Hn.
    + apply nullable_matches in Hn. rewrite <- IHr2. split; [inversion 1; auto|intros [|[_ ?]]; auto with regex].
    + split; [auto|intros [|[Hm _]]; [done|]]. apply nullable_matches in Hm. congruence.
  - split; inversion 1; subst; [apply m_alt1, IHr1|apply m_alt2, IHr2|apply m_alt1, IHr1|apply m_alt2, IHr2]; done.
  - rewrite matches_cat. split.
    + intros (s1 & s2 & -> & H1 & H2). by constructor; [apply IHr|].
    + inversion 1; subst. eexists _, _. split_and!; [done| |done]. by apply IHr.
Qed.

(** The matcher decides the language. *)
Lemma regex_match_matches r s : regex_match r s = true <-> matches r s.
Proof.
  revert r. induction s as [|c s IH]; intros r; cbn [regex_match]; [apply nullable_matches|].
  by rewrite IH, deriv_matches.
Qed.

(** ** The shapes the shell uses *)

Lemma matches_class p s : matches (Class p) s <-> exists c, s = [c] /\ p c = true.
Proof. split; [inversion 1; eauto|]. intros (c & -> & ?). by constructor. Qed.

Lemma matches_lit t s : matches (Lit t) s <-> s = t.
Proof.
  revert s. induction t as [|c t IH]; intros s; cbn [Lit foldr].
  - split; [by inversion 1|intros ->; constructor].
  - rewrite matches_cat. fold (Lit t). setoid_rewrite IH. unfold Char. setoid_rewrite matches_class. split.
    + intros (s1 & s2 & -> & (c' & -> & <-%Ascii.eqb_eq) & ->). done.
    + intros ->. exists [c], t. split_and!; [done| |done]. exists c. by rewrite Ascii.eqb_refl.
Qed.

Lemma matches_star_class p s : matches (Star (Class p)) s <-> forallb p s = true.
Proof.
  split.
  - remember (Star (Class p)) as r eqn:Hr. induction 1; simplify_eq; [done|].
    match goal with Hc : matches (Class _) _ |- _ => apply matches_class in Hc as (c' & [= -> ->] & Hc') end.
    cbn. rewrite Hc'. by apply IHmatches2.
  - induction s as [|c s IH]; [constructor|]. cbn [forallb]. intros [Hc Hs]%andb_true_iff.
    apply (m_star _ c [] s); [by constructor|by apply IH].
Qed.

Lemma matches_plus_class p s : matches (Plus (Class p)) s <-> s <> [] /\ forallb p s = true.
Proof.
  unfold Plus. rewrite matches_cat. setoid_rewrite matches_star_class. setoid_rewrite matches_class. split.
  - intros (s1 & s2 & -> & (c & -> & Hc) & Hs). cbn. by rewrite Hc.
  - intros [Hne Hs]. destruct s as [|c s]; [done|]. cbn in Hs. apply andb_true_iff in Hs as [Hc Hs].
    exists [c], s. eauto.
Qed.
