(* ===== verification/ShellState.v ===== *)
(** * [hw1-linux-basics/Commands.h], [Commands.cpp]: the shell's state, its
    jobs list and its aliases

    The kernel is a class of operations the commands call; a command is a
    function on the state of the shell's process (the [SmashShell] object, the
    environment array, what was printed, the kernel), which may return, exit,
    throw an exception nobody catches, be replaced by another program or be
    undefined. *)

From stdpp Require Import gmap sorting.
From S2P Require Import Prelude ShellText.

(** ** Data *)

Record JobEntry := { job_id : Z; job_pid : Z; job_cmd : text }.

Record SmashShell := {
  prompt : text;
  last_pwd : text;
  jobs : list JobEntry;
  fg_pid : Z;
  fg_cmd : text;
  aliases : gmap text text;
  alias_order : list text;
}.

Definition new_shell : SmashShell :=
  {| prompt := lit "smash"; last_pwd := []; jobs := []; fg_pid := -1; fg_cmd := [];
     aliases := ∅; alias_order := [] |}.

Definition setPrompt (p : text) (s : SmashShell) : SmashShell :=
  {| prompt := p; last_pwd := last_pwd s; jobs := jobs s; fg_pid := fg_pid s; fg_cmd := fg_cmd s;
     aliases := aliases s; alias_order := alias_order s |}.
Definition setLastPwd (p : text) (s : SmashShell) : SmashShell :=
  {| prompt := prompt s; last_pwd := p; jobs := jobs s; fg_pid := fg_pid s; fg_cmd := fg_cmd s;
     aliases := aliases s; alias_order := alias_order s |}.
Definition setJobs (l : list JobEntry) (s : SmashShell) : SmashShell :=
  {| prompt := prompt s; last_pwd := last_pwd s; jobs := l; fg_pid := fg_pid s; fg_cmd := fg_cmd s;
     aliases := aliases s; alias_order := alias_order s |}.
Definition setFgPid (p : Z) (s : SmashShell) : SmashShell :=
  {| prompt := prompt s; last_pwd := last_pwd s; jobs := jobs s; fg_pid := p; fg_cmd := fg_cmd s;
     aliases := aliases s; alias_order := alias_order s |}.
Definition setFgCmd (c : text) (s : SmashShell) : SmashShell :=
  {| prompt := prompt s; last_pwd := last_pwd s; jobs := jobs s; fg_pid := fg_pid s; fg_cmd := c;
     aliases := aliases s; alias_order := alias_order s |}.
Definition setAliases (m : gmap text text) (o : list text) (s : SmashShell) : SmashShell :=
  {| prompt := prompt s; last_pwd := last_pwd s; jobs := jobs s; fg_pid := fg_pid s; fg_cmd := fg_cmd s;
     aliases := m; alias_order := o |}.

(** The classes derived from [Command], each with the line it was built from. *)
Inductive command :=
| Chprompt (cmd_line : text)
| ShowPid (cmd_line : text)
| GetCurrDir (cmd_line : text)
| ChangeDir (cmd_line : text)
| Jobs (cmd_line : text)
| Foreground (cmd_line : text)
| Quit (cmd_line : text)
| Kill (cmd_line : text)
| Alias (cmd_line : text)
| Unalias (cmd_line : text)
| Unsetenv (cmd_line : text)
| Sysinfo (cmd_line : text)
| Du (cmd_line : text)
| Whoami (cmd_line : text)
| Usbinfo (cmd_line : text)
| External (cmd_line : text) (is_background : bool)
| Pipe (cmd_line : text) (stderr_pipe : bool)
| Redirection (cmd_line : text) (append : bool).

(** ** The kernel *)

(** What a forked child does before and when it runs its program: the
    descriptors it replaces, then a program it becomes or a built-in command
    it executes in its copy of the shell. *)
Inductive plumbing :=
| NoPlumbing
| ToFile (filename : text) (append : bool)
| ToPipe (stderr_pipe : bool) (pipefd : Z * Z)
| FromPipe (pipefd : Z * Z).

Inductive image :=
| Bash (line : text)
| Program (argv : list text)
| Builtin (cmd : option command).

Record child := { plumb : plumbing; run : image }.

Record stat := { st_link : bool; st_dir : bool; st_blocks : Z }.

Record utsname := { sysname : text; nodename : text; release : text; machine : text }.

(** [waitpid] returns its result and [errno]; [fork] is told what the child
    does and returns the parent's result; [open_write] creates and opens for
    writing, appending or truncating, and returns the descriptor; a file is read with one [read] of at
    most the given number of bytes, [None] when it cannot be opened and the
    bytes read otherwise (none when [read] fails).  [sigints] is how often
    Ctrl-C is pressed while the shell blocks in the call that follows. *)
Class Kernel (W : Type) := {
  sigints : W -> nat * W;
  waitpid : Z -> bool -> W -> (Z * Z) * W;
  sys_kill : Z -> Z -> W -> bool * W;
  fork : child -> W -> Z * W;
  pipe : W -> option (Z * Z) * W;
  open_write : text -> bool -> W -> Z * W;
  dup2 : Z -> Z -> W -> bool * W;
  close : Z -> W -> W;
  getpid : W -> Z;
  getuid : W -> Z;
  getgid : W -> Z;
  getcwd : W -> option text;
  chdir : text -> W -> bool * W;
  uname : W -> option utsname;
  localtime : Z -> W -> text;
  read_file : text -> nat -> W -> option text;
  lstat : text -> W -> option stat;
  read_dir : text -> W -> option (list text);
  exec : text -> list text -> W -> bool;
}.

Definition ECHILD : Z := 10.
Definition SIGKILL : Z := 9.
Definition STDIN_FILENO : Z := 0.
Definition STDOUT_FILENO : Z := 1.
Definition STDERR_FILENO : Z := 2.

(** ** The process *)

Inductive message := Cout (line : text) | Cerr (line : text) | Perror (what : text).

Record process (W : Type) := Proc { sh : SmashShell; environ : list text; out : list message; os : W }.
Arguments Proc {W}.
Arguments sh {W}.
Arguments environ {W}.
Arguments out {W}.
Arguments os {W}.

Inductive outcome (A : Type) :=
| Val (a : A)
| Exit (status : Z)
| Throw
| Replaced (path : text) (argv : list text)
| Undefined.
Arguments Val {A}.
Arguments Exit {A}.
Arguments Throw {A}.
Arguments Replaced {A}.
Arguments Undefined {A}.

Definition P (W A : Type) : Type := process W -> outcome A * process W.

#[export] Instance P_ret W : MRet (P W) := fun A a p => (Val a, p).

#[export] Instance P_bind W : MBind (P W) := fun A B f m p =>
  match m p with
  | (Val a, p') => f a p'
  | (Exit n, p') => (Exit n, p')
  | (Throw, p') => (Throw, p')
  | (Replaced path argv, p') => (Replaced path argv, p')
  | (Undefined, p') => (Undefined, p')
  end.

Section calls.
Context {W : Type} `{Kernel W}.

Definition skip : P W unit := mret tt.
Definition stop {A} (o : outcome A) : P W A := fun p => (o, p).
Definition exit (status : Z) : P W unit := stop (Exit status).
Definition or_throw {A} (o : option A) : P W A := stop (match o with Some a => Val a | None => Throw end).
Definition or_undefined {A} (o : option A) : P W A := stop (match o with Some a => Val a | None => Undefined end).

Definition print (m : message) : P W unit :=
  fun p => (Val tt, Proc (sh p) (environ p) (out p ++ [m]) (os p)).
Definition cout (t : text) : P W unit := print (Cout t).
Definition cerr (t : text) : P W unit := print (Cerr t).
Definition perror (s : string) : P W unit := print (Perror (lit s)).

Definition from_shell {A} (f : SmashShell -> A) : P W A := fun p => (Val (f (sh p)), p).
Definition set_shell (f : SmashShell -> SmashShell) : P W unit :=
  fun p => (Val tt, Proc (f (sh p)) (environ p) (out p) (os p)).
Definition from_environ {A} (f : list text -> A) : P W A := fun p => (Val (f (environ p)), p).
Definition set_environ (f : list text -> list text) : P W unit :=
  fun p => (Val tt, Proc (sh p) (f (environ p)) (out p) (os p)).
Definition syscall {A} (f : W -> A * W) : P W A :=
  fun p => let '(a, w) := f (os p) in (Val a, Proc (sh p) (environ p) (out p) w).
Definition command_call (f : W -> W) : P W unit := syscall (fun w => (tt, f w)).
Definition query {A} (f : W -> A) : P W A := fun p => (Val (f (os p)), p).

Fixpoint each {A} (f : A -> P W unit) (l : list A) : P W unit :=
  match l with [] => skip | x :: l' => f x ;; each f l' end.

(** ** [JobsList] *)

(** The iteration over the vector, which drops the jobs that ended. *)
Fixpoint finished_loop (l : list JobEntry) : P W (list JobEntry) :=
  match l with
  | [] => mret []
  | j :: l' =>
      r ← syscall (waitpid (job_pid j) true);
      let '(ret, errno) := r in
      rest ← finished_loop l';
      mret (if (0 <? ret) || ((ret =? -1) && (errno =? ECHILD)) then rest else j :: rest)
  end.

Definition removeFinishedJobs : P W unit :=
  l ← from_shell jobs;
  l' ← finished_loop l;
  set_shell (setJobs l').

Fixpoint max_loop (max_id : Z) (l : list JobEntry) : Z :=
  match l with
  | [] => max_id
  | j :: l' => max_loop (if max_id <? job_id j then job_id j else max_id) l'
  end.

Definition getMaxJobId (l : list JobEntry) : Z := max_loop 0 l.

Definition addJob (pid : Z) (cmd_line : text) : P W unit :=
  removeFinishedJobs ;;
  m ← from_shell (getMaxJobId ∘ jobs);
  new_id ← or_undefined (int_ok (m + 1));
  l ← from_shell jobs;
  set_shell (setJobs (l ++ [{| job_id := new_id; job_pid := pid; job_cmd := cmd_line |}])).

Fixpoint removeJobById (id : Z) (l : list JobEntry) : list JobEntry :=
  match l with
  | [] => []
  | j :: l' => if job_id j =? id then l' else j :: removeJobById id l'
  end.

Fixpoint getJobById (id : Z) (l : list JobEntry) : option JobEntry :=
  match l with
  | [] => None
  | j :: l' => if job_id j =? id then Some j else getJobById id l'
  end.

Fixpoint last_loop (last : option JobEntry) (l : list JobEntry) : option JobEntry :=
  match l with
  | [] => last
  | j :: l' =>
      last_loop (match last with
                 | None => Some j
                 | Some k => if job_id k <? job_id j then Some j else last
                 end) l'
  end.

Definition getLastJob (l : list JobEntry) : option JobEntry := last_loop None l.

(** [std::sort] by [job_id]; with distinct ids the result does not depend on
    the algorithm. *)
Definition id_le (a b : JobEntry) : Prop := job_id a <= job_id b.

#[export] Instance id_le_dec : RelDecision id_le.
Proof. intros a b. unfold id_le. apply _. Defined.

Definition sorted_jobs (l : list JobEntry) : list JobEntry := merge_sort id_le l.

Definition printJobsList : P W unit :=
  removeFinishedJobs ;;
  l ← from_shell jobs;
  each (fun j => cout (lit "[" ++ show (job_id j) ++ lit "] " ++ job_cmd j)) (sorted_jobs l).

Definition killAllJobs : P W unit :=
  removeFinishedJobs ;;
  l ← from_shell jobs;
  cout (lit "smash: sending SIGKILL signal to " ++ show (Z.of_nat (length l)) ++ lit " jobs:") ;;
  each (fun j =>
    cout (show (job_pid j) ++ lit ": " ++ job_cmd j) ;;
    syscall (sys_kill (job_pid j) SIGKILL) ;;
    skip) (sorted_jobs l).

End calls.

(** ** Aliases *)

Definition reserved : list text :=
  lit <$> ["chprompt"; "showpid"; "pwd"; "cd"; "jobs"; "fg"; "quit"; "kill";
           "alias"; "unalias"; "unsetenv"; "sysinfo"; "du"; "whoami"; "usbinfo"]%string.

Definition isReservedKeyword (name : text) : bool := existsb (fun kw => bool_decide (kw = name)) reserved.

#[global] Arguments isReservedKeyword : simpl never.

Definition aliasExists (name : text) (s : SmashShell) : bool := bool_decide (is_Some (aliases s !! name)).

#[global] Arguments aliasExists : simpl never.

Definition addAlias (name cmd : text) (s : SmashShell) : SmashShell :=
  setAliases (<[name := cmd]> (aliases s)) (alias_order s ++ [name]) s.

Definition removeAlias (name : text) (s : SmashShell) : SmashShell :=
  setAliases (delete name (aliases s)) (List.filter (fun n => negb (bool_decide (n = name))) (alias_order s)) s.

Definition resolveAlias (cmd_line : text) (s : SmashShell) : text :=
  let trimmed := _trim cmd_line in
  match trimmed with
  | [] => cmd_line
  | _ =>
      let end_ := find_first_of [" "; "009"; "|"; ">"; "&"]%char trimmed 0 in
      let first_word := match end_ with None => trimmed | Some e => substr trimmed 0 (Some e) end in
      match aliases s !! first_word with
      | Some cmd => cmd ++ match end_ with None => [] | Some e => substr trimmed e None end
      | None => cmd_line
      end
  end.
