(* ===== verification/ShellParse.v ===== *)
(** * [hw1-linux-basics/Commands.cpp]: [createCommand]

    How a line becomes a command: the searches for the pipe and redirection
    operators, the background sign, the table of built-in commands, and the
    two sides of a pipe or a redirection.  The theorems give the
    classification as a decision on the words of the line. *)

From S2P Require Import Prelude ShellText ShellState.

(** The scan for a [c] that is not followed by [next]; the same loop stands in
    [createCommand] (twice), [PipeCommand::execute] and
    [RedirectionCommand::execute]. *)
Fixpoint single_loop (fuel : nat) (c next : ascii) (trimmed : text) (pos : nat) : option nat :=
  match fuel with
  | O => None
  | S fuel' =>
      if (length trimmed <=? pos)%nat then None
      else match find_char c trimmed pos with
           | None => None
           | Some f =>
               if (f + 1 <? length trimmed)%nat && bool_decide (trimmed !! (f + 1)%nat = Some next)
               then single_loop fuel' c next trimmed (f + 2)
               else Some f
           end
  end.

Definition find_single (c next : ascii) (trimmed : text) : option nat :=
  single_loop (S (length trimmed)) c next trimmed 0.

Definition find_op (c next : ascii) (double : bool) (trimmed : text) : option nat :=
  if double then find_str [c; next] trimmed else find_single c next trimmed.

Definition builtin_command (cmd_name trimmed : text) : option command :=
  if bool_decide (cmd_name = lit "chprompt") then Some (Chprompt trimmed)
  else if bool_decide (cmd_name = lit "showpid") then Some (ShowPid trimmed)
  else if bool_decide (cmd_name = lit "pwd") then Some (GetCurrDir trimmed)
  else if bool_decide (cmd_name = lit "cd") then Some (ChangeDir trimmed)
  else if bool_decide (cmd_name = lit "jobs") then Some (Jobs trimmed)
  else if bool_decide (cmd_name = lit "fg") then Some (Foreground trimmed)
  else if bool_decide (cmd_name = lit "quit") then Some (Quit trimmed)
  else if bool_decide (cmd_name = lit "kill") then Some (Kill trimmed)
  else if bool_decide (cmd_name = lit "alias") then Some (Alias trimmed)
  else if bool_decide (cmd_name = lit "unalias") then Some (Unalias trimmed)
  else if bool_decide (cmd_name = lit "unsetenv") then Some (Unsetenv trimmed)
  else if bool_decide (cmd_name = lit "sysinfo") then Some (Sysinfo trimmed)
  else if bool_decide (cmd_name = lit "du") then Some (Du trimmed)
  else if bool_decide (cmd_name = lit "whoami") then Some (Whoami trimmed)
  else if bool_decide (cmd_name = lit "usbinfo") then Some (Usbinfo trimmed)
  else None.

Definition createCommand (cmd_line : text) : option command :=
  let trimmed := _trim cmd_line in
  match trimmed with
  | [] => None
  | _ =>
      let pipe_stderr := find_str (lit "|&") trimmed in
      let pipe_stdout := find_single "|" "&" trimmed in
      if bool_decide (is_Some pipe_stderr) then Some (Pipe trimmed true)
      else if bool_decide (is_Some pipe_stdout) then Some (Pipe trimmed false)
      else
        let redir_append := find_str (lit ">>") trimmed in
        let redir_over := find_single ">" ">" trimmed in
        if bool_decide (is_Some redir_append) then Some (Redirection trimmed true)
        else if bool_decide (is_Some redir_over) then Some (Redirection trimmed false)
        else
          let bg := _isBackground trimmed in
          let clean := if bg then _removeBackground trimmed else trimmed in
          match _split clean with
          | [] => None
          | cmd_name :: _ =>
              match builtin_command cmd_name trimmed with
              | Some c => Some c
              | None => Some (External trimmed bg)
              end
          end
  end.

(** The two sides of the operator, as [execute] cuts them. *)
Definition cut_at (sep_pos : nat) (sep trimmed : text) : text * text :=
  (_trim (substr trimmed 0 (Some sep_pos)), _trim (substr trimmed (sep_pos + length sep) None)).

Definition pipe_sides (stderr_pipe : bool) (cmd_line : text) : option (text * text) :=
  let trimmed := _trim cmd_line in
  let sep := if stderr_pipe then lit "|&" else lit "|" in
  match find_op "|" "&" stderr_pipe trimmed with
  | None => None
  | Some sep_pos => Some (cut_at sep_pos sep trimmed)
  end.

Definition redirection_sides (append : bool) (cmd_line : text) : option (text * text) :=
  let trimmed := _trim cmd_line in
  let sep := if append then lit ">>" else lit ">" in
  match find_op ">" ">" append trimmed with
  | None => None
  | Some sep_pos => Some (cut_at sep_pos sep trimmed)
  end.

(** ** Searching *)

Definition contains (pat s : text) : Prop := exists a b, s = a ++ pat ++ b.

Lemma is_prefix_spec pat s : is_prefix pat s = true <-> exists b, s = pat ++ b.
Proof.
  revert s. induction pat as [|c pat IH]; intros s; cbn [is_prefix app]; [split; [eauto|done]|].
  destruct s as [|d s]; [split; [done|by intros []]|]. rewrite andb_true_iff, IH, Ascii.eqb_eq. split.
  - intros [-> [b ->]]. by exists b.
  - intros [b [= -> ->]]. eauto.
Qed.

(** [find] returns the first occurrence. *)
Lemma find_str_spec pat s :
  match find_str pat s with
  | Some i => exists b, s = take i s ++ pat ++ b /\ length (take i s) = i
  | None => ~ contains pat s
  end.
Proof.
  assert (Hhere : forall s b, s = pat ++ b -> exists b', s = take 0 s ++ pat ++ b' /\ length (take 0 s) = 0%nat)
    by (intros s' b ->; by exists b).
  induction s as [|c s IH]; cbn [find_str].
  - destruct (is_prefix pat []) eqn:Hp; [apply is_prefix_spec in Hp as [b Hb]; eauto|].
    intros (a & b & He). destruct a; [|done]. cbn in He. by rewrite (proj2 (is_prefix_spec _ _)) in Hp by eauto.
  - destruct (is_prefix pat (c :: s)) eqn:Hp; [apply is_prefix_spec in Hp as [b Hb]; eauto|].
    destruct (find_str pat s) as [i|]; cbn [fmap option_fmap option_map].
    + destruct IH as (b & Hs & Hl). exists b. cbn [take app length]. split; [by rewrite Hs at 1|by rewrite Hl].
    + intros (a & b & He). destruct a as [|x a].
      * cbn in He. by rewrite (proj2 (is_prefix_spec _ _)) in Hp by eauto.
      * injection He as -> He. apply IH. by exists a, b.
Qed.

Lemma find_str_first pat s i a b : find_str pat s = Some i -> s = a ++ pat ++ b -> (i <= length a)%nat.
Proof.
  revert i a. induction s as [|c s IH]; intros i a; cbn [find_str]; destruct (is_prefix pat _) eqn:Hp;
    try (intros [= <-]; lia).
  destruct (find_str pat s) as [j|]; [|done]. intros [= <-] He. destruct a as [|x a].
  - cbn in He. by rewrite (proj2 (is_prefix_spec _ _)) in Hp by eauto.
  - injection He as -> He. specialize (IH j a eq_refl He). cbn. lia.
Qed.

Lemma find_char_spec c s :
  match find_char c s 0 with
  | Some i => exists b, s = take i s ++ c :: b /\ length (take i s) = i /\ c ∉ take i s
  | None => c ∉ s
  end.
Proof.
  unfold find_char, find_at. rewrite drop_0. induction s as [|d s IH]; cbn [find_idx]; [apply not_elem_of_nil|].
  destruct (Ascii.eqb_spec c d) as [->|Hd].
  - exists s. split_and!; [done..|apply not_elem_of_nil].
  - destruct (find_idx _ s) as [i|]; cbn in *.
    + destruct IH as (b & Hs & Hl & Hn). exists b. split_and!; [by rewrite Hs at 1|by rewrite Hl|].
      apply not_elem_of_cons. auto.
    + apply not_elem_of_cons. auto.
Qed.

Lemma contains_head c pat s : contains (c :: pat) s -> c ∈ s.
Proof. intros (a & b & ->). rewrite elem_of_app. right. by left. Qed.

Lemma contains_pair c d s i : s !! i = Some c -> s !! (S i) = Some d -> contains [c; d] s.
Proof.
  intros Hi Hj. exists (take i s), (drop (S (S i)) s). cbn.
  rewrite <- (take_drop i s) at 1. f_equal. rewrite (drop_S _ _ _ Hi). f_equal. by apply drop_S.
Qed.

(** Without the doubled operator the scan is a search for the single one. *)
Lemma find_single_char c next s : ~ contains [c; next] s -> find_single c next s = find_char c s 0.
Proof.
  intros Hno. unfold find_single. cbn [single_loop].
  destruct (Nat.leb_spec (length s) 0) as [Hl|Hl]; [destruct s; [done|cbn in Hl; lia]|].
  pose proof (find_char_spec c s) as Hf. destruct (find_char c s 0) as [f|]; [|done].
  destruct Hf as (b & Hs & Hlen & _). destruct (f + 1 <? length s)%nat; [|done].
  destruct (bool_decide _) eqn:Hb; [|done]. exfalso. apply bool_decide_eq_true in Hb. apply Hno.
  apply (contains_pair c next s f); [|by rewrite Nat.add_1_r in Hb].
  rewrite Hs, lookup_app_r by lia. by rewrite Hlen, Nat.sub_diag.
Qed.

Lemma find_single_none c next s : c ∉ s -> find_single c next s = None /\ find_str [c; next] s = None.
Proof.
  intros Hc. assert (Hno : ~ contains [c; next] s).
  { intros (a & b & ->). apply Hc. rewrite elem_of_app. right. by left. }
  split.
  - rewrite find_single_char by done. pose proof (find_char_spec c s) as Hf.
    destruct (find_char c s 0) as [i|]; [|done]. destruct Hf as (b & Hs & _). exfalso. apply Hc. rewrite Hs.
    rewrite elem_of_app. right. by left.
  - pose proof (find_str_spec [c; next] s) as Hf. destruct (find_str _ s); [|done].
    destruct Hf as (b & Hs & _). exfalso. apply Hno. by eexists _, b.
Qed.

(** ** The classification *)

(** The words of a line without its background sign. *)
Definition command_words (trimmed : text) : list text := words blank (_removeBackground trimmed).

Definition plain (t : text) : Prop := "|"%char ∉ t /\ ">"%char ∉ t.

(** The word that names a built-in command. *)
Definition command_name (c : command) : option text :=
  match c with
  | Chprompt _ => Some (lit "chprompt") | ShowPid _ => Some (lit "showpid") | GetCurrDir _ => Some (lit "pwd")
  | ChangeDir _ => Some (lit "cd") | Jobs _ => Some (lit "jobs") | Foreground _ => Some (lit "fg")
  | Quit _ => Some (lit "quit") | Kill _ => Some (lit "kill") | Alias _ => Some (lit "alias")
  | Unalias _ => Some (lit "unalias") | Unsetenv _ => Some (lit "unsetenv") | Sysinfo _ => Some (lit "sysinfo")
  | Du _ => Some (lit "du") | Whoami _ => Some (lit "whoami") | Usbinfo _ => Some (lit "usbinfo")
  | External _ _ | Pipe _ _ | Redirection _ _ => None
  end.

(** The lines a command is made from, and the text it keeps. *)
Definition made_from (c : command) (t : text) : Prop :=
  match c with
  | Pipe l true => l = t /\ contains (lit "|&") t
  | Pipe l false => l = t /\ "|"%char ∈ t /\ ~ contains (lit "|&") t
  | Redirection l true => l = t /\ "|"%char ∉ t /\ contains (lit ">>") t
  | Redirection l false => l = t /\ "|"%char ∉ t /\ ">"%char ∈ t /\ ~ contains (lit ">>") t
  | External l bg =>
      l = t /\ plain t /\ bg = _isBackground t /\
      exists w ws, command_words t = w :: ws /\ isReservedKeyword w = false
  | Chprompt l | ShowPid l | GetCurrDir l | ChangeDir l | Jobs l | Foreground l | Quit l | Kill l | Alias l
  | Unalias l | Unsetenv l | Sysinfo l | Du l | Whoami l | Usbinfo l =>
      l = t /\ plain t /\ exists w ws, command_words t = w :: ws /\ command_name c = Some w
  end.

Lemma builtin_command_name w t c : builtin_command w t = Some c -> command_name c = Some w.
Proof. unfold builtin_command. repeat (case_bool_decide; [subst w; by intros [= <-]|]). done. Qed.

Lemma builtin_reserved w t : is_Some (builtin_command w t) <-> isReservedKeyword w = true.
Proof.
  unfold builtin_command, isReservedKeyword, reserved. rewrite existsb_exists. split.
  - intros Hs. exists w. rewrite bool_decide_eq_true. split; [|done].
    repeat (case_bool_decide; [subst w; rewrite <- list_elem_of_In; set_solver|]). by destruct Hs.
  - intros (kw & Hin & ->%bool_decide_eq_true).
    rewrite <- list_elem_of_In in Hin. unfold fmap in Hin. cbn [list_fmap] in Hin.
    repeat (apply elem_of_cons in Hin as [->|Hin]; [vm_compute; by eexists|]). by apply not_elem_of_nil in Hin.
Qed.

Lemma removeBackground_plain t : _trim t = t -> _isBackground t = false -> _removeBackground t = t.
Proof.
  unfold _isBackground, _removeBackground. intros ->. destruct (back t) as [c|]; [|done]. by intros ->.
Qed.

Lemma find_op_some c next d t : is_Some (find_op c next d t) -> c ∈ t.
Proof.
  intros Hs. destruct (decide (c ∈ t)) as [|Hn]; [done|]. destruct (find_single_none c next t Hn) as [H1 H2].
  unfold find_op in Hs. destruct d; rewrite ?H1, ?H2 in Hs; by destruct Hs.
Qed.

(** The decision for one operator: the doubled form first. *)
Lemma operator_cases c next t :
  (contains [c; next] t /\ is_Some (find_str [c; next] t)) \/
  (~ contains [c; next] t /\ find_str [c; next] t = None /\ c ∈ t /\ is_Some (find_single c next t)) \/
  (c ∉ t /\ find_str [c; next] t = None /\ find_single c next t = None).
Proof.
  pose proof (find_str_spec [c; next] t) as Hf. destruct (find_str [c; next] t) as [i|] eqn:Hs.
  - left. destruct Hf as (b & Hb & _). split; [by eexists _, b|done].
  - right. destruct (decide (c ∈ t)) as [Hc|Hc]; [left|right].
    + split_and!; [done..|]. rewrite find_single_char by done. pose proof (find_char_spec c t) as Hg.
      by destruct (find_char c t 0).
    + destruct (find_single_none c next t Hc). done.
Qed.

Lemma createCommand_trim l : createCommand (_trim l) = createCommand l.
Proof. unfold createCommand. by rewrite trim_idemp. Qed.

(** Without an operator the first word decides. *)
Lemma createCommand_plain t :
  _trim t = t -> t <> [] -> plain t ->
  createCommand t =
  match command_words t with
  | [] => None
  | w :: _ => match builtin_command w t with Some c => Some c | None => Some (External t (_isBackground t)) end
  end.
Proof.
  intros Ht Hne [Hp Hr]. unfold createCommand. rewrite Ht. destruct t as [|x t']; [done|]. set (t := x :: t') in *.
  change (lit "|&") with ["|"; "&"]%char. change (lit ">>") with [">"; ">"]%char.
  destruct (find_single_none "|" "&" t Hp) as [-> ->]. destruct (find_single_none ">" ">" t Hr) as [-> ->].
  rewrite !(bool_decide_eq_false_2 (is_Some None)) by (by intros []).
  assert (Hclean : (if _isBackground t then _removeBackground t else t) = _removeBackground t).
  { destruct (_isBackground t) eqn:Hb; [done|]. by rewrite removeBackground_plain. }
  rewrite Hclean. unfold _split. rewrite split_words. done.
Qed.

Lemma createCommand_made (l : text) :
  match createCommand l with
  | Some c => made_from c (strip l)
  | None => plain (strip l) /\ command_words (strip l) = []
  end.
Proof.
  rewrite <- createCommand_trim, <- trim_strip. pose proof (trim_idemp l) as Ht. revert Ht. generalize (_trim l). intros t Ht.
  destruct (decide (t = [])) as [->|Hne]; [split; [split; apply not_elem_of_nil|done]|].
  destruct (operator_cases "|" "&" t) as [[Hc Hs]|[(Hc & Hn & Hin & Hs)|(Hc & Hn & Hs)]].
  1-2: unfold createCommand; rewrite Ht; destruct t as [|x t']; [done|]; change (lit "|&") with ["|"; "&"]%char;
       rewrite ?Hn, ?(bool_decide_eq_false_2 (is_Some None)) by (by intros []); by rewrite bool_decide_eq_true_2.
  destruct (operator_cases ">" ">" t) as [[Hd Hs']|[(Hd & Hn' & Hin & Hs')|(Hd & _)]].
  1-2: unfold createCommand; rewrite Ht; destruct t as [|x t']; [done|];
       change (lit "|&") with ["|"; "&"]%char; change (lit ">>") with [">"; ">"]%char;
       rewrite Hn, Hs, ?Hn', ?(bool_decide_eq_false_2 (is_Some None)) by (by intros []); by rewrite bool_decide_eq_true_2.
  rewrite createCommand_plain by done. destruct (command_words t) as [|w ws] eqn:Hw; [done|].
  destruct (builtin_command w t) as [c|] eqn:Hb.
  - pose proof Hb as Hk. revert Hb. unfold builtin_command.
    repeat (case_bool_decide; [intros [= <-]; split_and!; [done..|]; exists w, ws; by subst w|]). done.
  - cbn. split_and!; [done..|]. exists w, ws. split; [done|].
    destruct (isReservedKeyword w) eqn:Hr; [|done]. apply (builtin_reserved w t) in Hr. rewrite Hb in Hr. by destruct Hr.
Qed.

(** ** The two sides of an operator *)

Definition operator (c : ascii) (double : bool) (next : ascii) : text := if double then [c; next] else [c].

Lemma find_op_cut (c next : ascii) (double : bool) (t : text) :
  (if double then contains [c; next] t else c ∈ t /\ ~ contains [c; next] t) ->
  exists a b, t = a ++ operator c double next ++ b /\ find_op c next double t = Some (length a) /\
              forall a' b', t = a' ++ operator c double next ++ b' -> (length a <= length a')%nat.
Proof.
  unfold find_op, operator. destruct double.
  - intros Hc. pose proof (find_str_spec [c; next] t) as Hf. destruct (find_str _ t) as [i|] eqn:Hs; [|done].
    destruct Hf as (b & Hb & Hl). exists (take i t), b. rewrite Hl. split_and!; [done..|].
    intros a' b' He. by eapply find_str_first.
  - intros [Hin Hno]. rewrite find_single_char by done. pose proof (find_char_spec c t) as Hf.
    destruct (find_char c t 0) as [i|]; [|done]. destruct Hf as (b & Hb & Hl & Hn). exists (take i t), b.
    rewrite Hl. split_and!; [done..|]. intros a' b' He. destruct (decide (i <= length a')%nat) as [|Hlt]; [done|].
    exfalso. apply Hn. rewrite He, take_app_ge by lia. rewrite elem_of_app. right.
    destruct (i - length a')%nat eqn:Hi; [lia|]. cbn. by left.
Qed.

Lemma cut_at_app a sep b : cut_at (length a) sep (a ++ sep ++ b) = (strip a, strip b).
Proof.
  unfold cut_at, substr. rewrite !trim_strip, drop_0, take_app_length, app_assoc.
  by rewrite <- length_app, drop_app_length.
Qed.

Definition sides (c : command) : option (text * text) :=
  match c with
  | Pipe l e => pipe_sides e l
  | Redirection l a => redirection_sides a l
  | _ => None
  end.

Definition operator_of (c : command) : text :=
  match c with
  | Pipe _ e => operator "|" e "&"
  | Redirection _ a => operator ">" a ">"
  | _ => []
  end.

Definition has_operator (c : command) : bool :=
  match c with Pipe _ _ | Redirection _ _ => true | _ => false end.

(** A pipe or redirection command that [createCommand] makes finds its
    operator again, at the first occurrence, and runs the trimmed texts on the
    two sides of it. *)
Theorem operator_sides (l : text) (c : command) :
  createCommand l = Some c -> has_operator c = true ->
  exists a b, strip l = a ++ operator_of c ++ b /\ sides c = Some (strip a, strip b) /\
              forall a' b', strip l = a' ++ operator_of c ++ b' -> (length a <= length a')%nat.
Proof.
  intros Hc Hop. pose proof (createCommand_made l) as Hm. rewrite Hc in Hm.
  assert (Hgen : forall (ch next : ascii) (double : bool) (sep : text), sep = operator ch double next ->
     (if double then contains [ch; next] (strip l) else ch ∈ strip l /\ ~ contains [ch; next] (strip l)) ->
     exists a b, strip l = a ++ sep ++ b /\
       match find_op ch next double (_trim (strip l)) with
       | None => None
       | Some sep_pos => Some (cut_at sep_pos sep (_trim (strip l)))
       end = Some (strip a, strip b) /\
       forall a' b', strip l = a' ++ sep ++ b' -> (length a <= length a')%nat).
  { intros ch next double sep -> Hh. rewrite trim_strip, (strip_id _ (strip_trimmed l)).
    destruct (find_op_cut ch next double (strip l) Hh) as (a & b & He & -> & Hfirst).
    exists a, b. split_and!; [done| |done]. by rewrite He, cut_at_app. }
  destruct c as [| | | | | | | | | | | | | | | |t e|t e]; try done; destruct e; cbn in Hm.
  - destruct Hm as (-> & Hh). by apply Hgen.
  - destruct Hm as (-> & Hh). by apply Hgen.
  - destruct Hm as (-> & _ & Hh). by apply Hgen.
  - destruct Hm as (-> & _ & Hh). by apply Hgen.
Qed.

Lemma made_from_nonempty c t : made_from c t -> t <> [].
Proof.
  intros Hm ->. assert (Hno : forall pat, pat <> [] -> ~ contains pat []).
  { intros pat Hp (a & b & He). symmetry in He. apply app_nil in He as [_ He]. by apply app_nil in He as [-> _]. }
  assert (Hn : forall x : ascii, x ∉ ([] : text)) by (intros x; apply not_elem_of_nil).
  destruct c as [| | | | | | | | | | | | | | |l bg|l []|l []]; cbn in Hm; destruct_and? Hm;
    try (by eapply Hno; [|eassumption]); try (by eapply Hn); naive_solver.
Qed.

(** [made_from] leaves one choice, the one [createCommand] makes. *)
Lemma made_from_create c t : _trim t = t -> made_from c t -> createCommand t = Some c.
Proof.
  intros Ht Hm. pose proof (made_from_nonempty c t Hm) as Hne.
  assert (Hbuilt : plain t -> (exists w ws, command_words t = w :: ws /\ builtin_command w t = Some c) ->
            createCommand t = Some c).
  { intros Hp (w & ws & Hw & Hb). by rewrite createCommand_plain, Hw, Hb. }
  destruct c as [| | | | | | | | | | | | | | |l bg|l e|l e]; cbn in Hm;
    try (destruct Hm as (-> & Hp & w & ws & Hw & [= <-]); apply Hbuilt; [done|]; by eexists _, ws).
  - destruct Hm as (-> & Hp & -> & w & ws & Hw & Hr). rewrite createCommand_plain, Hw by done.
    destruct (builtin_command w t) as [c'|] eqn:Hb; [|done].
    assert (Hr' : isReservedKeyword w = true) by (apply (builtin_reserved w t); by rewrite Hb). congruence.
  - unfold createCommand. rewrite Ht. destruct t as [|x t']; [done|]. set (t := x :: t') in *.
    change (lit "|&") with ["|"; "&"]%char in *.
    destruct (operator_cases "|" "&" t) as [[Hc Hs]|[(Hc & Hn & Hin & Hs)|(Hc & Hn & Hs)]]; destruct e; destruct Hm as (-> & Hm);
      destruct_and? Hm; try done.
    + by rewrite bool_decide_eq_true_2.
    + rewrite Hn, bool_decide_eq_false_2, bool_decide_eq_true_2 by (done || by intros []). done.
    + exfalso. apply Hc. by eapply contains_head.
  - unfold createCommand. rewrite Ht. destruct t as [|x t']; [done|]. set (t := x :: t') in *.
    assert (Hpipe : "|"%char ∉ t) by (destruct e; destruct_and? Hm; done).
    change (lit "|&") with ["|"; "&"]%char. change (lit ">>") with [">"; ">"]%char in *.
    destruct (find_single_none "|" "&" t Hpipe) as [-> ->]. rewrite !(bool_decide_eq_false_2 (is_Some None)) by (by intros []).
    destruct (operator_cases ">" ">" t) as [[Hc Hs]|[(Hc & Hn & Hin & Hs)|(Hc & Hn & Hs)]]; destruct e; destruct Hm as (-> & Hm);
      destruct_and? Hm; try done.
    + by rewrite bool_decide_eq_true_2.
    + rewrite Hn, bool_decide_eq_false_2, bool_decide_eq_true_2 by (done || by intros []). done.
    + exfalso. apply Hc. by eapply contains_head.
Qed.

(** C15: [createCommand] decides by [|&], then [|], then [>>], then [>], then the
    first word: the name of a built-in command makes that command, every other
    one an external command.  The operators win over every command name, also
    inside quotes.  It makes a command exactly when [made_from] allows it. *)
Theorem createCommand_classifies (l : text) (c : command) :
  createCommand l = Some c <-> made_from c (strip l).
Proof.
  split.
  - intros Hc. pose proof (createCommand_made l) as Hm. by rewrite Hc in Hm.
  - intros Hm. rewrite <- createCommand_trim, trim_strip. apply made_from_create; [|done].
    rewrite <- trim_strip. apply trim_idemp.
Qed.

Lemma operator_sides_witness :
  exists c, createCommand (lit " ls -l |& wc ") = Some c /\ sides c = Some (lit "ls -l", lit "wc") /\
  exists a b, strip (lit " ls -l |& wc ") = a ++ operator_of c ++ b /\ sides c = Some (strip a, strip b).
Proof.
  eexists. split; [vm_compute; reflexivity|]. split; [vm_compute; reflexivity|].
  destruct (operator_sides (lit " ls -l |& wc ") (Pipe (lit "ls -l |& wc") true) eq_refl eq_refl) as (a & b & H1 & H2 & _).
  exists a, b. split; [exact H1|exact H2].
Defined.
