(* ===== verification/ShellFiles.v ===== *)
(** * [hw1-linux-basics/Commands.cpp]: the commands that read files

    [unsetenv], [sysinfo], [du], [whoami] and [usbinfo], with the scans of
    [/proc/self/environ], [/proc/stat], [/etc/passwd] and the directory walk.
    The functions that decide on a text are pure; the theorems give the
    environment scan and the walk their reference definitions. *)

From stdpp Require Import sorting.
From S2P Require Import Prelude ShellText ShellState.

Definition NUL : ascii := "000"%char.

(** [std::string(buf)]: up to the first NUL. *)
Definition c_string (buf : text) : text := take_while (fun c => negb (Ascii.eqb c NUL)) buf.

(** ** [unsetenv] *)

Definition has_prefix (prefix entry : text) : bool := bool_decide (substr entry 0 (Some (length prefix)) = prefix).

Fixpoint environ_scan (fuel : nat) (prefix buf : text) : bool :=
  match fuel with
  | O => false
  | S fuel' =>
      match buf with
      | [] => false
      | _ =>
          let entry := c_string buf in
          if has_prefix prefix entry then true
          else environ_scan fuel' prefix (drop (length entry + 1) buf)
      end
  end.

(** The entry is removed by shifting the rest of the array up. *)
Fixpoint remove_entry (prefix : text) (env : list text) : list text :=
  match env with
  | [] => []
  | e :: env' => if has_prefix prefix e then env' else e :: remove_entry prefix env'
  end.

Section files.
Context {W : Type} `{Kernel W}.

(** The buffer holds 65536 bytes; every round of the scan consumes a byte. *)
Definition _envVarExists (var_name : text) (w : W) : bool :=
  match read_file (lit "/proc/self/environ") 65535 w with
  | None => false
  | Some buf => environ_scan (length buf) (var_name ++ lit "=") buf
  end.

Fixpoint unsetenv_loop (names : list text) : P W unit :=
  match names with
  | [] => skip
  | n :: names' =>
      known ← query (_envVarExists n);
      if (known : bool) then set_environ (remove_entry (n ++ lit "=")) ;; unsetenv_loop names'
      else cerr (lit "smash error: unsetenv: " ++ n ++ lit " does not exist")
  end.

Definition unsetenv_execute (cmd_line : text) : P W unit :=
  let args := _split (_removeBackground cmd_line) in
  if (length args =? 1)%nat then cerr (lit "smash error: unsetenv: not enough arguments")
  else unsetenv_loop (drop 1 args).

(** ** [sysinfo] *)

Definition btime_text (content : text) : option text :=
  match find_str (lit "btime ") content with
  | None => None
  | Some pos =>
      let pos := (pos + 6)%nat in
      Some (substr content pos (match find_char "010" content pos with Some e => Some (e - pos)%nat | None => None end))
  end.

Definition sysinfo_execute : P W unit :=
  uts ← query uname;
  match uts with
  | None => perror "smash error: uname failed"
  | Some uts =>
      cout (lit "System: " ++ sysname uts) ;;
      cout (lit "Hostname: " ++ nodename uts) ;;
      cout (lit "Kernel: " ++ release uts) ;;
      cout (lit "Architecture: " ++ machine uts) ;;
      buf ← query (read_file (lit "/proc/stat") 4095);
      match buf with
      | None => perror "smash error: open failed"
      | Some [] => skip
      | Some buf =>
          match btime_text (c_string buf) with
          | None => skip
          | Some btime_str =>
              btime ← or_throw (stol btime_str);
              time_buf ← query (localtime btime);
              cout (lit "Boot Time: " ++ time_buf)
          end
      end
  end.

(** ** [du] *)

(** A [long long] sum: overflow is undefined. *)
Definition ll_ok (x : Z) : option Z := if (- 2 ^ 63 <=? x) && (x <? 2 ^ 63) then Some x else None.

Definition is_dot (name : text) : bool := bool_decide (name = lit ".") || bool_decide (name = lit "..").

(** The sum over the entries of a directory. *)
Fixpoint du_entries (du : text -> option Z) (path : text) (total : Z) (names : list text) : option Z :=
  match names with
  | [] => Some total
  | n :: names' =>
      if is_dot n then du_entries du path total names'
      else t ← du (path ++ lit "/" ++ n); total ← ll_ok (total + t); du_entries du path total names'
  end.

Fixpoint _duRecursive (fuel : nat) (w : W) (path : text) : option Z :=
  match fuel with
  | O => None
  | S fuel' =>
      match lstat path w with
      | None => Some 0
      | Some st =>
          if st_link st then Some 0
          else
            total ← ll_ok (st_blocks st * 512);
            if st_dir st then
              match read_dir path w with
              | None => Some total
              | Some names => du_entries (_duRecursive fuel' w) path total names
              end
            else Some total
      end
  end.

(** A path of [PATH_MAX] bytes or more fails with [ENAMETOOLONG], and every
    level of the walk makes it longer. *)
Definition PATH_MAX : nat := 4096.

Definition du_execute (cmd_line : text) : P W unit :=
  let args := _split (_removeBackground cmd_line) in
  if (2 <? length args)%nat then cerr (lit "smash error: du: too many arguments")
  else
    path ← (if (length args =? 1)%nat then query getcwd else mret (args !! 1%nat));
    match path with
    | None => if (length args =? 1)%nat then perror "smash error: getcwd failed" else stop Undefined
    | Some path =>
        walk ← query (fun w => _duRecursive (S PATH_MAX) w path);
        bytes ← or_undefined walk;
        plus ← or_undefined (ll_ok (bytes + 1023));
        cout (lit "Total disk usage: " ++ show (Z.quot plus 1024) ++ lit " KB")
    end.

(** ** [whoami] *)

(** The calls of [std::getline] on a stream, until it ends. *)
Fixpoint getlines (d : ascii) (line : text) (s : text) : list text :=
  match s with
  | [] => match line with [] => [] | _ => [line] end
  | c :: s' => if Ascii.eqb c d then line :: getlines d [] s' else getlines d (line ++ [c]) s'
  end.

(** [std::stoul] throws on a third field that is no number; [uid_t] has 32
    bits. *)
Fixpoint passwd_search (uid : Z) (lines : list text) : option (text * text) :=
  match lines with
  | [] => Some (lit "N/A", lit "N/A")
  | line :: lines' =>
      match getlines ":" [] line with
      | f0 :: _ :: f2 :: _ :: _ :: f5 :: _ :: _ =>
          match stoul f2 with
          | None => None
          | Some n => if n mod 2 ^ 32 =? uid then Some (f0, f5) else passwd_search uid lines'
          end
      | _ => passwd_search uid lines'
      end
  end.

Definition whoami_execute : P W unit :=
  uid ← query getuid;
  gid ← query getgid;
  buf ← query (read_file (lit "/etc/passwd") 65535);
  match buf with
  | None => perror "smash error: open failed"
  | Some [] => skip
  | Some buf =>
      found ← or_throw (passwd_search uid (getlines "010" [] (c_string buf)));
      let '(username, homedir) := found in
      cout (show uid) ;;
      cout (show gid) ;;
      cout (username ++ lit " " ++ homedir)
  end.

(** ** [usbinfo] *)

Record DevInfo := { devnum : Z; vendor : text; product_id : text; manufacturer : text; product_name : text; max_power : text }.

Definition trailing (c : ascii) : bool := one_of ["010"; "013"; " "]%char c.

Definition usb_read_file (path : text) (w : W) : text :=
  match read_file path 255 w with
  | None | Some [] => lit "N/A"
  | Some b =>
      match reverse (drop_while trailing (reverse (c_string b))) with
      | [] => lit "N/A"
      | s => s
      end
  end.

Definition usb_power (mp : text) : text :=
  if bool_decide (mp = lit "N/A") then mp
  else _trim (match find_str (lit "mA") mp with Some ma_pos => substr mp 0 (Some ma_pos) | None => mp end).

Definition usb_device (name : text) (w : W) : option DevInfo :=
  let dev_path := lit "/sys/bus/usb/devices" ++ lit "/" ++ name in
  let devnum_str := usb_read_file (dev_path ++ lit "/devnum") w in
  if bool_decide (devnum_str = lit "N/A") then None
  else match stoi devnum_str with
       | None => None
       | Some n =>
           Some {| devnum := n;
                   vendor := usb_read_file (dev_path ++ lit "/idVendor") w;
                   product_id := usb_read_file (dev_path ++ lit "/idProduct") w;
                   manufacturer := usb_read_file (dev_path ++ lit "/manufacturer") w;
                   product_name := usb_read_file (dev_path ++ lit "/product") w;
                   max_power := usb_power (usb_read_file (dev_path ++ lit "/bMaxPower") w) |}
       end.

Fixpoint usb_devices (names : list text) (w : W) : list DevInfo :=
  match names with
  | [] => []
  | name :: names' =>
      if is_dot name || bool_decide (is_Some (find_char ":" name 0)) then usb_devices names' w
      else match usb_device name w with
           | None => usb_devices names' w
           | Some di => di :: usb_devices names' w
           end
  end.

Definition devnum_le (a b : DevInfo) : Prop := devnum a <= devnum b.

#[export] Instance devnum_le_dec : RelDecision devnum_le.
Proof. intros a b. unfold devnum_le. apply _. Defined.

Definition usb_line (di : DevInfo) : text :=
  lit "Device " ++ show (devnum di) ++ lit ": ID " ++ vendor di ++ lit ":" ++ product_id di
  ++ lit " " ++ manufacturer di ++ lit " " ++ product_name di
  ++ lit "  MaxPower: " ++ max_power di ++ lit "mA".

(** [std::sort] by [devnum]; the order of equal numbers, which the standard
    leaves open, is taken to be the order of the directory. *)
Definition usbinfo_execute : P W unit :=
  names ← query (read_dir (lit "/sys/bus/usb/devices"));
  match names with
  | None => cerr (lit "smash error: usbinfo: no USB devices found")
  | Some names =>
      devices ← query (usb_devices names);
      match devices with
      | [] => cerr (lit "smash error: usbinfo: no USB devices found")
      | _ => each (fun di => cout (usb_line di)) (merge_sort devnum_le devices)
      end
  end.

End files.

(** ** The environment *)

Lemma has_prefix_spec prefix entry : has_prefix prefix entry = true <-> exists rest, entry = prefix ++ rest.
Proof.
  unfold has_prefix, substr. rewrite drop_0, bool_decide_eq_true. split.
  - intros He. exists (drop (length prefix) entry). rewrite <- He at 1. symmetry. apply take_drop.
  - intros [rest ->]. apply take_app_length.
Qed.

Definition nul_terminated (es : list text) : text := es ≫= (fun e => e ++ [NUL]).

Lemma c_string_app e b : NUL ∉ e -> c_string (e ++ NUL :: b) = e.
Proof.
  unfold c_string. intros He. induction e as [|c e IH]; cbn; [done|]. apply not_elem_of_cons in He as [Hc He].
  rewrite (proj2 (Ascii.eqb_neq c NUL)) by congruence. cbn. by rewrite IH.
Qed.

Lemma environ_scan_existsb fuel prefix es :
  Forall (fun e => NUL ∉ e) es -> (length (nul_terminated es) <= fuel)%nat ->
  environ_scan fuel prefix (nul_terminated es) = existsb (has_prefix prefix) es.
Proof.
  intros Hes. revert fuel. induction Hes as [|e es He Hes IH]; intros fuel Hf; [by destruct fuel|].
  unfold nul_terminated in *. cbn [mbind list_bind] in *. rewrite length_app, length_app in Hf. cbn in Hf.
  destruct fuel as [|fuel]; [lia|]. cbn [environ_scan existsb].
  rewrite <- app_assoc. cbn [app]. rewrite c_string_app by done.
  destruct (e ++ NUL :: _) as [|x r] eqn:Hr; [by destruct e|]. rewrite <- Hr. clear x r Hr.
  destruct (has_prefix prefix e); [done|]. cbn [orb]. rewrite <- (IH fuel) by lia. f_equal.
  by rewrite drop_app_add.
Qed.

(** The array after a removal: the first entry of the variable is gone and
    nothing else changed. *)
Lemma remove_entry_spec prefix env :
  (existsb (has_prefix prefix) env = false /\ remove_entry prefix env = env) \/
  (exists a e b, env = a ++ e :: b /\ has_prefix prefix e = true /\ existsb (has_prefix prefix) a = false /\
                 remove_entry prefix env = a ++ b).
Proof.
  induction env as [|e env IH]; cbn; [by left|]. destruct (has_prefix prefix e) eqn:He.
  - right. by exists [], e, env.
  - destruct IH as [[H1 H2]|(a & e' & b & -> & H1 & H2 & H3)]; [left; by rewrite H2|right].
    exists (e :: a), e', b. cbn. by rewrite He, H3.
Qed.

(** ** The directory walk *)

(** A file system seen from a path: [Gone] is a path [lstat] fails on, and a
    directory that cannot be opened has no entries. *)
Inductive node :=
| Gone
| Symlink
| Plain (blocks : Z)
| Dir (blocks : Z) (entries : option (list (text * node))).

Fixpoint blocks_sum (usage : node -> Z) (entries : list (text * node)) : Z :=
  match entries with
  | [] => 0
  | (n, t) :: entries' => (if is_dot n then 0 else usage t) + blocks_sum usage entries'
  end.

(** What the walk should add up: 512 bytes for every block of every file and
    directory below, symbolic links not followed and not counted. *)
Fixpoint usage (t : node) : Z :=
  match t with
  | Gone | Symlink => 0
  | Plain b => b * 512
  | Dir b None => b * 512
  | Dir b (Some es) => b * 512 + blocks_sum usage es
  end.

Section walk.
Context {W : Type} `{Kernel W}.

Fixpoint shows (w : W) (t : node) (path : text) : Prop :=
  match t with
  | Gone => lstat path w = None
  | Symlink => exists st, lstat path w = Some st /\ st_link st = true
  | Plain b => exists st, lstat path w = Some st /\ st_link st = false /\ st_dir st = false /\ st_blocks st = b /\ 0 <= b
  | Dir b es =>
      (exists st, lstat path w = Some st /\ st_link st = false /\ st_dir st = true /\ st_blocks st = b /\ 0 <= b) /\
      match es with
      | None => read_dir path w = None
      | Some es =>
          read_dir path w = Some (fst <$> es) /\
          (fix go (es : list (text * node)) : Prop :=
             match es with
             | [] => True
             | (n, t) :: es' => (is_dot n = false -> shows w t (path ++ lit "/" ++ n)) /\ go es'
             end) es
      end
  end.

Definition shows_entries (w : W) (path : text) : list (text * node) -> Prop :=
  Forall (fun e => is_dot (fst e) = false -> shows w (snd e) (path ++ lit "/" ++ fst e)).

Lemma shows_dir w b es path :
  shows w (Dir b (Some es)) path ->
  (exists st, lstat path w = Some st /\ st_link st = false /\ st_dir st = true /\ st_blocks st = b /\ 0 <= b) /\
  read_dir path w = Some (fst <$> es) /\ shows_entries w path es.
Proof.
  cbn [shows]. intros (Hst & Hrd & Hes). split_and!; [done..|]. clear Hst Hrd.
  induction es as [|[n t] es IH]; [constructor|]. destruct Hes as [Ht Hes]. constructor; [exact Ht|by apply IH].
Qed.

Lemma ll_ok_in x : 0 <= x < 2 ^ 63 -> ll_ok x = Some x.
Proof. intros Hx. unfold ll_ok. by rewrite (proj2 (Z.leb_le _ _)), (proj2 (Z.ltb_lt _ _)) by lia. Qed.

Context (long_path : forall path w, (PATH_MAX <= length path)%nat -> lstat path w = None).

(** A path [lstat] answers is short, and the paths below it are longer. *)
Lemma below fuel w path n st :
  lstat path w = Some st -> (PATH_MAX < S fuel + length path)%nat ->
  (1 <= fuel)%nat /\ (PATH_MAX < fuel + length (path ++ lit "/" ++ n))%nat.
Proof.
  intros Hst Hf. rewrite length_app. cbn [length app lit].
  destruct (decide (length path < PATH_MAX)%nat) as [|Hl]; [cbn; lia|]. rewrite long_path in Hst by lia. done.
Qed.

Lemma shows_entries_elem w path es n t :
  shows_entries w path es -> (n, t) ∈ es -> is_dot n = false -> shows w t (path ++ lit "/" ++ n).
Proof. unfold shows_entries. rewrite Forall_forall. intros Hes Hin. apply (Hes _ Hin). Qed.

Lemma blocks_sum_nonneg es :
  (forall n t, (n, t) ∈ es -> is_dot n = false -> 0 <= usage t) -> 0 <= blocks_sum usage es.
Proof.
  induction es as [|[n t] es IH]; cbn; [lia|]. intros Hes.
  assert (0 <= blocks_sum usage es) by (apply IH; intros m u Hu; apply (Hes m u); by right).
  destruct (is_dot n) eqn:Hn; [lia|]. specialize (Hes n t ltac:(by left) Hn). lia.
Qed.

Lemma usage_nonneg fuel w t path :
  (1 <= fuel)%nat -> (PATH_MAX < fuel + length path)%nat -> shows w t path -> 0 <= usage t.
Proof.
  revert t path. induction fuel as [|fuel IH]; intros t path H1 Hf Hs; [lia|].
  destruct t as [| |b|b [es|]]; cbn [usage]; [lia|lia| | |].
  - destruct Hs as (st & _ & _ & _ & _ & ?). lia.
  - apply shows_dir in Hs as ((st & Hst & _ & _ & _ & Hb) & _ & Hes).
    cut (0 <= blocks_sum usage es); [lia|]. apply blocks_sum_nonneg. intros n t Hin Hn.
    destruct (below fuel w path n st) as [? ?]; [done..|]. by eapply IH, shows_entries_elem.
  - destruct Hs as ((st & _ & _ & _ & _ & ?) & _). lia.
Qed.

(** The loop over the entries, given the answers for the entries. *)
Lemma du_entries_sum du path es total :
  (forall n t, (n, t) ∈ es -> is_dot n = false ->
     0 <= usage t /\ (usage t < 2 ^ 63 -> du (path ++ lit "/" ++ n) = Some (usage t))) ->
  0 <= total -> total + blocks_sum usage es < 2 ^ 63 ->
  du_entries du path total (fst <$> es) = Some (total + blocks_sum usage es).
Proof.
  revert total. induction es as [|[n t] es IH]; intros total Hes H0 Hmax; cbn in *; [f_equal; lia|].
  assert (Hrest : forall m u, (m, u) ∈ es -> is_dot m = false ->
     0 <= usage u /\ (usage u < 2 ^ 63 -> du (path ++ lit "/" ++ m) = Some (usage u))).
  { intros m u Hu. apply (Hes m u). by right. }
  assert (0 <= blocks_sum usage es) by (apply blocks_sum_nonneg; intros m u Hu Hm; by apply (Hrest m u)).
  destruct (is_dot n) eqn:Hn; [by apply IH|].
  destruct (Hes n t ltac:(by left) Hn) as [Hp Hdu]. cbn in Hdu. rewrite Hdu by lia. cbn [mbind option_bind].
  rewrite ll_ok_in by lia. cbn [mbind option_bind]. rewrite IH by (done || lia). f_equal. lia.
Qed.

(** The walk adds up the tree; [PATH_MAX] bounds its depth. *)
Lemma duRecursive_usage fuel w t path :
  (1 <= fuel)%nat -> (PATH_MAX < fuel + length path)%nat -> shows w t path -> usage t < 2 ^ 63 ->
  _duRecursive fuel w path = Some (usage t).
Proof.
  revert t path. induction fuel as [|fuel IH]; intros t path H1 Hf Hs Hu; [lia|]. cbn [_duRecursive].
  destruct t as [| |b|b [es|]]; cbn [usage] in *.
  - cbn in Hs. by rewrite Hs.
  - destruct Hs as (st & -> & ->). done.
  - destruct Hs as (st & -> & -> & -> & -> & Hb). by rewrite ll_ok_in by lia.
  - apply shows_dir in Hs as ((st & Hst & Hl & Hd & Hbl & Hb) & Hrd & Hes). rewrite Hst, Hl, Hd, Hbl, Hrd.
    assert (Hin : forall n t, (n, t) ∈ es -> is_dot n = false ->
       0 <= usage t /\ (usage t < 2 ^ 63 -> _duRecursive fuel w (path ++ lit "/" ++ n) = Some (usage t))).
    { intros n t Hn Hdot. destruct (below fuel w path n st) as [? ?]; [done..|].
      pose proof (shows_entries_elem w path es n t Hes Hn Hdot) as Ht. split; [by eapply usage_nonneg|].
      intros ?. by apply IH. }
    assert (0 <= blocks_sum usage es) by (apply blocks_sum_nonneg; intros n t Hn Hdot; by apply (Hin n t)).
    rewrite ll_ok_in by lia. cbn [mbind option_bind]. by rewrite du_entries_sum by (done || lia).
  - destruct Hs as ((st & -> & -> & -> & -> & Hb) & ->). by rewrite ll_ok_in by lia.
Qed.

End walk.
