(* ===== verification/Shell.v ===== *)
(** * [hw1-linux-basics/Commands.cpp], [smash.cpp], [signals.cpp]: the commands

    One definition per [execute] method, [SmashShell::executeCommand], the
    body of a forked child, the Ctrl-C handler and the loop of [main]. *)

From stdpp Require Import gmap.
From S2P Require Import Prelude ShellText Regex ShellState ShellParse ShellFiles.

Section commands.
Context {W : Type} `{Kernel W}.

Definition clean_args (cmd_line : text) : list text := _split (_removeBackground cmd_line).

(** ** Built-in commands *)

Definition chprompt_execute (cmd_line : text) : P W unit :=
  let args := clean_args cmd_line in
  match args !! 1%nat with
  | None => set_shell (setPrompt (lit "smash"))
  | Some a => set_shell (setPrompt a)
  end.

Definition showpid_execute : P W unit :=
  pid ← query getpid;
  cout (lit "smash pid is " ++ show pid).

Definition pwd_execute : P W unit :=
  buf ← query getcwd;
  match buf with
  | None => perror "smash error: getcwd failed"
  | Some buf => cout buf
  end.

Definition cd_execute (cmd_line : text) : P W unit :=
  let args := clean_args cmd_line in
  if (2 <? length args)%nat then cerr (lit "smash error: cd: too many arguments")
  else if (length args =? 1)%nat then skip
  else
    path ← or_undefined (args !! 1%nat);
    cwd ← query getcwd;
    match cwd with
    | None => perror "smash error: getcwd failed"
    | Some cwd =>
        if bool_decide (path = lit "-") then
          old ← from_shell last_pwd;
          match old with
          | [] => cerr (lit "smash error: cd: OLDPWD not set")
          | _ =>
              set_shell (setLastPwd cwd) ;;
              ok ← syscall (chdir old);
              if (ok : bool) then skip
              else perror "smash error: chdir failed" ;; set_shell (setLastPwd cwd)
          end
        else
          ok ← syscall (chdir path);
          if (ok : bool) then set_shell (setLastPwd cwd)
          else perror "smash error: chdir failed"
    end.

(** ** [signals.cpp] *)

Definition ctrlCHandler : P W unit :=
  cout (lit "smash: got ctrl-C") ;;
  pid ← from_shell fg_pid;
  if 0 <? pid then
    ok ← syscall (sys_kill pid SIGKILL);
    if negb ok then perror "smash error: kill failed"
    else
      cout (lit "smash: process " ++ show pid ++ lit " was killed") ;;
      set_shell (setFgPid (-1)) ;;
      set_shell (setFgCmd [])
  else skip.

(** The handler runs while the shell blocks; the call it interrupts is
    restarted ([SA_RESTART]). *)
Fixpoint handle_signals (n : nat) : P W unit :=
  match n with O => skip | S n' => ctrlCHandler ;; handle_signals n' end.

Definition interrupts : P W unit := n ← syscall sigints; handle_signals n.

(** ** Waiting *)

Definition wait_for (pid : Z) : P W (Z * Z) := interrupts ;; syscall (waitpid pid false).

(** [fg_pid] and [fg_cmd] name the foreground process while the shell waits. *)
Definition wait_foreground (pid : Z) (cmd : text) : P W unit :=
  set_shell (setFgPid pid) ;;
  set_shell (setFgCmd cmd) ;;
  r ← wait_for pid;
  let '(ret, errno) := r in
  (if (ret =? -1) && negb (errno =? ECHILD) then perror "smash error: waitpid failed" else skip) ;;
  set_shell (setFgPid (-1)) ;;
  set_shell (setFgCmd []).

Definition bring_to_foreground (job : JobEntry) : P W unit :=
  cout (job_cmd job ++ lit " " ++ show (job_pid job)) ;;
  l ← from_shell jobs;
  set_shell (setJobs (removeJobById (job_id job) l)) ;;
  wait_foreground (job_pid job) (job_cmd job).

Definition fg_execute (cmd_line : text) : P W unit :=
  let args := clean_args cmd_line in
  if (2 <? length args)%nat then cerr (lit "smash error: fg: invalid arguments")
  else
    removeFinishedJobs ;;
    l ← from_shell jobs;
    if (length args =? 1)%nat then
      match getLastJob l with
      | None => cerr (lit "smash error: fg: jobs list is empty")
      | Some job => bring_to_foreground job
      end
    else
      id_str ← or_undefined (args !! 1%nat);
      if negb (_isNumber id_str) || bool_decide (id_str !! 0%nat = Some "-"%char)
      then cerr (lit "smash error: fg: invalid arguments")
      else
        id ← or_throw (stoi id_str);
        match getJobById id l with
        | None => cerr (lit "smash error: fg: job-id " ++ show id ++ lit " does not exist")
        | Some job => bring_to_foreground job
        end.

Definition quit_execute (cmd_line : text) : P W unit :=
  let args := clean_args cmd_line in
  (if bool_decide (args !! 1%nat = Some (lit "kill")) then killAllJobs else skip) ;;
  exit 0.

Definition kill_execute (cmd_line : text) : P W unit :=
  let args := clean_args cmd_line in
  match args with
  | [_; sigarg; jobarg] =>
      if bool_decide (sigarg !! 0%nat <> Some "-"%char) then cerr (lit "smash error: kill: invalid arguments")
      else
        let signum_str := substr sigarg 1 None in
        if negb (_isNumber signum_str) then cerr (lit "smash error: kill: invalid arguments")
        else if negb (_isNumber jobarg) then cerr (lit "smash error: kill: invalid arguments")
        else
          signum ← or_throw (stoi signum_str);
          id ← or_throw (stoi jobarg);
          l ← from_shell jobs;
          match getJobById id l with
          | None => cerr (lit "smash error: kill: job-id " ++ show id ++ lit " does not exist")
          | Some job =>
              ok ← syscall (sys_kill (job_pid job) signum);
              if (ok : bool)
              then cout (lit "signal number " ++ show signum ++ lit " was sent to pid " ++ show (job_pid job))
              else perror "smash error: kill failed"
          end
  | _ => cerr (lit "smash error: kill: invalid arguments")
  end.

End commands.

(** ** [alias] and [unalias] *)

Definition alnum_ (c : ascii) : bool :=
  let n := N_of_ascii c in
  ((97 <=? n) && (n <=? 122) || (65 <=? n) && (n <=? 90) || (48 <=? n) && (n <=? 57) || (n =? 95))%N.

Definition not_quote (c : ascii) : bool := negb (Ascii.eqb c "'").

Definition alias_regex : regex :=
  Cat (Lit (lit "alias ")) (Cat (Plus (Class alnum_)) (Cat (Lit (lit "='")) (Cat (Star (Class not_quote)) (Lit (lit "'"))))).

(** The name and the command, cut at the first [=], the first space and the
    first and last quote.  On a text the expression accepts every search
    succeeds and the positions come in this order ([alias_parts_format] of
    [ShellInv]), so no difference of positions wraps. *)
Definition alias_parts (clean : text) : option (text * text) :=
  eq_pos ← find_char "=" clean 0;
  space_pos ← find_char " " clean 0;
  first_quote ← find_char "'" clean eq_pos;
  last_quote ← rfind_char "'" clean;
  Some (substr clean (space_pos + 1) (Some (eq_pos - space_pos - 1)%nat),
        substr clean (first_quote + 1) (Some (last_quote - first_quote - 1)%nat)).

Section alias_commands.
Context {W : Type} `{Kernel W}.

Definition alias_execute (cmd_line : text) : P W unit :=
  let clean := _removeBackground cmd_line in
  let args := _split clean in
  if (length args =? 1)%nat then
    order ← from_shell alias_order;
    each (fun name =>
      a ← from_shell aliases;
      match a !! name with
      | Some cmd => cout (name ++ lit "='" ++ cmd ++ lit "'")
      | None => skip
      end) order
  else if negb (regex_match alias_regex clean) then cerr (lit "smash error: alias: invalid alias format")
  else
    parts ← or_undefined (alias_parts clean);
    let '(name, cmd_val) := parts in
    exists_ ← from_shell (aliasExists name);
    if isReservedKeyword name || exists_
    then cerr (lit "smash error: alias: " ++ name ++ lit " already exists or is a reserved command")
    else set_shell (addAlias name cmd_val).

Fixpoint unalias_loop (names : list text) : P W unit :=
  match names with
  | [] => skip
  | n :: names' =>
      exists_ ← from_shell (aliasExists n);
      if (exists_ : bool) then set_shell (removeAlias n) ;; unalias_loop names'
      else cerr (lit "smash error: unalias: " ++ n ++ lit " alias does not exist")
  end.

Definition unalias_execute (cmd_line : text) : P W unit :=
  let args := clean_args cmd_line in
  if (length args =? 1)%nat then cerr (lit "smash error: unalias: not enough arguments")
  else unalias_loop (drop 1 args).

End alias_commands.

(** ** External commands, pipes and redirections *)

Definition is_complex (line : text) : bool :=
  bool_decide (is_Some (find_char "*" line 0)) || bool_decide (is_Some (find_char "?" line 0)).

(** The program of a child that runs a line of its own. *)
Definition external_image (effective : text) : image :=
  if is_complex effective then Bash effective else Program (_split effective).

(** The left side of a pipe or redirection may also be a built-in command. *)
Definition left_image (left_cmd : text) : image :=
  if is_complex left_cmd then Bash left_cmd
  else match _split left_cmd with
       | cmd_name :: _ =>
           if isReservedKeyword cmd_name then Builtin (createCommand left_cmd) else Program (_split left_cmd)
       | [] => Program []
       end.

Section execution.
Context {W : Type} `{Kernel W}.

Definition external_execute (cmd_line : text) (is_background : bool) : P W unit :=
  let effective := if is_background then _removeBackground cmd_line else _trim cmd_line in
  pid ← syscall (fork {| plumb := NoPlumbing; run := external_image effective |});
  if pid =? -1 then perror "smash error: fork failed"
  else if is_background then addJob pid cmd_line
  else wait_foreground pid effective.

Definition redirection_execute (cmd_line : text) (append : bool) : P W unit :=
  match redirection_sides append cmd_line with
  | None => skip
  | Some (left_cmd, filename) =>
      left_cmd ← from_shell (resolveAlias left_cmd);
      pid ← syscall (fork {| plumb := ToFile filename append; run := left_image left_cmd |});
      if pid =? -1 then perror "smash error: fork failed"
      else wait_foreground pid left_cmd
  end.

Definition pipe_execute (cmd_line : text) (stderr_pipe : bool) : P W unit :=
  match pipe_sides stderr_pipe cmd_line with
  | None => skip
  | Some (cmd1, cmd2) =>
      cmd1 ← from_shell (resolveAlias cmd1);
      cmd2 ← from_shell (resolveAlias cmd2);
      fds ← syscall pipe;
      match fds with
      | None => perror "smash error: pipe failed"
      | Some fds =>
        pid1 ← syscall (fork {| plumb := ToPipe stderr_pipe fds; run := left_image cmd1 |});
        if pid1 =? -1 then
          perror "smash error: fork failed" ;; command_call (close fds.1) ;; command_call (close fds.2)
        else
          pid2 ← syscall (fork {| plumb := FromPipe fds; run := external_image cmd2 |});
          if pid2 =? -1 then
            perror "smash error: fork failed" ;; command_call (close fds.1) ;; command_call (close fds.2)
          else
            command_call (close fds.1) ;;
            command_call (close fds.2) ;;
            set_shell (setFgPid pid1) ;;
            wait_for pid1 ;;
            wait_for pid2 ;;
            set_shell (setFgPid (-1)) ;;
            set_shell (setFgCmd [])
      end
  end.

(** [Command::execute]. *)
Definition execute (c : command) : P W unit :=
  match c with
  | Chprompt l => chprompt_execute l
  | ShowPid _ => showpid_execute
  | GetCurrDir _ => pwd_execute
  | ChangeDir l => cd_execute l
  | Jobs _ => printJobsList
  | Foreground l => fg_execute l
  | Quit l => quit_execute l
  | Kill l => kill_execute l
  | Alias l => alias_execute l
  | Unalias l => unalias_execute l
  | Unsetenv l => unsetenv_execute l
  | Sysinfo _ => sysinfo_execute
  | Du l => du_execute l
  | Whoami _ => whoami_execute
  | Usbinfo _ => usbinfo_execute
  | External l bg => external_execute l bg
  | Pipe l e => pipe_execute l e
  | Redirection l a => redirection_execute l a
  end.

Definition redirect_fd (fd target : Z) : P W unit :=
  ok ← syscall (dup2 fd target);
  if (ok : bool) then command_call (close fd) else perror "smash error: dup2 failed" ;; exit 1.

Definition set_descriptors (p : plumbing) : P W unit :=
  match p with
  | NoPlumbing => skip
  | ToFile filename append =>
      fd ← syscall (open_write filename append);
      if fd =? -1 then perror "smash error: open failed" ;; exit 1
      else redirect_fd fd STDOUT_FILENO
  | ToPipe stderr_pipe pipefd =>
      command_call (close pipefd.1) ;;
      redirect_fd pipefd.2 (if stderr_pipe then STDERR_FILENO else STDOUT_FILENO)
  | FromPipe pipefd =>
      command_call (close pipefd.2) ;;
      redirect_fd pipefd.1 STDIN_FILENO
  end.

(** What a forked child runs, after [setpgrp]: the descriptors first, then
    its program; a child never returns to the shell's loop. *)
Definition child_main (c : child) : P W unit :=
  set_descriptors (plumb c) ;;
  match run c with
  | Bash line =>
      let argv := [lit "/bin/bash"; lit "-c"; line] in
      ok ← query (exec (lit "/bin/bash") argv);
      if (ok : bool) then stop (Replaced (lit "/bin/bash") argv)
      else perror "smash error: execv failed" ;; exit 1
  | Program argv =>
      path ← or_undefined (argv !! 0%nat);
      ok ← query (exec path argv);
      if (ok : bool) then stop (Replaced path argv)
      else perror "smash error: execvp failed" ;; exit 1
  | Builtin None => exit 0
  | Builtin (Some cmd) => execute cmd ;; exit 0
  end.

Definition executeCommand (cmd_line : text) : P W unit :=
  let trimmed := _trim cmd_line in
  match trimmed with
  | [] => skip
  | _ =>
      removeFinishedJobs ;;
      resolved ← from_shell (resolveAlias trimmed);
      match createCommand resolved with
      | None => skip
      | Some cmd => execute cmd
      end
  end.

(** ** [smash.cpp] *)

(** The loop of [main] on the lines of the input; it ends with the input. *)
Fixpoint main_loop (lines : list text) : P W unit :=
  pr ← from_shell prompt;
  cout (pr ++ lit "> ") ;;
  interrupts ;;
  match lines with
  | [] => skip
  | line :: lines' => executeCommand line ;; main_loop lines'
  end.

End execution.
