(* ===== verification/ShellInv.v ===== *)
(** * The invariant of the shell

    The jobs list is sorted by increasing positive ids and holds positive
    pids, [aliases] and [alias_order] agree and hold only names and commands
    the [alias] command accepts, and no foreground process is recorded between
    two commands.  Every command keeps it, whatever the kernel answers. *)

From stdpp Require Import gmap sorting.
From S2P Require Import Prelude ShellText Regex ShellState ShellParse ShellFiles Shell.

(** [fork] fails or returns the pid of a child. *)
Class KernelModel (W : Type) `{Kernel W} := {
  fork_pid : forall c w, fst (fork c w) = -1 \/ 0 < fst (fork c w);
}.

Definition ids (l : list JobEntry) : list Z := job_id <$> l.

Definition jobs_ok (l : list JobEntry) : Prop :=
  StronglySorted Z.lt (ids l) /\ Forall (fun j => 0 < job_id j < 2 ^ 31 /\ 0 < job_pid j) l.

Definition alias_name_ok (n : text) : Prop :=
  n <> [] /\ forallb alnum_ n = true /\ isReservedKeyword n = false.

Definition aliases_ok (m : gmap text text) (order : list text) : Prop :=
  NoDup order /\ (forall n, is_Some (m !! n) <-> n ∈ order) /\
  (forall n c, m !! n = Some c -> alias_name_ok n /\ forallb not_quote c = true).

Definition shell_ok (s : SmashShell) : Prop :=
  jobs_ok (jobs s) /\ aliases_ok (aliases s) (alias_order s) /\ fg_pid s = -1 /\ fg_cmd s = [].

Create HintDb shell.

(** ** Jobs *)

Lemma Forall_sublist {A} (Q : A -> Prop) (l k : list A) : sublist l k -> Forall Q k -> Forall Q l.
Proof. induction 1; inversion 1; subst; auto. Qed.

Lemma StronglySorted_sublist {A} (R : A -> A -> Prop) (l k : list A) :
  sublist l k -> StronglySorted R k -> StronglySorted R l.
Proof.
  induction 1 as [|x l k Hs IH|x l k Hs IH]; intros Hk; [done| |]; inversion Hk; subst; auto.
  constructor; [auto|]. eapply Forall_sublist; eauto.
Qed.

Lemma ids_sublist l k : sublist l k -> sublist (ids l) (ids k).
Proof. induction 1; cbn; by constructor. Qed.

Lemma jobs_ok_sublist l k : sublist l k -> jobs_ok k -> jobs_ok l.
Proof.
  intros Hs [H1 H2]. split; [eapply StronglySorted_sublist; [by apply ids_sublist|done]|].
  by eapply Forall_sublist.
Qed.

Lemma jobs_ok_nil : jobs_ok [].
Proof. split; constructor. Qed.

Lemma removeJobById_sublist id l : sublist (removeJobById id l) l.
Proof. induction l as [|j l IH]; cbn; [done|]. case_match; by constructor. Qed.

Lemma getJobById_find id l : getJobById id l = List.find (fun j => job_id j =? id) l.
Proof. induction l as [|j l IH]; cbn; [done|]. by destruct (job_id j =? id). Qed.

(** The ids are distinct, so no other job has the id. *)
Lemma removeJobById_filter id l :
  jobs_ok l -> removeJobById id l = List.filter (fun j => negb (job_id j =? id)) l.
Proof.
  intros [Hs _]. unfold ids in Hs. induction l as [|j l IH]; cbn in *; [done|]. apply StronglySorted_inv in Hs as [Hs Hj].
  destruct (Z.eqb_spec (job_id j) id) as [He|Hne]; cbn [negb]; [|by rewrite IH].
  symmetry. apply forallb_filter_id. apply forallb_forall. intros k Hk. rewrite Forall_fmap, Forall_forall in Hj.
  apply list_elem_of_In in Hk. specialize (Hj k Hk). cbn in Hj. destruct (Z.eqb_spec (job_id k) id); [lia|done].
Qed.

Lemma max_loop_spec m l : m <= max_loop m l /\ Forall (fun j => job_id j <= max_loop m l) l.
Proof.
  revert m. induction l as [|j l IH]; intros m; cbn; [split; [lia|constructor]|].
  destruct (IH (if m <? job_id j then job_id j else m)) as [H1 H2].
  split; [destruct (Z.ltb_spec m (job_id j)); lia|]. constructor; [|done].
  destruct (Z.ltb_spec m (job_id j)); lia.
Qed.

Lemma max_loop_mono m m' l : m <= m' -> max_loop m l <= max_loop m' l.
Proof.
  revert m m'. induction l as [|j l IH]; intros m m' Hm; cbn [max_loop]; [done|]. apply IH.
  destruct (Z.ltb_spec m (job_id j)), (Z.ltb_spec m' (job_id j)); lia.
Qed.

(** [getMaxJobId] bounds every id, and is one of them or 0. *)
Lemma getMaxJobId_bound l : 0 <= getMaxJobId l /\ Forall (fun j => job_id j <= getMaxJobId l) l.
Proof. apply max_loop_spec. Qed.

Lemma getMaxJobId_sublist l k : sublist l k -> getMaxJobId l <= getMaxJobId k.
Proof.
  unfold getMaxJobId. generalize 0. intros m Hs. revert m. induction Hs as [|j l k Hs IH|j l k Hs IH]; intros m; cbn [max_loop];
    [lia|apply IH|]. etrans; [apply (IH m)|]. apply max_loop_mono. destruct (Z.ltb_spec m (job_id j)); lia.
Qed.

Lemma jobs_ok_snoc l id pid c :
  jobs_ok l -> getMaxJobId l < id < 2 ^ 31 -> 0 < pid ->
  jobs_ok (l ++ [{| job_id := id; job_pid := pid; job_cmd := c |}]).
Proof.
  intros [Hs Hf] Hid Hpid. pose proof (getMaxJobId_bound l) as [H0 Hb]. split.
  - unfold ids. rewrite fmap_app. fold (ids l). apply StronglySorted_app_2; cbn; [|done|repeat constructor].
    intros x y Hx ->%list_elem_of_singleton. apply list_elem_of_fmap in Hx as (j & -> & Hj).
    rewrite Forall_forall in Hb. specialize (Hb j Hj). cbn in *. lia.
  - apply Forall_app. split; [done|]. apply Forall_singleton. cbn. lia.
Qed.

Lemma getJobById_spec id l j : getJobById id l = Some j -> j ∈ l /\ job_id j = id.
Proof.
  induction l as [|k l IH]; cbn; [done|]. destruct (Z.eqb_spec (job_id k) id); [intros [= ->]; split; [by left|done]|].
  intros [? ?]%IH. split; [by right|done].
Qed.

Lemma getJobById_None id l : getJobById id l = None <-> id ∉ ids l.
Proof.
  induction l as [|k l IH]; cbn; [split; [by intros _ ?%not_elem_of_nil|done]|].
  rewrite not_elem_of_cons. destruct (Z.eqb_spec (job_id k) id); [naive_solver|]. rewrite IH. naive_solver.
Qed.

Lemma last_loop_sorted l k :
  StronglySorted Z.lt (ids (k :: l)) -> last_loop (Some k) l = last (k :: l).
Proof.
  revert k. induction l as [|j l IH]; intros k Hs; [done|]. cbn [last_loop]. unfold ids in Hs. cbn [fmap list_fmap] in Hs.
  apply StronglySorted_inv in Hs as [Hs Hk]. inversion Hk; subst.
  rewrite (proj2 (Z.ltb_lt _ _)) by done. by rewrite IH.
Qed.

(** On a sorted list [getLastJob] is the last entry. *)
Lemma getLastJob_last l : jobs_ok l -> getLastJob l = last l.
Proof. intros [Hs _]. destruct l as [|k l]; [done|]. by apply last_loop_sorted. Qed.

Lemma jobs_ok_distinct l j k : jobs_ok l -> j ∈ l -> k ∈ l -> job_id j = job_id k -> j = k.
Proof.
  intros [Hs _]. unfold ids in Hs. induction l as [|i l IH]; [by intros ?%not_elem_of_nil|]. cbn in Hs.
  apply StronglySorted_inv in Hs as [Hs Hi]. rewrite Forall_forall in Hi.
  assert (Hlt : forall x, x ∈ l -> job_id i < job_id x) by (intros x Hx; by apply Hi, list_elem_of_fmap_2).
  intros [->|Hj]%elem_of_cons [->|Hk]%elem_of_cons He; [done| | |by apply IH];
    [specialize (Hlt k Hk)|specialize (Hlt j Hj)]; lia.
Qed.

(** Sorting a jobs list leaves it as it is. *)
Lemma sorted_jobs_id l : jobs_ok l -> sorted_jobs l = l.
Proof.
  intros Hok. apply (StronglySorted_unique_strong id_le).
  - intros j k. unfold sorted_jobs. rewrite !merge_sort_Permutation. intros Hj Hk H1 H2.
    apply (jobs_ok_distinct l); [done..|]. unfold id_le in *. lia.
  - apply StronglySorted_merge_sort; [intros a b c|intros a b]; unfold id_le; lia.
  - destruct Hok as [Hs _]. unfold ids in Hs. induction l as [|j l IH]; [constructor|]. cbn in Hs.
    apply StronglySorted_inv in Hs as [Hs Hj]. constructor; [auto|]. rewrite Forall_fmap in Hj.
    eapply Forall_impl; [done|]. intros k. unfold id_le. cbn. lia.
  - apply merge_sort_Permutation.
Qed.

(** ** Aliases *)

Lemma aliases_ok_empty : aliases_ok ∅ [].
Proof.
  split_and!; [constructor| |].
  - intros n. rewrite lookup_empty. split; [by intros []|by intros ?%not_elem_of_nil].
  - intros n c. by rewrite lookup_empty.
Qed.

Lemma aliases_ok_add m order n c :
  aliases_ok m order -> m !! n = None -> alias_name_ok n -> forallb not_quote c = true ->
  aliases_ok (<[n := c]> m) (order ++ [n]).
Proof.
  intros (Hnd & Hdom & Hok) Hn Hname Hc. split_and!.
  - apply NoDup_app. split_and!; [done| |apply NoDup_singleton].
    intros x Hx ->%list_elem_of_singleton. apply Hdom in Hx. rewrite Hn in Hx. by destruct Hx.
  - intros x. rewrite elem_of_app, list_elem_of_singleton, <- Hdom, lookup_insert_is_Some'. naive_solver.
  - intros x d. rewrite lookup_insert_Some. intros [[<- <-]|[_ Hx]]; [done|by apply Hok].
Qed.

Lemma aliases_ok_delete m order n :
  aliases_ok m order ->
  aliases_ok (delete n m) (List.filter (fun x => negb (bool_decide (x = n))) order).
Proof.
  intros (Hnd & Hdom & Hok). split_and!.
  - apply NoDup_ListNoDup, List.NoDup_filter. by apply NoDup_ListNoDup.
  - intros x. rewrite list_elem_of_In, List.filter_In, <- list_elem_of_In, <- Hdom, lookup_delete_is_Some.
    rewrite negb_true_iff, bool_decide_eq_false. naive_solver.
  - intros x d. rewrite lookup_delete_Some. intros [_ Hx]. by apply Hok.
Qed.

(** ** The text of an [alias] command *)

Definition alias_text (n c : text) : text := lit "alias " ++ n ++ lit "='" ++ c ++ lit "'".

(** The regular expression accepts exactly these texts. *)
Lemma alias_regex_format s :
  regex_match alias_regex s = true <->
  exists n c, s = alias_text n c /\ n <> [] /\ forallb alnum_ n = true /\ forallb not_quote c = true.
Proof.
  rewrite regex_match_matches. unfold alias_regex.
  rewrite matches_cat. setoid_rewrite matches_lit. setoid_rewrite matches_cat.
  setoid_rewrite matches_plus_class. setoid_rewrite matches_cat. setoid_rewrite matches_lit.
  setoid_rewrite matches_cat. setoid_rewrite matches_star_class. setoid_rewrite matches_lit. split.
  - intros (? & ? & -> & -> & n & ? & -> & [Hn Hn'] & ? & ? & -> & -> & c & ? & -> & Hc & ->). by exists n, c.
  - intros (n & c & -> & Hn & Hn' & Hc). unfold alias_text. repeat (eexists; try done).
Qed.

Lemma find_idx_here p a c b :
  forallb (negb ∘ p) a = true -> p c = true -> find_idx p (a ++ c :: b) = Some (length a).
Proof.
  intros Ha Hc. induction a as [|x a IH]; cbn in *; [by rewrite Hc|]. apply andb_true_iff in Ha as [Hx Ha].
  destruct (p x); [done|]. by rewrite IH.
Qed.

Lemma find_at_app p a b n : find_at p (a ++ b) (length a + n) = Nat.add (length a) <$> find_at p b n.
Proof.
  unfold find_at. rewrite drop_app_add. destruct (find_idx p (drop n b)); [|done].
  cbn. f_equal. lia.
Qed.

Lemma alnum_plain c : alnum_ c = true -> Ascii.eqb "=" c = false /\ Ascii.eqb " " c = false /\ blank c = false.
Proof.
  intros Hc. assert (Hne : forall d, alnum_ d = false -> Ascii.eqb d c = false).
  { intros d Hd. apply Ascii.eqb_neq. intros ->. congruence. }
  split_and!; [by apply Hne..|]. unfold blank, one_of, WHITESPACE. cbn [existsb].
  rewrite !(Ascii.eqb_sym c). by rewrite !Hne.
Qed.

Lemma forallb_impl (p q : ascii -> bool) s : (forall c, p c = true -> q c = true) -> forallb p s = true -> forallb q s = true.
Proof. intros Hpq. rewrite !forallb_forall. eauto. Qed.

(** On such a text every search succeeds and the parts are the name and the
    command. *)
Lemma alias_parts_format n c : forallb alnum_ n = true -> alias_parts (alias_text n c) = Some (n, c).
Proof.
  intros Hn. set (pre := lit "alias " ++ n).
  assert (Htext : alias_text n c = pre ++ "="%char :: "'"%char :: c ++ ["'"%char]) by (unfold alias_text, pre; by rewrite <- app_assoc).
  assert (Heq : find_char "=" (alias_text n c) 0 = Some (length pre)).
  { rewrite Htext. unfold find_char, find_at. rewrite drop_0, find_idx_here; [done| |done].
    unfold pre. rewrite forallb_app. cbn [forallb andb]. eapply forallb_impl; [|done]. intros x Hx. unfold compose.
    by destruct (alnum_plain x Hx) as (-> & _). }
  assert (Hsp : find_char " " (alias_text n c) 0 = Some 5%nat) by done.
  assert (Hfq : find_char "'" (alias_text n c) (length pre) = Some (length pre + 1)%nat).
  { rewrite Htext. unfold find_char. rewrite <- (Nat.add_0_r (length pre)) at 1. by rewrite find_at_app. }
  assert (Hlq : rfind_char "'" (alias_text n c) = Some (length pre + 2 + length c)%nat).
  { assert (Hsnoc : alias_text n c = (pre ++ "="%char :: "'"%char :: c) ++ ["'"%char]).
    { rewrite Htext, <- app_assoc. done. }
    rewrite Hsnoc. unfold rfind_char, find_last. rewrite reverse_snoc. cbn [find_idx].
    rewrite Ascii.eqb_refl. cbn [fmap option_fmap option_map]. f_equal. rewrite !length_app. cbn [length]. lia. }
  unfold alias_parts. rewrite Heq. cbn [mbind option_bind]. rewrite Hsp. cbn [mbind option_bind]. rewrite Hfq.
  cbn [mbind option_bind]. rewrite Hlq. cbn [mbind option_bind]. unfold substr. f_equal. f_equal.
  - change (drop (5 + 1) (alias_text n c)) with (n ++ lit "='" ++ c ++ lit "'").
    replace (length pre - 5 - 1)%nat with (length n) by (unfold pre; rewrite length_app; cbn; lia). apply take_app_length.
  - rewrite Htext. replace (length pre + 1 + 1)%nat with (length pre + 2)%nat by lia. rewrite drop_app_add. cbn [drop].
    replace (length pre + 2 + length c - (length pre + 1) - 1)%nat with (length c) by lia. apply take_app_length.
Qed.

(** ** Every command keeps the invariant *)

Section keeps.
Context {W : Type} `{Kernel W}.

Definition keeps {A} (m : P W A) : Prop := forall p, shell_ok (sh p) -> shell_ok (sh (snd (m p))).

Lemma keeps_bind {A B} (m : P W A) (f : A -> P W B) : keeps m -> (forall a, keeps (f a)) -> keeps (m ≫= f).
Proof.
  intros Hm Hf p Hp. specialize (Hm p Hp). unfold mbind, P_bind. destruct (m p) as [[a| | | |] p']; try done.
  by apply Hf.
Qed.

Lemma keeps_ret {A} (a : A) : keeps (mret a).
Proof. by intros p. Qed.

Lemma keeps_skip : keeps skip.
Proof. by intros p. Qed.

Lemma keeps_stop {A} (o : outcome A) : keeps (stop o).
Proof. by intros p. Qed.

Lemma keeps_print m : keeps (print m).
Proof. by intros p. Qed.

Lemma keeps_cout t : keeps (cout t).
Proof. apply keeps_print. Qed.

Lemma keeps_cerr t : keeps (cerr t).
Proof. apply keeps_print. Qed.

Lemma keeps_perror t : keeps (perror t).
Proof. apply keeps_print. Qed.

Lemma keeps_exit n : keeps (exit n).
Proof. apply keeps_stop. Qed.

Lemma keeps_or_throw {A} (o : option A) : keeps (or_throw o).
Proof. apply keeps_stop. Qed.

Lemma keeps_or_undefined {A} (o : option A) : keeps (or_undefined o).
Proof. apply keeps_stop. Qed.

Lemma keeps_from_shell {A} (f : SmashShell -> A) : keeps (from_shell f).
Proof. by intros p. Qed.

Lemma keeps_query {A} (f : W -> A) : keeps (query f).
Proof. by intros p. Qed.

Lemma keeps_set_environ f : keeps (set_environ f).
Proof. by intros p. Qed.

Lemma keeps_syscall {A} (f : W -> A * W) : keeps (syscall f).
Proof. intros p Hp. unfold syscall. by destruct (f (os p)). Qed.

Lemma keeps_command_call f : keeps (command_call f).
Proof. apply keeps_syscall. Qed.

Lemma keeps_set_shell f : (forall s, shell_ok s -> shell_ok (f s)) -> keeps (set_shell f).
Proof. intros Hf p. apply Hf. Qed.

Lemma keeps_each {A} (f : A -> P W unit) l : (forall x, keeps (f x)) -> keeps (each f l).
Proof. intros Hf. induction l as [|x l IH]; cbn; [apply keeps_skip|]. by apply keeps_bind. Qed.

(** Reading the shell and continuing with what was read. *)
Lemma keeps_with {A B} (f : SmashShell -> A) (k : A -> P W B) :
  (forall p, shell_ok (sh p) -> shell_ok (sh (snd (k (f (sh p)) p)))) -> keeps (x ← from_shell f; k x).
Proof. intros Hk p Hp. by apply Hk. Qed.

Lemma setPrompt_ok x s : shell_ok s -> shell_ok (setPrompt x s).
Proof. done. Qed.

Lemma setLastPwd_ok x s : shell_ok s -> shell_ok (setLastPwd x s).
Proof. done. Qed.

Hint Resolve keeps_ret keeps_skip keeps_stop keeps_print keeps_cout keeps_cerr keeps_perror keeps_exit keeps_or_throw
  keeps_or_undefined keeps_command_call keeps_from_shell keeps_query keeps_set_environ
  keeps_syscall keeps_set_shell keeps_each setPrompt_ok setLastPwd_ok : shell.

(** One [waitpid] without blocking for each job in turn: the jobs that have
    ended, or are no children, are dropped, the others stay in their order. *)
Inductive swept : list JobEntry -> W -> list JobEntry -> W -> Prop :=
| swept_nil w : swept [] w [] w
| swept_ended j l w ret errno w1 l' w2 :
    waitpid (job_pid j) true w = ((ret, errno), w1) -> 0 < ret \/ (ret = -1 /\ errno = ECHILD) ->
    swept l w1 l' w2 -> swept (j :: l) w l' w2
| swept_running j l w ret errno w1 l' w2 :
    waitpid (job_pid j) true w = ((ret, errno), w1) -> ret <= 0 -> ~ (ret = -1 /\ errno = ECHILD) ->
    swept l w1 l' w2 -> swept (j :: l) w (j :: l') w2.

Lemma swept_sublist l w l' w' : swept l w l' w' -> sublist l' l.
Proof. by induction 1; constructor. Qed.

(** The loop over the jobs leaves the shell and drops entries only. *)
Lemma finished_loop_spec l p :
  exists l' w, swept l (os p) l' w /\ finished_loop l p = (Val l', Proc (sh p) (environ p) (out p) w).
Proof.
  revert p. induction l as [|j l IH]; intros p; cbn [finished_loop].
  - exists [], (os p). split; [constructor|]. by destruct p.
  - unfold mbind, P_bind, syscall. destruct (waitpid (job_pid j) true (os p)) as [[ret errno] w] eqn:Hw.
    destruct (IH (Proc (sh p) (environ p) (out p) w)) as (l' & w' & Hs & ->). cbn in Hs |- *.
    eexists _, w'. split; [|done]. destruct ((0 <? ret) || ((ret =? -1) && (errno =? ECHILD))) eqn:He.
    + eapply swept_ended; [done| |done]. unfold ECHILD in *. lia.
    + eapply swept_running; [done| | |done]; unfold ECHILD in *; lia.
Qed.

Lemma removeFinishedJobs_spec p :
  exists l' w, swept (jobs (sh p)) (os p) l' w /\
    removeFinishedJobs p = (Val tt, Proc (setJobs l' (sh p)) (environ p) (out p) w).
Proof.
  unfold removeFinishedJobs, mbind, P_bind, from_shell, set_shell.
  destruct (finished_loop_spec (jobs (sh p)) p) as (l' & w & Hs & ->). by exists l', w.
Qed.

Lemma jobs_ok_swept l w l' w' : swept l w l' w' -> jobs_ok l -> jobs_ok l'.
Proof. intros Hs%swept_sublist. by apply jobs_ok_sublist. Qed.

Lemma setJobs_ok l s : jobs_ok l -> shell_ok s -> shell_ok (setJobs l s).
Proof. by intros Hl (_ & ? & ? & ?). Qed.

Lemma keeps_removeFinishedJobs : keeps removeFinishedJobs.
Proof.
  intros p Hp. destruct (removeFinishedJobs_spec p) as (l' & w & Hs & ->). cbn.
  apply setJobs_ok; [|done]. eapply jobs_ok_swept; [done|apply Hp].
Qed.

Lemma keeps_addJob pid c : 0 < pid -> keeps (addJob pid c).
Proof.
  intros Hpid p Hp. unfold addJob, mbind, P_bind.
  destruct (removeFinishedJobs_spec p) as (l' & w & Hs & ->). cbn.
  assert (Hl : jobs_ok l') by (eapply jobs_ok_swept; [done|apply Hp]).
  destruct (int_ok _) as [id|] eqn:Hid; cbn; [|by apply setJobs_ok].
  apply int_ok_Some in Hid as [-> Hr]. apply setJobs_ok; [|by apply setJobs_ok]. apply jobs_ok_snoc; [done|unfold getMaxJobId; lia|done].
Qed.

(** What the handler does to the processes and prints, [n] times, while [pid]
    is in the foreground; once it has killed the process it only prints. *)
Fixpoint interrupted (n : nat) (pid : Z) (w : W) : list message * W :=
  match n with
  | O => ([], w)
  | S n' =>
      let got := Cout (lit "smash: got ctrl-C") in
      if 0 <? pid then
        let '(ok, w1) := sys_kill pid SIGKILL w in
        if ok then (got :: Cout (lit "smash: process " ++ show pid ++ lit " was killed") :: replicate n' got, w1)
        else let '(ms, w2) := interrupted n' pid w1 in (got :: Perror (lit "smash error: kill failed") :: ms, w2)
      else (replicate n got, w)
  end.

(** The process in the foreground and its line are forgotten, or kept. *)
Definition same_or_reset (s s' : SmashShell) : Prop :=
  s' = s \/ s' = setFgCmd [] (setFgPid (-1) s).

Lemma handle_none n (p : process W) : fg_pid (sh p) <= 0 ->
  handle_signals n p = (Val tt, Proc (sh p) (environ p) (out p ++ replicate n (Cout (lit "smash: got ctrl-C"))) (os p)).
Proof.
  revert p. induction n as [|n IH]; intros p Hp; cbn [handle_signals replicate].
  { rewrite app_nil_r. by destruct p. }
  unfold ctrlCHandler, cout, print, from_shell, skip. unfold mbind, P_bind. cbn [sh environ out os].
  rewrite (proj2 (Z.ltb_ge 0 _) Hp). cbn. rewrite IH by done. cbn [sh environ out os]. by rewrite <- app_assoc.
Qed.

Lemma handle_signals_spec n (p : process W) :
  let '(ms, w') := interrupted n (fg_pid (sh p)) (os p) in
  exists s', same_or_reset (sh p) s' /\ handle_signals n p = (Val tt, Proc s' (environ p) (out p ++ ms) w').
Proof.
  revert p. induction n as [|n IH]; intros p; cbn [interrupted handle_signals].
  { exists (sh p). split; [by left|]. rewrite app_nil_r. by destruct p. }
  destruct (Z.ltb_spec 0 (fg_pid (sh p))) as [Hpos|Hneg].
  - unfold ctrlCHandler, cout, perror, print, from_shell, syscall, set_shell. unfold mbind, P_bind. cbn [sh environ out os].
    rewrite (proj2 (Z.ltb_lt 0 _) Hpos). cbn [sh environ out os].
    destruct (sys_kill (fg_pid (sh p)) SIGKILL (os p)) as [[|] w1]; cbn [negb sh environ out os].
    + exists (setFgCmd [] (setFgPid (-1) (sh p))). split; [by right|].
      rewrite handle_none by done. cbn [sh environ out os]. by rewrite <- !app_assoc.
    + specialize (IH (Proc (sh p) (environ p) ((out p ++ [Cout (lit "smash: got ctrl-C")]) ++ [Perror (lit "smash error: kill failed")]) w1)).
      cbn [sh environ out os] in IH. destruct (interrupted n (fg_pid (sh p)) w1) as [ms w'].
      destruct IH as (s' & Hs & ->). exists s'. split; [done|]. by rewrite <- !app_assoc.
  - exists (sh p). split; [by left|]. by apply (handle_none (S n)).
Qed.

Lemma handle_signals_ok n : keeps (handle_signals n).
Proof.
  intros p Hp. pose proof (handle_signals_spec n p) as Hn. destruct (interrupted _ _ _) as [ms w'].
  destruct Hn as (s' & [->| ->] & ->); [done|]. by destruct Hp as (? & ? & ? & ?).
Qed.

Lemma keeps_interrupts : keeps interrupts.
Proof. apply keeps_bind; [auto with shell|apply handle_signals_ok]. Qed.

(** What the processes become and what is printed while the shell waits for
    [pid] in the foreground. *)
Definition waited (pid : Z) (w : W) : list message * W :=
  let '(n, w1) := sigints w in
  let '(ms, w2) := interrupted n pid w1 in
  let '((ret, errno), w3) := waitpid pid false w2 in
  (ms ++ (if (ret =? -1) && negb (errno =? ECHILD) then [Perror (lit "smash error: waitpid failed")] else []), w3).

(** Waiting with [fg_pid] set. *)
Lemma wait_for_spec pid (p : process W) :
  let '(n, w1) := sigints (os p) in
  let '(ms, w2) := interrupted n (fg_pid (sh p)) w1 in
  let '(r, w3) := waitpid pid false w2 in
  exists s', same_or_reset (sh p) s' /\ wait_for pid p = (Val r, Proc s' (environ p) (out p ++ ms) w3).
Proof.
  unfold wait_for, interrupts, mbind, P_bind. unfold syscall at 1 2. destruct (sigints (os p)) as [n w1].
  pose proof (handle_signals_spec n (Proc (sh p) (environ p) (out p) w1)) as Hn. cbn [sh environ out os] in Hn.
  destruct (interrupted n (fg_pid (sh p)) w1) as [ms w2]. destruct Hn as (s' & Hs & Heq).
  destruct (waitpid pid false w2) as [r w3] eqn:Hw. exists s'. split; [done|]. rewrite Heq. unfold syscall. cbn [os]. by rewrite Hw.
Qed.

(** Between the two pairs of assignments the shell only waits. *)
Lemma wait_foreground_spec pid c p :
  wait_foreground pid c p =
    (Val tt, Proc (setFgCmd [] (setFgPid (-1) (sh p))) (environ p) (out p ++ fst (waited pid (os p))) (snd (waited pid (os p)))).
Proof.
  unfold wait_foreground, waited. unfold mbind, P_bind. unfold set_shell at 1 2. cbn [sh environ out os].
  pose proof (wait_for_spec pid (Proc (setFgCmd c (setFgPid pid (sh p))) (environ p) (out p) (os p))) as Hw.
  cbn [sh environ out os] in Hw. change (fg_pid (setFgCmd c (setFgPid pid (sh p)))) with pid in Hw.
  destruct (sigints (os p)) as [n w1]. destruct (interrupted n pid w1) as [ms w2].
  destruct (waitpid pid false w2) as [[ret errno] w3]. destruct Hw as (s' & Hs & ->).
  assert (Hr : setFgCmd [] (setFgPid (-1) s') = setFgCmd [] (setFgPid (-1) (sh p))) by by destruct Hs as [->| ->].
  destruct (_ && _); unfold perror, print, skip, set_shell; cbn; rewrite Hr; [by rewrite app_assoc|by rewrite app_nil_r].
Qed.

Lemma keeps_wait_foreground pid c : keeps (wait_foreground pid c).
Proof. intros p Hp. rewrite wait_foreground_spec. by destruct Hp as (? & ? & ? & ?). Qed.

Lemma keeps_bring j : keeps (bring_to_foreground j).
Proof.
  apply keeps_bind; [auto with shell|intros _]. apply keeps_with. intros p Hp. cbn.
  apply keeps_wait_foreground. cbn. apply setJobs_ok; [|done]. eapply jobs_ok_sublist, Hp.
  apply removeJobById_sublist.
Qed.

Hint Resolve keeps_removeFinishedJobs keeps_addJob keeps_interrupts keeps_wait_foreground keeps_bring : shell.

End keeps.

#[export] Hint Resolve keeps_ret keeps_skip keeps_stop keeps_print keeps_cout keeps_cerr keeps_perror keeps_exit keeps_or_throw
  keeps_or_undefined keeps_command_call keeps_from_shell keeps_query keeps_set_environ
  keeps_syscall keeps_set_shell keeps_each setPrompt_ok setLastPwd_ok
  keeps_removeFinishedJobs keeps_addJob keeps_interrupts keeps_wait_foreground keeps_bring : shell.

Ltac keeps_step :=
  lazymatch goal with
  | |- keeps (_ ≫= _) => apply keeps_bind; [|intros ?]
  | |- keeps (if ?b then _ else _) => destruct b
  | |- keeps (match ?x with _ => _ end) => destruct x
  | |- keeps _ => solve [auto with shell]
  end.

Ltac keeps_all := repeat keeps_step.

Section commands_keep.
Context {W : Type} `{KernelModel W}.

Lemma keeps_printJobsList : keeps (W := W) printJobsList.
Proof. unfold printJobsList. keeps_all. Qed.

Lemma keeps_killAllJobs : keeps (W := W) killAllJobs.
Proof. unfold killAllJobs. keeps_all. apply keeps_each. intros j. keeps_all. Qed.

Lemma keeps_cd l : keeps (W := W) (cd_execute l).
Proof. unfold cd_execute. keeps_all. Qed.

Lemma keeps_fg l : keeps (W := W) (fg_execute l).
Proof. unfold fg_execute. keeps_all. Qed.

Lemma keeps_kill l : keeps (W := W) (kill_execute l).
Proof. unfold kill_execute. keeps_all. Qed.

(** A new alias is accepted by the regular expression, is no reserved word
    and was not there. *)
Lemma keeps_alias l : keeps (W := W) (alias_execute l).
Proof.
  unfold alias_execute. destruct (length _ =? 1)%nat.
  { keeps_all. apply keeps_each. intros n. keeps_all. }
  destruct (regex_match alias_regex _) eqn:Hre; cbn [negb]; [|auto with shell].
  apply alias_regex_format in Hre as (n & c & -> & Hn & Hn' & Hc). rewrite alias_parts_format by done.
  intros p Hp. unfold or_undefined, stop, mbind, P_bind, from_shell. cbn.
  destruct (isReservedKeyword n) eqn:Hr; cbn; [done|]. destruct (aliasExists n (sh p)) eqn:He; cbn; [done|].
  destruct Hp as (Hj & Ha & Hf). split_and!; [done| |apply Hf..]. apply aliases_ok_add; [done| |done..].
  unfold aliasExists in He. apply bool_decide_eq_false, eq_None_not_Some in He. done.
Qed.

Lemma keeps_unalias l : keeps (W := W) (unalias_execute l).
Proof.
  unfold unalias_execute. destruct (_ =? 1)%nat; [auto with shell|]. induction (drop 1 _) as [|n l' IH]; cbn [unalias_loop]; keeps_all.
  apply keeps_set_shell. intros s (Hj & Ha & Hf). split_and!; [done|by apply aliases_ok_delete|apply Hf..].
Qed.

Lemma keeps_unsetenv l : keeps (W := W) (unsetenv_execute l).
Proof. unfold unsetenv_execute. destruct (_ =? 1)%nat; [auto with shell|]. induction (drop 1 _) as [|n l' IH]; cbn [unsetenv_loop]; keeps_all. Qed.

Lemma keeps_sysinfo : keeps (W := W) sysinfo_execute.
Proof. unfold sysinfo_execute. keeps_all. Qed.

Lemma keeps_du l : keeps (W := W) (du_execute l).
Proof. unfold du_execute. keeps_all. Qed.

Lemma keeps_whoami : keeps (W := W) whoami_execute.
Proof. unfold whoami_execute. keeps_all. Qed.

Lemma keeps_usbinfo : keeps (W := W) usbinfo_execute.
Proof. unfold usbinfo_execute. keeps_all. Qed.

(** The parent goes on with a positive pid. *)
Lemma keeps_fork {B} c (k : Z -> P W B) :
  keeps (k (-1)) -> (forall pid, 0 < pid -> keeps (k pid)) -> keeps (pid ← syscall (fork c); k pid).
Proof.
  intros Hf Hk p Hp. unfold mbind, P_bind, syscall. pose proof (fork_pid c (os p)) as Hpid.
  destruct (fork c (os p)) as [pid w]. cbn in Hpid. destruct Hpid as [->|Hpid]; [by apply Hf|by apply Hk].
Qed.

Lemma keeps_external l bg : keeps (W := W) (external_execute l bg).
Proof. unfold external_execute. apply keeps_fork; [apply keeps_perror|intros pid Hpid; keeps_all]. Qed.

Lemma keeps_redirection l a : keeps (W := W) (redirection_execute l a).
Proof. unfold redirection_execute. keeps_all. Qed.

Lemma pipe_wait_spec pid1 pid2 (p : process W) :
  exists w o, (set_shell (setFgPid pid1) ;; wait_for pid1 ;; wait_for pid2 ;;
             set_shell (setFgPid (-1)) ;; set_shell (setFgCmd [])) p =
            (Val tt, Proc (setFgCmd [] (setFgPid (-1) (sh p))) (environ p) (out p ++ o) w).
Proof.
  unfold mbind, P_bind. unfold set_shell at 1.
  pose proof (wait_for_spec pid1 (Proc (setFgPid pid1 (sh p)) (environ p) (out p) (os p))) as H1.
  cbn [sh environ out os] in H1. destruct (sigints (os p)) as [n1 w1]. destruct (interrupted n1 _ w1) as [ms1 w2].
  destruct (waitpid pid1 false w2) as [r1 w3]. destruct H1 as (s1 & Hs1 & ->).
  pose proof (wait_for_spec pid2 (Proc s1 (environ p) (out p ++ ms1) w3)) as H2.
  cbn [sh environ out os] in H2. destruct (sigints w3) as [n2 w4]. destruct (interrupted n2 _ w4) as [ms2 w5].
  destruct (waitpid pid2 false w5) as [r2 w6]. destruct H2 as (s2 & Hs2 & ->).
  exists w6, (ms1 ++ ms2). unfold set_shell. cbn. rewrite app_assoc.
  by destruct Hs1 as [->| ->], Hs2 as [->| ->].
Qed.

Lemma keeps_pipe l e : keeps (W := W) (pipe_execute l e).
Proof.
  unfold pipe_execute. destruct (pipe_sides e l) as [[c1 c2]|]; [|auto with shell].
  do 3 (apply keeps_bind; [auto with shell|intros ?]). destruct a1 as [fds|]; [|auto with shell].
  apply keeps_bind; [auto with shell|intros pid1]. destruct (pid1 =? -1); [keeps_all|].
  apply keeps_bind; [auto with shell|intros pid2]. destruct (pid2 =? -1); [keeps_all|].
  do 2 (apply keeps_bind; [auto with shell|intros ?]). intros p Hp.
  destruct (pipe_wait_spec pid1 pid2 p) as (w & o & ->). by destruct Hp as (? & ? & ? & ?).
Qed.

Lemma keeps_execute c : keeps (W := W) (execute c).
Proof.
  destruct c; cbn [execute]; auto using keeps_printJobsList, keeps_killAllJobs, keeps_cd, keeps_fg, keeps_kill,
    keeps_alias, keeps_unalias, keeps_unsetenv, keeps_sysinfo, keeps_du, keeps_whoami, keeps_usbinfo,
    keeps_external, keeps_redirection, keeps_pipe.
  - unfold chprompt_execute. keeps_all.
  - unfold showpid_execute. keeps_all.
  - unfold pwd_execute. keeps_all.
  - unfold quit_execute. keeps_all. apply keeps_killAllJobs.
Qed.

Lemma keeps_line l : keeps (W := W) (executeCommand l).
Proof.
  unfold executeCommand. destruct (_trim l); [auto with shell|]. keeps_all. apply keeps_execute.
Qed.

(** The invariant holds after every line, however the line ended. *)
Theorem executeCommand_invariant (l : text) (p : process W) :
  shell_ok (sh p) -> shell_ok (sh (snd (executeCommand l p))).
Proof. apply keeps_line. Qed.

(** C6: The invariant of the shell holds at every prompt of a session that starts
    with a new shell, after any lines, and in the state in which the session
    ends, however it ends, with Ctrl-C pressed any number of times at the
    prompts and while commands wait: the ids of the jobs are positive and
    increasing and their pids positive; the alias map and the list of names in
    order of definition agree, without a repetition, and every name and
    command has the form the [alias] command accepts, no name being reserved;
    and no process is in the foreground. *)
Theorem session_invariant (lines : list text) (env : list text) (w : W) :
  shell_ok (sh (snd (main_loop lines (Proc new_shell env [] w)))).
Proof.
  assert (Hk : keeps (W := W) (main_loop lines)).
  { induction lines as [|l ls IH]; cbn [main_loop]; keeps_all; apply keeps_line. }
  apply Hk. split_and!; [apply jobs_ok_nil|apply aliases_ok_empty|done|done].
Qed.

End commands_keep.
