(* ===== verification/ShellProps.v ===== *)
(** * What the shell's commands do

    The lines a user types, carried through parsing to their effect: aliases
    are defined, used and removed; [fg] takes the job it names; [cd -] goes
    back; [du] reports the tree; a forked child never comes back.  [toy_kernel]
    is a concrete kernel for the witnesses. *)

From stdpp Require Import gmap sorting.
From S2P Require Import Prelude ShellText Regex ShellState ShellParse ShellFiles Shell ShellInv.

(** ** A concrete kernel *)

Record toy_kernel := ToyKernel {
  next_pid : Z;
  forked : list child;
  finished : list Z;
  cwd : text;
  dirs : list (text * list text);
  stats : list (text * stat);
  contents : list (text * text);
}.

(** Ctrl-C is never pressed. *)

Fixpoint assoc {A} (key : text) (l : list (text * A)) : option A :=
  match l with [] => None | (k, a) :: l' => if bool_decide (k = key) then Some a else assoc key l' end.

Definition toy_lstat (path : text) (w : toy_kernel) : option stat :=
  if (PATH_MAX <=? length path)%nat then None else assoc path (stats w).

Definition toy_chdir (path : text) (w : toy_kernel) : bool * toy_kernel :=
  match assoc path (dirs w) with
  | None => (false, w)
  | Some _ => (true, ToyKernel (next_pid w) (forked w) (finished w) path (dirs w) (stats w) (contents w))
  end.

Definition toy_fork (c : child) (w : toy_kernel) : Z * toy_kernel :=
  if next_pid w <=? 0 then (-1, w)
  else (next_pid w,
        ToyKernel (next_pid w + 1) (forked w ++ [c]) (finished w) (cwd w) (dirs w) (stats w) (contents w)).

#[export] Instance toy_kernel_ops : Kernel toy_kernel := {
  sigints := fun w => (0%nat, w);
  waitpid := fun pid nohang w =>
    (if nohang then if bool_decide (pid ∈ finished w) then (pid, 0) else (0, 0) else (pid, 0), w);
  sys_kill := fun pid signum w => (true, w);
  fork := toy_fork;
  pipe := fun w => (Some (3, 4), w);
  open_write := fun path append w => (3, w);
  dup2 := fun fd target w => (true, w);
  close := fun fd w => w;
  getpid := fun w => 1;
  getuid := fun w => 0;
  getgid := fun w => 0;
  getcwd := fun w => Some (cwd w);
  chdir := toy_chdir;
  uname := fun w => None;
  localtime := fun t w => [];
  read_file := fun path n w => assoc path (contents w);
  lstat := toy_lstat;
  read_dir := fun path w => assoc path (dirs w);
  exec := fun path argv w => true;
}.

#[export] Instance toy_kernel_model : KernelModel toy_kernel.
Proof.
  constructor. intros c w. cbn. unfold toy_fork. destruct (Z.leb_spec (next_pid w) 0); cbn; [by left|by right].
Qed.

Lemma toy_long_path path (w : toy_kernel) : (PATH_MAX <= length path)%nat -> lstat path w = None.
Proof. intros Hl. cbn. unfold toy_lstat. by rewrite (proj2 (Nat.leb_le _ _)). Qed.

Definition toy_start : toy_kernel := ToyKernel 100 [] [] (lit "/") [] [] [].

(** ** Lines made of words *)

Definition word_ok (w : text) : Prop := w <> [] /\ forallb (fun c => negb (blank c)) w = true.

(** Words joined by blanks, the last of them not ending in [&]. *)
Definition line_ok (ws : list text) : Prop :=
  Forall word_ok ws /\ ws <> [] /\ last (join " " ws) <> Some "&"%char.

Lemma last_snoc_view {A} (l : list A) : l <> [] -> exists l' x, l = l' ++ [x] /\ last l = Some x.
Proof.
  intros Hl. destruct (last l) as [x|] eqn:Hx; [|by apply last_None in Hx].
  apply last_Some in Hx as [l' ->]. by exists l', x.
Qed.

Lemma join_head w ws : w <> [] -> exists s, join " " (w :: ws) = w ++ s.
Proof. intros Hw. destruct ws as [|w' ws]; [exists []; cbn; by rewrite app_nil_r|by eexists]. Qed.

Lemma join_last ws : ws <> [] -> Forall word_ok ws -> exists c, last (join " " ws) = Some c /\ blank c = false.
Proof.
  intros Hne Hws. induction Hws as [|w ws [Hw Hb] Hws IH]; [done|]. destruct ws as [|w' ws].
  - cbn. destruct (last_snoc_view w Hw) as (l & x & -> & Hx). exists x. split; [done|].
    rewrite forallb_app in Hb. apply andb_true_iff in Hb as [_ Hb]. cbn in Hb. by destruct (blank x).
  - destruct IH as (c & Hc & Hbc); [done|]. exists c. split; [|done].
    change (join " " (w :: w' :: ws)) with (w ++ (" "%char :: join " " (w' :: ws))).
    by rewrite last_app_cons, last_cons, Hc.
Qed.

Lemma join_trimmed ws : Forall word_ok ws -> trimmed (join " " ws).
Proof.
  intros Hws. destruct ws as [|w ws]; [done|]. split.
  - inversion Hws as [|? ? [Hw Hb]]; subst. destruct (join_head w ws Hw) as [s ->].
    destruct w as [|c w]; [done|]. cbn in *. by destruct (blank c).
  - destruct (join_last (w :: ws)) as (c & Hc & Hb); [done..|]. apply last_Some in Hc as [l ->].
    rewrite reverse_snoc. cbn. by rewrite Hb.
Qed.

(** Such a line is parsed into its words. *)
Lemma clean_args_join ws : line_ok ws -> clean_args (join " " ws) = ws.
Proof.
  intros (Hws & Hne & Hl). unfold clean_args, _removeBackground.
  rewrite trim_strip, strip_id by by apply join_trimmed.
  destruct (join_last ws) as (c & Hc & _); [done..|]. unfold back. rewrite Hc in *.
  rewrite (proj2 (Ascii.eqb_neq c "&")) by congruence. unfold _split. rewrite split_words.
  apply words_join; [done|]. eapply Forall_impl; [done|]. by intros w [? ?].
Qed.

Lemma digits_word s : _isNumber s = true -> word_ok s /\ last s <> Some "&"%char.
Proof.
  assert (Hd : forall c, isdigit c = true -> blank c = false /\ c <> "&"%char).
  { intros c Hc. destruct (isdigit_plain c Hc) as (_ & _ & Hw). split.
    - unfold blank, one_of in *. rewrite existsb_app in Hw. by apply orb_false_iff in Hw as [Hw _].
    - intros ->. done. }
  assert (Hall : forall t, t <> [] -> forallb isdigit t = true ->
            forallb (fun c => negb (blank c)) t = true /\ last t <> Some "&"%char).
  { intros t Hne Ht. split.
    - eapply forallb_impl; [|done]. intros c Hc. by rewrite (proj1 (Hd c Hc)).
    - destruct (last_snoc_view t Hne) as (t' & x & -> & ->). rewrite forallb_app in Ht.
      apply andb_true_iff in Ht as [_ Hx]. cbn in Hx. rewrite andb_true_r in Hx. intros [= ->]. by apply (Hd "&"%char Hx). }
  destruct s as [|c s]; [done|]. unfold _isNumber. destruct (Ascii.eqb_spec c "-") as [->|Hc].
  - destruct s as [|d s]; [done|]. intros Hs. destruct (Hall (d :: s)) as [H1 H2]; [done..|]. split; [|exact H2].
    split; [done|]. cbn in *. done.
  - intros Hs. destruct (Hall (c :: s)) as [H1 H2]; done.
Qed.

(** ** From a line to its command *)

Definition starts_arg (rest : text) : Prop := rest = [] \/ exists r, rest = " "%char :: r.

Definition special : ascii -> bool := one_of [" "; "009"; "|"; ">"; "&"]%char.

Lemma alnum_special c : alnum_ c = true -> special c = false.
Proof.
  intros Hc. assert (Hne : forall d, alnum_ d = false -> Ascii.eqb c d = false).
  { intros d Hd. apply Ascii.eqb_neq. intros ->. congruence. }
  unfold special, one_of. cbn [existsb]. by rewrite !Hne.
Qed.

Lemma first_word n rest :
  forallb alnum_ n = true -> starts_arg rest ->
  let end_ := find_first_of [" "; "009"; "|"; ">"; "&"]%char (n ++ rest) 0 in
  (match end_ with None => n ++ rest | Some e => substr (n ++ rest) 0 (Some e) end) = n /\
  (match end_ with None => [] | Some e => substr (n ++ rest) e None end) = rest.
Proof.
  intros Hn Hr. cbn zeta. unfold find_first_of, find_at. rewrite drop_0. fold special.
  assert (Hns : forallb (negb ∘ special) n = true).
  { eapply forallb_impl; [|done]. intros c Hc. unfold compose. by rewrite alnum_special. }
  destruct Hr as [->|[r ->]].
  - rewrite app_nil_r, (proj2 (find_idx_none special n)) by done. done.
  - rewrite (find_idx_here special n) by done. cbn [fmap option_fmap option_map Nat.add]. unfold substr.
    by rewrite drop_0, take_app_length, drop_app_length.
Qed.

(** Only the word of an alias is replaced. *)
Lemma resolveAlias_spec n rest s :
  n <> [] -> forallb alnum_ n = true -> starts_arg rest -> trimmed (n ++ rest) ->
  resolveAlias (n ++ rest) s = match aliases s !! n with Some c => c ++ rest | None => n ++ rest end.
Proof.
  intros Hne Hn Hr Ht. unfold resolveAlias. rewrite trim_strip, strip_id by done.
  destruct (first_word n rest Hn Hr) as [H1 H2].
  destruct (n ++ rest) as [|x r] eqn:Hx; [by destruct n|]. by rewrite H1, H2.
Qed.

Lemma reserved_alnum w : isReservedKeyword w = true -> w <> [] /\ forallb alnum_ w = true.
Proof.
  unfold isReservedKeyword. rewrite existsb_exists. intros (kw & Hin & <-%bool_decide_eq_true).
  assert (Hall : forallb (fun w => negb (bool_decide (w = [])) && forallb alnum_ w) reserved = true) by (by vm_compute).
  rewrite forallb_forall in Hall. specialize (Hall kw Hin). apply andb_true_iff in Hall as [H1 H2].
  split; [|done]. apply negb_true_iff, bool_decide_eq_false in H1. done.
Qed.

Lemma alnum_word n : n <> [] -> forallb alnum_ n = true -> word_ok n.
Proof.
  intros Hne Hn. split; [done|]. eapply forallb_impl; [|done]. intros c Hc. by rewrite (proj2 (proj2 (alnum_plain c Hc))).
Qed.

Lemma notBackground t : trimmed t -> last t <> Some "&"%char -> _removeBackground t = t.
Proof.
  intros Ht Hl. unfold _removeBackground. rewrite trim_strip, strip_id by done. unfold back.
  destruct (last t) as [c|]; [|done]. by rewrite (proj2 (Ascii.eqb_neq c "&")) by congruence.
Qed.

Section lines.
Context {W : Type} `{Kernel W}.

(** A line that starts with a reserved word runs that built-in command, after
    the finished jobs were dropped; no alias can hide it. *)
Lemma run_builtin w rest c (p : process W) :
  shell_ok (sh p) -> builtin_command w (w ++ rest) = Some c -> starts_arg rest ->
  trimmed (w ++ rest) -> plain (w ++ rest) -> last (w ++ rest) <> Some "&"%char ->
  exists l' w', swept (jobs (sh p)) (os p) l' w' /\
    executeCommand (w ++ rest) p = execute c (Proc (setJobs l' (sh p)) (environ p) (out p) w').
Proof.
  intros Hok Hb Hr Ht Hp Hl.
  assert (Hw : isReservedKeyword w = true) by (apply (builtin_reserved w (w ++ rest)); by rewrite Hb).
  destruct (reserved_alnum w Hw) as [Hne Hal]. destruct (removeFinishedJobs_spec p) as (l' & w' & Hs & Hrun).
  exists l', w'. split; [done|]. unfold executeCommand. rewrite trim_strip, strip_id by done.
  destruct (w ++ rest) as [|x r] eqn:Hx; [by destruct w|]. rewrite <- Hx in *. clear x r Hx.
  unfold mbind, P_bind. rewrite Hrun. cbn [from_shell]. unfold from_shell. cbn [sh].
  rewrite resolveAlias_spec by done. cbn [aliases setJobs].
  destruct (aliases (sh p) !! w) as [d|] eqn:Ha.
  { destruct Hok as (_ & (_ & _ & Hal') & _). destruct (Hal' w d Ha) as ((_ & _ & Hres) & _). congruence. }
  rewrite createCommand_plain; [| |by destruct w|done].
  - unfold command_words. rewrite notBackground by done.
    assert (Hwords : exists ws, words blank (w ++ rest) = w :: ws).
    { destruct (alnum_word w Hne Hal) as [_ Hwb]. destruct Hr as [->|[r ->]].
      - exists []. rewrite app_nil_r. change w with (join " " [w]) at 1. by apply words_join; [|apply Forall_singleton].
      - eexists. by apply words_app_sep. }
    destruct Hwords as [ws ->]. by rewrite Hb.
  - rewrite trim_strip, strip_id by done. done.
Qed.

End lines.

(** ** Aliases *)

Section alias_properties.
Context {W : Type} `{Kernel W}.

Lemma alias_text_parts n c : alias_text n c = lit "alias" ++ " "%char :: n ++ lit "='" ++ c ++ lit "'".
Proof. done. Qed.

Lemma alias_text_snoc n c : alias_text n c = (lit "alias " ++ n ++ lit "='" ++ c) ++ ["'"%char].
Proof. unfold alias_text. rewrite <- !app_assoc. done. Qed.

Lemma alias_text_trimmed n c : trimmed (alias_text n c) /\ last (alias_text n c) = Some "'"%char.
Proof.
  rewrite alias_text_snoc. split; [by apply (trimmed_ends "a" (lit "lias " ++ _))|by rewrite last_snoc].
Qed.

Lemma alias_text_plain n c : forallb alnum_ n = true -> plain c -> plain (alias_text n c).
Proof.
  intros Hn [Hc Hc']. assert (Hd : forall d, alnum_ d = false -> d ∉ n).
  { intros d Hd Hin. rewrite forallb_forall in Hn. rewrite (Hn d) in Hd by by apply list_elem_of_In. done. }
  split; unfold alias_text; rewrite !elem_of_app; intros [Hi|[Hi|[Hi|[Hi|Hi]]]]; try done;
    try (by eapply Hd; [|exact Hi]); cbn in Hi; set_solver.
Qed.

(** The effect of a well-formed [alias] command. *)
Lemma alias_execute_adds n c (p : process W) :
  alias_name_ok n -> forallb not_quote c = true -> aliases (sh p) !! n = None ->
  alias_execute (alias_text n c) p = (Val tt, Proc (addAlias n c (sh p)) (environ p) (out p) (os p)).
Proof.
  intros (Hne & Hn & Hr) Hc Ha. destruct (alias_text_trimmed n c) as [Ht Hl]. unfold alias_execute.
  rewrite notBackground by (done || by rewrite Hl).
  assert (Hlen : (length (_split (alias_text n c)) =? 1)%nat = false).
  { unfold _split. rewrite split_words. change (one_of WHITESPACE) with blank. rewrite alias_text_parts.
    rewrite words_app_sep by done. apply Nat.eqb_neq. cbn [length].
    destruct (words blank (n ++ _)) as [|w ws] eqn:Hw; [|done]. apply words_nil in Hw.
    destruct n as [|x n]; [done|]. cbn in Hw, Hn. apply andb_true_iff in Hw as [Hx _]. apply andb_true_iff in Hn as [Hx' _].
    destruct (alnum_plain x Hx') as (_ & _ & Hb). congruence. }
  assert (Hre : regex_match alias_regex (alias_text n c) = true).
  { apply alias_regex_format. by exists n, c. }
  assert (He : aliasExists n (sh p) = false) by (unfold aliasExists; rewrite Ha; apply bool_decide_eq_false_2; by intros []).
  rewrite Hlen, Hre, alias_parts_format by done. unfold mbind, P_bind, or_undefined, stop, from_shell. cbn [negb].
  by rewrite He, Hr.
Qed.

Lemma filter_remove (n : text) (order : list text) :
  n ∉ order -> List.filter (fun x => negb (bool_decide (x = n))) (order ++ [n]) = order.
Proof.
  intros Hn. rewrite List.filter_app. cbn. rewrite bool_decide_eq_true_2 by done. cbn. rewrite app_nil_r.
  induction order as [|x order IH]; [done|]. apply not_elem_of_cons in Hn as [Hx Hn]. cbn.
  rewrite bool_decide_eq_false_2 by done. cbn. by rewrite IH.
Qed.

Lemma alnum_absent n d : forallb alnum_ n = true -> alnum_ d = false -> d ∉ n.
Proof. intros Hn Hd Hin. rewrite forallb_forall in Hn. rewrite (Hn d) in Hd by by apply list_elem_of_In. done. Qed.

(** The line [alias n='c']. *)
Lemma alias_line n c (p : process W) :
  shell_ok (sh p) -> alias_name_ok n -> forallb not_quote c = true -> plain c -> aliases (sh p) !! n = None ->
  exists l w, swept (jobs (sh p)) (os p) l w /\
    executeCommand (alias_text n c) p = (Val tt, Proc (addAlias n c (setJobs l (sh p))) (environ p) (out p) w).
Proof.
  intros Hok Hname Hc Hplain Ha. pose proof Hname as (Hne & Hn & Hres). destruct (alias_text_trimmed n c) as [Ht Hl].
  destruct (run_builtin (lit "alias") (" "%char :: n ++ lit "='" ++ c ++ lit "'") (Alias (alias_text n c)) p)
    as (l & w & Hs & Hrun); [done|done|right; by eexists|exact Ht|by apply alias_text_plain| |].
  { rewrite <- alias_text_parts, Hl. done. }
  exists l, w. split; [done|]. rewrite <- alias_text_parts in Hrun. rewrite Hrun. cbn [execute].
  by rewrite alias_execute_adds.
Qed.

(** The line [unalias n]. *)
Lemma unalias_line n (p : process W) :
  shell_ok (sh p) -> n <> [] -> forallb alnum_ n = true -> is_Some (aliases (sh p) !! n) ->
  exists l w, swept (jobs (sh p)) (os p) l w /\
    executeCommand (lit "unalias " ++ n) p = (Val tt, Proc (removeAlias n (setJobs l (sh p))) (environ p) (out p) w).
Proof.
  intros Hok Hne Hn Ha. change (lit "unalias " ++ n) with (lit "unalias" ++ " "%char :: n).
  assert (Hline : line_ok [lit "unalias"; n]).
  { split_and!; [|done|].
    - constructor; [by split|]. apply Forall_singleton. by apply alnum_word.
    - change (join " " [lit "unalias"; n]) with (lit "unalias" ++ " "%char :: n). rewrite last_app_cons, last_cons.
      destruct (last_snoc_view n Hne) as (n' & x & -> & ->). intros [= ->]. rewrite forallb_app in Hn.
      apply andb_true_iff in Hn as [_ Hn]. done. }
  pose proof (clean_args_join _ Hline) as Hargs. destruct Hline as (Hws & _ & Hlast).
  change (join " " [lit "unalias"; n]) with (lit "unalias" ++ " "%char :: n) in Hargs, Hlast.
  destruct (run_builtin (lit "unalias") (" "%char :: n) (Unalias (lit "unalias" ++ " "%char :: n)) p)
    as (l & w & Hs & Hrun); [done|done|right; by eexists|by apply (join_trimmed [lit "unalias"; n])| |done|].
  { split; rewrite elem_of_app, elem_of_cons; intros [Hi|[Hi|Hi]]; try done;
      try (by eapply alnum_absent; [|exact (eq_refl false)|exact Hi]); try (cbn in Hi; set_solver).
    - by apply (alnum_absent n "|" Hn).
    - by apply (alnum_absent n ">" Hn). }
  exists l, w. split; [done|]. rewrite Hrun. cbn [execute]. unfold unalias_execute. rewrite Hargs.
  cbn [length Nat.eqb drop unalias_loop]. unfold mbind, P_bind, from_shell, aliasExists, set_shell, skip.
  cbn [sh aliases setJobs]. by rewrite bool_decide_eq_true_2 by done.
Qed.

(** C14: A defined alias is used for its word only, whatever the arguments: a
    line that starts with it runs the command the alias stands for, followed
    by the rest of the line; and [unalias] takes it back: apart from the jobs
    that ended, the shell is as it was. *)
Theorem alias_roundtrip (n c : text) (p : process W) :
  shell_ok (sh p) -> alias_name_ok n -> forallb not_quote c = true -> plain c -> aliases (sh p) !! n = None ->
  exists l1 w1, let p1 := Proc (addAlias n c (setJobs l1 (sh p))) (environ p) (out p) w1 in
    swept (jobs (sh p)) (os p) l1 w1 /\
    executeCommand (alias_text n c) p = (Val tt, p1) /\
    (forall rest, starts_arg rest -> trimmed (n ++ rest) -> resolveAlias (n ++ rest) (sh p1) = c ++ rest /\
       exists l w, swept l1 w1 l w /\
         executeCommand (n ++ rest) p1 =
         match createCommand (c ++ rest) with
         | Some cmd => execute cmd (Proc (setJobs l (sh p1)) (environ p) (out p) w)
         | None => (Val tt, Proc (setJobs l (sh p1)) (environ p) (out p) w)
         end) /\
    exists l2 w2, swept l1 w1 l2 w2 /\
      executeCommand (lit "unalias " ++ n) p1 = (Val tt, Proc (setJobs l2 (sh p)) (environ p) (out p) w2).
Proof.
  intros Hok Hname Hc Hplain Ha. pose proof Hname as (Hne & Hn & _).
  destruct (alias_line n c p) as (l1 & w1 & Hs1 & Hrun1); [done..|].
  exists l1, w1. cbn zeta. split_and!; [done..| |].
  { intros rest Hr Htr. set (p1 := Proc _ _ _ w1).
    assert (Hres : forall s, aliases s = aliases (sh p1) -> resolveAlias (n ++ rest) s = c ++ rest).
    { intros s Hs. rewrite resolveAlias_spec by done. rewrite Hs. cbn [p1 sh aliases addAlias setAliases setJobs].
      by rewrite lookup_insert_eq. }
    split; [by apply Hres|]. destruct (removeFinishedJobs_spec p1) as (l & w & Hs & Hrun). exists l, w. split; [exact Hs|].
    unfold executeCommand. rewrite trim_strip, strip_id by done.
    destruct (n ++ rest) as [|x r] eqn:Hx; [by destruct n|]. rewrite <- Hx in *.
    unfold mbind, P_bind. rewrite Hrun. unfold from_shell. cbn [sh]. rewrite Hres by done. by destruct (createCommand _). }
  set (p1 := Proc _ _ _ w1).
  destruct (unalias_line n p1) as (l2 & w2 & Hs2 & ->); [|done|done| |].
  { destruct Hok as (Hj & Hal & Hf). split_and!; [by eapply jobs_ok_swept|by apply aliases_ok_add|apply Hf..]. }
  { cbn. rewrite lookup_insert_eq. by eexists. }
  exists l2, w2. split; [exact Hs2|]. f_equal. f_equal. unfold removeAlias, addAlias, setAliases, setJobs. cbn. f_equal.
  - by rewrite delete_insert_id.
  - apply filter_remove. destruct Hok as (_ & (_ & Hdom & _) & _). rewrite <- Hdom, Ha. by intros [].
Qed.

End alias_properties.

Definition toy_process : process toy_kernel := Proc new_shell [] [] toy_start.

Lemma new_shell_ok : shell_ok new_shell.
Proof. split_and!; [apply jobs_ok_nil|apply aliases_ok_empty|done|done]. Qed.

Lemma plain_dec t : forallb (fun c => negb (Ascii.eqb c "|" || Ascii.eqb c ">")) t = true -> plain t.
Proof.
  rewrite forallb_forall. intros Ht. split; intros Hin%list_elem_of_In; by specialize (Ht _ Hin).
Qed.

Lemma alias_roundtrip_witness :
  exists l1 w1, executeCommand (alias_text (lit "ll") (lit "ls -l")) toy_process
    = (Val tt, Proc (addAlias (lit "ll") (lit "ls -l") (setJobs l1 new_shell)) [] [] w1).
Proof.
  destruct (alias_roundtrip (lit "ll") (lit "ls -l") toy_process) as (l1 & w1 & _ & Hrun & _).
  - exact new_shell_ok.
  - split; [intros Hn; discriminate Hn|split; vm_compute; reflexivity].
  - vm_compute. reflexivity.
  - apply plain_dec. vm_compute. reflexivity.
  - vm_compute. reflexivity.
  - exists l1, w1. exact Hrun.
Defined.

(** ** [fg] *)

Section fg_properties.
Context {W : Type} `{Kernel W}.

(** What [fg] decides: the job with the greatest id or the one it names, no
    such job, or an id no [int] holds. *)
Inductive fg_choice := FgJob (j : JobEntry) | FgNone | FgThrow.

Definition fg_choose (arg : option Z) (l : list JobEntry) : fg_choice :=
  let choice o := match o with Some j => FgJob j | None => FgNone end in
  match arg with
  | None => choice (last l)
  | Some n => if n <? 2 ^ 31 then choice (List.find (fun j => job_id j =? n) l) else FgThrow
  end.

Definition fg_line (arg : option Z) : text :=
  match arg with None => lit "fg" | Some n => lit "fg " ++ show n end.

Definition fg_error (arg : option Z) : text :=
  match arg with
  | None => lit "smash error: fg: jobs list is empty"
  | Some n => lit "smash error: fg: job-id " ++ show n ++ lit " does not exist"
  end.

Lemma show_nonneg n : 0 <= n -> exists c s, show n = c :: s /\ forallb isdigit (c :: s) = true /\ c <> "-"%char.
Proof.
  intros Hn. assert (Hs : exists m, show n = lit (pretty.pretty m) /\ n = Z.of_N m).
  { destruct n as [|q|q]; [by exists 0%N|by exists (Npos q)|lia]. }
  destruct Hs as (m & -> & ->). destruct (show_N_digits m) as (ds & -> & Hall & _ & Hne & _).
  destruct ds as [|c s]; [done|]. exists c, s. split_and!; [done..|]. intros ->. done.
Qed.

Lemma digit_not c d : isdigit d = false -> isdigit c = true -> c <> d.
Proof. intros Hd Hc ->. congruence. Qed.

Lemma fg_line_ok arg :
  (forall n, arg = Some n -> 0 <= n) ->
  let ws := match arg with None => [lit "fg"] | Some n => [lit "fg"; show n] end in
  line_ok ws /\ fg_line arg = join " " ws /\ plain (fg_line arg).
Proof.
  intros Harg. destruct arg as [n|]; cbn zeta.
  - destruct (show_decimal n) as [Hnum _]. destruct (digits_word (show n) Hnum) as [Hw Hl].
    destruct (show_nonneg n) as (c & s & Hs & Hd & _); [by apply Harg|].
    split_and!.
    + split_and!; [|done|].
      * constructor; [by split|]. by apply Forall_singleton.
      * change (join " " [lit "fg"; show n]) with (lit "fg" ++ " "%char :: show n). rewrite last_app_cons, last_cons.
        rewrite Hs in *. by destruct (last (c :: s)).
    + done.
    + cbn [fg_line]. rewrite Hs. assert (Hin : forall d, isdigit d = false -> d ∉ c :: s).
      { intros d Hd' Hin%list_elem_of_In. rewrite forallb_forall in Hd. rewrite (Hd d Hin) in Hd'. done. }
      split; rewrite elem_of_app; intros [Hi|Hi]; [cbn in Hi; set_solver|by eapply Hin; [|exact Hi]|cbn in Hi; set_solver|by eapply Hin; [|exact Hi]].
  - split_and!; [|done|].
    + split_and!; [|done|done]. apply Forall_singleton. by split.
    + by apply plain_dec.
Qed.

Lemma bring_to_foreground_spec j (p : process W) :
  bring_to_foreground j p =
    (Val tt, Proc (setFgCmd [] (setFgPid (-1) (setJobs (removeJobById (job_id j) (jobs (sh p))) (sh p))))
                  (environ p) (out p ++ Cout (job_cmd j ++ lit " " ++ show (job_pid j)) :: fst (waited (job_pid j) (os p)))
                  (snd (waited (job_pid j) (os p)))).
Proof.
  unfold bring_to_foreground. unfold mbind, P_bind, cout, print, from_shell, set_shell. cbn [sh environ out os].
  rewrite wait_foreground_spec. cbn [sh environ out os]. by rewrite <- app_assoc.
Qed.

(** What follows: the outcome, the jobs that stay, what is printed, and the
    processes afterwards. *)
Definition fg_result (arg : option Z) (l : list JobEntry) (w : W) : outcome unit * list JobEntry * list message * W :=
  match fg_choose arg l with
  | FgJob j => (Val tt, List.filter (fun k => negb (job_id k =? job_id j)) l,
                Cout (job_cmd j ++ lit " " ++ show (job_pid j)) :: fst (waited (job_pid j) w), snd (waited (job_pid j) w))
  | FgNone => (Val tt, l, [Cerr (fg_error arg)], w)
  | FgThrow => (Throw, l, [], w)
  end.

Lemma setJobs_idle l s : shell_ok s -> setFgCmd [] (setFgPid (-1) (setJobs l s)) = setJobs l s.
Proof. intros (_ & _ & Hp & Hc). unfold setFgCmd, setFgPid, setJobs. cbn. by rewrite Hp, Hc. Qed.

Lemma fg_execute_spec arg (p : process W) :
  shell_ok (sh p) -> (forall n, arg = Some n -> 0 <= n) ->
  exists l w, swept (jobs (sh p)) (os p) l w /\
    fg_execute (fg_line arg) p =
    let '(r, l', m, w') := fg_result arg l w in (r, Proc (setJobs l' (sh p)) (environ p) (out p ++ m) w').
Proof.
  intros Hok Harg. destruct (fg_line_ok arg Harg) as (Hline & He & _). unfold fg_execute.
  rewrite He, clean_args_join by done. destruct (removeFinishedJobs_spec p) as (l & w & Hs & Hrun).
  exists l, w. split; [done|].
  assert (Hl : jobs_ok l) by (eapply jobs_ok_swept; [done|apply Hok]). unfold fg_result, fg_choose.
  assert (Hbring : forall j, bring_to_foreground j (Proc (setJobs l (sh p)) (environ p) (out p) w) =
    (Val tt, Proc (setJobs (List.filter (fun k => negb (job_id k =? job_id j)) l) (sh p)) (environ p)
       (out p ++ Cout (job_cmd j ++ lit " " ++ show (job_pid j)) :: fst (waited (job_pid j) w)) (snd (waited (job_pid j) w)))).
  { intros j. rewrite bring_to_foreground_spec. cbn [sh environ out os jobs setJobs].
    rewrite setJobs_idle by by apply setJobs_ok. by rewrite removeJobById_filter. }
  destruct arg as [n|]; cbn [length Nat.ltb Nat.leb Nat.eqb]; unfold mbind, P_bind; rewrite Hrun; unfold from_shell;
    cbn [sh jobs setJobs lookup list_lookup or_undefined].
  - assert (Hn : 0 <= n) by by apply Harg. destruct (show_decimal n) as [Hnum _]. destruct (show_nonneg n Hn) as (c & s & Hsh & _ & Hc).
    assert (Hm : bool_decide (show n !! 0%nat = Some "-"%char) = false).
    { rewrite Hsh. apply bool_decide_eq_false_2. intros [= ->]. done. }
    unfold or_undefined, stop. cbn beta iota. rewrite Hnum, Hm, stoi_show. cbn [negb orb]. unfold or_throw, stop.
    destruct (Z.ltb_spec n (2 ^ 31)) as [Hlt|Hge].
    + rewrite (int_ok_in n) by lia. rewrite getJobById_find. destruct (List.find _ l) as [j|]; [by rewrite Hbring|done].
    + assert (Hi : int_ok n = None) by (unfold int_ok; rewrite (proj2 (Z.ltb_ge _ _)) by lia; by rewrite andb_false_r).
      rewrite Hi. by rewrite app_nil_r.
  - rewrite getLastJob_last by done. destruct (last l) as [j|]; [by rewrite Hbring|done].
Qed.

(** C33: [fg], alone or with a job id: with the jobs dropped that [waitpid]
    reports as ended, it prints the chosen job (the one with the greatest id,
    or with the id given), waits for it in the foreground, where Ctrl-C kills
    it, and forgets exactly that one; without such a job it prints the error
    and changes nothing; an id no [int] holds ends the shell by an uncaught
    exception. *)
Theorem fg_spec (arg : option Z) (p : process W) :
  shell_ok (sh p) -> (forall n, arg = Some n -> 0 <= n) ->
  exists l1 w1 l w, swept (jobs (sh p)) (os p) l1 w1 /\ swept l1 w1 l w /\
    executeCommand (fg_line arg) p =
    let '(r, l', m, w') := fg_result arg l w in (r, Proc (setJobs l' (sh p)) (environ p) (out p ++ m) w').
Proof.
  intros Hok Harg. destruct (fg_line_ok arg Harg) as ((Hws & _ & Hlast) & He & Hp).
  assert (Hrest : exists rest, fg_line arg = lit "fg" ++ rest /\ starts_arg rest).
  { destruct arg as [n|]; [exists (" "%char :: show n)|exists []]; split; [done|right; by eexists|done|by left]. }
  destruct Hrest as (rest & Hr & Hst). pose proof (join_trimmed _ Hws) as Ht. rewrite <- He in Ht, Hlast. rewrite Hr in *.
  destruct (run_builtin (lit "fg") rest (Foreground (lit "fg" ++ rest)) p) as (l1 & w1 & Hs1 & ->); [done..|].
  cbn [execute]. rewrite <- Hr.
  destruct (fg_execute_spec arg (Proc (setJobs l1 (sh p)) (environ p) (out p) w1)) as (l & w & Hs & ->); [|done|].
  { destruct Hok as (Hj & ? & ?). split; [|done]. by eapply jobs_ok_swept. }
  exists l1, w1, l, w. split; [done|]. split; [done|]. by destruct (fg_result arg l w) as [[[? ?] ?] ?].
Qed.

End fg_properties.

(** A shell with one background job. *)
Definition one_job : SmashShell :=
  setJobs [{| job_id := 1; job_pid := 77; job_cmd := lit "sleep 10 &" |}] new_shell.

Lemma one_job_ok : shell_ok one_job.
Proof.
  destruct new_shell_ok as (_ & Ha & Hf). split; [|done]. split; [repeat constructor|].
  apply Forall_singleton. cbn. lia.
Qed.

(** The job is waited for; an id beyond [int] ends the shell. *)
Lemma fg_spec_witness :
  (exists l w, executeCommand (lit "fg") (Proc one_job [] [] toy_start) =
     let '(r, l', m, w') := fg_result None l w in (r, Proc (setJobs l' one_job) [] m w')) /\
  (exists l w, executeCommand (lit "fg 4294967296") (Proc one_job [] [] toy_start) =
     let '(r, l', m, w') := fg_result (Some 4294967296) l w in (r, Proc (setJobs l' one_job) [] m w')).
Proof.
  split.
  - destruct (fg_spec None (Proc one_job [] [] toy_start)) as (l1 & w1 & l & w & _ & _ & Hrun); [exact one_job_ok|discriminate|].
    exists l, w. exact Hrun.
  - destruct (fg_spec (Some 4294967296) (Proc one_job [] [] toy_start)) as (l1 & w1 & l & w & _ & _ & Hrun);
      [exact one_job_ok|intros n [= <-]; discriminate|].
    exists l, w. exact Hrun.
Defined.

(** ** [cd] *)

Section cd_properties.
Context {W : Type} `{Kernel W}.

Definition set_last (pwd : text) (p : process W) (w : W) : process W :=
  Proc (setLastPwd pwd (sh p)) (environ p) (out p) w.

(** [cd path], then [cd -]: the second command returns to where the first one
    started, and another [cd -] would undo it. *)
Theorem cd_back (path cwd cwd' : text) (w w' w'' : W) (p : process W) :
  line_ok [lit "cd"; path] -> path <> lit "-" -> cwd <> [] ->
  os p = w -> getcwd w = Some cwd -> chdir path w = (true, w') ->
  getcwd w' = Some cwd' -> chdir cwd w' = (true, w'') ->
  cd_execute (lit "cd " ++ path) p = (Val tt, set_last cwd p w') /\
  cd_execute (lit "cd -") (set_last cwd p w') = (Val tt, set_last cwd' p w'').
Proof.
  intros Hline Hpath Hcwd <- Hget Hch Hget' Hch'. split.
  - unfold cd_execute. change (lit "cd " ++ path) with (join " " [lit "cd"; path]). rewrite clean_args_join by done.
    cbn [length Nat.ltb Nat.leb Nat.eqb lookup list_lookup]. unfold mbind, P_bind, or_undefined, stop, query, syscall.
    rewrite Hget. cbn beta iota. rewrite bool_decide_eq_false_2, Hch by done. done.
  - unfold cd_execute. change (clean_args (lit "cd -")) with [lit "cd"; lit "-"].
    cbn [length Nat.ltb Nat.leb Nat.eqb lookup list_lookup]. unfold mbind, P_bind, or_undefined, stop, query.
    cbn [set_last os sh]. rewrite Hget'. cbn beta iota. rewrite bool_decide_eq_true_2 by done.
    unfold from_shell. change (last_pwd (sh (set_last cwd p w'))) with cwd. destruct cwd as [|x cwd]; [done|].
    unfold set_shell, syscall, set_last. cbn [os sh environ out]. by rewrite Hch'.
Qed.

(** A [cd -] that fails keeps the current directory as the previous one: the
    directory it was to return to is forgotten. *)
Theorem cd_dash_failure (old cwd : text) (w' : W) (p : process W) :
  last_pwd (sh p) = old -> old <> [] -> getcwd (os p) = Some cwd -> chdir old (os p) = (false, w') ->
  exists o, cd_execute (lit "cd -") p = (Val tt, Proc (setLastPwd cwd (sh p)) (environ p) (out p ++ o) w').
Proof.
  intros Hold Hne Hget Hch. exists [Perror (lit "smash error: chdir failed")].
  unfold cd_execute. change (clean_args (lit "cd -")) with [lit "cd"; lit "-"].
  cbn [length Nat.ltb Nat.leb Nat.eqb lookup list_lookup]. unfold mbind, P_bind, or_undefined, stop, query.
  rewrite Hget. cbn beta iota. rewrite bool_decide_eq_true_2 by done.
  unfold from_shell. rewrite Hold. destruct old as [|x old]; [done|].
  unfold set_shell, syscall. cbn [os sh environ out]. by rewrite Hch.
Qed.

End cd_properties.

Definition two_dirs (cwd : text) : toy_kernel := ToyKernel 100 [] [] cwd [(lit "/", []); (lit "/tmp", [])] [] [].

Lemma cd_back_witness :
  cd_execute (lit "cd -") (set_last (lit "/") (Proc new_shell [] [] (two_dirs (lit "/"))) (two_dirs (lit "/tmp")))
  = (Val tt, set_last (lit "/tmp") (Proc new_shell [] [] (two_dirs (lit "/"))) (two_dirs (lit "/"))).
Proof.
  refine (proj2 (cd_back (lit "/tmp") (lit "/") (lit "/tmp") (two_dirs (lit "/")) (two_dirs (lit "/tmp")) (two_dirs (lit "/"))
    (Proc new_shell [] [] (two_dirs (lit "/"))) _ _ _ _ _ _ _ _)); try (vm_compute; reflexivity); try discriminate.
  repeat split; repeat constructor; discriminate.
Defined.

Lemma cd_dash_failure_witness :
  exists o, cd_execute (lit "cd -") (Proc (setLastPwd (lit "/gone") new_shell) [] [] (two_dirs (lit "/tmp")))
  = (Val tt, Proc (setLastPwd (lit "/tmp") new_shell) [] o (two_dirs (lit "/tmp"))).
Proof.
  apply (cd_dash_failure (lit "/gone") (lit "/tmp") (two_dirs (lit "/tmp"))
    (Proc (setLastPwd (lit "/gone") new_shell) [] [] (two_dirs (lit "/tmp")))); try (vm_compute; reflexivity); discriminate.
Defined.

(** ** The environment *)

Section environment_properties.
Context {W : Type} `{Kernel W}.

(** A variable exists for the shell when an entry of the file starts with its
    name and the sign of equality. *)
Theorem envVarExists_entries (v : text) (es : list text) (w : W) :
  read_file (lit "/proc/self/environ") 65535 w = Some (nul_terminated es) -> Forall (fun e => NUL ∉ e) es ->
  _envVarExists v w = true <-> exists value, v ++ lit "=" ++ value ∈ es.
Proof.
  intros Hf Hes. unfold _envVarExists. rewrite Hf, environ_scan_existsb by done. rewrite existsb_exists. split.
  - intros (e & Hin & (value & ->)%has_prefix_spec). exists value. rewrite app_assoc. by apply list_elem_of_In.
  - intros [value Hin]. eexists. split; [by apply list_elem_of_In|]. apply has_prefix_spec. exists value.
    by rewrite app_assoc.
Qed.

Lemma unsetenv_args v : line_ok [lit "unsetenv"; v] -> clean_args (lit "unsetenv " ++ v) = [lit "unsetenv"; v].
Proof. intros Hl. change (lit "unsetenv " ++ v) with (join " " [lit "unsetenv"; v]). by apply clean_args_join. Qed.

(** [unsetenv v] asks the file, which the array does not update: a second
    [unsetenv v] removes nothing and reports no error. *)
Theorem unsetenv_twice (v : text) (p : process W) :
  line_ok [lit "unsetenv"; v] -> _envVarExists v (os p) = true ->
  existsb (has_prefix (v ++ lit "=")) (remove_entry (v ++ lit "=") (environ p)) = false ->
  exists env, env = remove_entry (v ++ lit "=") (environ p) /\
    unsetenv_execute (lit "unsetenv " ++ v) p = (Val tt, Proc (sh p) env (out p) (os p)) /\
    unsetenv_execute (lit "unsetenv " ++ v) (Proc (sh p) env (out p) (os p)) = (Val tt, Proc (sh p) env (out p) (os p)).
Proof.
  intros Hl He Hno. eexists. split; [done|]. unfold unsetenv_execute. fold (clean_args (lit "unsetenv " ++ v)).
  rewrite unsetenv_args by done. cbn [length Nat.eqb drop unsetenv_loop].
  unfold mbind, P_bind, query, set_environ, skip, mret, P_ret. cbn [sh environ out os]. rewrite He. cbn beta iota.
  split; [done|]. cbn [sh environ out os]. f_equal. f_equal.
  destruct (remove_entry_spec (v ++ lit "=") (remove_entry (v ++ lit "=") (environ p))) as [[_ ->]|(a & e & b & Hr & He' & _)]; [done|].
  exfalso. rewrite Hr, existsb_app in Hno. cbn [existsb] in Hno. rewrite He' in Hno. by destruct (existsb _ a).
Qed.

End environment_properties.

Definition env_kernel (es : list text) : toy_kernel :=
  ToyKernel 100 [] [] (lit "/") [] [] [(lit "/proc/self/environ", nul_terminated es)].

Lemma envVarExists_entries_witness :
  _envVarExists (lit "HOME") (env_kernel [lit "PATH=/bin"; lit "HOME=/root"]) = true.
Proof.
  apply (envVarExists_entries (lit "HOME") [lit "PATH=/bin"; lit "HOME=/root"] (env_kernel [lit "PATH=/bin"; lit "HOME=/root"])).
  - reflexivity.
  - repeat (constructor; [apply (bool_decide_unpack _); vm_compute; exact I|]). constructor.
  - exists (lit "/root"). right. left.
Defined.

Lemma unsetenv_twice_witness :
  exists env, unsetenv_execute (lit "unsetenv HOME") (Proc new_shell env [] (env_kernel [lit "HOME=/root"]))
  = (Val tt, Proc new_shell env [] (env_kernel [lit "HOME=/root"])).
Proof.
  destruct (unsetenv_twice (lit "HOME") (Proc new_shell [lit "HOME=/root"] [] (env_kernel [lit "HOME=/root"])))
    as (env & _ & _ & Hrun); try (vm_compute; reflexivity).
  - repeat split; repeat constructor; discriminate.
  - exists env. exact Hrun.
Defined.

(** ** [du] *)

Section du_properties.
Context {W : Type} `{Kernel W}.
Context (long_path : forall path w, (PATH_MAX <= length path)%nat -> lstat path w = None).

(** C34: [du path] prints the disk usage of the tree below the path, in KB rounded
    up; the walk ends on every tree. *)
Theorem du_total (path : text) (t : node) (p : process W) :
  line_ok [lit "du"; path] -> shows (os p) t path -> usage t + 1023 < 2 ^ 63 ->
  exists kb, du_execute (lit "du " ++ path) p =
    (Val tt, Proc (sh p) (environ p) (out p ++ [Cout (lit "Total disk usage: " ++ show kb ++ lit " KB")]) (os p)) /\
    1024 * (kb - 1) < usage t <= 1024 * kb.
Proof.
  intros Hl Hs Hu. assert (H0 : 0 <= usage t) by (eapply (usage_nonneg long_path (S PATH_MAX)); [lia..|done]).
  exists ((usage t + 1023) / 1024). split; [|pose proof (Z.div_mod (usage t + 1023) 1024); pose proof (Z.mod_pos_bound (usage t + 1023) 1024); lia].
  unfold du_execute. fold (clean_args (lit "du " ++ path)). change (lit "du " ++ path) with (join " " [lit "du"; path]).
  rewrite clean_args_join by done. cbn [length Nat.ltb Nat.leb Nat.eqb lookup list_lookup].
  unfold mbind, P_bind, query, or_undefined, stop, mret, P_ret. cbn beta iota.
  rewrite (duRecursive_usage long_path (S PATH_MAX) (os p) t path) by (done || lia). rewrite ll_ok_in by lia.
  rewrite Z.quot_div_nonneg by lia. done.
Qed.

End du_properties.

Definition du_kernel : toy_kernel :=
  ToyKernel 100 [] [] (lit "/") [(lit "d", [lit "."; lit ".."; lit "f"; lit "l"])]
    [(lit "d", Build_stat false true 8); (lit "d/f", Build_stat false false 16); (lit "d/l", Build_stat true false 100)] [].

Definition du_tree : node :=
  Dir 8 (Some [(lit ".", Gone); (lit "..", Gone); (lit "f", Plain 16); (lit "l", Symlink)]).

Lemma du_total_witness :
  exists kb, snd (du_execute (lit "du d") (Proc new_shell [] [] du_kernel)) =
    Proc new_shell [] [Cout (lit "Total disk usage: " ++ show kb ++ lit " KB")] du_kernel /\
    1024 * (kb - 1) < 12288 <= 1024 * kb.
Proof.
  destruct (du_total toy_long_path (lit "d") du_tree (Proc new_shell [] [] du_kernel)) as (kb & Hrun & Hkb).
  - repeat split; repeat constructor; discriminate.
  - cbn [shows du_tree]. split; [eexists; split; [vm_compute; reflexivity|repeat split; lia]|].
    split; [vm_compute; reflexivity|]. split_and!; try (intros Hdot; vm_compute in Hdot; discriminate Hdot); try exact I.
    + intros _. eexists. split; [vm_compute; reflexivity|repeat split; lia].
    + intros _. eexists. split; [vm_compute; reflexivity|reflexivity].
  - vm_compute. reflexivity.
  - exists kb. split; [exact (f_equal snd Hrun)|exact Hkb].
Defined.

(** ** Jobs, children and signals *)

Section process_properties.
Context {W : Type} `{Kernel W}.

Lemma each_cout {A} (f : A -> text) l (p : process W) :
  each (fun a => cout (f a)) l p = (Val tt, Proc (sh p) (environ p) (out p ++ (Cout ∘ f <$> l)) (os p)).
Proof.
  revert p. induction l as [|a l IH]; intros p; cbn [each]; [destruct p; cbn; by rewrite app_nil_r|].
  unfold mbind, P_bind. cbn. rewrite IH. cbn. by rewrite <- app_assoc.
Qed.

Definition job_line (j : JobEntry) : text := lit "[" ++ show (job_id j) ++ lit "] " ++ job_cmd j.

(** [jobs] prints the jobs that have not ended by increasing id, one line
    each. *)
Theorem jobs_listing (p : process W) :
  shell_ok (sh p) ->
  exists l w, swept (jobs (sh p)) (os p) l w /\ StronglySorted Z.lt (ids l) /\
    printJobsList p = (Val tt, Proc (setJobs l (sh p)) (environ p) (out p ++ (Cout ∘ job_line <$> l)) w).
Proof.
  intros Hok. destruct (removeFinishedJobs_spec p) as (l & w & Hs & Hrun).
  assert (Hl : jobs_ok l) by (eapply jobs_ok_swept; [done|apply Hok]). exists l, w. split_and!; [done|apply Hl|].
  unfold printJobsList, mbind, P_bind. rewrite Hrun. unfold from_shell. cbn [sh jobs setJobs].
  rewrite sorted_jobs_id by done. by rewrite each_cout.
Qed.

Definition kill_each (l : list JobEntry) (w : W) : W :=
  foldl (fun w j => snd (sys_kill (job_pid j) SIGKILL w)) w l.

Definition kill_line (j : JobEntry) : text := show (job_pid j) ++ lit ": " ++ job_cmd j.

Lemma kill_loop l (p : process W) :
  each (fun j =>
    cout (show (job_pid j) ++ lit ": " ++ job_cmd j) ;; syscall (sys_kill (job_pid j) SIGKILL) ;; skip) l p =
  (Val tt, Proc (sh p) (environ p) (out p ++ (Cout ∘ kill_line <$> l)) (kill_each l (os p))).
Proof.
  revert p. induction l as [|j l IH]; intros p; cbn [each]; [destruct p; cbn; by rewrite app_nil_r|].
  unfold mbind, P_bind, cout, print, syscall. cbn [sh environ out os kill_each foldl fmap list_fmap].
  destruct (sys_kill (job_pid j) SIGKILL (os p)) as [ok w]. unfold skip, mret, P_ret.
  rewrite IH. cbn [sh environ out os snd]. by rewrite <- app_assoc.
Qed.

Lemma killAllJobs_spec (p : process W) :
  shell_ok (sh p) ->
  exists l w, swept (jobs (sh p)) (os p) l w /\
    killAllJobs p = (Val tt, Proc (setJobs l (sh p)) (environ p)
      (out p ++ Cout (lit "smash: sending SIGKILL signal to " ++ show (Z.of_nat (length l)) ++ lit " jobs:")
             :: (Cout ∘ kill_line <$> l)) (kill_each l w)).
Proof.
  intros Hok. destruct (removeFinishedJobs_spec p) as (l & w & Hs & Hrun).
  assert (Hl : jobs_ok l) by (eapply jobs_ok_swept; [done|apply Hok]). exists l, w. split; [done|].
  unfold killAllJobs, mbind, P_bind. rewrite Hrun. unfold from_shell, cout at 1, print. cbn [sh jobs setJobs environ out os].
  rewrite sorted_jobs_id by done. rewrite kill_loop. cbn [sh environ out os]. by rewrite <- app_assoc.
Qed.

(** [quit kill] reports every job that has not ended, sends each of them
    SIGKILL in the order of their ids, and exits with status 0. *)
Theorem quit_kill (p : process W) :
  shell_ok (sh p) ->
  exists l1 w1 l w, swept (jobs (sh p)) (os p) l1 w1 /\ swept l1 w1 l w /\ StronglySorted Z.lt (ids l) /\
    executeCommand (lit "quit kill") p =
    (Exit 0, Proc (setJobs l (sh p)) (environ p)
      (out p ++ Cout (lit "smash: sending SIGKILL signal to " ++ show (Z.of_nat (length l)) ++ lit " jobs:")
             :: (Cout ∘ kill_line <$> l)) (kill_each l w)).
Proof.
  intros Hok. destruct (run_builtin (lit "quit") (lit " kill") (Quit (lit "quit kill")) p) as (l1 & w1 & Hs1 & Hrun);
    [done|done|right; by eexists|done|by apply plain_dec|done|].
  assert (Hl1 : jobs_ok l1) by (eapply jobs_ok_swept; [done|apply Hok]).
  destruct (killAllJobs_spec (Proc (setJobs l1 (sh p)) (environ p) (out p) w1)) as (l & w & Hs & Hkill).
  { by apply setJobs_ok. }
  exists l1, w1, l, w. split_and!; [done|done|by eapply jobs_ok_swept|].
  change (lit "quit kill") with (lit "quit" ++ lit " kill"). rewrite Hrun. cbn [execute]. unfold quit_execute.
  change (clean_args (lit "quit kill")) with [lit "quit"; lit "kill"].
  cbn [lookup list_lookup]. rewrite bool_decide_eq_true_2 by done. unfold mbind, P_bind. rewrite Hkill. done.
Qed.

(** A background command becomes the job with the greatest id, under the pid
    of its child and with the whole line; the shell does not wait for it. *)
Theorem background_job (t : text) (pid : Z) (w : W) (p : process W) :
  fork {| plumb := NoPlumbing; run := external_image (_removeBackground t) |} (os p) = (pid, w) ->
  pid <> -1 -> getMaxJobId (jobs (sh p)) + 1 < 2 ^ 31 ->
  exists l w', swept (jobs (sh p)) w l w' /\
    let j := {| job_id := getMaxJobId l + 1; job_pid := pid; job_cmd := t |} in
    execute (External t true) p = (Val tt, Proc (setJobs (l ++ [j]) (sh p)) (environ p) (out p) w') /\
    Forall (fun k => job_id k < job_id j) l.
Proof.
  intros Hfork Hpid Hmax. cbn [execute]. unfold external_execute, mbind, P_bind, syscall. rewrite Hfork.
  rewrite (proj2 (Z.eqb_neq pid (-1))) by done. unfold addJob, mbind, P_bind.
  destruct (removeFinishedJobs_spec (Proc (sh p) (environ p) (out p) w)) as (l & w' & Hs & ->). cbn [sh environ out os] in *.
  exists l, w'. split; [done|]. unfold from_shell, compose, or_undefined, stop, set_shell. cbn [sh jobs setJobs environ out os].
  pose proof (getMaxJobId_bound l) as [H0 Hb]. pose proof (getMaxJobId_bound (jobs (sh p))) as [_ Hb'].
  assert (Hle : getMaxJobId l <= getMaxJobId (jobs (sh p))) by by eapply getMaxJobId_sublist, swept_sublist.
  rewrite int_ok_in by lia. split; [done|]. eapply Forall_impl; [exact Hb|]. cbn. lia.
Qed.

Definition no_return {A} (m : P W A) : Prop := forall p, match fst (m p) with Val _ => False | _ => True end.

Lemma no_return_bind {A B} (m : P W A) (f : A -> P W B) : (forall a, no_return (f a)) -> no_return (m ≫= f).
Proof. intros Hf p. unfold mbind, P_bind. destruct (m p) as [[a| | | |] p']; try done. apply Hf. Qed.

Lemma no_return_exit n : no_return (exit n).
Proof. by intros p. Qed.

(** A forked child never comes back into the shell's loop: it exits, is
    replaced by its program, or dies. *)
Theorem child_never_returns (c : child) (p : process W) :
  match fst (child_main c p) with Val _ => False | _ => True end.
Proof.
  revert p. apply no_return_bind. intros _. destruct (run c) as [line|argv|[cmd|]].
  - apply no_return_bind. intros [|]; [by intros p|]. apply no_return_bind. intros _. apply no_return_exit.
  - apply no_return_bind. intros path. apply no_return_bind. intros [|]; [by intros p|].
    apply no_return_bind. intros _. apply no_return_exit.
  - apply no_return_bind. intros _. apply no_return_exit.
  - apply no_return_exit.
Qed.

(** Ctrl-C: the foreground process, and only it, gets SIGKILL; the shell goes
    on with no foreground process. *)
Theorem ctrlC_foreground (p : process W) :
  let got := Cout (lit "smash: got ctrl-C") in
  ctrlCHandler p =
  if 0 <? fg_pid (sh p) then
    let '(ok, w) := sys_kill (fg_pid (sh p)) SIGKILL (os p) in
    if ok then
      (Val tt, Proc (setFgCmd [] (setFgPid (-1) (sh p))) (environ p)
        (out p ++ [got; Cout (lit "smash: process " ++ show (fg_pid (sh p)) ++ lit " was killed")]) w)
    else (Val tt, Proc (sh p) (environ p) (out p ++ [got; Perror (lit "smash error: kill failed")]) w)
  else (Val tt, Proc (sh p) (environ p) (out p ++ [got]) (os p)).
Proof.
  cbn zeta. unfold ctrlCHandler, mbind, P_bind, cout, perror, print, from_shell, syscall, set_shell. cbn [sh environ out os].
  destruct (0 <? fg_pid (sh p)); [|done]. destruct (sys_kill _ _ _) as [[|] w]; cbn [negb sh environ out os];
    by rewrite <- app_assoc.
Qed.

(** The command texts of the commented format that contain an operator never
    reach the [alias] command. *)
Theorem alias_operator_is_pipe (n a b : text) :
  ~ contains (lit "|&") (alias_text n (a ++ "|"%char :: b)) ->
  createCommand (alias_text n (a ++ "|"%char :: b)) = Some (Pipe (alias_text n (a ++ "|"%char :: b)) false).
Proof.
  intros Hno. set (t := alias_text n _) in *. destruct (alias_text_trimmed n (a ++ "|"%char :: b)) as [Ht _]. fold t in Ht.
  assert (Hin : "|"%char ∈ t) by (unfold t, alias_text; rewrite !elem_of_app, elem_of_cons; auto 10).
  clearbody t. unfold createCommand. rewrite trim_strip, strip_id by done. destruct (operator_cases "|" "&" t) as [[Hc _]|[(_ & Hn & _ & Hs)|(Hc & _)]]; [done| |done].
  destruct t as [|x t']; [by apply not_elem_of_nil in Hin|]. change (lit "|&") with ["|"; "&"]%char.
  rewrite Hn, bool_decide_eq_false_2, bool_decide_eq_true_2 by (done || by intros []). done.
Qed.

End process_properties.

Lemma jobs_listing_witness :
  exists l w, printJobsList (Proc one_job [] [] toy_start) = (Val tt, Proc (setJobs l one_job) [] (Cout ∘ job_line <$> l) w).
Proof.
  destruct (jobs_listing (Proc one_job [] [] toy_start)) as (l & w & _ & _ & Hrun); [exact one_job_ok|].
  exists l, w. exact Hrun.
Defined.

Lemma quit_kill_witness :
  exists p, executeCommand (lit "quit kill") (Proc one_job [] [] toy_start) = (Exit 0, p).
Proof.
  destruct (quit_kill (Proc one_job [] [] toy_start)) as (l1 & w1 & l & w & _ & _ & _ & Hrun); [exact one_job_ok|].
  eexists. exact Hrun.
Defined.

Lemma background_job_witness :
  exists s, execute (External (lit "sleep 5 &") true) (Proc one_job [] [] toy_start) = (Val tt, s) /\ jobs (sh s) <> [].
Proof.
  destruct (background_job (lit "sleep 5 &") 100 (ToyKernel 101
     [{| plumb := NoPlumbing; run := external_image (_removeBackground (lit "sleep 5 &")) |}] [] (lit "/") [] [] [])
     (Proc one_job [] [] toy_start)) as (l & w & _ & Hrun & _); [reflexivity|discriminate|reflexivity|].
  eexists. split; [exact Hrun|]. cbn. intros He. apply app_nil in He as [_ He]. discriminate He.
Defined.

Lemma alias_operator_is_pipe_witness :
  createCommand (lit "alias ll='ls | wc'") = Some (Pipe (lit "alias ll='ls | wc'") false).
Proof.
  apply (alias_operator_is_pipe (lit "ll") (lit "ls ") (lit " wc")).
  pose proof (find_str_spec (lit "|&") (lit "alias ll='ls | wc'")) as Hf.
  replace (find_str (lit "|&") (lit "alias ll='ls | wc'")) with (@None nat) in Hf by (vm_compute; reflexivity). exact Hf.
Defined.

Lemma executeCommand_invariant_witness :
  shell_ok (sh (snd (executeCommand (lit "ls -l &") toy_process))) /\
  jobs (sh (snd (executeCommand (lit "ls -l &") toy_process))) <> [].
Proof. split; [apply executeCommand_invariant; exact new_shell_ok|vm_compute; intros He; discriminate He]. Defined.

Lemma session_invariant_witness :
  shell_ok (sh (snd (main_loop [lit "ls -l &"; lit "alias ll='ls -l'"; lit "quit"] (Proc new_shell [] [] toy_start)))).
Proof. apply session_invariant. Defined.
